(* ===== verification/_CoqProject ===== *)
-Q . S2P
Prelude.v
Tst.v
Process.v
Explore.v
Owned.v
Layers.v
RecordLocks.v
DeadlockLocks.v
Prog.v
Checker.v
Wp.v
Alone.v
Ends.v
LockLib.v
LockServer.v
Fcntl14.v
Fcntl19.v
Fcntl20.v
Fcntl21.v
Fcntl11.v
Fcntl17.v
Fcntl16.v
EventCounter.v
Eventfd01.v
EpollLtp.v
String01.v
FileSys.v
Strings.v
Symlink01.v
Symlink01Runs.v
Symlink01Verdicts.v
TreeWalk.v
NftwLib.v
NftwFuncs.v
Nftw.v
NftwPaths.v
NftwRuns.v
NftwVerdicts.v
NftwChecks.v
Signals.v
Sigrelse01.v
Sigrelse01Verdicts.v
MemFd.v
MemfdCommon.v
Memfd01.v
Memfd02.v
Memfd03.v
Memfd04.v
Ltp.v
Transcript.v
Judge.v
Grammar.v
Descriptors.v
FcntlBasic.v
Fcntl01.v
ReadWrite.v
WriteTests.v
DupTests.v
SeekTests.v
SeekHoles.v
DescriptorRuns.v
GroupSignals.v
Kill02.v
MemoryTests.v
Kill10.v
Ioctl02.v
