(* ===== verification/Prelude.v ===== *)
(** * A verification of system-call tests of the Unikraft test suite

    The repository holds the system-call tests of the Linux Test Project
    ([src/original tests/<call>/*.c]), copies of them adapted to Unikraft
    ([src/independent tests]) and a few Python scripts.  A test is a C program
    that makes calls and reports passes and failures.  It is correct when it
    judges the system under test rightly: on a system that behaves as the manual
    pages say it ends, in every interleaving of its processes, without reporting
    a failure; and a failure it reports comes from an answer that differs from the
    documented one.  This library models the tests with logic of their own:
    several processes, state carried from call to call, tables of expectations.

    ** What is not in the repository

    The system under test and the LTP library are parameters.  [Process.Kernel]
    gives the answer to every call; a theorem about all correct systems takes a
    [Kernel] that refines a reference behaviour written after the manual pages
    ([RecordLocks.PosixPlatform], [EventCounter.EventfdPlatform],
    [FileSys.FsPlatform], [TreeWalk.WalkPlatform], [Signals.SignalPlatform],
    [MemFd.MemfdPlatform], [Descriptors.DescriptorPlatform], [GroupSignals.posix]), and the theorems about
    verdicts take any kernel and speak of its answers.  Reports
    ([tst_resm], [tst_brkm], [tst_exit]) are events, and the exit code the library
    computes from them is the field [tst_status] of the parameter.

    ** Files

    - This file: machine integers and their wrap-around, [errno] values, generic
      lemmas, the tactics of the development.
    - [Tst.v]: what a report is.
    - [Process.v]: processes.  A program is an interaction tree over [sysE]
      (calls, fork, wait, signals, pipes, reports); [step] runs an event of one
      process, and a fork and an end are told to the kernel ([k_fork], [k_exit]);
      [inevitable P] says that every interleaving ends, and in [P];
      [Refines] relates kernels and [inevitable_refines] carries results over.
    - [Explore.v]: a decision procedure for [inevitable] that branches only on
      the events other processes can observe, with its soundness; [Owned.v]: one
      that also runs transfers through point-to-point pipes first; [Layers.v]: one that
      explores a state once, however many interleavings lead to it, telling states
      apart by the histories of answers of their processes.
    - [Prog.v]: C functions as computations over the globals of their process;
      [Wp.v]: a program logic for one process, and for a parent with one child;
      [Checker.v]: verified checkers that explore a program piece by piece.
      [Alone.v]: the logic for a program that is a single process, an evaluator that
      runs one, and a calculus for the number of reports a program makes.  [Ends.v]: the
      same for tests that may end at any check: what a program yields on any kernel.
    - [RecordLocks.v]: fcntl(2) locks, the calls of the [fcntl] tests and their
      reference kernel; [DeadlockLocks.v]: the same with a queue of waiting
      processes and EDEADLK.  [LockLib.v]: the library calls these tests share, and
      a kernel with a bug ([forgetful]).
    - [Fcntl14.v] ([fcntl/fcntl14.c]): a table of 58 entries, three generations of
      processes.  [run_test], [dochild], [main] are the C functions.
    - [LockServer.v]: the functions fcntl19.c, fcntl20.c and fcntl21.c have in
      common, a child that answers F_GETLK queries through pipes; [Fcntl19.v],
      [Fcntl20.v], [Fcntl21.v]: their blocks and [main].  [Fcntl11.v]
      ([fcntl/fcntl11.c]): an earlier version of the same protocol.
    - [Fcntl17.v] ([fcntl/fcntl17.c]): a deadlock among three children, ordered by
      the parent through pipes.  [Fcntl16.v] ([fcntl/fcntl16.c]): a parent that
      changes its locks under two children.
    - [Signals.v]: the reference kernel for signals that are held and released;
      [Sigrelse01.v] ([sigrelse/sigrelse01.c]): a child that releases the signals its
      parent sends and counts them; [Sigrelse01Verdicts.v]: its verdict on any kernel.
    - [EventCounter.v]: the reference kernel of eventfd(2); [Eventfd01.v]
      ([eventfd/eventfd01.c]): the helpers, the fifteen tests and [main].
    - [EpollLtp.v] ([epoll/epoll-ltp.c]): sizes for epoll_create, the combinations
      of bad arguments for epoll_ctl and the classification of the results.
    - [String01.v] ([string/string01.c]): tables for the string functions, over a
      memory of arrays; the C library is a parameter with laws.
    - [FileSys.v]: a file system as a graph of inodes with path resolution, symbolic
      links, permissions and descriptors: the reference for the path calls.  What a
      correct system may choose is a parameter: inode numbers, clock, device, owner,
      the size of directories, the temporary directory.  [Strings.v]: strings.
    - [Symlink01.v] ([symlink/symlink01.c]): the tables, the setup and check
      functions, the [do_*] handlers and the main loop; [Symlink01Runs.v]: its runs
      on documented file systems; [Symlink01Verdicts.v]: its verdicts on any kernel.
    - [TreeWalk.v]: the reference for nftw(3), as a coroutine of the program: the
      walk is a call that is answered by the next file to visit.
    - [NftwLib.v] ([nftw/nftw.h], the data of [nftw/nftw.c], [nftw/tools.c],
      [nftw/lib.c]), [NftwFuncs.v] ([nftw/test_func.c]: the functions nftw(3) calls),
      [Nftw.v] ([nftw/test.c] and the blocks of [nftw/nftw.c]); [NftwPaths.v]: lemmas
      on paths; [NftwRuns.v]: runs of nftw01 on documented systems;
      [NftwVerdicts.v], [NftwChecks.v]: what its tests accept on any system.
    - [MemFd.v]: the reference for memfd_create(2), seals, mappings and huge pages; its
      rules about names, flags and seals can be switched off one by one ([rules]).
      [MemfdCommon.v] ([memfd_create/memfd_create_common.c]): the checks, the functions
      of the newer test library, and what every check yields; [Memfd01.v], [Memfd02.v],
      [Memfd03.v], [Memfd04.v] ([memfd_create/memfd_create0*.c]): the tests.
    - [Ltp.v]: the test library and the independent programs over any set of calls, and
      the verdict of [brain.py] on what such a program prints.  [Transcript.v]: systems
      that answer anything, as functions of the transcript of a run, a program logic for
      them, and that they stand for every system ([asked_universal], [judges_on]);
      [Judge.v]: verdicts put together from those of the parts, contracts.  [Grammar.v]: the
      transcripts a test accepts as a grammar, for tests that compare several answers.
    - [Descriptors.v]: the reference for open, read, write, lseek, fcntl, dup, close, pipe and
      FIFOs in one process.  [Fcntl01.v], [FcntlBasic.v] ([fcntl/fcntl01.c] to fcntl10.c),
      [ReadWrite.v] ([close], [read]), [WriteTests.v] ([write]): the original tests, a
      Module [Fcntl0n], [Close0n], ... each, and the independent versions of the same
      names, [Port0n], [PortClose0n], ...; [DescriptorRuns.v]: their runs on documented
      systems and on systems with a defect.
    - [DupTests.v] ([dup/dup01.c] to dup07.c, [dup2/dup201.c] to dup207.c), [SeekTests.v]
      ([lseek/lseek01.c], lseek02.c, lseek07.c): a Module for each; [SeekHoles.v]
      ([lseek/lseek11.c]): the search for the size of a block, data and holes.
    - [GroupSignals.v]: the reference kernel for signals to a process group, with
      dispositions, pending signals, pipes that do not block, and time that passes when
      all processes are at rest.  [Kill02.v] ([kill/kill02.c]): a parent, two children and
      two grandchildren, each function of the source a definition.
    - [Kill10.v] ([kill/kill10.c]): the checklist, the signal handlers and the loops of
      master, managers and children as a transition system ([next]), for any number of groups.
    - [MemoryTests.v] ([memset/memset01.c], [memcpy/memcpy01.c], [memcmp/memcmp01.c]): modules
      [Memset01], [Memcpy01], [Memcmp01]; the function under test is a parameter.
    - [Ioctl02.v] ([ioctl/ioctl02.c]): a parent that sets and reads the parameters of a terminal, and
      its child; the loops that sleep until a handler has run are calls that wait.

    A block of [main] between the comments [//blockN:] of the source is a
    definition [blockN].  A function that changes global variables updates the
    record [globals] of its file; [fork] copies it, as the continuation of both
    processes carries it.

    ** Groups of theorems

    - On every documented platform, every interleaving ends and passes:
      [fcntl14_passes], [fcntl11_passes], [fcntl19_passes], [fcntl20_passes],
      [fcntl21_passes], [fcntl17_passes], [eventfd01_passes], [sigrelse01_passes],
      [test_epoll_ctl_clean], [test_epoll_create_clean], [symlink01_passes],
      [nftw01_passes], [memfd01_passes], [memfd03_passes], [memfd04_passes], [kill02_passes]; with every
      lawful C library, [string01_passes], [memset01_passes], [memcpy01_passes], [memcmp01_passes].
    - On any kernel, what a verdict says about the answers: [expect_lock_verdict],
      [expect_free_verdict], [dochild_verdict], [do_test_verdict], [dochild_exit],
      [ctl_case_verdict], [classify_verdict], [error_verdict], [utime_verdict],
      [open_notices_wrong_data], [test1A_verdict], [type_checks_verdict],
      [test_func22_verdict], [eacces_tests_verdict], [counts_verdict],
      [release_counts], [memfd01_verdict], [errno_verdict], [huge_size_verdict],
      [results_valid]; the protocol ends:
      [stop_child_stops]; every test case is reported exactly once:
      [one_verdict_each].
    - What an original test and its independent version demand of the answers, on any
      system: [fcntl01_judges], [fcntl_contracts_kept], [read_contracts_kept],
      [write_contracts_kept]; both pass on documented systems: [descriptor_tests_pass]
      (thirty-three originals, seventeen independent versions); what only the original notices,
      on fixed examples: [ports_miss].
    - Which transcripts a test accepts, exactly: [dup_and_seek_kept] (seventeen tests, in the runs
      that stay within what C defines: [dup03_defined], [dup06_defined], [dup205_defined]), [verify_verdict],
      [parent_verdict] (ioctl02: the masks of modes do not matter).
    - An algorithm of a test finds what it looks for: [find_block_exact] (the size of a block, by
      doubling and bisection).
    - On which functions of the C library a test passes, exactly: [memset01_exact],
      [memcpy01_exact], [memcmp01_exact].
    - Independence of the order of the tests: [counter_tests_pass].
    - Transition systems: [first_pass_complete] (the first pass of kill10 means that all children
      have signalled), [second_pass_incomplete] (the second does not), [bsearch_exact]; the
      reference kernel of kill02: [pending_signals_ok], [kill_group_exact].
    - Every combination of missing rules is noticed, and nothing else is:
      [memfd01_exact] (4096 combinations), [memfd02_exact].
    - A loop of a test ends, or does not: [unmap_loop_ends], [unmap_loop_never_ends].
    - A kernel with a bug is noticed in every interleaving: [fcntl11_detects],
      [fcntl19_detects], [fcntl20_detects], [fcntl21_detects], [sigrelse01_detects], [kill02_detects]; one
      without deadlock detection makes fcntl17 wait until its alarm, which the model leaves out,
      expires: [fcntl17_hangs]; a call that fails
      makes it leave a process behind: [kill02_leaves_child].
    - What a test does not notice: [fcntl16_vacuous] (no child is ever made),
      [string01_misses] and [t_ncmp_accepts] (a lenient table), [child_wait_stop],
      [stat_ELOOP_never_fails], [test14A_accepts], [sigrelse01_misses], [fcntl01_misses],
      [memset01_misses], [memcpy01_misses], [memcmp01_misses].
    - Tables, buffers and limits: [table_flags], [random_size_spec],
      [random_attempt_edge], [str_type_names], [creat_path_max_bounds],
      [long_path_fits], [name_buffers], [getbase_spec].

    ** Bounds

    The checkers take a number of events as fuel, for each piece that is explored
    on its own: 200 for an entry of fcntl14, 1000 for fcntl17, up to 6000 for a whole
    run of the lock servers and 9000 for one of sigrelse01; a run of kill02 has at most 90
    layers of up to 600 states.  Too little fuel makes a checker answer [false]; a theorem rests
    on the answer [true], so the fuel is enough wherever it is used, and no
    theorem has it in its statement.  The same holds for the 20000 events of
    [run_alone], the up to 50000 of [run_end] and the 1000 tasks of a walk between two calls ([walk_fuel]).
    A path may go through 40 symbolic links, as on Linux.  [TEST_LOOPING] is one round, as without
    options.

    ** Not modelled

    Time: an alarm never expires, [usleep] is an ordinary call (in kill02 alarms ring and sleeps end when
    all processes are at rest; in kill10 an alarm only keeps [pause] from waiting).  Pipes carry whole
    messages and their ends are not closed, so there is no end of file and no
    SIGPIPE.  A signal is taken where the program waits for it; the handlers of
    fcntl14 and fcntl16 are functions of the model, and that a SIGCHLD
    handler would have run is recorded ([s_caught]) and excluded by the theorems
    on passing runs.  In fcntl17 a waiting F_SETLKW is two events, entering the queue
    and the answer.  In sigrelse01 a signal is taken at a call of the process, a read of
    an empty pipe waits, and the reference clock advances by a second at each call.
    The variants for UCLINUX and for a missing libaio, the text
    of [strsignal] and percentages in summaries are left out.

    What C leaves undefined is not an answer of the program: where the source may index an array
    outside, store through the result of an unchecked malloc or pass an unchecked result of getcwd on
    (dup03, dup06, dup205, [creat_path_max] of symlink01), the model goes on only if the access is
    defined ([defined_if]) and otherwise ends in [undefined], of which theorems on verdicts say
    nothing; [one_verdict_each] assumes that the second of two getcwd in a row succeeds like the first.
    [judges_where] states such a verdict with its condition.

    nftw(3) reads a directory in the order in which its entries were made; other
    orders are not covered by [nftw01_passes] (the theorems on verdicts allow any), nor is a
    temporary directory whose path contains "/tmp/data", which test16A would find in paths.
    [rm -rf] ignores permissions.  Output to stderr is a call without effect; memory
    is never released, and the release of a null pointer is not modelled.  The
    variable [tst_count], output under DEBUG and the branch under ALL of symlink01
    are left out.  nftw64 is the code of nftw01 with 64-bit types.

    In the memfd_create tests [munmap] removes whole mappings, a store that faults has
    no answer, and quotation marks in messages are left out; the library's fork around
    a test and its time limit are not modelled.

    In kill02 a signal is taken when a call returns, and no other one while its handler
    runs; the loops that read until a byte is there wait for it.  Of kill10 the set-up, which
    forks the processes, is left out.

    Of ioctl02 one round is modelled; the handlers only end the waiting.  The alarm of fcntl17 never
    expires, so that no run reaches [catch_alarm] and its report "Alarm expired, deadlock not
    detected".  In eventfd01 FD_SET is not bounded by FD_SETSIZE.

    What a correct system may choose is a parameter of the reference of Descriptors.v too
    ([choices]): inode numbers, addresses of mappings, the number of pages of a pipe.  The
    independent versions keep the results of read(2) and write(2) in an int ([to_int]).  The
    original read01.c does not compile ("O_ RDWR") and is not modelled; its independent version is.

    The tests not listed above are not modelled: most make one call and leave the check of its
    result to the library, and the others need a reference for a part of the system
    (threads, fanotify) of which the repository says too little.  Of the independent programs
    those of the calls above are modelled where they compile; the others and the Python
    scripts, but for the verdict of [brain.py], are left out. *)

From stdpp Require Export gmap strings list pretty.
From Stdlib Require Export ZArith Lia.

#[global] Open Scope Z_scope.

(** ** Machine integers

    A w-bit C integer is a [Z]; storing a value into a narrower signed type
    wraps it (the conversion gcc documents), into an unsigned one reduces it
    modulo 2^w. *)

Definition uwrap (w : Z) (z : Z) : Z := z mod 2 ^ w.

Definition swrap (w : Z) (z : Z) : Z :=
  let u := z mod 2 ^ w in
  if u <? 2 ^ (w - 1) then u else u - 2 ^ w.

(** The cast [(short) z] and the implicit conversion of an [int] stored in a
    [short] field. *)
Definition to_short (z : Z) : Z := swrap 16 z.

Definition to_int (z : Z) : Z := swrap 32 z.

Definition to_uint64 (z : Z) : Z := uwrap 64 z.

Definition UINT64_MAX : Z := 18446744073709551615.

Definition INT_MAX : Z := 2147483647.

Create HintDb mach.

Lemma uwrap_range w z : 0 <= w -> 0 <= uwrap w z < 2 ^ w.
Proof. intros Hw. unfold uwrap. apply Z.mod_pos_bound. by apply Z.pow_pos_nonneg. Qed.

Lemma uwrap_small w z : 0 <= z < 2 ^ w -> uwrap w z = z.
Proof. intros H. unfold uwrap. by apply Z.mod_small. Qed.

Lemma swrap_range w z : 0 < w -> - 2 ^ (w - 1) <= swrap w z < 2 ^ (w - 1).
Proof.
  intros Hw. unfold swrap.
  assert (2 ^ w = 2 * 2 ^ (w - 1)) as E.
  { rewrite <- Z.pow_succ_r by lia. f_equal. lia. }
  pose proof (Z.mod_pos_bound z (2 ^ w) ltac:(apply Z.pow_pos_nonneg; lia)).
  destruct (Z.ltb_spec (z mod 2 ^ w) (2 ^ (w - 1))); lia.
Qed.

Lemma swrap_small w z : 0 < w -> - 2 ^ (w - 1) <= z < 2 ^ (w - 1) -> swrap w z = z.
Proof.
  intros Hw Hz. unfold swrap.
  assert (2 ^ w = 2 * 2 ^ (w - 1)) as E.
  { rewrite <- Z.pow_succ_r by lia. f_equal. lia. }
  destruct (Z.ltb_spec z 0) as [Hn|Hp].
  - replace (z mod 2 ^ w) with (z + 2 ^ w).
    + destruct (Z.ltb_spec (z + 2 ^ w) (2 ^ (w - 1))); lia.
    + apply Z.mod_unique_pos with (-1); lia.
  - rewrite Z.mod_small by lia. destruct (Z.ltb_spec z (2 ^ (w - 1))); lia.
Qed.

Lemma to_short_small z : -32768 <= z <= 32767 -> to_short z = z.
Proof. intros H. apply swrap_small; simpl; lia. Qed.

#[export] Hint Resolve uwrap_range uwrap_small swrap_range swrap_small : mach.

(** ** errno values the programs compare against (Linux x86-64) *)

Definition EPERM : Z := 1.
Definition EBADF : Z := 9.
Definition EAGAIN : Z := 11.
Definition ENOMEM : Z := 12.
Definition EACCES : Z := 13.
Definition EINVAL : Z := 22.
Definition EDEADLK : Z := 35.

(** ** Shared tactics *)

(** Case analysis on the scrutinee of the outermost [match] or [if], in the
    goal or in a hypothesis, keeping the equation. *)
Ltac break_match :=
  match goal with
  | |- context [match ?x with _ => _ end] => let E := fresh "E" in destruct x eqn:E
  | H : context [match ?x with _ => _ end] |- _ => let E := fresh "E" in destruct x eqn:E
  end.

(** Turns boolean integer comparisons in the context into propositions. *)
Ltac zbool :=
  repeat match goal with
  | H : (_ && _)%bool = true |- _ => apply andb_true_iff in H; destruct H
  | H : (_ || _)%bool = false |- _ => apply orb_false_iff in H; destruct H
  | H : negb _ = true |- _ => apply negb_true_iff in H
  | H : negb _ = false |- _ => apply negb_false_iff in H
  | H : (_ =? _) = true |- _ => apply Z.eqb_eq in H
  | H : (_ =? _) = false |- _ => apply Z.eqb_neq in H
  | H : (_ <? _) = true |- _ => apply Z.ltb_lt in H
  | H : (_ <? _) = false |- _ => apply Z.ltb_ge in H
  | H : (_ <=? _) = true |- _ => apply Z.leb_le in H
  | H : (_ <=? _) = false |- _ => apply Z.leb_gt in H
  end.
