(* ===== verification/Tst.v ===== *)
(** * Interface of the LTP test library

    The programs under [src/original tests] report through the LTP library
    ([tst_resm], [tst_brkm], [tst_exit]), which is not part of the repository.
    This file only fixes what a report consists of; how reports are emitted is
    an event of the process model ([Process.v]). *)

From S2P Require Import Prelude.

(** Result types of [test.h]. *)
Inductive ttype := TPASS | TFAIL | TBROK | TWARN | TINFO | TCONF.

#[export] Instance ttype_eq_dec : EqDecision ttype.
Proof. solve_decision. Defined.

(** A printf argument: an integer or a string. *)
Inductive arg := Num (z : Z) | Str (s : string).

#[export] Instance arg_eq_dec : EqDecision arg.
Proof. solve_decision. Defined.

Coercion Num : Z >-> arg.
Coercion Str : string >-> arg.

(** One report: its type, the errno printed when the type was or-ed with
    [TERRNO], the format string and its arguments. *)
Record entry := Entry {
  e_type : ttype;
  e_errno : option Z;
  e_fmt : string;
  e_args : list arg
}.

#[export] Instance entry_eq_dec : EqDecision entry.
Proof. solve_decision. Defined.

(** A report that makes the run a failure: LTP ors the values of [TFAIL],
    [TBROK] and [TWARN] into the exit status, the other types are neutral. *)
Definition bad_entry (e : entry) : bool :=
  match e_type e with
  | TFAIL | TBROK | TWARN => true
  | TPASS | TINFO | TCONF => false
  end.

Definition is_pass (e : entry) : bool := bool_decide (e_type e = TPASS).

(** A clean log has no failing report. *)
Definition clean (l : list entry) : bool := forallb (fun e => negb (bad_entry e)) l.

Definition count_type (t : ttype) (l : list entry) : nat :=
  length (filter (fun e => e_type e = t) l).

Lemma clean_app l1 l2 : clean (l1 ++ l2) = (clean l1 && clean l2)%bool.
Proof. apply forallb_app. Qed.

Lemma clean_no_fail l e : clean l = true -> e ∈ l -> bad_entry e = false.
Proof.
  intros Hc He. apply negb_true_iff.
  apply (proj1 (forallb_forall _ _) Hc e). by apply list_elem_of_In.
Qed.

Lemma count_type_app t l1 l2 :
  count_type t (l1 ++ l2) = (count_type t l1 + count_type t l2)%nat.
Proof. unfold count_type. by rewrite filter_app, length_app. Qed.

