(* ===== verification/Process.v ===== *)
(** * Processes, their interleavings and the platform they run on

    A test program is an interaction tree over the events [sysE]: system calls
    of the platform under test, process control (fork, wait, signals, pipes)
    and reports.  [step] runs one event of one process; a run of a test is any
    interleaving of such steps.  [inevitable P] says that every interleaving
    ends, and ends in a state satisfying [P]; [Explore.v] and [Owned.v] decide it on
    concrete states.

    The calls themselves are a parameter: [Kernel] gives the answer of every
    call and [Refines] relates a kernel to a documented reference behaviour, so
    that results computed for the reference carry over ([inevitable_refines]).

    Alarm expiry and short reads or writes on pipes are not part of the model:
    a call to [alarm] is an ordinary call and a pipe transfers whole messages. *)

From S2P Require Import Prelude Tst.
From ITree Require Export ITree.

(** ** Events *)

Variant sysE (C R : Type) : Type -> Type :=
| Sys (c : C) : sysE C R R
| Fork : sysE C R Z
| Getpid : sysE C R Z
| Waitpid (pid : Z) : sysE C R (Z * Z)
| Kill (pid sig : Z) : sysE C R Z
| Sigpause (sig : Z) : sysE C R unit
| SigChld (handled : bool) : sysE C R Z
| PipeRead (p : Z) : sysE C R (option (list Z))
| PipeWrite (p : Z) (m : list Z) : sysE C R bool
| Report (e : entry) : sysE C R unit
| TstExit : sysE C R Empty_set
| Exit (code : Z) : sysE C R Empty_set.

Arguments Sys {C R} c.
Arguments Fork {C R}.
Arguments Getpid {C R}.
Arguments Waitpid {C R} pid.
Arguments Kill {C R} pid sig.
Arguments Sigpause {C R} sig.
Arguments SigChld {C R} handled.
Arguments PipeRead {C R} p.
Arguments PipeWrite {C R} p m.
Arguments Report {C R} e.
Arguments TstExit {C R}.
Arguments Exit {C R} code.

(** An observed process: the node its next event sits in. *)
Abbreviation node C R A := (itreeF (sysE C R) A (itree (sysE C R) A)).

(** Status word of a process that called [exit(code)], and its decoding. *)
Definition exit_status (code : Z) : Z := Z.shiftl (Z.land code 255) 8.

Definition WEXITSTATUS (st : Z) : Z := Z.land (Z.shiftr st 8) 255.

Definition WIFEXITED (st : Z) : bool := Z.land st 127 =? 0.

(** ** Platforms *)

(** The platform: [k_do pid c w] is the answer to call [c] of process [pid] in
    world [w] ([None]: the call blocks), [k_fork pid child] and [k_exit] are what the fork
    and the end of a process do to the world, [tst_status] the exit code the test library derives from
    the reports of a process. *)
Class Kernel (C R W : Type) := {
  k_do : Z -> C -> W -> option (R * W);
  k_fork : Z -> Z -> W -> W;
  k_exit : Z -> W -> W;
  tst_status : list entry -> Z
}.

(** ** System states *)

Record pinfo := PInfo {
  p_parent : Z;
  p_chld : bool;        (* SIGCHLD has a handler *)
  p_pending : list Z    (* signals sent and not yet taken *)
}.

#[export] Instance pinfo_eq_dec : EqDecision pinfo.
Proof. solve_decision. Defined.

(** Everything but the programs the processes still have to run. *)
Record shape (W : Type) := Shape {
  s_info : gmap Z pinfo;
  s_zombies : gmap Z (Z * Z);         (* dead, not yet waited for: parent, status *)
  s_pipes : gmap Z (list (list Z));   (* messages in each pipe *)
  s_logs : gmap Z (list entry);       (* reports of each process *)
  s_caught : bool;                    (* some SIGCHLD handler has run *)
  s_next : Z;                         (* next process id *)
  s_world : W
}.

Arguments Shape {W}.
Arguments s_info {W}.
Arguments s_zombies {W}.
Arguments s_pipes {W}.
Arguments s_logs {W}.
Arguments s_caught {W}.
Arguments s_next {W}.
Arguments s_world {W}.

#[export] Instance shape_eq_dec (W : Type) `{EqDecision W} : EqDecision (shape W).
Proof. solve_decision. Defined.

Definition with_world {W} (w : W) (s : shape W) : shape W :=
  Shape (s_info s) (s_zombies s) (s_pipes s) (s_logs s) (s_caught s) (s_next s) w.

Definition with_pipe {W} (p : Z) (ms : list (list Z)) (s : shape W) : shape W :=
  Shape (s_info s) (s_zombies s) (<[p := ms]> (s_pipes s)) (s_logs s) (s_caught s)
    (s_next s) (s_world s).

Definition with_info {W} (pid : Z) (f : pinfo -> pinfo) (s : shape W) : shape W :=
  Shape (alter f pid (s_info s)) (s_zombies s) (s_pipes s) (s_logs s) (s_caught s)
    (s_next s) (s_world s).

Definition without_zombie {W} (pid : Z) (s : shape W) : shape W :=
  Shape (s_info s) (delete pid (s_zombies s)) (s_pipes s) (s_logs s) (s_caught s)
    (s_next s) (s_world s).

Definition log_of {W} (pid : Z) (s : shape W) : list entry :=
  default [] (s_logs s !! pid).

Definition with_report {W} (pid : Z) (e : entry) (s : shape W) : shape W :=
  Shape (s_info s) (s_zombies s) (s_pipes s) (<[pid := log_of pid s ++ [e]]> (s_logs s))
    (s_caught s) (s_next s) (s_world s).

Lemma log_of_report {W} (pid : Z) (e : entry) (s : shape W) :
  log_of pid (with_report pid e s) = log_of pid s ++ [e].
Proof. unfold with_report, log_of; cbn [s_logs]. by rewrite lookup_insert_eq. Qed.

Definition map_world {W V} (f : W -> V) (s : shape W) : shape V :=
  Shape (s_info s) (s_zombies s) (s_pipes s) (s_logs s) (s_caught s) (s_next s)
    (f (s_world s)).

Record sys (C R W A : Type) := MkSys {
  trees : gmap Z (node C R A);
  shp : shape W
}.

Arguments MkSys {C R W A}.
Arguments trees {C R W A}.
Arguments shp {C R W A}.

(** [fork]: the child is a copy of the caller and gets the next id. *)
Definition fork_shape `{Kernel C R W} (pid : Z) (s : shape W) : shape W :=
  let chld := from_option p_chld false (s_info s !! pid) in
  Shape (<[s_next s := PInfo pid chld []]> (s_info s)) (s_zombies s) (s_pipes s) (s_logs s)
    (s_caught s) (s_next s + 1) (k_fork pid (s_next s) (s_world s)).

(** The end of process [pid] with status [st]: it becomes a zombie of its parent
    (unless the parent is outside the test) and SIGCHLD is raised. *)
Definition exit_shape `{Kernel C R W} (pid st : Z) (s : shape W) : shape W :=
  let ppid := from_option p_parent 0 (s_info s !! pid) in
  let caught := from_option p_chld false (s_info s !! ppid) in
  Shape (delete pid (s_info s))
    (if ppid =? 0 then s_zombies s else <[pid := (ppid, st)]> (s_zombies s))
    (s_pipes s) (s_logs s) (s_caught s || caught)%bool (s_next s) (k_exit pid (s_world s)).

Definition child_of (ppid : Z) (i : Z * pinfo) : bool := p_parent i.2 =? ppid.

(** What [waitpid(want)] of process [pid] finds: a zombie, nothing yet, or no
    such child. *)
Definition wait_for {W} (pid want : Z) (s : shape W) : option (option (Z * Z)) :=
  let matches (c : Z) := ((want =? -1) || (want =? c))%bool in
  match filter (fun z => matches z.1 && (z.2.1 =? pid) = true) (map_to_list (s_zombies s)) with
  | (c, (_, st)) :: _ => Some (Some (c, st))
  | [] =>
      match filter (fun i => matches i.1 && child_of pid i = true) (map_to_list (s_info s)) with
      | _ :: _ => None
      | [] => Some None
      end
  end.

(** ** Steps *)

Section Step.
Context `{Kernel C R W} {A : Type}.

Definition set_tree (pid : Z) (t : itree (sysE C R) A) (ts : gmap Z (node C R A)) :=
  <[pid := observe t]> ts.

(** The event of process [pid], whose node is [n]; [None] when it is blocked or
    has no event left. *)
Definition step_at (pid : Z) (n : node C R A) (ts : gmap Z (node C R A)) (sh : shape W)
  : option (sys C R W A) :=
  match n with
  | RetF _ => None
  | TauF t => Some (MkSys (set_tree pid t ts) sh)
  | VisF e k =>
      match e in sysE _ _ X return (X -> itree (sysE C R) A) -> option (sys C R W A) with
      | Sys c => fun k =>
          match k_do pid c (s_world sh) with
          | Some (r, w) => Some (MkSys (set_tree pid (k r) ts) (with_world w sh))
          | None => None
          end
      | Fork => fun k =>
          match ts !! s_next sh with
          | Some _ => None
          | None =>
              Some (MkSys (set_tree (s_next sh) (k 0) (set_tree pid (k (s_next sh)) ts))
                      (fork_shape pid sh))
          end
      | Getpid => fun k => Some (MkSys (set_tree pid (k pid) ts) sh)
      | Waitpid want => fun k =>
          match wait_for pid want sh with
          | None => None
          | Some None => Some (MkSys (set_tree pid (k (-1, 0)) ts) sh)
          | Some (Some (c, st)) =>
              Some (MkSys (set_tree pid (k (c, st)) ts) (without_zombie c sh))
          end
      | Kill target sig => fun k =>
          match s_info sh !! target with
          | None => Some (MkSys (set_tree pid (k (-1)) ts) sh)
          | Some _ =>
              Some (MkSys (set_tree pid (k 0) ts)
                      (with_info target
                         (fun i => PInfo (p_parent i) (p_chld i) (sig :: p_pending i)) sh))
          end
      | Sigpause sig => fun k =>
          if decide (sig ∈ from_option p_pending [] (s_info sh !! pid))
          then Some (MkSys (set_tree pid (k tt) ts)
                       (with_info pid
                          (fun i => PInfo (p_parent i) (p_chld i)
                                      (filter (fun x => x ≠ sig) (p_pending i))) sh))
          else None
      | SigChld b => fun k =>
          Some (MkSys (set_tree pid (k 0) ts)
                  (with_info pid (fun i => PInfo (p_parent i) b (p_pending i)) sh))
      | PipeRead p => fun k =>
          match s_pipes sh !! p with
          | Some (m :: ms) => Some (MkSys (set_tree pid (k (Some m)) ts) (with_pipe p ms sh))
          | _ => None
          end
      | PipeWrite p m => fun k =>
          Some (MkSys (set_tree pid (k true) ts)
                  (with_pipe p (default [] (s_pipes sh !! p) ++ [m]) sh))
      | Report e => fun k => Some (MkSys (set_tree pid (k tt) ts) (with_report pid e sh))
      | TstExit => fun _ =>
          Some (MkSys (delete pid ts)
                  (exit_shape pid (exit_status (tst_status (log_of pid sh))) sh))
      | Exit code => fun _ =>
          Some (MkSys (delete pid ts) (exit_shape pid (exit_status code) sh))
      end k
  end.

(** One event of process [pid]; [None] when it cannot go on. *)
Definition step (pid : Z) (s : sys C R W A) : option (sys C R W A) :=
  match trees s !! pid with
  | None => None
  | Some n => step_at pid n (trees s) (shp s)
  end.

(** No process can go on. *)
Definition final (s : sys C R W A) : Prop := forall pid, step pid s = None.

Definition is_ret (n : node C R A) : bool :=
  match n with RetF _ => true | _ => false end.

(** No process has fallen off the end of its program. *)
Definition no_ret (s : sys C R W A) : Prop :=
  forall pid n, trees s !! pid = Some n -> is_ret n = false.

(** Every interleaving from [s] is finite and ends in a state satisfying [P]. *)
Inductive inevitable (P : sys C R W A -> Prop) : sys C R W A -> Prop :=
| inev_now s : final s -> P s -> inevitable P s
| inev_step s :
    no_ret s ->
    (exists pid s', step pid s = Some s') ->
    (forall pid s', step pid s = Some s' -> inevitable P s') ->
    inevitable P s.

(** ** The next states *)

(** The states reachable in one step. *)
Definition nexts (s : sys C R W A) : list (sys C R W A) :=
  omap (fun x => step x.1 s) (map_to_list (trees s)).

Definition no_retb (s : sys C R W A) : bool :=
  forallb (fun x => negb (is_ret x.2)) (map_to_list (trees s)).
End Step.

(** ** Reachability *)

Inductive star `{Kernel C R W} {A} : sys C R W A -> sys C R W A -> Prop :=
| star_refl s : star s s
| star_step s s' s'' pid : step pid s = Some s' -> star s' s'' -> star s s''.

(** ** Continuations *)

Definition obind {E : Type -> Type} {A B} (n : itreeF E A (itree E A)) (k : A -> itree E B)
  : itreeF E B (itree E B) :=
  match n with
  | RetF r => observe (k r)
  | TauF t => TauF (ITree.bind t k)
  | VisF e h => VisF e (fun x => ITree.bind (h x) k)
  end.

(** The system in which every process goes on with [k] after its program. *)
Definition bind_sys {C R W A B} (k : A -> itree (sysE C R) B) (s : sys C R W A)
  : sys C R W B :=
  MkSys ((fun n => obind n k) <$> trees s) (shp s).

(** ** Refinement of platforms *)

(** [K] behaves like the reference [S]: related worlds give the same answers and
    block on the same calls. *)
Class Refines {C R W V} (K : Kernel C R W) (S : Kernel C R V) := {
  rel : W -> V -> Prop;
  rel_do : forall pid c w v, rel w v ->
    match @k_do _ _ _ K pid c w, @k_do _ _ _ S pid c v with
    | Some (r, w'), Some (r', v') => r = r' /\ rel w' v'
    | None, None => True
    | _, _ => False
    end;
  rel_fork : forall pid child w v, rel w v ->
    rel (@k_fork _ _ _ K pid child w) (@k_fork _ _ _ S pid child v);
  rel_exit : forall pid w v, rel w v -> rel (@k_exit _ _ _ K pid w) (@k_exit _ _ _ S pid v);
  rel_status : forall l, @tst_status _ _ _ K l = @tst_status _ _ _ S l
}.

(** Every kernel refines itself. *)
#[export] Instance refines_refl {C R W} (K : Kernel C R W) : Refines K K.
Proof.
  refine {| rel := eq |}; [| by intros ? ? ? ? -> | by intros ? ? ? -> | done].
  intros pid c w v ->. by destruct (k_do pid c v) as [[r w']|].
Defined.

(** ** Facts about steps and runs *)

Section StepFacts.
Context `{Kernel C R W} {A : Type}.
Implicit Types (s : sys C R W A) (P Q : sys C R W A -> Prop).

Lemma step_alive pid s s' : step pid s = Some s' -> is_Some (trees s !! pid).
Proof. unfold step. destruct (trees s !! pid); [eauto | done]. Qed.

Lemma elem_of_nexts s s' : s' ∈ nexts s <-> exists pid, step pid s = Some s'.
Proof.
  unfold nexts. rewrite list_elem_of_omap. split.
  - intros [[pid n] [_ Hs]]. by exists pid.
  - intros [pid Hs]. destruct (step_alive _ _ _ Hs) as [n Hn].
    exists (pid, n). split; [by apply elem_of_map_to_list | done].
Qed.

Lemma nexts_nil s : nexts s = [] -> final s.
Proof.
  intros Hn pid. destruct (step pid s) as [s'|] eqn:E; [|done].
  assert (s' ∈ nexts s) as Hin by (apply elem_of_nexts; eauto).
  rewrite Hn in Hin. by apply not_elem_of_nil in Hin.
Qed.

Lemma no_retb_spec s : no_retb s = true -> no_ret s.
Proof.
  intros Hb pid n Hn. unfold no_retb in Hb. pose proof (proj1 (List.forallb_forall _ _) Hb) as Hb'.
  apply negb_true_iff. apply (Hb' (pid, n)).
  apply list_elem_of_In. by apply elem_of_map_to_list.
Qed.

Lemma inevitable_mono P Q s :
  (forall s', P s' -> Q s') -> inevitable P s -> inevitable Q s.
Proof.
  intros HPQ Hi. induction Hi.
  - apply inev_now; auto.
  - apply inev_step; auto.
Qed.

(** Whatever a run has done so far, it ends as promised. *)
Lemma inevitable_star P s s' :
  inevitable P s -> star s s' -> exists s'', star s' s'' /\ final s'' /\ P s''.
Proof.
  intros Hi Hst. revert s' Hst. induction Hi as [s Hf HP | s Hr [p [s1 Hp]] Hn IH];
    intros s' Hst.
  - inversion Hst; subst; [eauto using star_refl|].
    match goal with E : step ?p s = Some _ |- _ => specialize (Hf p); congruence end.
  - inversion Hst; subst.
    + destruct (IH p s1 Hp s1 (star_refl _)) as (s'' & H1 & H2 & H3).
      exists s''. split; [by eapply star_step | done].
    + eapply IH; eauto.
Qed.

Lemma inevitable_final P s s' :
  inevitable P s -> star s s' -> final s' -> P s'.
Proof.
  intros Hi Hst Hf. destruct (inevitable_star _ _ _ Hi Hst) as (s'' & H1 & _ & HP).
  inversion H1; subst; [done|].
  match goal with E : step ?p s' = Some _ |- _ => specialize (Hf p); congruence end.
Qed.

(** No run goes on forever. *)
Lemma inevitable_wf P s :
  inevitable P s -> Acc (fun y x => exists pid, step pid x = Some y) s.
Proof.
  induction 1 as [s Hf | s ? ? ? IH]; constructor.
  - intros y [pid Hy]. specialize (Hf pid). congruence.
  - intros y [pid Hy]. eauto.
Qed.
End StepFacts.

(** ** Sequencing *)

Section Bind.
Context `{Kernel C R W} {A B : Type}.
Variable k : A -> itree (sysE C R) B.
Implicit Types s : sys C R W A.

Lemma observe_bind_node (t : itree (sysE C R) A) :
  observe (ITree.bind t k) = obind (observe t) k.
Proof. unfold obind, observe; cbn. unfold observe. by destruct (_observe t). Qed.

Lemma set_tree_bind pid (t : itree (sysE C R) A) (ts : gmap Z (node C R A)) :
  set_tree pid (ITree.bind t k) ((fun n => obind n k) <$> ts)
  = (fun n => obind n k) <$> set_tree pid t ts.
Proof. unfold set_tree. by rewrite observe_bind_node, fmap_insert. Qed.

(** Before its program is over, a process steps the same way whatever follows. *)
Lemma step_bind pid s :
  (forall n, trees s !! pid = Some n -> is_ret n = false) ->
  step pid (bind_sys k s) = bind_sys k <$> step pid s.
Proof.
  intros Hr. unfold step, step_at, bind_sys at 1. simpl. rewrite lookup_fmap.
  destruct (trees s !! pid) as [n|] eqn:En; [|done]. simpl.
  specialize (Hr n eq_refl). destruct n as [r|t|X e h]; [done| |].
  - unfold bind_sys. simpl. by rewrite set_tree_bind.
  - destruct e; simpl; unfold bind_sys; simpl;
      repeat match goal with
      | |- context [match k_do ?a ?b ?c with _ => _ end] => destruct (k_do a b c) as [[? ?]|]
      | |- context [match wait_for ?a ?b ?c with _ => _ end] =>
          destruct (wait_for a b c) as [[[? ?]|]|]
      | |- context [match ?m !! ?i with _ => _ end] =>
          lazymatch m with
          | fmap _ _ => rewrite lookup_fmap; destruct (trees s !! i) eqn:?; simpl
          | _ => destruct (m !! i) as [?|] eqn:?; simpl
          end
      | |- context [match ?l with [] => _ | _ :: _ => _ end] => destruct l
      | |- context [decide ?p] => destruct (decide p)
      end; rewrite ?set_tree_bind, ?fmap_delete; try done.
Qed.

Lemma no_ret_bind s : no_ret s -> no_ret (bind_sys k s).
Proof.
  intros Hr pid n. unfold bind_sys; simpl. rewrite lookup_fmap.
  destruct (trees s !! pid) as [m|] eqn:Em; [|done]. simpl. intros [= <-].
  specialize (Hr _ _ Em). by destruct m.
Qed.

(** Sequencing: if every run of the programs ends in [P] and the continuation
    takes [P] to [Q], every run of the sequence ends in [Q]. *)
Lemma inevitable_bind (P : sys C R W A -> Prop) (Q : sys C R W B -> Prop) s :
  inevitable P s ->
  (forall s', P s' -> inevitable Q (bind_sys k s')) ->
  inevitable Q (bind_sys k s).
Proof.
  intros Hi HPQ. induction Hi as [s Hf HP | s Hr [p [s1 Hp]] Hn IH].
  - by apply HPQ.
  - apply inev_step.
    + by apply no_ret_bind.
    + exists p, (bind_sys k s1). rewrite step_bind by eauto. by rewrite Hp.
    + intros pid s'. rewrite step_bind by eauto.
      destruct (step pid s) as [s2|] eqn:E2; [|done]. simpl. intros [= <-]. eauto.
Qed.
End Bind.

(** ** Transfer along a refinement *)

Section RefinesFacts.
Context {C R W V A : Type}.
Context (K : Kernel C R W) (S : Kernel C R V) `{F : !Refines K S}.

Definition same (s : sys C R W A) (t : sys C R V A) : Prop :=
  trees s = trees t
  /\ map_world (fun _ => s_world (shp t)) (shp s) = shp t
  /\ rel (s_world (shp s)) (s_world (shp t)).

Lemma same_step pid s t :
  same s t ->
  match @step _ _ _ K A pid s, @step _ _ _ S A pid t with
  | Some s', Some t' => same s' t'
  | None, None => True
  | _, _ => False
  end.
Proof.
  destruct s as [ts [i z ps l ca n w]], t as [ts' [i' z' ps' l' ca' n' v]].
  intros (Ht & Hs & Hw). simpl in *. injection Hs as <- <- <- <- <- <-. subst ts'.
  unfold step, step_at; simpl.
  destruct (ts !! pid) as [[r|t|X e k]|]; try done.
  destruct e as [cl| | | | | | | | | | |]; simpl;
    unfold wait_for, exit_shape, fork_shape, log_of; simpl; rewrite ?rel_status.
  1: { pose proof (rel_do pid cl w v Hw) as Hd.
       destruct (@k_do _ _ _ K pid cl w) as [[r w']|], (@k_do _ _ _ S pid cl v) as [[r' v']|];
         try done.
       destruct Hd as [-> Hw']. by repeat split. }
  all: repeat (case_match; simplify_eq/=); try done; repeat split; auto.
  all: by first [apply rel_fork | apply rel_exit].
Qed.

(** What every run on the reference leads to, every run on the refined platform
    leads to. *)
Lemma inevitable_refines (P : sys C R V A -> Prop) t :
  @inevitable _ _ _ S A P t ->
  forall s, same s t -> @inevitable _ _ _ K A (fun s' => exists t', same s' t' /\ P t') s.
Proof.
  induction 1 as [t Hf HP | t Hr [p [t1 Hp]] Hn IH]; intros s Hs.
  - apply inev_now; [|eauto]. intros pid. pose proof (same_step pid s t Hs) as Hst.
    rewrite (Hf pid) in Hst. by destruct (step pid s).
  - apply inev_step.
    + intros pid n Hl. apply (Hr pid). by rewrite <- (proj1 Hs).
    + pose proof (same_step p s t Hs) as Hst. rewrite Hp in Hst.
      destruct (@step _ _ _ K A p s) as [s'|] eqn:E; [eauto|done].
    + intros pid s' Hs'. pose proof (same_step pid s t Hs) as Hst. rewrite Hs' in Hst.
      destruct (@step _ _ _ S A pid t) as [t'|] eqn:E; [|done]. eauto.
Qed.
End RefinesFacts.
