(* ===== verification/Explore.v ===== *)
(** * Exploring fewer interleavings

    Events that touch nothing another process can see (an internal step,
    [getpid], a report, a call the platform answers without looking at its
    world) commute with every event of every other process.  [explore_local]
    runs such an event as soon as it is possible and branches only on the
    others; [explore_local_sound] shows that it still answers for every
    interleaving. *)

From S2P Require Import Prelude Tst Process.

(** The calls whose answer does not depend on the world and that leave it alone. *)
Class LocalCalls {C R W} (K : Kernel C R W) := {
  k_local : C -> option R;
  k_local_do : forall pid c r w,
    k_local c = Some r -> @k_do _ _ _ K pid c w = Some (r, w)
}.

(** No call needs to be local. *)
Definition no_local {C R W} (K : Kernel C R W) : LocalCalls K.
Proof. by refine {| k_local := fun _ => None |}. Defined.

Section Local.
Context {C R W A : Type} (K : Kernel C R W) `{L : !LocalCalls K}.
Implicit Types (s : sys C R W A) (P : sys C R W A -> Prop).

(** The next node of a process whose event is local, and the report it makes. *)
Definition local_event (pid : Z) (n : node C R A) : option (node C R A * option entry) :=
  match n with
  | RetF _ => None
  | TauF t => Some (observe t, None)
  | VisF e k =>
      match e in sysE _ _ X
        return (X -> itree (sysE C R) A) -> option (node C R A * option entry) with
      | Sys c => fun k =>
          match k_local c with Some r => Some (observe (k r), None) | None => None end
      | Getpid => fun k => Some (observe (k pid), None)
      | Report e => fun k => Some (observe (k tt), Some e)
      | _ => fun _ => None
      end k
  end.

Definition reported (pid : Z) (o : option entry) (sh : shape W) : shape W :=
  match o with Some e => with_report pid e sh | None => sh end.

Lemma reported_world pid o sh : s_world (reported pid o sh) = s_world sh.
Proof. by destruct o. Qed.

Lemma reported_info pid o sh : s_info (reported pid o sh) = s_info sh.
Proof. by destruct o. Qed.

Lemma reported_pipes pid o sh : s_pipes (reported pid o sh) = s_pipes sh.
Proof. by destruct o. Qed.

Lemma reports_commute p q e1 e2 (sh : shape W) :
  q <> p -> with_report q e2 (with_report p e1 sh) = with_report p e1 (with_report q e2 sh).
Proof.
  intros Hq. unfold with_report; cbn -[log_of]. unfold log_of; simpl.
  rewrite !lookup_insert_ne by done. by rewrite (insert_insert_ne (s_logs sh)).
Qed.

Lemma with_world_same (sh : shape W) : with_world (s_world sh) sh = sh.
Proof. by destruct sh. Qed.

Lemma step_local pid (ts : gmap Z (node C R A)) (sh : shape W) n n' o :
  ts !! pid = Some n -> local_event pid n = Some (n', o) ->
  step pid (MkSys ts sh) = Some (MkSys (<[pid := n']> ts) (reported pid o sh)).
Proof.
  intros Hn Hl. unfold step. cbn [trees shp]. rewrite Hn.
  destruct n as [r|t|X e k]; [done | by simplify_eq/= | ].
  destruct e; simplify_eq/=; try done.
  destruct (k_local c) eqn:E; [|done]. simplify_eq.
  rewrite (k_local_do _ _ _ _ E). by rewrite with_world_same.
Qed.

Lemma step_eq pid (ts : gmap Z (node C R A)) (sh : shape W) :
  step pid (MkSys ts sh) = (ts !! pid ≫= fun n => step_at pid n ts sh).
Proof. done. Qed.

(** What another process does and what it leaves untouched. *)
Lemma step_other p q (ts : gmap Z (node C R A)) (sh : shape W) n n' o :
  q <> p -> ts !! p = Some n -> local_event p n = Some (n', o) ->
  step q (MkSys (<[p := n']> ts) (reported p o sh))
  = (step q (MkSys ts sh) ≫= step p).
Proof.
  intros Hq Hn Hl.
  assert (Hset : forall t sh', step p (MkSys (set_tree q t ts) sh')
    = Some (MkSys (set_tree q t (<[p := n']> ts)) (reported p o sh'))).
  { intros t sh'. unfold set_tree.
    rewrite (step_local p _ _ n n' o); [|by rewrite lookup_insert_ne|done].
    by rewrite (insert_insert_ne ts). }
  assert (Hdel : forall sh', step p (MkSys (delete q ts) sh')
    = Some (MkSys (delete q (<[p := n']> ts)) (reported p o sh'))).
  { intros sh'. rewrite (step_local p _ _ n n' o); [|by rewrite lookup_delete_ne|done].
    by rewrite delete_insert_ne. }
  rewrite !(step_eq q), lookup_insert_ne by done.
  destruct (ts !! q) as [m|] eqn:Em; [|done]. cbn [mbind option_bind].
  destruct m as [r|t|X e k]; [done | by simpl; rewrite Hset | ].
  assert (Hw : forall want, wait_for q want (reported p o sh) = wait_for q want sh)
    by by destruct o.
  assert (Hlog : log_of q (reported p o sh) = log_of q sh).
  { destruct o; [|done]. unfold log_of; simpl. by rewrite lookup_insert_ne. }
  destruct e as [c| | | | | | | | |e| |]; cbn [step_at].
  2: { (* fork *)
    replace (s_next (reported p o sh)) with (s_next sh) by by destruct o.
    destruct (decide (s_next sh = p)) as [->|Hne].
    - by rewrite lookup_insert_eq, Hn.
    - rewrite lookup_insert_ne by done. destruct (ts !! s_next sh) eqn:En; [done|].
      cbn [mbind option_bind].
      rewrite (step_local p _ _ n n' o); [|by unfold set_tree; rewrite !lookup_insert_ne|done].
      unfold set_tree. rewrite (insert_insert_ne _ p (s_next sh)) by done.
      rewrite (insert_insert_ne ts p q) by done. by destruct o. }
  all: rewrite ?Hw, ?Hlog, ?reported_world, ?reported_info, ?reported_pipes.
  all: cbn [mbind option_bind]; rewrite ?Hset, ?Hdel; try by destruct o.
  - destruct (k_do q c (s_world sh)) as [[r w]|]; [|done].
    cbn [mbind option_bind]. rewrite Hset. by destruct o.
  - destruct (wait_for q pid sh) as [[[z st]|]|]; [| |done];
      cbn [mbind option_bind]; rewrite Hset; by destruct o.
  - destruct (s_info sh !! pid); cbn [mbind option_bind]; rewrite Hset; by destruct o.
  - destruct (decide _); [|done]. cbn [mbind option_bind]. rewrite Hset. by destruct o.
  - destruct (s_pipes sh !! p0) as [[|m ms]|]; [done| |done].
    cbn [mbind option_bind]. rewrite Hset. by destruct o.
  - destruct o; [|done]. cbn [reported]. by rewrite reports_commute.
Qed.

(** A step of one process leaves the programs of the running others alone. *)
Lemma step_keeps p q (ts ts' : gmap Z (node C R A)) (sh sh' : shape W) :
  q <> p -> step q (MkSys ts sh) = Some (MkSys ts' sh') -> is_Some (ts !! p) ->
  ts' !! p = ts !! p.
Proof.
  intros Hq Hs [n Hn]. unfold step in Hs; cbn [trees shp] in Hs.
  destruct (ts !! q) as [m|]; [|done]. unfold step_at, set_tree in Hs.
  repeat case_match; simplify_eq/=;
    rewrite ?lookup_insert_ne, ?lookup_delete_ne by congruence; done.
Qed.


(** ** Running a local event first *)

(** A finished state in which a process has returned has no other process. *)
Definition solo s : Prop :=
  forall pid n, trees s !! pid = Some n -> is_ret n = true -> trees s = {[ pid := n ]}.

Lemma local_not_ret pid n n' o : local_event pid n = Some (n', o) -> is_ret n = false.
Proof. by destruct n. Qed.

Lemma no_ret_before P p (ts : gmap Z (node C R A)) (sh sh1 : shape W) n n' :
  (forall t, P t -> solo t) -> is_ret n = false ->
  inevitable P (MkSys (<[p := n']> ts) sh1) -> ts !! p = Some n -> no_ret (MkSys ts sh).
Proof.
  intros Hsolo Hn Hi Hp r m Hm. cbn [trees] in Hm.
  destruct (decide (r = p)) as [->|Hr]; [by simplify_eq|].
  destruct (is_ret m) eqn:Em; [|done]. exfalso.
  assert (Hm1 : <[p := n']> ts !! r = Some m) by by rewrite lookup_insert_ne.
  inversion Hi as [s Hf HP | s Hnr]; subst.
  - pose proof (Hsolo _ HP r m Hm1 Em) as Hone. cbn [trees] in Hone.
    assert (Hp1 : <[p := n']> ts !! p = Some n') by apply lookup_insert_eq.
    rewrite Hone, lookup_singleton_ne in Hp1; done.
  - specialize (Hnr r m Hm1). congruence.
Qed.

(** If every run after a local event ends well, so does every run before it. *)
Lemma inevitable_local P p (ts : gmap Z (node C R A)) (sh : shape W) n n' o :
  (forall t, P t -> solo t) ->
  no_ret (MkSys ts sh) -> ts !! p = Some n -> local_event p n = Some (n', o) ->
  inevitable P (MkSys (<[p := n']> ts) (reported p o sh)) ->
  inevitable P (MkSys ts sh).
Proof.
  intros Hsolo. remember (MkSys (<[p := n']> ts) (reported p o sh)) as s1 eqn:E1.
  intros Hr Hn Hl Hi. revert ts sh E1 Hr Hn.
  induction Hi as [s1 Hf HP | s1 Hr1 Hex Hall IH]; intros ts sh -> Hr Hn.
  - assert (Hq : forall q, q <> p -> step q (MkSys ts sh) = None).
    { intros q Hq. pose proof (Hf q) as Hq1.
      rewrite (step_other p q ts sh n n' o) in Hq1 by done.
      destruct (step q (MkSys ts sh)) as [[ts' sh']|] eqn:Es; [|done].
      cbn [mbind option_bind] in Hq1.
      rewrite (step_local p _ _ n n' o) in Hq1; [done| |done].
      by rewrite (step_keeps p _ _ _ _ _ Hq Es). }
    apply inev_step; [done | eexists p, _; by apply (step_local _ _ _ n n' o) |].
    intros q s'. destruct (decide (q = p)) as [->|Hne]; [|by rewrite Hq].
    rewrite (step_local _ _ _ n n' o) by done. intros [= <-]. by apply inev_now.
  - apply inev_step; [done | eexists p, _; by apply (step_local _ _ _ n n' o) |].
    intros q [ts' sh'] Hs. destruct (decide (q = p)) as [->|Hne].
    + rewrite (step_local _ _ _ n n' o) in Hs by done. injection Hs as <- <-.
      by apply inev_step.
    + assert (Hn' : ts' !! p = Some n) by by rewrite (step_keeps p _ _ _ _ _ Hne Hs).
      assert (Hs1 : step q (MkSys (<[p:=n']> ts) (reported p o sh))
        = Some (MkSys (<[p:=n']> ts') (reported p o sh'))).
      { rewrite (step_other p q ts sh n n' o), Hs by done. cbn [mbind option_bind].
        by apply step_local with n. }
      apply (IH q _ Hs1); [done| |done].
      eapply no_ret_before; [done | by eapply local_not_ret | by apply (Hall q) | done].
Qed.

(** ** The exploration *)

(** The first process whose next event is local, and the state after it. *)
Definition next_local s : option (sys C R W A) :=
  let fix go (l : list (Z * node C R A)) :=
    match l with
    | [] => None
    | (pid, n) :: l =>
        match local_event pid n with
        | Some (n', o) => Some (MkSys (<[pid := n']> (trees s)) (reported pid o (shp s)))
        | None => go l
        end
    end in
  go (map_to_list (trees s)).

Definition solob s : bool :=
  match map_to_list (trees s) with
  | [] | [_] => true
  | l => forallb (fun x => negb (is_ret x.2)) l
  end.

Fixpoint explore_local (fuel : nat) (chk : sys C R W A -> bool) s : bool :=
  match fuel with
  | O => false
  | S fuel =>
      match next_local s with
      | Some s' => no_retb s && explore_local fuel chk s'
      | None =>
          match nexts s with
          | [] => solob s && chk s
          | l => no_retb s && forallb (explore_local fuel chk) l
          end
      end
  end.

(** One interleaving: local events first. *)
Fixpoint run_local (fuel : nat) s : sys C R W A :=
  match fuel with
  | O => s
  | S fuel =>
      match next_local s with
      | Some s' => run_local fuel s'
      | None => match nexts s with [] => s | s' :: _ => run_local fuel s' end
      end
  end.

Lemma next_local_spec s s' :
  next_local s = Some s' ->
  exists p n n' o, trees s !! p = Some n /\ local_event p n = Some (n', o)
    /\ s' = MkSys (<[p := n']> (trees s)) (reported p o (shp s)).
Proof.
  unfold next_local.
  assert (Hin : forall x, x ∈ map_to_list (trees s) -> trees s !! x.1 = Some x.2)
    by (intros [p n]; apply elem_of_map_to_list).
  induction (map_to_list (trees s)) as [|[p n] l IH]; [done|].
  destruct (local_event p n) as [[n' o]|] eqn:E.
  - intros [= <-]. exists p, n, n', o. repeat split; [|done].
    apply (Hin (p, n)). by left.
  - intros Hs. apply IH; [|done]. intros x Hx. apply Hin. by right.
Qed.

Lemma solob_spec s : solob s = true -> solo s.
Proof.
  unfold solob. intros Hb pid n Hn Hr.
  pose proof (proj2 (elem_of_map_to_list _ pid n) Hn) as Hin.
  rewrite <- (list_to_map_to_list (trees s)).
  destruct (map_to_list (trees s)) as [|x [|y l]]; [by apply not_elem_of_nil in Hin| |].
  - apply list_elem_of_singleton in Hin as <-. done.
  - pose proof (proj1 (List.forallb_forall _ _) Hb (pid, n)) as Hf.
    rewrite <- list_elem_of_In in Hf. specialize (Hf Hin). simpl in Hf. by rewrite Hr in Hf.
Qed.

(** The reduced exploration is sound for every interleaving. *)
Lemma explore_local_sound fuel chk s :
  explore_local fuel chk s = true -> inevitable (fun s' => chk s' = true) s.
Proof.
  intros He. apply inevitable_mono with (P := fun s' => solob s' && chk s' = true).
  { intros s' H. by apply andb_true_iff in H as [_ H]. }
  revert s He; induction fuel as [|fuel IH]; intros s He; [done|]. simpl in He.
  destruct (next_local s) as [s'|] eqn:El.
  - apply andb_true_iff in He as [Hr He]. apply next_local_spec in El.
    destruct El as (p & n & n' & o & Hn & Hl & ->). destruct s as [ts sh].
    eapply inevitable_local; [| |done|done|by apply IH].
    + intros t Ht. apply andb_true_iff in Ht as [Ht _]. by apply solob_spec.
    + by apply no_retb_spec.
  - destruct (nexts s) as [|s1 l] eqn:En.
    + apply inev_now; [by apply nexts_nil | done].
    + apply andb_true_iff in He as [Hr Hf]. apply inev_step.
      * by apply no_retb_spec.
      * destruct (proj1 (elem_of_nexts s s1)) as [pid Hp]; [rewrite En; by left | eauto].
      * intros pid s' Hs'. apply IH.
        apply (proj1 (List.forallb_forall _ (s1 :: l)) Hf), list_elem_of_In.
        rewrite <- En. apply elem_of_nexts. eauto.
Qed.
End Local.
