(* ===== verification/Owned.v ===== *)
(** * Exploring fewer interleavings: pipes with one reader or one writer

    A transfer through a pipe end that only one process uses commutes with every
    event of every other process, so that an exploration may run it as soon as it
    is possible, like the local events of [Explore.v].  Which process uses an end
    is declared beforehand ([reader], [writer]); the exploration checks at every
    state that the declaration is respected, and [explore_owned_sound] shows that
    its answer holds for every interleaving. *)

From S2P Require Import Prelude Tst Process Explore.

Section Owned.
Context {C R W A : Type} (K : Kernel C R W) `{L : !LocalCalls K}.
(** The only reader and the only writer of a pipe, where there is just one. *)
Variables reader writer : Z -> option Z.
Implicit Types (s : sys C R W A) (P : sys C R W A -> Prop) (ts : gmap Z (node C R A))
  (sh : shape W).

Definition owner_is (o : option Z) (pid : Z) : bool :=
  match o with Some p => p =? pid | None => true end.

(** The event of process [pid] uses only ends it may use. *)
Definition allowed (pid : Z) (n : node C R A) : bool :=
  match n with
  | VisF (PipeRead p) _ => owner_is (reader p) pid
  | VisF (PipeWrite p _) _ => owner_is (writer p) pid
  | _ => true
  end.

Definition respects s : Prop := forall pid n, trees s !! pid = Some n -> allowed pid n = true.

Definition respectsb s : bool :=
  forallb (fun x => allowed x.1 x.2) (map_to_list (trees s)).

Definition owned (o : option Z) (pid : Z) : bool :=
  match o with Some p => p =? pid | None => false end.

(** A transfer of [pid] through an end it owns: its next node and the new content
    of the pipe. *)
Definition owned_event (pid : Z) (n : node C R A) sh : option (node C R A * (Z * list (list Z))) :=
  match n with
  | VisF e k =>
      match e in sysE _ _ X
        return (X -> itree (sysE C R) A) -> option (node C R A * (Z * list (list Z))) with
      | PipeRead p => fun k =>
          match s_pipes sh !! p with
          | Some (m :: ms) =>
              if owned (reader p) pid then Some (observe (k (Some m)), (p, ms)) else None
          | _ => None
          end
      | PipeWrite p m => fun k =>
          if owned (writer p) pid
          then Some (observe (k true), (p, default [] (s_pipes sh !! p) ++ [m])) else None
      | _ => fun _ => None
      end k
  | _ => None
  end.

Lemma owned_step pid ts sh n n' p ms :
  ts !! pid = Some n -> owned_event pid n sh = Some (n', (p, ms)) ->
  step pid (MkSys ts sh) = Some (MkSys (<[pid := n']> ts) (with_pipe p ms sh)).
Proof.
  intros Hn Ho. unfold step. cbn [trees shp]. rewrite Hn.
  destruct n as [r|t|X e k]; [done|done|].
  destruct e; try done; cbn [owned_event step_at] in *.
  - destruct (s_pipes sh !! p0) as [[|m l]|]; try done. by destruct (owned _ _); simplify_eq.
  - by destruct (owned _ _); simplify_eq.
Qed.

Lemma owned_excludes o pid q : owned o pid = true -> owner_is o q = true -> q = pid.
Proof. destruct o; simpl; [|done]. intros ->%Z.eqb_eq ->%Z.eqb_eq. done. Qed.

Definition on_pipe (n : node C R A) : option Z :=
  match n with
  | VisF (PipeRead p) _ | VisF (PipeWrite p _) _ => Some p
  | _ => None
  end.

(** The system in which [p] is at [n'] and pipe [pp] holds [ms]. *)
Definition moved (p : Z) (n' : node C R A) (pp : Z) (ms : list (list Z)) s : sys C R W A :=
  MkSys (<[p := n']> (trees s)) (with_pipe pp ms (shp s)).

(** Steps of other processes that have nothing to do with pipes. *)
Lemma step_off_pipe p q ts sh n n' pp ms m :
  q <> p -> ts !! p = Some n -> ts !! q = Some m -> on_pipe m = None ->
  step_at q m (<[p := n']> ts) (with_pipe pp ms sh) = moved p n' pp ms <$> step_at q m ts sh.
Proof.
  intros Hq Hn Hm Hp. unfold moved.
  assert (Hset : forall t, set_tree q t (<[p := n']> ts) = <[p := n']> (set_tree q t ts)).
  { intros t. unfold set_tree. by rewrite insert_insert_ne. }
  assert (Hdel : delete q (<[p := n']> ts) = <[p := n']> (delete q ts)).
  { by rewrite delete_insert_ne. }
  destruct m as [r|t|X e k]; [done|by simpl; rewrite Hset|].
  destruct e; try done; cbn [step_at].
  2: { change (s_next (with_pipe pp ms sh)) with (s_next sh). rewrite Hset.
       destruct (decide (s_next sh = p)) as [->|Hne].
       - by rewrite lookup_insert_eq, Hn.
       - rewrite lookup_insert_ne by done. destruct (ts !! s_next sh); [done|].
         simpl. unfold set_tree at 1 3. by rewrite (insert_insert_ne _ p (s_next sh)). }
  all: change (wait_for ?a ?b (with_pipe pp ms sh)) with (wait_for a b sh).
  all: cbn [s_world s_info with_pipe]; change (log_of q (with_pipe pp ms sh)) with (log_of q sh).
  all: rewrite ?Hdel; try (rewrite Hset; done).
  - destruct (k_do q c (s_world sh)) as [[? ?]|]; [by rewrite Hset|done].
  - destruct (wait_for q pid sh) as [[[? ?]|]|]; [by rewrite Hset|by rewrite Hset|done].
  - destruct (s_info sh !! pid); by rewrite Hset.
  - destruct (decide _); [by rewrite Hset|done].
  - done.
  - done.
Qed.

Lemma step_off_pipe_pipes q m ts sh s2 :
  on_pipe m = None -> step_at q m ts sh = Some s2 -> s_pipes (shp s2) = s_pipes sh.
Proof.
  intros Hp Hs. destruct m as [r|t|X e k]; [done|by simplify_eq/=|].
  destruct e; try done; cbn [step_at] in Hs; repeat case_match; by simplify_eq/=.
Qed.

Lemma with_pipe_ne p1 p2 m1 m2 sh :
  p1 <> p2 -> with_pipe p1 m1 (with_pipe p2 m2 sh) = with_pipe p2 m2 (with_pipe p1 m1 sh).
Proof. intros Hp. unfold with_pipe; simpl. by rewrite insert_insert_ne. Qed.

Lemma with_pipe_eq p1 m1 m2 sh : with_pipe p1 m1 (with_pipe p1 m2 sh) = with_pipe p1 m1 sh.
Proof. unfold with_pipe; simpl. by rewrite insert_insert_eq. Qed.

(** A transfer through an owned end and a step of another process commute. *)
Lemma owned_commutes p q ts sh n n' pp ms s2 :
  q <> p -> respects (MkSys ts sh) -> ts !! p = Some n ->
  owned_event p n sh = Some (n', (pp, ms)) ->
  step q (MkSys ts sh) = Some s2 ->
  exists ms', step q (MkSys (<[p := n']> ts) (with_pipe pp ms sh)) = Some (moved p n' pp ms' s2)
    /\ owned_event p n (shp s2) = Some (n', (pp, ms')).
Proof.
  intros Hq Hok Hn Ho Hs. rewrite step_eq in Hs |- *. rewrite lookup_insert_ne by done.
  destruct (ts !! q) as [m|] eqn:Em; [|done]. cbn [mbind option_bind] in *.
  destruct (on_pipe m) as [pm|] eqn:Epm.
  2: { exists ms. rewrite (step_off_pipe p q ts sh n n' pp ms m), Hs by done.
       split; [done|]. apply step_off_pipe_pipes in Hs; [|done].
       unfold owned_event in *. by rewrite Hs. }
  pose proof (Hok q m Em) as Hmq. clear Hok.
  assert (Hset : forall t, set_tree q t (<[p := n']> ts) = <[p := n']> (set_tree q t ts)).
  { intros t. unfold set_tree. by rewrite insert_insert_ne. }
  destruct n as [r|t|X e k]; [done|done|].
  destruct e as [| | | | | | |pr|pw x| | |]; try done;
    destruct m as [r'|t'|X' e' k']; try done; destruct e'; try done; simplify_eq/=;
    unfold moved; cbn [trees shp].
  - (* both read, from different pipes *)
    destruct (s_pipes sh !! pr) as [[|m l]|] eqn:Er; try done.
    destruct (owned (reader pr) p) eqn:Eo; [|done]. simplify_eq.
    assert (Hne : pp <> pm) by (intros ->; by pose proof (owned_excludes _ _ _ Eo Hmq)).
    rewrite lookup_insert_ne by done.
    destruct (s_pipes sh !! pm) as [[|m' l']|] eqn:Em'; try done. simplify_eq/=.
    exists ms. rewrite Hset, lookup_insert_ne, Er, with_pipe_ne by done. done.
  - (* [p] reads, [q] writes *)
    destruct (s_pipes sh !! pr) as [[|m' l]|] eqn:Er; try done.
    destruct (owned (reader pr) p) eqn:Eo; [|done]. simplify_eq.
    destruct (decide (pp = pm)) as [->|Hne].
    + exists (ms ++ [m]). rewrite Hset, !lookup_insert_eq, Er, !with_pipe_eq. done.
    + exists ms. rewrite Hset, !lookup_insert_ne, Er, with_pipe_ne by done. done.
  - (* [p] writes, [q] reads *)
    destruct (owned (writer pw) p) eqn:Eo; [|done]. simplify_eq.
    destruct (s_pipes sh !! pm) as [[|m' l']|] eqn:Em'; try done. simplify_eq/=.
    destruct (decide (pp = pm)) as [->|Hne].
    + exists (l' ++ [x]). rewrite !lookup_insert_eq, Em'. simpl. rewrite Hset, !with_pipe_eq. done.
    + eexists. rewrite !lookup_insert_ne, Em', with_pipe_ne by done. rewrite Hset. done.
  - (* both write, to different pipes *)
    destruct (owned (writer pw) p) eqn:Eo; [|done]. simplify_eq.
    assert (Hne : pp <> pm) by (intros ->; by pose proof (owned_excludes _ _ _ Eo Hmq)).
    eexists. rewrite Hset, !lookup_insert_ne, with_pipe_ne by done. done.
Qed.

(** ** Events that may run first *)

(** A local event or a transfer through an owned end: what it leads to. *)
Definition quiet_event (pid : Z) (n : node C R A) sh : option (node C R A * shape W) :=
  match local_event K pid n with
  | Some (n', o) => Some (n', reported pid o sh)
  | None =>
      match owned_event pid n sh with
      | Some (n', (p, ms)) => Some (n', with_pipe p ms sh)
      | None => None
      end
  end.

Lemma quiet_step pid ts sh n n' sh' :
  ts !! pid = Some n -> quiet_event pid n sh = Some (n', sh') ->
  step pid (MkSys ts sh) = Some (MkSys (<[pid := n']> ts) sh').
Proof.
  unfold quiet_event. intros Hn Hq.
  destruct (local_event K pid n) as [[n1 o]|] eqn:El.
  - simplify_eq. by apply (step_local K pid ts sh n).
  - destruct (owned_event pid n sh) as [[n1 [p ms]]|] eqn:Eo; [|done]. simplify_eq.
    by apply (owned_step pid ts sh n).
Qed.

Lemma quiet_not_ret pid n sh n' sh' : quiet_event pid n sh = Some (n', sh') -> is_ret n = false.
Proof. by destruct n. Qed.

(** It commutes with every step of another process. *)
Lemma quiet_commutes p q ts sh n n' sh' ts2 sh2 :
  q <> p -> respects (MkSys ts sh) -> ts !! p = Some n ->
  quiet_event p n sh = Some (n', sh') ->
  step q (MkSys ts sh) = Some (MkSys ts2 sh2) ->
  exists sh3, step q (MkSys (<[p := n']> ts) sh') = Some (MkSys (<[p := n']> ts2) sh3)
    /\ quiet_event p n sh2 = Some (n', sh3).
Proof.
  intros Hq Hok Hn Hqe Hs. unfold quiet_event in *.
  destruct (local_event K p n) as [[n1 o]|] eqn:El.
  - simplify_eq. exists (reported p o sh2). split; [|done].
    rewrite (step_other K p q ts sh n n' o), Hs by done. cbn [mbind option_bind].
    apply (step_local K p ts2 sh2 n); [|done]. rewrite <- Hn.
    by apply (step_keeps K p q ts ts2 sh sh2).
  - destruct (owned_event p n sh) as [[n1 [pp ms]]|] eqn:Eo; [|done]. simplify_eq.
    destruct (owned_commutes p q ts sh n n' pp ms _ Hq Hok Hn Eo Hs) as (ms' & H1 & H2).
    exists (with_pipe pp ms' sh2). cbn [shp] in H2. by rewrite H2.
Qed.
(** ** Runs that respect the declaration *)

(** [inevitable] with every state on the way respecting the declared ends. *)
Inductive governed P : sys C R W A -> Prop :=
| gov_now s : respects s -> final s -> P s -> governed P s
| gov_step s :
    respects s -> no_ret s ->
    (exists pid s', step pid s = Some s') ->
    (forall pid s', step pid s = Some s' -> governed P s') ->
    governed P s.

Lemma governed_inevitable P s : governed P s -> inevitable P s.
Proof. induction 1; [by apply inev_now | by apply inev_step]. Qed.

Lemma governed_respects P s : governed P s -> respects s.
Proof. by destruct 1. Qed.

(** The state before an event respects the declaration when the state after it
    does and the event itself is allowed. *)
Lemma respects_before p ts (sh sh1 : shape W) n n' :
  ts !! p = Some n -> allowed p n = true ->
  respects (MkSys (<[p := n']> ts) sh1) -> respects (MkSys ts sh).
Proof.
  intros Hn Ha Hok r m Hm. cbn [trees] in *. destruct (decide (r = p)) as [->|Hr].
  - by simplify_eq.
  - apply Hok. cbn [trees]. by rewrite lookup_insert_ne.
Qed.

(** If every run after a quiet event ends well, so does every run before it. *)
Lemma governed_quiet P p ts sh n n' sh' :
  (forall t, P t -> solo t) ->
  no_ret (MkSys ts sh) -> respects (MkSys ts sh) ->
  ts !! p = Some n -> quiet_event p n sh = Some (n', sh') ->
  governed P (MkSys (<[p := n']> ts) sh') -> governed P (MkSys ts sh).
Proof.
  intros Hsolo. remember (MkSys (<[p := n']> ts) sh') as s1 eqn:E1.
  intros Hr Hok Hn Hq Hg. revert ts sh sh' E1 Hr Hok Hn Hq.
  induction Hg as [s1 Hok1 Hf HP | s1 Hok1 Hr1 Hex Hall IH]; intros ts sh sh' -> Hr Hok Hn Hq.
  - assert (Hone : forall q, q <> p -> step q (MkSys ts sh) = None).
    { intros q Hne. destruct (step q (MkSys ts sh)) as [[ts2 sh2]|] eqn:Es; [|done].
      destruct (quiet_commutes p q ts sh n n' sh' ts2 sh2) as (sh3 & H3 & _); try done.
      by rewrite (Hf q) in H3. }
    apply gov_step; [done | done | eexists p, _; by apply (quiet_step _ _ _ n) |].
    intros q s'. destruct (decide (q = p)) as [->|Hne]; [|by rewrite Hone].
    rewrite (quiet_step _ _ _ n n' sh') by done. intros [= <-]. by apply gov_now.
  - apply gov_step; [done | done | eexists p, _; by apply (quiet_step _ _ _ n) |].
    intros q [ts2 sh2] Hs. destruct (decide (q = p)) as [->|Hne].
    + rewrite (quiet_step _ _ _ n n' sh') in Hs by done. injection Hs as <- <-.
      by apply gov_step.
    + destruct (quiet_commutes p q ts sh n n' sh' ts2 sh2) as (sh3 & H3 & Hq2); try done.
      assert (Hn2 : ts2 !! p = Some n) by by rewrite (step_keeps K p q _ _ _ _ Hne Hs).
      pose proof (Hall q _ H3) as Hg3.
      apply (IH q _ H3 ts2 sh2 sh3); [done| | |done|done].
      * eapply no_ret_before; [done | by eapply quiet_not_ret | | done].
        by apply governed_inevitable, (Hall q).
      * eapply respects_before; [done | by apply (Hok p) | by apply (governed_respects P)].
Qed.

(** ** The exploration *)

(** The first process with a quiet event, and the state after it. *)
Definition next_quiet s : option (sys C R W A) :=
  let fix go (l : list (Z * node C R A)) :=
    match l with
    | [] => None
    | (pid, n) :: l =>
        match quiet_event pid n (shp s) with
        | Some (n', sh') => Some (MkSys (<[pid := n']> (trees s)) sh')
        | None => go l
        end
    end in
  go (map_to_list (trees s)).

Fixpoint explore_owned (fuel : nat) (chk : sys C R W A -> bool) s : bool :=
  match fuel with
  | O => false
  | S fuel =>
      respectsb s &&
      match next_quiet s with
      | Some s' => no_retb s && explore_owned fuel chk s'
      | None =>
          match nexts s with
          | [] => solob s && chk s
          | l => no_retb s && forallb (explore_owned fuel chk) l
          end
      end
  end.

Lemma next_quiet_spec s s' :
  next_quiet s = Some s' ->
  exists p n n' sh', trees s !! p = Some n /\ quiet_event p n (shp s) = Some (n', sh')
    /\ s' = MkSys (<[p := n']> (trees s)) sh'.
Proof.
  unfold next_quiet.
  assert (Hin : forall x, x ∈ map_to_list (trees s) -> trees s !! x.1 = Some x.2)
    by (intros [p n]; apply elem_of_map_to_list).
  induction (map_to_list (trees s)) as [|[p n] l IH]; [done|].
  destruct (quiet_event p n (shp s)) as [[n' sh']|] eqn:E.
  - intros [= <-]. exists p, n, n', sh'. repeat split; [|done].
    apply (Hin (p, n)). by left.
  - intros Hs. apply IH; [|done]. intros x Hx. apply Hin. by right.
Qed.

Lemma respectsb_spec s : respectsb s = true -> respects s.
Proof.
  intros Hb pid n Hn. apply (proj1 (List.forallb_forall _ _) Hb (pid, n)).
  apply list_elem_of_In. by apply elem_of_map_to_list.
Qed.

(** The exploration is sound for every interleaving. *)
Lemma explore_owned_sound fuel chk s :
  explore_owned fuel chk s = true -> inevitable (fun s' => chk s' = true) s.
Proof.
  intros He. apply inevitable_mono with (P := fun s' => solob s' && chk s' = true).
  { intros s' H. by apply andb_true_iff in H as [_ H]. }
  apply governed_inevitable.
  revert s He; induction fuel as [|fuel IH]; intros s He; [done|]. simpl in He.
  apply andb_true_iff in He as [Hok%respectsb_spec He].
  destruct (next_quiet s) as [s'|] eqn:El.
  - apply andb_true_iff in He as [Hr He]. apply next_quiet_spec in El.
    destruct El as (p & n & n' & sh' & Hn & Hl & ->). destruct s as [ts sh].
    eapply governed_quiet; [| |done|done|done|by apply IH].
    + intros t Ht. apply andb_true_iff in Ht as [Ht _]. by apply solob_spec.
    + by apply no_retb_spec.
  - destruct (nexts s) as [|s1 l] eqn:En.
    + apply gov_now; [done | by apply nexts_nil | done].
    + apply andb_true_iff in He as [Hr Hf]. apply gov_step; [done| | |].
      * by apply no_retb_spec.
      * destruct (proj1 (elem_of_nexts s s1)) as [pid Hp]; [rewrite En; by left | eauto].
      * intros pid s' Hs'. apply IH.
        apply (proj1 (List.forallb_forall _ (s1 :: l)) Hf), list_elem_of_In.
        rewrite <- En. apply elem_of_nexts. eauto.
Qed.
End Owned.
