(* ===== verification/Layers.v ===== *)
(** * Exploring every state once

    [explore_local] follows every interleaving by itself, although most of them meet again
    in the same state.  Programs are functions and cannot be compared; but a process
    is where it is because of the answers it got.  [layers] explores a system breadth
    first; a table numbers the histories of answers that occur, and of the states of a
    layer that have the same numbers and the same shape one is kept.  A state can only be met
    again after the same number of events, so that it suffices to compare the states of a layer.
    [layers_sound]: the answer holds for every interleaving. *)

From S2P Require Import Prelude Tst Process Explore.

(** The answer to an event. *)
Inductive ans (R : Type) :=
| AUnit | AReply (r : R) | AInt (z : Z) | APair (z : Z * Z) | AMsg (m : option (list Z)) | ABool (b : bool).

Arguments AUnit {R}.
Arguments AReply {R} r.
Arguments AInt {R} z.
Arguments APair {R} z.
Arguments AMsg {R} m.
Arguments ABool {R} b.

#[export] Instance ans_eq_dec {R} `{EqDecision R} : EqDecision (ans R).
Proof. solve_decision. Defined.

Section Layers.
Context {C R W A : Type} (K : Kernel C R W) `{L : !LocalCalls K, EqDecision R, EqDecision W}.
Implicit Types (s : sys C R W A) (n : node C R A).

(** A program after an answer. *)
Definition feed n (a : ans R) : option (node C R A) :=
  match n with
  | RetF _ => None
  | TauF t => match a with AUnit => Some (observe t) | _ => None end
  | VisF e k =>
      match e in sysE _ _ X return (X -> itree (sysE C R) A) -> option (node C R A) with
      | Sys _ => fun k => match a with AReply r => Some (observe (k r)) | _ => None end
      | Fork | Getpid | Kill _ _ | SigChld _ => fun k =>
          match a with AInt z => Some (observe (k z)) | _ => None end
      | Waitpid _ => fun k => match a with APair z => Some (observe (k z)) | _ => None end
      | Sigpause _ | Report _ => fun k => match a with AUnit => Some (observe (k tt)) | _ => None end
      | PipeRead _ => fun k => match a with AMsg m => Some (observe (k m)) | _ => None end
      | PipeWrite _ _ => fun k => match a with ABool b => Some (observe (k b)) | _ => None end
      | TstExit | Exit _ => fun _ => None
      end k
  end.

(** ** Histories by numbers

    The table gives a number to every history that occurs: the program it leads to, and
    the numbers of the histories with one more answer. *)
Record table := Table {
  t_next : Z;
  t_nodes : gmap Z (node C R A);
  t_more : gmap Z (list (ans R * Z))
}.

Implicit Types (tb : table) (ids : gmap Z Z).

(** History [i] and the answer [a]. *)
Definition intern tb (i : Z) (a : ans R) : Z * table :=
  let more := default [] (t_more tb !! i) in
  match List.find (fun x => bool_decide (x.1 = a)) more with
  | Some (_, j) => (j, tb)
  | None =>
      match t_nodes tb !! i ≫= fun n => feed n a with
      | Some n =>
          (t_next tb, Table (t_next tb + 1) (<[t_next tb := n]> (t_nodes tb))
                        (<[i := (a, t_next tb) :: more]> (t_more tb)))
      | None => (i, tb)
      end
  end.

(** What an event gives a process: an answer, a child, or its end. *)
Inductive move := Goes (a : ans R) | Forks (child : Z) | Ends | Stays.

Definition move_event {X : Type} (pid : Z) (sh : shape W) (e : sysE C R X) : move :=
  match e with
  | Sys c => match k_do pid c (s_world sh) with Some (r, _) => Goes (AReply r) | None => Stays end
  | Fork => Forks (s_next sh)
  | Getpid => Goes (AInt pid)
  | Waitpid want => match wait_for pid want sh with Some r => Goes (APair (default (-1, 0) r)) | None => Stays end
  | Kill target _ => Goes (AInt (if s_info sh !! target then 0 else -1))
  | Sigpause _ | Report _ => Goes AUnit
  | SigChld _ => Goes (AInt 0)
  | PipeRead p => Goes (AMsg (match s_pipes sh !! p with Some (m :: _) => Some m | _ => None end))
  | PipeWrite _ _ => Goes (ABool true)
  | TstExit | Exit _ => Ends
  end.

Definition move_node (pid : Z) (sh : shape W) n : move :=
  match n with
  | RetF _ => Stays
  | TauF _ => Goes AUnit
  | VisF e _ => move_event pid sh e
  end.

(** The histories after the next event of process [pid]. *)
Definition record_move tb (pid : Z) ids (m : move) : gmap Z Z * table :=
  let i := default 0 (ids !! pid) in
  match m with
  | Goes a => let (j, tb) := intern tb i a in (<[pid := j]> ids, tb)
  | Forks child =>
      let (j, tb) := intern tb i (AInt child) in
      let (k, tb) := intern tb i (AInt 0) in
      (<[child := k]> (<[pid := j]> ids), tb)
  | Ends => (delete pid ids, tb)
  | Stays => (ids, tb)
  end.

Definition record tb (pid : Z) ids s : gmap Z Z * table :=
  match trees s !! pid with
  | Some n => record_move tb pid ids (move_node pid (shp s) n)
  | None => (ids, tb)
  end.

(** *** The numbers are right *)

Definition table_ok tb : Prop :=
  (forall i, is_Some (t_nodes tb !! i) -> i < t_next tb) /\
  (forall i l a j, t_more tb !! i = Some l -> (a, j) ∈ l ->
     exists n n', t_nodes tb !! i = Some n /\ feed n a = Some n' /\ t_nodes tb !! j = Some n').

Definition known tb (x : gmap Z Z * sys C R W A) : Prop :=
  forall pid, match trees x.2 !! pid, x.1 !! pid with
              | Some n, Some i => t_nodes tb !! i = Some n
              | None, None => True
              | _, _ => False
              end.

Lemma known_mono tb tb' x : t_nodes tb ⊆ t_nodes tb' -> known tb x -> known tb' x.
Proof.
  intros Hs Hk pid. specialize (Hk pid). destruct (trees x.2 !! pid), (x.1 !! pid); [|done..].
  by eapply lookup_weaken.
Qed.

Lemma intern_spec tb i a n n' j tb' :
  table_ok tb -> t_nodes tb !! i = Some n -> feed n a = Some n' -> intern tb i a = (j, tb') ->
  table_ok tb' /\ t_nodes tb ⊆ t_nodes tb' /\ t_nodes tb' !! j = Some n'.
Proof.
  intros [Hlt Hmore] Hn Hf. unfold intern. destruct (List.find _ _) as [[a' j']|] eqn:E.
  - apply List.find_some in E as [Hin Ha]. apply bool_decide_eq_true in Ha. cbn in Ha. subst a'.
    intros [= <- <-]. split; [done|]. split; [done|].
    destruct (t_more tb !! i) as [l|] eqn:El; [|done].
    apply list_elem_of_In in Hin. destruct (Hmore i l a j' El Hin) as (m & m' & ? & ? & ?). by simplify_eq.
  - rewrite Hn. cbn. rewrite Hf. intros [= <- <-]. cbn [t_nodes].
    assert (Hnew : t_nodes tb !! t_next tb = None).
    { apply eq_None_not_Some. intros H. specialize (Hlt _ H). lia. }
    assert (Hsub : t_nodes tb ⊆ <[t_next tb := n']> (t_nodes tb)) by by apply insert_subseteq.
    split; [|split; [done | by rewrite lookup_insert_eq]]. split; cbn [t_nodes t_next t_more].
    + intros k Hk. destruct (decide (k = t_next tb)) as [->|Hne]; [lia|].
      rewrite lookup_insert_ne in Hk by done. specialize (Hlt _ Hk). lia.
    + intros k l b m. destruct (decide (k = i)) as [->|Hne].
      * rewrite lookup_insert_eq. intros [= <-] [[= -> ->]|Hin]%elem_of_cons.
        { exists n, n'. split; [by eapply lookup_weaken|]. split; [done | by rewrite lookup_insert_eq]. }
        destruct (t_more tb !! i) as [l|] eqn:El; [|by apply not_elem_of_nil in Hin].
        destruct (Hmore i l b m El Hin) as (p & p' & ? & ? & ?).
        exists p, p'. split; [by eapply lookup_weaken|]. split; [done | by eapply lookup_weaken].
      * rewrite lookup_insert_ne by done. intros El Hin.
        destruct (Hmore k l b m El Hin) as (p & p' & ? & ? & ?).
        exists p, p'. split; [by eapply lookup_weaken|]. split; [done | by eapply lookup_weaken].
Qed.

(** A process goes on after an answer. *)
Lemma record_goes tb pid ids s a n t ids' tb' sh :
  table_ok tb -> known tb (ids, s) -> trees s !! pid = Some n -> feed n a = Some (observe t) ->
  record_move tb pid ids (Goes a) = (ids', tb') ->
  table_ok tb' /\ t_nodes tb ⊆ t_nodes tb' /\ known tb' (ids', MkSys (set_tree pid t (trees s)) sh).
Proof.
  intros Ht Hk Hn Hf. unfold record_move. pose proof (Hk pid) as Hp. cbn in Hp. rewrite Hn in Hp.
  destruct (ids !! pid) as [i|] eqn:Ei; [|done]. cbn [default from_option id].
  destruct (intern tb i a) as [j tb1] eqn:E. intros [= <- <-].
  destruct (intern_spec _ _ _ _ _ _ _ Ht Hp Hf E) as (H1 & H2 & H3). split; [done|]. split; [done|].
  intros q. pose proof (known_mono _ _ _ H2 Hk q) as Hq. unfold set_tree. cbn [fst snd trees] in *.
  destruct (decide (q = pid)) as [->|Hne]; [by rewrite !lookup_insert_eq | by rewrite !lookup_insert_ne].
Qed.

Lemma record_ends tb pid ids s sh :
  known tb (ids, s) -> known tb (delete pid ids, MkSys (delete pid (trees s)) sh).
Proof.
  intros Hk q. specialize (Hk q). cbn [fst snd trees] in *.
  destruct (decide (q = pid)) as [->|Hne]; [by rewrite !lookup_delete_eq | by rewrite !lookup_delete_ne].
Qed.

Lemma record_forks tb pid child ids s n t t0 ids' tb' sh :
  table_ok tb -> known tb (ids, s) -> trees s !! pid = Some n -> child <> pid ->
  feed n (AInt child) = Some (observe t) -> feed n (AInt 0) = Some (observe t0) ->
  record_move tb pid ids (Forks child) = (ids', tb') ->
  table_ok tb' /\ t_nodes tb ⊆ t_nodes tb' /\
  known tb' (ids', MkSys (set_tree child t0 (set_tree pid t (trees s))) sh).
Proof.
  intros Ht Hk Hn Hne Hf Hf0. unfold record_move. pose proof (Hk pid) as Hp. cbn in Hp. rewrite Hn in Hp.
  destruct (ids !! pid) as [i|] eqn:Ei; [|done]. cbn [default from_option id].
  destruct (intern tb i (AInt child)) as [j tb1] eqn:E1.
  destruct (intern_spec _ _ _ _ _ _ _ Ht Hp Hf E1) as (H1 & H2 & H3).
  destruct (intern tb1 i (AInt 0)) as [k tb2] eqn:E2. intros [= <- <-].
  destruct (intern_spec _ _ _ _ _ _ _ H1 (lookup_weaken _ _ _ _ Hp H2) Hf0 E2) as (H4 & H5 & H6).
  split; [done|]. split; [by etrans|]. intros q.
  pose proof (known_mono _ _ _ (transitivity H2 H5) Hk q) as Hq. unfold set_tree. cbn [fst snd trees] in *.
  destruct (decide (q = child)) as [->|Hc]; [by rewrite !lookup_insert_eq|].
  rewrite (lookup_insert_ne _ child), (lookup_insert_ne (M := gmap Z) _ child) by done.
  destruct (decide (q = pid)) as [->|Hq']; [|by rewrite !lookup_insert_ne].
  rewrite !lookup_insert_eq. by eapply lookup_weaken.
Qed.

Lemma record_step tb pid ids s s' ids' tb' :
  table_ok tb -> known tb (ids, s) -> step pid s = Some s' -> record tb pid ids s = (ids', tb') ->
  table_ok tb' /\ t_nodes tb ⊆ t_nodes tb' /\ known tb' (ids', s').
Proof.
  intros Ht Hk Hs Hr. unfold record in Hr. unfold step in Hs.
  destruct (trees s !! pid) as [n|] eqn:Hn; [|done].
  destruct n as [r|t|X e k]; cbn [step_at move_node] in Hs, Hr; [done | | ].
  { injection Hs as <-. by (eapply record_goes; [exact Ht|exact Hk|exact Hn| |exact Hr]). }
  destruct e; cbn [step_at move_event] in *; try (injection Hs as <-; by (eapply record_goes; [exact Ht|exact Hk|exact Hn| |exact Hr]));
    try (injection Hs as <-; cbn in Hr; injection Hr as <- <-; split_and!; [done|done|by apply record_ends]).
  - destruct (k_do pid c (s_world (shp s))) as [[r w]|]; [|done]. injection Hs as <-. by (eapply record_goes; [exact Ht|exact Hk|exact Hn| |exact Hr]).
  - destruct (trees s !! s_next (shp s)) eqn:Hf; [done|]. injection Hs as <-.
    eapply record_forks; [done|done|exact Hn|congruence|done|done|exact Hr].
  - destruct (wait_for pid pid0 (shp s)) as [[[c st]|]|]; [| |done]; injection Hs as <-; by (eapply record_goes; [exact Ht|exact Hk|exact Hn| |exact Hr]).
  - destruct (s_info (shp s) !! pid0); injection Hs as <-; by (eapply record_goes; [exact Ht|exact Hk|exact Hn| |exact Hr]).
  - destruct (decide _); [|done]. injection Hs as <-. by (eapply record_goes; [exact Ht|exact Hk|exact Hn| |exact Hr]).
  - destruct (s_pipes (shp s) !! p) as [[|m ms]|]; [done| |done]. injection Hs as <-. by (eapply record_goes; [exact Ht|exact Hk|exact Hn| |exact Hr]).
Qed.

(** ** The exploration *)

Abbreviation state := (gmap Z Z * sys C R W A)%type.

(** The first process whose next event is local. *)
Definition local_pid s : option Z :=
  fst <$> List.find (fun x => bool_decide (is_Some (local_event K x.1 x.2))) (map_to_list (trees s)).

(** The processes to follow in a state. *)
Definition to_follow s : list Z :=
  match local_pid s with Some p => [p] | None => map fst (map_to_list (trees s)) end.

(** The states after [x] by an event of one of the processes [pids]. *)
Fixpoint successors tb (x : state) (pids : list Z) : list state * table :=
  match pids with
  | [] => ([], tb)
  | p :: pids =>
      match step p x.2 with
      | None => successors tb x pids
      | Some s' =>
          let (ids, tb) := record tb p x.1 x.2 in
          let (l, tb) := successors tb x pids in
          ((ids, s') :: l, tb)
      end
  end.

(** The states after the states [l], state by state. *)
Fixpoint successors_all tb (l : list state) : list (list state) * table :=
  match l with
  | [] => ([], tb)
  | x :: l =>
      let (ys, tb) := successors tb x (to_follow x.2) in
      let (yss, tb) := successors_all tb l in
      (ys :: yss, tb)
  end.

Definition same_state (x y : state) : bool :=
  if bool_decide (x.1 = y.1) then bool_decide (shp x.2 = shp y.2) else false.

(** States that are the same have the same key. *)
Definition key ids : Z := foldr (fun x k => k * 4096 + x.2) 1 (map_to_list ids).

Definition add_state (x : state) (m : gmap Z (list state)) : gmap Z (list state) :=
  let k := key x.1 in
  let old := default [] (m !! k) in
  if existsb (same_state x) old then m else <[k := x :: old]> m.

(** One of the states that are the same. *)
Definition merge (l : list state) : list state := concat (map snd (map_to_list (foldr add_state ∅ l))).

(** A state is final and satisfies [chk], or it goes on. *)
Definition fine (chk : sys C R W A -> bool) (x : state) (next : list state) : bool :=
  match next with [] => solob x.2 && chk x.2 | _ => no_retb x.2 end.

Fixpoint layers (fuel : nat) (chk : sys C R W A -> bool) tb (l : list state) : bool :=
  match l, fuel with
  | [], _ => true
  | _, O => false
  | _, S fuel =>
      let (next, tb) := successors_all tb l in
      if forallb (fun y => fine chk y.1 y.2) (combine l next)
      then layers fuel chk tb (merge (concat next)) else false
  end.

(** The sizes of the layers. *)
Fixpoint widths (fuel : nat) tb (l : list state) : list nat :=
  match l, fuel with
  | [], _ | _, O => []
  | _, S fuel =>
      let (next, tb) := successors_all tb l in length l :: widths fuel tb (merge (concat next))
  end.

(** One process, and the table that knows its program. *)
Definition alone_table n : table := Table 1 {[0 := n]} ∅.
Definition alone_state (p : Z) n (sh : shape W) : state := ({[p := 0]}, MkSys {[p := n]} sh).

Definition explore_layers (fuel : nat) (chk : sys C R W A -> bool) (p : Z) n (sh : shape W) : bool :=
  layers fuel chk (alone_table n) [alone_state p n sh].

(** ** Soundness *)

Lemma known_inj tb x y : known tb x -> known tb y -> same_state x y = true -> x.2 = y.2.
Proof.
  destruct x as [h1 [t1 s1]], y as [h2 [t2 s2]]. unfold same_state, known. cbn. intros H1 H2 Hs.
  destruct (bool_decide (h1 = h2)) eqn:Hh; [|done]. apply bool_decide_eq_true in Hh as ->, Hs as ->.
  f_equal. apply map_eq. intros p. specialize (H1 p). specialize (H2 p).
  destruct (t1 !! p), (t2 !! p), (h2 !! p); congruence || done.
Qed.

Lemma elem_of_merge l x :
  x ∈ merge l <-> exists k b, foldr add_state ∅ l !! k = Some b /\ x ∈ b.
Proof.
  unfold merge. rewrite list_elem_of_In, in_concat. split.
  - intros (b & Hb & Hx). apply in_map_iff in Hb as ([k b'] & <- & Hb).
    exists k, b'. split; [by apply elem_of_map_to_list, list_elem_of_In | by apply list_elem_of_In].
  - intros (k & b & Hk & Hx). exists b. split; [|by apply list_elem_of_In].
    apply in_map_iff. exists (k, b). split; [done|]. by apply list_elem_of_In, elem_of_map_to_list.
Qed.

Lemma elem_of_add m x y :
  (exists k b, add_state x m !! k = Some b /\ y ∈ b) ->
  y = x \/ exists k b, m !! k = Some b /\ y ∈ b.
Proof.
  unfold add_state. intros (k & b & Hk & Hy). destruct (existsb _ _); [by eauto|].
  destruct (decide (k = key x.1)) as [->|Hne].
  - rewrite lookup_insert_eq in Hk. injection Hk as <-. apply elem_of_cons in Hy as [->|Hy]; [by left|].
    right. destruct (m !! key x.1) as [b|] eqn:E; [by eauto | by apply not_elem_of_nil in Hy].
  - rewrite lookup_insert_ne in Hk by done. eauto.
Qed.

Lemma add_keeps m x y :
  (exists k b, m !! k = Some b /\ y ∈ b) -> exists k b, add_state x m !! k = Some b /\ y ∈ b.
Proof.
  intros (k & b & Hk & Hy). unfold add_state. destruct (existsb _ _); [by eauto|].
  destruct (decide (k = key x.1)) as [->|Hne].
  - eexists _, _. rewrite lookup_insert_eq. split; [done|]. rewrite Hk. by right.
  - exists k, b. by rewrite lookup_insert_ne.
Qed.

Lemma merge_sub l x : x ∈ merge l -> x ∈ l.
Proof.
  rewrite elem_of_merge. induction l as [|z l IH].
  - intros (k & b & Hk & _). done.
  - intros [->|H]%elem_of_add; [by left | right; by apply IH].
Qed.

Lemma merge_covers tb l x :
  (forall y, y ∈ l -> known tb y) -> x ∈ l -> exists y, y ∈ merge l /\ y.2 = x.2.
Proof.
  revert x. induction l as [|z l IH]; intros x Hk Hx; [by apply not_elem_of_nil in Hx|].
  assert (Hl : forall y, y ∈ l -> known tb y) by (intros y Hy; apply Hk; by right).
  apply elem_of_cons in Hx as [->|Hx].
  - cbn [foldr]. destruct (existsb (same_state z) (default [] (foldr add_state ∅ l !! key z.1))) eqn:E.
    + apply List.existsb_exists in E as (y & Hy & Hs). apply list_elem_of_In in Hy.
      destruct (foldr add_state ∅ l !! key z.1) as [b|] eqn:Eb; [|by apply not_elem_of_nil in Hy].
      exists y. assert (Hm : y ∈ merge l) by (apply elem_of_merge; eauto). split.
      * apply elem_of_merge. cbn [foldr]. apply add_keeps. eauto.
      * symmetry. apply (known_inj tb); [apply Hk; by left | by apply Hl, merge_sub | done].
    + exists z. split; [|done]. apply elem_of_merge. cbn [foldr]. unfold add_state at 1. rewrite E.
      eexists _, _. rewrite lookup_insert_eq. split; [done|]. by left.
  - destruct (IH x Hl Hx) as (y & H1 & H2). exists y. split; [|done].
    apply elem_of_merge. cbn [foldr]. by apply add_keeps, elem_of_merge.
Qed.

Lemma successors_spec tb x pids l tb' :
  table_ok tb -> known tb x -> successors tb x pids = (l, tb') ->
  table_ok tb' /\ t_nodes tb ⊆ t_nodes tb' /\ (forall y, y ∈ l -> known tb' y)
  /\ map snd l = omap (fun p => step p x.2) pids.
Proof.
  revert tb l. induction pids as [|p pids IH]; intros tb l Ht Hk; cbn [successors].
  { intros [= <- <-]. split_and!; try done. intros y Hy. by apply not_elem_of_nil in Hy. }
  assert (Ho : omap (fun p => step p x.2) (p :: pids) = match step p x.2 with
    | Some y => y :: omap (fun p => step p x.2) pids | None => omap (fun p => step p x.2) pids end) by done.
  rewrite Ho. destruct (step p x.2) as [s'|] eqn:Es; [|by apply IH].
  destruct (record tb p x.1 x.2) as [ids tb1] eqn:Er.
  destruct (successors tb1 x pids) as [l1 tb2] eqn:E1. intros [= <- <-].
  destruct x as [h s]. destruct (record_step _ _ _ _ _ _ _ Ht Hk Es Er) as (H1 & H2 & H3).
  destruct (IH tb1 l1 H1 (known_mono _ _ _ H2 Hk) E1) as (H4 & H5 & H6 & H7).
  split_and!; [done | by etrans | | cbn; by rewrite H7].
  intros y [->|Hy]%elem_of_cons; [by eapply known_mono | by apply H6].
Qed.

(** Every state of a layer has its successors. *)
Lemma successors_all_spec tb l next tb' :
  table_ok tb -> (forall x, x ∈ l -> known tb x) -> successors_all tb l = (next, tb') ->
  table_ok tb' /\ t_nodes tb ⊆ t_nodes tb' /\ (forall y, y ∈ concat next -> known tb' y)
  /\ forall x, x ∈ l -> exists ys, (x, ys) ∈ combine l next /\ (forall y, y ∈ ys -> y ∈ concat next)
       /\ map snd ys = omap (fun p => step p x.2) (to_follow x.2).
Proof.
  revert tb next. induction l as [|x l IH]; intros tb next Ht Hk; cbn [successors_all].
  { intros [= <- <-]. split_and!; try done; intros y Hy; by apply not_elem_of_nil in Hy. }
  destruct (successors tb x (to_follow x.2)) as [ys tb1] eqn:E1.
  destruct (successors_all tb1 l) as [yss tb2] eqn:E2. intros [= <- <-].
  destruct (successors_spec _ _ _ _ _ Ht (Hk x ltac:(by left)) E1) as (H1 & H2 & H3 & H4).
  destruct (IH tb1 yss H1 (fun z Hz => known_mono _ _ _ H2 (Hk z (list_elem_of_further _ _ _ Hz))) E2) as (H5 & H6 & H7 & H8).
  split_and!; [done | by etrans | |].
  - cbn [concat]. intros y [Hy|Hy]%elem_of_app; [by eapply known_mono; [|apply H3] | by apply H7].
  - intros z [->|Hz]%elem_of_cons.
    + exists ys. split; [by left|]. split; [|done]. intros y Hy. cbn [concat]. apply elem_of_app. by left.
    + destruct (H8 z Hz) as (zs & H9 & H10 & H11). exists zs. split; [by right|]. split; [|done].
      intros y Hy. cbn [concat]. apply elem_of_app. right. by apply H10.
Qed.

Lemma follow_local s s' : next_local K s = Some s' -> omap (fun p => step p s) (to_follow s) = [s'].
Proof.
  unfold next_local, to_follow, local_pid.
  assert (Hin : forall x, x ∈ map_to_list (trees s) -> trees s !! x.1 = Some x.2)
    by (intros [p n]; apply elem_of_map_to_list).
  revert Hin. generalize (map_to_list (trees s)) at 1 2 3 as l.
  induction l as [|[p n] l IH]; intros Hin; [done|]. cbn [List.find fst snd].
  destruct (local_event K p n) as [[n' o]|] eqn:El.
  - intros [= <-]. rewrite bool_decide_true by done. cbn. destruct s as [ts sh].
    by rewrite (step_local K p ts sh n n' o (Hin (p, n) ltac:(by left)) El).
  - rewrite bool_decide_false by by intros []. apply IH. intros x Hx. apply Hin. by right.
Qed.

Lemma follow_all s : next_local K s = None -> omap (fun p => step p s) (to_follow s) = nexts s.
Proof.
  unfold next_local, to_follow, local_pid, nexts. intros Hn.
  assert (Hf : List.find (fun x => bool_decide (is_Some (local_event K x.1 x.2)))
    (map_to_list (trees s)) = None).
  { revert Hn. generalize (map_to_list (trees s)) as l. induction l as [|[p n] l IH]; [done|].
    cbn [List.find fst snd]. destruct (local_event K p n) as [[n' o]|]; [done|].
    rewrite bool_decide_false by by intros []. done. }
  rewrite Hf. cbn. clear. induction (map_to_list (trees s)) as [|[p n] l IH]; [done|].
  cbn. destruct (step p s); cbn; by rewrite IH.
Qed.

Lemma layers_local fuel chk tb l :
  table_ok tb -> (forall x, x ∈ l -> known tb x) -> layers fuel chk tb l = true ->
  forall x, x ∈ l -> explore_local K fuel chk x.2 = true.
Proof.
  revert tb l. induction fuel as [|fuel IH]; intros tb l Ht Hk Hl x Hx.
  { destruct l; [by apply not_elem_of_nil in Hx | done]. }
  destruct l as [|x0 l0]; [by apply not_elem_of_nil in Hx|].
  remember (x0 :: l0) as l eqn:El. cbn [layers] in Hl. rewrite El in Hl. rewrite <- El in Hl.
  destruct (successors_all tb l) as [next tb'] eqn:E.
  destruct (successors_all_spec _ _ _ _ Ht Hk E) as (Ht' & _ & Hkn & Hall).
  destruct (forallb _ _) eqn:Hfine; [|done]. destruct (Hall x Hx) as (ys & Hc & Hsub & Hstep).
  pose proof (proj1 (List.forallb_forall _ _) Hfine (x, ys) (proj1 (list_elem_of_In _ _) Hc)) as Hx_fine.
  assert (Hnext : forall y, y ∈ ys -> explore_local K fuel chk y.2 = true).
  { intros y Hy. destruct (merge_covers tb' _ _ Hkn (Hsub y Hy)) as (y' & H1 & H2). rewrite <- H2.
    apply (IH tb' _ Ht' (fun z Hz => Hkn z (merge_sub _ _ Hz)) Hl _ H1). }
  cbn [explore_local fst snd] in *. unfold fine in Hx_fine.
  destruct (next_local K x.2) as [s'|] eqn:En.
  - rewrite (follow_local _ _ En) in Hstep. destruct ys as [|y [|]]; try done. injection Hstep as <-.
    rewrite Hx_fine. apply Hnext. by left.
  - rewrite (follow_all _ En) in Hstep. destruct (nexts x.2) as [|s1 ss].
    + by destruct ys.
    + destruct ys as [|y ys]; [done|]. rewrite Hx_fine. cbn [andb]. apply List.forallb_forall.
      intros t Hin. rewrite <- Hstep in Hin. apply in_map_iff in Hin as (z & <- & Hz).
      apply Hnext. by apply list_elem_of_In.
Qed.

(** What is found on the layers holds for every interleaving. *)
Lemma layers_sound fuel chk p n sh :
  explore_layers fuel chk p n sh = true ->
  inevitable (fun s' => chk s' = true) (MkSys {[p := n]} sh).
Proof.
  intros H. eapply (explore_local_sound K fuel).
  refine (layers_local fuel chk _ _ _ _ H (alone_state p n sh) _); [| |by left].
  - split; cbn; [|done]. intros i [m Hm]. apply lookup_singleton_Some in Hm as [<- _]. lia.
  - intros x ->%list_elem_of_singleton q. cbn.
    destruct (decide (q = p)) as [->|Hq]; [by rewrite !lookup_singleton_eq|].
    by rewrite !lookup_singleton_ne.
Qed.
End Layers.
