(* ===== verification/RecordLocks.v ===== *)
(** * POSIX record locks: the documented behaviour of fcntl(2)

    The file and lock calls the [fcntl] tests make, and a reference platform
    [posix] giving the answers fcntl(2), open(2), lseek(2) and close(2) document.
    The reference is never the code under test: the theorems about the tests are
    stated for every platform that [Refines] it.

    A lock is an inclusive byte interval, a length 0 reaching to [OFFSET_MAX] as
    in fcntl(2).  [held] reads a lock table byte by byte; [set_locks_held] and
    [blocker_bytes] say that the table operations are the byte-wise ones. *)

From S2P Require Import Prelude Tst Process Explore.

(** ** Data *)

Definition F_RDLCK : Z := 0.
Definition F_WRLCK : Z := 1.
Definition F_UNLCK : Z := 2.
Definition F_GETLK : Z := 5.
Definition F_SETLK : Z := 6.
Definition F_SETLKW : Z := 7.
Definition SEEK_SET : Z := 0.
Definition SEEK_CUR : Z := 1.
Definition SEEK_END : Z := 2.
Definition OFFSET_MAX : Z := 9223372036854775807.

(** [struct flock]. *)
Record flock := Flock {
  l_type : Z;    (* short *)
  l_whence : Z;  (* short *)
  l_start : Z;
  l_len : Z;
  l_pid : Z
}.

#[export] Instance flock_eq_dec : EqDecision flock.
Proof. solve_decision. Defined.

(** The calls of the tests.  [KMisc] stands for the calls whose only effect the
    tests rely on is their success (umask, sigaction, sighold, alarm, pipe, ...). *)
Inductive kcall :=
| KOpen (path : string) (flags mode : Z)
| KMkstemp (template : string)
| KWrite (fd n : Z)
| KLseek (fd off whence : Z)
| KFcntl (fd cmd : Z) (fl : flock)
| KClose (fd : Z)
| KUnlink (path : string)
| KMisc (name : string) (args : list Z).

(** Answer of a call: return value, [errno] when it is negative, and the
    [struct flock] written back. *)
Record kreply := KReply { rc : Z; err : Z; out : flock }.

#[export] Instance kreply_eq_dec : EqDecision kreply.
Proof. solve_decision. Defined.

Definition no_flock : flock := Flock 0 0 0 0 0.

Definition ok (r : Z) : kreply := KReply r 0 no_flock.

Definition fails (e : Z) : kreply := KReply (-1) e no_flock.

(** ** Lock tables *)

Record lock := Lock {
  lk_pid : Z;
  lk_type : Z;
  lk_start : Z;
  lk_end : Z      (* inclusive; [OFFSET_MAX] is the end of every file *)
}.

#[export] Instance lock_eq_dec : EqDecision lock.
Proof. solve_decision. Defined.

Definition in_lock (b : Z) (l : lock) : bool := (lk_start l <=? b) && (b <=? lk_end l).

Definition overlap (l1 l2 : lock) : bool :=
  (lk_start l1 <=? lk_end l2) && (lk_start l2 <=? lk_end l1).

(** Two locks of different processes exclude each other when one is for writing. *)
Definition conflicts (l1 l2 : lock) : bool :=
  negb (lk_pid l1 =? lk_pid l2) && overlap l1 l2
  && ((lk_type l1 =? F_WRLCK) || (lk_type l2 =? F_WRLCK)).

(** The part of [l] outside the interval of [c]. *)
Definition cut (c l : lock) : list lock :=
  (if lk_start l <? lk_start c
   then [Lock (lk_pid l) (lk_type l) (lk_start l) (Z.min (lk_end l) (lk_start c - 1))] else [])
  ++ (if lk_end c <? lk_end l
      then [Lock (lk_pid l) (lk_type l) (Z.max (lk_start l) (lk_end c + 1)) (lk_end l)] else []).

Definition mine (pid : Z) (l : lock) : bool := lk_pid l =? pid.

(** Locks of one owner and one type that touch become one. *)
Definition touches (l1 l2 : lock) : bool :=
  (lk_pid l1 =? lk_pid l2) && (lk_type l1 =? lk_type l2)
  && (lk_start l1 <=? lk_end l2 + 1) && (lk_start l2 <=? lk_end l1 + 1).

Definition join (l1 l2 : lock) : lock :=
  Lock (lk_pid l1) (lk_type l1) (Z.min (lk_start l1) (lk_start l2))
    (Z.max (lk_end l1) (lk_end l2)).

(** [absorb l ls] joins [l] with the locks it touches. *)
Fixpoint absorb (l : lock) (ls : list lock) : lock * list lock :=
  match ls with
  | [] => (l, [])
  | x :: xs =>
      let (l', xs') := absorb l xs in
      if touches l' x then (join l' x, xs') else (l', x :: xs')
  end.

Fixpoint insert_sorted (l : lock) (ls : list lock) : list lock :=
  match ls with
  | [] => [l]
  | x :: xs => if lk_start l <=? lk_start x then l :: ls else x :: insert_sorted l xs
  end.

(** The table after process [lk_pid l] sets (or, for [F_UNLCK], clears) [l]. *)
Definition set_locks (l : lock) (ls : list lock) : list lock :=
  let rest := flat_map (fun x => if mine (lk_pid l) x then cut l x else [x]) ls in
  if lk_type l =? F_UNLCK then rest
  else let (l', rest') := absorb l rest in insert_sorted l' rest'.

(** The lock that blocks [l]: the first one in file order. *)
Definition blocker (l : lock) (ls : list lock) : option lock :=
  List.find (conflicts l) ls.

(** ** The reference platform *)

(** The one file of a test, whose open description its processes share.  Its
    descriptor is 3, the first one after the standard streams. *)
Record fstate := FState {
  fs_fd : option Z;
  fs_off : Z;
  fs_size : Z;
  fs_locks : list lock
}.

#[export] Instance fstate_eq_dec : EqDecision fstate.
Proof. solve_decision. Defined.

Definition fs_init : fstate := FState None 0 0 [].

(** The interval a [struct flock] designates; [None] when fcntl(2) answers
    EINVAL. *)
Definition resolve (pid : Z) (fl : flock) (w : fstate) : option lock :=
  let base :=
    if l_whence fl =? SEEK_SET then Some 0
    else if l_whence fl =? SEEK_CUR then Some (fs_off w)
    else if l_whence fl =? SEEK_END then Some (fs_size w)
    else None in
  match base with
  | None => None
  | Some b =>
      let s := b + l_start fl in
      let '(lo, hi) :=
        if 0 <? l_len fl then (s, s + l_len fl - 1)
        else if l_len fl =? 0 then (s, OFFSET_MAX)
        else (s + l_len fl, s - 1) in
      if (0 <=? lo) && (hi <=? OFFSET_MAX)
         && ((l_type fl =? F_RDLCK) || (l_type fl =? F_WRLCK) || (l_type fl =? F_UNLCK))
      then Some (Lock pid (l_type fl) lo hi) else None
  end.

(** What F_GETLK writes back. *)
Definition describe (l : lock) : flock :=
  Flock (lk_type l) SEEK_SET (lk_start l)
    (if lk_end l =? OFFSET_MAX then 0 else lk_end l - lk_start l + 1) (lk_pid l).

Definition posix_fcntl (pid fd cmd : Z) (fl : flock) (w : fstate) : option (kreply * fstate) :=
  if negb (bool_decide (fs_fd w = Some fd)) then Some (fails EBADF, w)
  else if (cmd =? F_GETLK) || (cmd =? F_SETLK) || (cmd =? F_SETLKW) then
    match resolve pid fl w with
    | None => Some (fails EINVAL, w)
    | Some l =>
        if cmd =? F_GETLK then
          match blocker l (fs_locks w) with
          | Some b => Some (KReply 0 0 (describe b), w)
          | None =>
              Some (KReply 0 0 (Flock F_UNLCK (l_whence fl) (l_start fl) (l_len fl) (l_pid fl)), w)
          end
        else
          match (if l_type fl =? F_UNLCK then None else blocker l (fs_locks w)) with
          | Some _ => if cmd =? F_SETLK then Some (fails EAGAIN, w) else None
          | None =>
              Some (KReply 0 0 fl,
                    FState (fs_fd w) (fs_off w) (fs_size w) (set_locks l (fs_locks w)))
          end
    end
  else Some (KReply 0 0 fl, w).

(** [close] by any process drops all its locks on the file (POSIX). *)
Definition drop_locks (pid : Z) (w : fstate) : fstate :=
  FState (fs_fd w) (fs_off w) (fs_size w)
    (List.filter (fun l => negb (mine pid l)) (fs_locks w)).

Definition posix_do (pid : Z) (c : kcall) (w : fstate) : option (kreply * fstate) :=
  match c with
  | KOpen _ _ _ => Some (ok 3, FState (Some 3) 0 0 (fs_locks w))   (* O_TRUNC *)
  | KMkstemp _ => Some (ok 3, FState (Some 3) 0 0 [])
  | KWrite fd n =>
      if bool_decide (fs_fd w = Some fd)
      then Some (ok n, FState (fs_fd w) (fs_off w + n) (Z.max (fs_size w) (fs_off w + n)) (fs_locks w))
      else Some (fails EBADF, w)
  | KLseek fd off whence =>
      if bool_decide (fs_fd w = Some fd)
      then
        let pos :=
          if whence =? SEEK_SET then off
          else if whence =? SEEK_CUR then fs_off w + off else fs_size w + off in
        if pos <? 0 then Some (fails EINVAL, w)
        else Some (ok pos, FState (fs_fd w) pos (fs_size w) (fs_locks w))
      else Some (fails EBADF, w)
  | KFcntl fd cmd fl => posix_fcntl pid fd cmd fl w
  | KClose fd =>
      Some (ok 0, if bool_decide (fs_fd w = Some fd) then drop_locks pid w else w)
  | KUnlink _ => Some (ok 0, w)
  | KMisc _ _ => Some (ok 0, w)
  end.

(** The reference platform, for a test library with exit codes [ts]. *)
Definition posix (ts : list entry -> Z) : Kernel kcall kreply fstate := {|
  k_do := posix_do;
  k_fork := fun _ _ w => w;
  k_exit := drop_locks;
  tst_status := ts
|}.

#[export] Instance posix_local ts : LocalCalls (posix ts).
Proof.
  refine {| k_local := fun c => match c with
                                | KUnlink _ | KMisc _ _ => Some (ok 0)
                                | _ => None
                                end |}.
  intros pid [] r w [=]; by subst.
Defined.

(** [K] is a POSIX platform whose world [w0] has no file open and no locks. *)
Class PosixPlatform {W} (K : Kernel kcall kreply W) (w0 : W) := {
  pp_refines :: Refines K (posix (@tst_status _ _ _ K));
  pp_init : @rel _ _ _ _ K (posix (@tst_status _ _ _ K)) pp_refines w0 fs_init
}.

#[export] Instance posix_platform ts : PosixPlatform (posix ts) fs_init.
Proof. by exists (refines_refl (posix ts)). Defined.

(** Equality of two structures is equality of their fields. *)
Lemma flock_eqb f g :
  bool_decide (f = g)
  = (l_type f =? l_type g) && (l_whence f =? l_whence g) && (l_start f =? l_start g)
    && (l_len f =? l_len g) && (l_pid f =? l_pid g).
Proof.
  destruct f as [a b c d e], g as [a' b' c' d' e']; simpl.
  destruct (Z.eqb_spec a a'), (Z.eqb_spec b b'), (Z.eqb_spec c c'), (Z.eqb_spec d d'),
    (Z.eqb_spec e e'); simpl; subst;
    (rewrite bool_decide_eq_true_2; [done|congruence])
    || (rewrite bool_decide_eq_false_2; [done|congruence]).
Qed.

(** ** The lock table, byte by byte *)

(** Process [p] holds a lock of type [t] on byte [b]. *)
Definition held (ls : list lock) (p t b : Z) : Prop :=
  exists l, l ∈ ls /\ lk_pid l = p /\ lk_type l = t /\ in_lock b l = true.

Ltac in_lock_lia :=
  unfold in_lock, touches, overlap in *; simpl in *; zbool;
  rewrite ?andb_true_iff, ?orb_true_iff, ?Z.leb_le, ?Z.eqb_eq in *; try lia.

Lemma held_nil p t b : ~ held [] p t b.
Proof. intros (l & Hl & _). by apply not_elem_of_nil in Hl. Qed.

Lemma held_cons l ls p t b :
  held (l :: ls) p t b
  <-> (lk_pid l = p /\ lk_type l = t /\ in_lock b l = true) \/ held ls p t b.
Proof. unfold held. set_solver. Qed.

Lemma held_app l1 l2 p t b : held (l1 ++ l2) p t b <-> held l1 p t b \/ held l2 p t b.
Proof. unfold held. set_solver. Qed.

Lemma held_insert_sorted l ls p t b :
  held (insert_sorted l ls) p t b <-> held (l :: ls) p t b.
Proof.
  induction ls as [|x xs IH]; simpl; [done|].
  destruct (lk_start l <=? lk_start x); [done|]. rewrite !held_cons, IH, held_cons. tauto.
Qed.

Lemma held_cut c x p t b :
  held (cut c x) p t b <-> lk_pid x = p /\ lk_type x = t /\ in_lock b x = true /\ in_lock b c = false.
Proof.
  unfold cut. rewrite held_app.
  assert (in_lock b c = false <-> b < lk_start c \/ lk_end c < b) as ->.
  { unfold in_lock. rewrite andb_false_iff, !Z.leb_gt. tauto. }
  destruct (Z.ltb_spec (lk_start x) (lk_start c)), (Z.ltb_spec (lk_end c) (lk_end x));
    rewrite ?held_cons; unfold in_lock; simpl; rewrite ?andb_true_iff, ?Z.leb_le;
    pose proof (held_nil p t b); intuition lia.
Qed.

Lemma touches_join l x b :
  touches l x = true -> in_lock b (join l x) = true <-> in_lock b l = true \/ in_lock b x = true.
Proof.
  unfold touches, in_lock, join; simpl. rewrite !andb_true_iff, !Z.leb_le. lia.
Qed.

Lemma held_absorb l ls p t b :
  held ((absorb l ls).1 :: (absorb l ls).2) p t b <-> held (l :: ls) p t b.
Proof.
  assert (lk_pid (absorb l ls).1 = lk_pid l /\ lk_type (absorb l ls).1 = lk_type l) as Hsame.
  { induction ls as [|x xs IH]; simpl; [done|]. destruct (absorb l xs) as [l' xs'].
    by destruct (touches l' x). }
  induction ls as [|x xs IH]; [done|]. simpl in *.
  destruct (absorb l xs) as [l' xs'] eqn:E. simpl in *.
  destruct (touches l' x) eqn:Et; simpl in *; specialize (IH Hsame);
    rewrite !held_cons in *.
  - pose proof (touches_join l' x b Et). unfold touches in Et. zbool. simpl in *.
    intuition congruence.
  - tauto.
Qed.

Lemma held_flat_cut c ls p t b :
  held (flat_map (fun x => if mine (lk_pid c) x then cut c x else [x]) ls) p t b
  <-> held ls p t b /\ (p = lk_pid c -> in_lock b c = false).
Proof.
  induction ls as [|x xs IH]; simpl.
  - pose proof (held_nil p t b). tauto.
  - rewrite held_app, IH, held_cons. unfold mine. pose proof (held_nil p t b).
    destruct (Z.eqb_spec (lk_pid x) (lk_pid c)) as [Hx|Hx];
      [rewrite held_cut | rewrite held_cons];
      destruct (decide (p = lk_pid c)) as [Hp|Hp]; destruct (in_lock b c);
      intuition congruence.
Qed.

(** Setting a lock is the byte-wise update: its owner holds exactly the new type
    on the bytes of the interval (nothing, for [F_UNLCK]); everything else is
    unchanged. *)
Lemma set_locks_held l ls p t b :
  held (set_locks l ls) p t b <->
  if decide (p = lk_pid l /\ in_lock b l = true)
  then t = lk_type l /\ t <> F_UNLCK
  else held ls p t b.
Proof.
  unfold set_locks. pose proof (held_flat_cut l ls p t b) as Hc.
  destruct (absorb l _) as [l' r'] eqn:Ea.
  pose proof (held_absorb l (flat_map (fun x => if mine (lk_pid l) x then cut l x else [x]) ls)
                p t b) as Ha.
  rewrite Ea in Ha. simpl in Ha. rewrite (held_cons l) in Ha.
  destruct (Z.eqb_spec (lk_type l) F_UNLCK) as [Hu|Hu];
    [|rewrite held_insert_sorted, Ha]; rewrite Hc;
    destruct (decide (p = lk_pid l)); case_decide as Hd; destruct (in_lock b l);
    intuition congruence.
Qed.

(** A blocking lock is another process's, overlaps, and one of the two writes. *)
Lemma blocker_Some l ls x :
  blocker l ls = Some x -> x ∈ ls /\ conflicts l x = true.
Proof.
  intros Hf. apply List.find_some in Hf as [Hin Hc]. split; [by apply list_elem_of_In|done].
Qed.

Lemma blocker_None l ls :
  blocker l ls = None <-> forall x, x ∈ ls -> conflicts l x = false.
Proof.
  unfold blocker. split.
  - intros Hf x Hx. apply (List.find_none _ _ Hf). by apply list_elem_of_In.
  - intros Hall. destruct (List.find (conflicts l) ls) as [x|] eqn:E; [|done].
    apply blocker_Some in E as [Hx Hc]. specialize (Hall x Hx). congruence.
Qed.

(** Nothing blocks exactly when no byte of the interval is held by another
    process in a conflicting mode. *)
Lemma blocker_bytes l ls :
  (forall x, x ∈ ls -> lk_start x <= lk_end x) -> lk_start l <= lk_end l ->
  blocker l ls = None <->
  forall b p t, in_lock b l = true -> held ls p t b -> p <> lk_pid l ->
           lk_type l <> F_WRLCK /\ t <> F_WRLCK.
Proof.
  intros Hne Hl. rewrite blocker_None. split.
  - intros Hall b p t Hb (x & Hx & <- & <- & Hbx) Hp. specialize (Hall x Hx).
    unfold conflicts, overlap, in_lock in *. zbool.
    rewrite !andb_false_iff, negb_false_iff, !orb_false_iff, !Z.leb_gt, !Z.eqb_neq, Z.eqb_eq in Hall.
    lia.
  - intros Hall x Hx. apply not_true_is_false. intros Hc.
    unfold conflicts, overlap in Hc. zbool. specialize (Hne x Hx).
    destruct (Hall (Z.max (lk_start l) (lk_start x)) (lk_pid x) (lk_type x)); [| |lia|].
    + unfold in_lock. rewrite andb_true_iff, !Z.leb_le. lia.
    + exists x. repeat split; [done|]. unfold in_lock. rewrite andb_true_iff, !Z.leb_le. lia.
    + match goal with E : (_ || _)%bool = true |- _ => apply orb_true_iff in E; destruct E end;
        zbool; congruence.
Qed.
