(* ===== verification/DeadlockLocks.v ===== *)
(** * Waiting for record locks: deadlock detection

    fcntl(2) answers F_SETLKW with EDEADLK when waiting would close a cycle of
    processes that wait for each other.  The platform of [RecordLocks.v] is
    extended by the queue of waiting processes: a F_SETLKW call is two events, the
    process enters the queue ([Queue]) and the call is answered as soon as the
    lock is free or the cycle is there.

    A process waits for the owner of the first lock in its way. *)

From S2P Require Import Prelude Tst Process Explore RecordLocks.

Inductive dcall :=
| File (c : kcall)
| Queue (fd : Z) (fl : flock).

Record dstate := DState {
  ds_file : fstate;
  ds_queue : gmap Z lock     (* what each waiting process asks for *)
}.

#[export] Instance dstate_eq_dec : EqDecision dstate.
Proof. solve_decision. Defined.

Definition ds_init : dstate := DState fs_init ∅.

Definition EDEADLK : Z := 35.

(** The process [pid] waits for. *)
Definition waits_for (w : dstate) (pid : Z) : option Z :=
  l ← ds_queue w !! pid;
  b ← blocker l (fs_locks (ds_file w));
  Some (lk_pid b).

(** Following the chain of waiting processes from [pid] leads to [target]. *)
Fixpoint leads_to (n : nat) (w : dstate) (pid target : Z) : bool :=
  match n, waits_for w pid with
  | S n, Some p => (p =? target) || leads_to n w p target
  | _, _ => false
  end.

(** [pid] waits for itself, over other processes.  A cycle is no longer than the
    queue. *)
Definition deadlocked (w : dstate) (pid : Z) : bool :=
  leads_to (size (ds_queue w)) w pid pid.

Definition leave (pid : Z) (f : fstate) (w : dstate) : dstate :=
  DState f (delete pid (ds_queue w)).

(** The calls that end a wait. *)
Definition waiting_call (c : kcall) : bool :=
  match c with KFcntl _ cmd _ => cmd =? F_SETLKW | _ => false end.

Section Detect.
(** The detection: [deadlocked], or none. *)
Variable detect : dstate -> Z -> bool.

Definition dl_do (pid : Z) (c : dcall) (w : dstate) : option (kreply * dstate) :=
  match c with
  | Queue fd fl =>
      Some (ok 0,
            match resolve pid fl (ds_file w) with
            | Some l => DState (ds_file w) (<[pid := l]> (ds_queue w))
            | None => w
            end)
  | File c =>
      match posix_do pid c (ds_file w) with
      | Some (r, f) => Some (r, if waiting_call c then leave pid f w else DState f (ds_queue w))
      | None => if detect w pid then Some (fails EDEADLK, leave pid (ds_file w) w) else None
      end
  end.

Definition dl_kernel (ts : list entry -> Z) : Kernel dcall kreply dstate := {|
  k_do := dl_do;
  k_fork := fun _ _ w => w;
  k_exit := fun pid w => leave pid (drop_locks pid (ds_file w)) w;
  tst_status := ts
|}.

#[export] Instance dl_local ts : LocalCalls (dl_kernel ts).
Proof.
  refine {| k_local := fun c => match c with
                                | File (KUnlink _) | File (KMisc _ _) => Some (ok 0)
                                | _ => None
                                end |}.
  intros pid [[]|] r [f q] [=]; by subst.
Defined.
End Detect.

(** The documented platform, and one without detection. *)
Definition posix_dl : (list entry -> Z) -> Kernel dcall kreply dstate := dl_kernel deadlocked.

Definition blind : (list entry -> Z) -> Kernel dcall kreply dstate := dl_kernel (fun _ _ => false).

(** [K] behaves like a POSIX platform with deadlock detection, without open
    files. *)
Class DeadlockPlatform {W} (K : Kernel dcall kreply W) (w0 : W) := {
  dp_refines :: Refines K (posix_dl (@tst_status _ _ _ K));
  dp_init : @rel _ _ _ _ K (posix_dl (@tst_status _ _ _ K)) dp_refines w0 ds_init
}.

#[export] Instance deadlock_platform ts : DeadlockPlatform (posix_dl ts) ds_init.
Proof. by exists (refines_refl (posix_dl ts)). Defined.
