(* ===== verification/Prog.v ===== *)
(** * C programs over the process model

    A C function of a test is a computation [M C R G A]: it reads and writes the
    globals [G] of its process, performs events, and returns an [A].  [fork]
    copies the globals because the continuation of a tree carries them.  The
    monad notations are those of stdpp ([x ← m; k], [m1 ;; m2]).

    The reporting functions are the calls the programs make into the LTP
    library: [tst_resm] reports and goes on, [tst_brkm] reports, runs the
    cleanup function and ends the process, [tst_exit] ends it. *)

From S2P Require Import Prelude Tst Process.

Definition M (C R G A : Type) : Type := G -> itree (sysE C R) (G * A).

#[export] Instance M_ret {C R G} : MRet (M C R G) := fun A a g => Ret (g, a).

#[export] Instance M_bind {C R G} : MBind (M C R G) :=
  fun A B f m g => ITree.bind (m g) (fun x => f x.2 x.1).

Section Prims.
Context {C R G : Type}.

Definition ev {A} (e : sysE C R A) : M C R G A :=
  fun g => Vis e (fun a => Ret (g, a)).

Definition get : M C R G G := fun g => Ret (g, g).

Definition modify (f : G -> G) : M C R G unit := fun g => Ret (f g, tt).

Definition when (b : bool) (m : M C R G unit) : M C R G unit :=
  if b then m else mret tt.

Definition call (c : C) : M C R G R := ev (Sys c).

(** [(void) f(...)]: the answer is ignored. *)
Definition call_ (c : C) : M C R G unit := call c ;; mret tt.

Definition fork : M C R G Z := ev Fork.

Definition getpid : M C R G Z := ev Getpid.

Definition waitpid (pid : Z) : M C R G (Z * Z) := ev (Waitpid pid).

Definition exit {A} (code : Z) : M C R G A :=
  x ← ev (Exit code); match x : Empty_set with end.

Definition tst_resm (t : ttype) (fmt : string) (args : list arg) : M C R G unit :=
  ev (Report (Entry t None fmt args)).

(** [tst_resm(t | TERRNO, ...)]. *)
Definition tst_resm_errno (t : ttype) (errno : Z) (fmt : string) (args : list arg)
  : M C R G unit :=
  ev (Report (Entry t (Some errno) fmt args)).

Definition tst_exit {A} : M C R G A :=
  x ← ev TstExit; match x : Empty_set with end.

Definition tst_brkm {A} (t : ttype) (cleanup : M C R G unit) (fmt : string) (args : list arg)
  : M C R G A :=
  tst_resm t fmt args ;; cleanup ;; tst_exit.

(** The program does what C leaves undefined.  Here the model ends it, with a report that no
    program makes; theorems are about the other runs only. *)
Definition undefined {A} : M C R G A := tst_resm TBROK "undefined behaviour" [] ;; exit 139.

Definition defined_if (b : bool) : M C R G unit := if b then mret tt else undefined.

(** [for (i = start; i < start + n; i++) body(i)]. *)
Fixpoint for_from (start : Z) (n : nat) (body : Z -> M C R G unit) : M C R G unit :=
  match n with
  | O => mret tt
  | S n => body start ;; for_from (start + 1) n body
  end.

(** The same loop over a local variable, which the body may also leave with a
    result ([return] in the body). *)
Fixpoint for_sum {X Y} (start : Z) (n : nat) (body : Z -> X -> M C R G (X + Y)) (x : X)
  : M C R G (X + Y) :=
  match n with
  | O => mret (inl x)
  | S n =>
      r ← body start x;
      match r with
      | inl x => for_sum (start + 1) n body x
      | inr y => mret (inr y)
      end
  end.

(** [while (...) ...]: the body goes on with a new value of the local variable, or
    ends the loop with a result. *)
Definition while_step {X Y} (body : X -> M C R G (X + Y)) (gx : G * X)
  : itree (sysE C R) (G * X + G * Y) :=
  ITree.bind (body gx.2 gx.1) (fun r =>
    match r.2 with
    | inl x => Ret (inl (r.1, x))
    | inr y => Ret (inr (r.1, y))
    end).

Definition while_ {X Y} (body : X -> M C R G (X + Y)) (x : X) : M C R G Y :=
  fun g => ITree.iter (while_step body) (g, x).

(** [while (1) x = body(x)], where [x] is a local variable. *)
Definition forever {X A} (body : X -> M C R G X) (x : X) : M C R G A :=
  fun g => ITree.iter (fun gx => ITree.bind (body gx.2 gx.1) (fun y => Ret (inl y))) (g, x).
End Prims.

(** ** Starting a program *)

(** The system just before process [pid], alone, runs [m] from globals [g]. *)
Definition boot {C R W G A} (pid : Z) (m : M C R G A) (g : G) (w : W) : sys C R W (G * A) :=
  MkSys {[ pid := observe (m g) ]}
    (Shape {[ pid := PInfo 0 false [] ]} ∅ ∅ ∅ false (pid + 1) w).

(** All reports of a run, process by process. *)
Definition all_logs {W} (s : shape W) : list entry :=
  concat (map snd (map_to_list (s_logs s))).

(** The outcome a correct run has: every process is gone, nothing failed, no
    SIGCHLD handler ran, and the reports of process [pid] pass [chk]. *)
Definition passed {C R W A} (pid : Z) (chk : list entry -> bool) (s : sys C R W A) : bool :=
  bool_decide (map_to_list (s_info (shp s)) = []) && clean (all_logs (shp s))
  && negb (s_caught (shp s)) && chk (log_of pid (shp s)).

(** Checks of a log: it is exactly [exp]; [infos ms] are informative reports. *)
Definition log_is (exp l : list entry) : bool := bool_decide (l = exp).

Definition infos (ms : list string) : list entry := List.map (fun m => Entry TINFO None m []) ms.

(** The outcome of a run that noticed something: every process is gone, and some
    report is a failure. *)
Definition detected {C R W A} (s : sys C R W A) : bool :=
  bool_decide (map_to_list (s_info (shp s)) = []) && negb (clean (all_logs (shp s))).

(** A run that passes in a system passes in every system of the same shape. *)
Lemma passed_same {C R W V A} (K : Kernel C R W) (S : Kernel C R V) `{!Refines K S} pid chk
    (s : sys C R W A) (t : sys C R V A) :
  same K S s t -> passed pid chk s = passed pid chk t.
Proof. intros (_ & Hs & _). unfold passed, all_logs, log_of. by rewrite <- Hs. Qed.
