(* ===== verification/Checker.v ===== *)
(** * Verified checkers for programs

    [explore_local] decides what every interleaving of a system leads to, but a whole
    test has far too many of them.  A [checker] for a program computes the one
    state in which all interleavings started by that program come back together
    (the program has returned and no other process is left), or gives up.
    Checkers compose like the programs do ([chk_bind], [chk_for]), so that each
    piece of a test is explored on its own; [sound] and [tsound] say what a
    successful check proves, and are established once for each combinator. *)

From S2P Require Import Prelude Tst Process Explore Prog.

Section Checker.
Context {C R W G : Type} {K : Kernel C R W} `{!LocalCalls K} `{EqDecision G, EqDecision W}.
Variable pid : Z.

(** Process [pid], alone, about to run [m]. *)
Definition at_ {A} (m : M C R G A) (g : G) (sh : shape W) : sys C R W (G * A) :=
  MkSys {[ pid := observe (m g) ]} sh.

(** Process [pid], alone, has returned [a]. *)
Definition returned {A} (g : G) (a : A) (sh : shape W) : sys C R W (G * A) :=
  MkSys {[ pid := RetF (g, a) ]} sh.

Definition runs_to {A} (m : M C R G A) (g : G) (sh : shape W) (g' : G) (a : A)
    (sh' : shape W) : Prop :=
  inevitable (fun s => s = returned g' a sh') (at_ m g sh).

Definition checker (A : Type) : Type := G -> shape W -> option (G * A * shape W).

Definition sound {A} (c : checker A) (m : M C R G A) : Prop :=
  forall g sh g' a sh', c g sh = Some (g', a, sh') -> runs_to m g sh g' a sh'.

(** A checker for a program that ends its process. *)
Definition tsound {A} (Q : sys C R W (G * A) -> Prop) (t : G -> shape W -> bool)
    (m : M C R G A) : Prop :=
  forall g sh, t g sh = true -> inevitable Q (at_ m g sh).

(** ** Combinators *)

Definition ret_of {A} (s : sys C R W (G * A)) : option (G * A) :=
  match map_to_list (trees s) with
  | [(p, RetF x)] => if p =? pid then Some x else None
  | _ => None
  end.

(** Explore [m] itself: find one outcome, check that it is the only one. *)
Definition chk_one {A} `{EqDecision A} (fuel : nat) (m : M C R G A) : checker A :=
  fun g sh =>
    let s := at_ m g sh in
    let s' := run_local K fuel s in
    match ret_of s' with
    | Some (g', a) =>
        if explore_local K fuel
             (fun t => bool_decide (ret_of t = Some (g', a)) && bool_decide (shp t = shp s')) s
        then Some (g', a, shp s') else None
    | None => None
    end.

Definition chk_bind {A B} (c : checker A) (f : A -> checker B) : checker B :=
  fun g sh => match c g sh with Some (g', a, sh') => f a g' sh' | None => None end.

Fixpoint chk_for (start : Z) (n : nat) (c : Z -> checker unit) : checker unit :=
  match n with
  | O => fun g sh => Some (g, tt, sh)
  | S n => chk_bind (c start) (fun _ => chk_for (start + 1) n c)
  end.

Definition tchk_bind {A} (c : checker A) (t : A -> G -> shape W -> bool)
  : G -> shape W -> bool :=
  fun g sh => match c g sh with Some (g', a, sh') => t a g' sh' | None => false end.

Definition tchk_one {A} (fuel : nat) (chk : sys C R W (G * A) -> bool) (m : M C R G A)
  : G -> shape W -> bool :=
  fun g sh => explore_local K fuel chk (at_ m g sh).

(** ** Soundness *)

Lemma ret_of_spec {A} (s : sys C R W (G * A)) x :
  ret_of s = Some x -> s = MkSys {[ pid := RetF x ]} (shp s).
Proof.
  unfold ret_of. intros H. destruct s as [ts sh]. simpl in *. f_equal.
  rewrite <- (list_to_map_to_list ts).
  destruct (map_to_list ts) as [|[p [y| |]] [|]]; try done.
  destruct (Z.eqb_spec p pid); [|done]. simplify_eq/=. by rewrite insert_empty.
Qed.

Lemma sound_one {A} `{EqDecision A} fuel (m : M C R G A) : sound (chk_one fuel m) m.
Proof.
  intros g sh g' a sh' Hc. unfold chk_one in Hc.
  destruct (ret_of (run_local K fuel (at_ m g sh))) as [[g1 a1]|]; [|done].
  destruct (explore_local _ _ _ _) eqn:Ee; [|done]. simplify_eq.
  eapply inevitable_mono; [|apply (explore_local_sound K _ _ _ Ee)].
  intros t Ht. apply andb_true_iff in Ht as [H1 H2].
  apply bool_decide_eq_true in H1, H2. apply ret_of_spec in H1.
  rewrite H1, H2. done.
Qed.

Lemma at_bind {A B} (m : M C R G A) (f : A -> M C R G B) g sh :
  at_ (m ≫= f) g sh = bind_sys (fun x => f x.2 x.1) (at_ m g sh).
Proof.
  unfold at_, bind_sys. cbn [trees shp]. rewrite map_fmap_singleton.
  change (observe ((m ≫= f) g)) with (observe (ITree.bind (m g) (fun x => f x.2 x.1))).
  by rewrite observe_bind_node.
Qed.

Lemma runs_bind {A B} (Q : sys C R W (G * B) -> Prop) (m : M C R G A) (f : A -> M C R G B)
    g sh g' a sh' :
  runs_to m g sh g' a sh' -> inevitable Q (at_ (f a) g' sh') ->
  inevitable Q (at_ (m ≫= f) g sh).
Proof.
  intros H1 H2. rewrite at_bind. eapply inevitable_bind; [exact H1|].
  intros s' ->. unfold returned, bind_sys; simpl. by rewrite map_fmap_singleton.
Qed.

Lemma sound_bind {A B} (c : checker A) (fc : A -> checker B) (m : M C R G A)
    (f : A -> M C R G B) :
  sound c m -> (forall a, sound (fc a) (f a)) -> sound (chk_bind c fc) (m ≫= f).
Proof.
  intros Hc Hf g sh g' b sh' H. unfold chk_bind in H.
  destruct (c g sh) as [[[g1 a] sh1]|] eqn:E; [|done].
  eapply runs_bind; [by apply Hc | by eapply Hf].
Qed.

Lemma sound_ret {A} (x : A) : sound (fun g sh => Some (g, x, sh)) (mret x).
Proof.
  intros g sh g' a sh' H. simplify_eq. apply inev_now; [|done].
  intros p. unfold step, at_; simpl.
  destruct (decide (p = pid)) as [->|Hne].
  - by rewrite lookup_singleton_eq.
  - by rewrite lookup_singleton_ne.
Qed.

Lemma sound_for start n (c : Z -> checker unit) (body : Z -> M C R G unit) :
  (forall i, sound (c i) (body i)) -> sound (chk_for start n c) (for_from start n body).
Proof.
  intros Hb. revert start. induction n as [|n IH]; intros start; simpl.
  - apply sound_ret.
  - apply sound_bind; [apply Hb | intros _; apply IH].
Qed.

Lemma sound_if {A} (b : bool) (c1 c2 : checker A) (m1 m2 : M C R G A) :
  sound c1 m1 -> sound c2 m2 ->
  sound (fun g sh => if b then c1 g sh else c2 g sh) (if b then m1 else m2).
Proof. by destruct b. Qed.

Lemma tsound_bind {A B} (Q : sys C R W (G * B) -> Prop) (c : checker A) t (m : M C R G A)
    (f : A -> M C R G B) :
  sound c m -> (forall a, tsound Q (t a) (f a)) -> tsound Q (tchk_bind c t) (m ≫= f).
Proof.
  intros Hc Ht g sh H. unfold tchk_bind in H.
  destruct (c g sh) as [[[g1 a] sh1]|] eqn:E; [|done].
  eapply runs_bind; [by apply Hc | by apply Ht].
Qed.

Lemma tsound_one {A} fuel chk (m : M C R G A) :
  tsound (fun s => chk s = true) (tchk_one fuel chk m) m.
Proof. intros g sh H. by eapply explore_local_sound. Qed.
End Checker.

Arguments checker W G A : clear implicits.

(** The tests' main process. *)
Definition main_pid : Z := 100.

(** A run that passes on a reference platform passes on every platform that
    refines it. *)
Lemma refines_run {C R W V A G} (K : Kernel C R W) (S : Kernel C R V) `{F : !Refines K S}
    (w0 : W) (v0 : V) chk (m : M C R G A) (g : G) :
  rel w0 v0 ->
  inevitable (H := S) (fun s => passed main_pid chk s = true) (boot main_pid m g v0) ->
  inevitable (fun s => passed main_pid chk s = true) (boot main_pid m g w0).
Proof.
  intros Hw Hi.
  eapply inevitable_mono; [|apply (inevitable_refines K S _ _ Hi); by repeat split].
  intros s (s' & Hs & Hp). by rewrite (passed_same _ _ _ _ _ _ Hs).
Qed.

(** The same for what a checker finds. *)
Lemma refines_passes {C R W V A G} (K : Kernel C R W) (S : Kernel C R V) `{F : !Refines K S}
    (w0 : W) (v0 : V) chk (t : G -> shape V -> bool) (m : M C R G A) (g : G) :
  rel w0 v0 ->
  tsound (K := S) main_pid (fun s => passed main_pid chk s = true) t m ->
  t g (shp (boot main_pid m g v0)) = true ->
  inevitable (fun s => passed main_pid chk s = true) (boot main_pid m g w0).
Proof. intros Hw Ht Hc. by apply (refines_run K S w0 v0), Ht. Qed.

(** Builds the checker of a program by its structure: sequences, loops and
    conditionals are taken apart, what remains is explored with [fuel] steps. *)
Ltac build_checker fuel :=
  lazymatch goal with
  | |- tsound _ _ _ (mbind _ _) =>
      eapply tsound_bind; [build_checker fuel | intros ?; build_checker fuel]
  | |- tsound _ _ _ _ => eapply (tsound_one _ fuel)
  | |- sound _ _ (mbind _ _) =>
      eapply sound_bind; [build_checker fuel | intros ?; build_checker fuel]
  | |- sound _ _ (for_from _ _ _) => eapply sound_for; intros ?; build_checker fuel
  | |- sound _ _ (if _ then _ else _) => eapply sound_if; build_checker fuel
  | |- sound _ _ _ => eapply (sound_one _ fuel)
  end.
