(* ===== verification/Wp.v ===== *)
(** * A program logic for a process running alone

    [wp m g sh Φ]: every run of process [pid], alone, from globals [g] and shape
    [sh], returns from [m] with globals, result and shape satisfying [Φ].
    [dies m g sh Φ]: every run ends the process, leaving a shape in [Φ].
    The kernel is arbitrary: the rule for a call only needs its answer.  These
    rules prove what the verdict of a test says about the answers it got. *)

From S2P Require Import Prelude Tst Process Explore Prog Checker.

Section Wp.
Context {C R W G : Type} {K : Kernel C R W}.
Variable pid : Z.
Implicit Types (g : G) (sh : shape W).

Definition wp {A} (m : M C R G A) g sh (Φ : G -> A -> shape W -> Prop) : Prop :=
  inevitable (fun s => exists g' a sh', s = returned pid g' a sh' /\ Φ g' a sh') (at_ pid m g sh).

Definition dies {A} (m : M C R G A) g sh (Φ : shape W -> Prop) : Prop :=
  inevitable (fun s => trees s = ∅ /\ Φ (shp s)) (at_ pid m g sh).

(** ** Structural rules *)

Lemma final_returned {A} g (a : A) sh : final (returned pid g a sh : sys C R W (G * A)).
Proof.
  intros p. unfold step, returned; simpl. destruct (decide (p = pid)) as [->|Hne].
  - by rewrite lookup_singleton_eq.
  - by rewrite lookup_singleton_ne.
Qed.

Lemma wp_ret {A} (x : A) g sh (Φ : G -> A -> shape W -> Prop) :
  Φ g x sh -> wp (mret x) g sh Φ.
Proof. intros H. apply inev_now; [apply (final_returned g x sh) | by exists g, x, sh]. Qed.

Lemma wp_get g sh (Φ : G -> G -> shape W -> Prop) : Φ g g sh -> wp (get (C := C) (R := R)) g sh Φ.
Proof. apply (wp_ret g). Qed.

Lemma wp_modify f g sh (Φ : G -> unit -> shape W -> Prop) :
  Φ (f g) tt sh -> wp (modify (C := C) (R := R) f) g sh Φ.
Proof. intros H. apply inev_now; [apply (final_returned (f g) tt sh) | by eexists _, _, _]. Qed.

Lemma wp_mono {A} (m : M C R G A) g sh (Φ Ψ : G -> A -> shape W -> Prop) :
  (forall g' a sh', Φ g' a sh' -> Ψ g' a sh') -> wp m g sh Φ -> wp m g sh Ψ.
Proof.
  intros H. apply inevitable_mono. intros s (g' & a & sh' & -> & HΦ). eauto 6.
Qed.

Lemma inevitable_bind_at {A B} (Q : sys C R W (G * B) -> Prop) (m : M C R G A)
    (f : A -> M C R G B) g sh (Φ : G -> A -> shape W -> Prop) :
  wp m g sh Φ -> (forall g' a sh', Φ g' a sh' -> inevitable Q (at_ pid (f a) g' sh')) ->
  inevitable Q (at_ pid (m ≫= f) g sh).
Proof.
  intros Hm Hf. rewrite at_bind. eapply inevitable_bind; [exact Hm|].
  intros s (g' & a & sh' & -> & HΦ). unfold returned, bind_sys; simpl.
  rewrite map_fmap_singleton. by apply Hf.
Qed.

Lemma wp_bind {A B} (m : M C R G A) (f : A -> M C R G B) g sh Φ :
  wp m g sh (fun g' a sh' => wp (f a) g' sh' Φ) -> wp (m ≫= f) g sh Φ.
Proof. intros H. eapply inevitable_bind_at; [exact H | done]. Qed.

Lemma dies_bind {A B} (m : M C R G A) (f : A -> M C R G B) g sh Φ :
  wp m g sh (fun g' a sh' => dies (f a) g' sh' Φ) -> dies (m ≫= f) g sh Φ.
Proof. intros H. eapply inevitable_bind_at; [exact H | done]. Qed.

(** What follows a process that has ended does not matter. *)
Lemma dies_bind_left {A B} (m : M C R G A) (f : A -> M C R G B) g sh Φ :
  dies m g sh Φ -> dies (m ≫= f) g sh Φ.
Proof.
  intros H. unfold dies. rewrite at_bind. eapply inevitable_bind; [exact H|].
  intros s [He HΦ]. apply inev_now.
  - intros p. unfold step, bind_sys; cbn [trees]. by rewrite He, fmap_empty, lookup_empty.
  - unfold bind_sys; cbn [trees shp]. by rewrite He, fmap_empty.
Qed.

(** [if (b) { ...; exit(...); } rest]. *)
Lemma dies_when {B} (b : bool) (m : M C R G unit) (f : unit -> M C R G B) g sh Φ :
  (b = true -> dies m g sh Φ) -> (b = false -> dies (f tt) g sh Φ) ->
  dies (when b m ≫= f) g sh Φ.
Proof.
  intros H1 H2. destruct b; [by apply dies_bind_left, H1|].
  apply dies_bind, wp_ret. by apply H2.
Qed.

(** A loop with an invariant. *)
Lemma wp_for (I : Z -> G -> shape W -> Prop) (body : Z -> M C R G unit) start n g sh :
  (forall i g sh, start <= i < start + Z.of_nat n -> I i g sh ->
     wp (body i) g sh (fun g' _ sh' => I (i + 1) g' sh')) ->
  I start g sh ->
  wp (for_from start n body) g sh (fun g' _ sh' => I (start + Z.of_nat n) g' sh').
Proof.
  revert start g sh; induction n as [|n IH]; intros start g sh Hb HI; cbn [for_from].
  - apply wp_ret. by rewrite Z.add_0_r.
  - apply wp_bind. eapply wp_mono; [|apply Hb; [lia|done]].
    intros g' a sh' HI'. eapply wp_mono; [|apply IH; [|exact HI']].
    + intros g2 b sh2. cbn beta. replace (start + 1 + Z.of_nat n) with (start + Z.of_nat (S n)) by lia.
      done.
    + intros i g2 sh2 Hi. apply Hb. lia.
Qed.

Lemma wp_for_sum {X Y} (I : Z -> X -> G -> shape W -> Prop) (body : Z -> X -> M C R G (X + Y))
    start n x g sh :
  (forall i x g sh, start <= i < start + Z.of_nat n -> I i x g sh ->
     wp (body i x) g sh (fun g' r sh' => exists x', r = inl x' /\ I (i + 1) x' g' sh')) ->
  I start x g sh ->
  wp (for_sum start n body x) g sh (fun g' r sh' =>
    exists x', r = inl x' /\ I (start + Z.of_nat n) x' g' sh').
Proof.
  revert start x g sh; induction n as [|n IH]; intros start x g sh Hb HI; cbn [for_sum].
  - apply wp_ret. exists x. by rewrite Z.add_0_r.
  - apply wp_bind. eapply wp_mono; [|apply Hb; [lia|exact HI]].
    intros g' r sh' (x' & -> & HI'). eapply wp_mono; [|apply IH; [|exact HI']].
    + intros g2 b sh2. cbn beta. replace (start + 1 + Z.of_nat n) with (start + Z.of_nat (S n)) by lia.
      done.
    + intros i x2 g2 sh2 Hi. apply Hb. lia.
Qed.

(** ** Events *)

(** A process that is alone and can step does step. *)
Lemma inevitable_alone {A} (P : sys C R W A -> Prop) (n : node C R A) sh s' :
  is_ret n = false ->
  step pid (MkSys {[ pid := n ]} sh) = Some s' ->
  inevitable P s' -> inevitable P (MkSys {[ pid := n ]} sh).
Proof.
  intros Hn Hs Hi. apply inev_step.
  - intros p m. simpl. destruct (decide (p = pid)) as [->|Hne].
    + rewrite lookup_singleton_eq. by intros [= <-].
    + by rewrite lookup_singleton_ne.
  - eauto.
  - intros p s'' Hp. destruct (decide (p = pid)) as [->|Hne]; [congruence|].
    unfold step in Hp; simpl in Hp. by rewrite lookup_singleton_ne in Hp.
Qed.

(** A loop is its body followed by the loop again, or by its result. *)
Definition while_next {X Y} (r : G * (X + Y)) : itree (sysE C R) (G * X + G * Y) :=
  match r.2 with inl x => Ret (inl (r.1, x)) | inr y => Ret (inr (r.1, y)) end.

Definition while_again {X Y} (body : X -> M C R G (X + Y)) (lr : G * X + G * Y)
  : itree (sysE C R) (G * Y) :=
  match lr with inl l => Tau (ITree.iter (while_step body) l) | inr r => Ret r end.

Definition while_sys {X Y} (body : X -> M C R G (X + Y)) (s : sys C R W (G * (X + Y)))
  : sys C R W (G * Y) :=
  bind_sys (while_again body) (bind_sys while_next s).

Lemma at_while {X Y} (body : X -> M C R G (X + Y)) x g sh :
  at_ pid (while_ body x) g sh = while_sys body (at_ pid (body x) g sh).
Proof.
  unfold at_, while_sys, bind_sys; cbn [trees shp]. rewrite !map_fmap_singleton. do 2 f_equal.
  change (observe (while_ body x g))
    with (observe (ITree.bind (ITree.bind (body x g) while_next) (while_again body))).
  by rewrite !observe_bind_node.
Qed.

Lemma while_sys_returned {X Y} (body : X -> M C R G (X + Y)) g x sh :
  while_sys body (returned pid g (inl x) sh)
  = MkSys {[ pid := TauF (while_ body x g) ]} sh.
Proof. unfold while_sys, bind_sys, returned; cbn [trees shp]. by rewrite !map_fmap_singleton. Qed.

Lemma while_sys_done {X Y} (body : X -> M C R G (X + Y)) g y sh :
  while_sys body (returned pid g (inr y) sh) = returned pid g y sh.
Proof. unfold while_sys, bind_sys, returned; cbn [trees shp]. by rewrite !map_fmap_singleton. Qed.

Lemma step_again {X Y} (body : X -> M C R G (X + Y)) g x sh :
  step pid (MkSys {[ pid := TauF (while_ body x g) ]} sh) = Some (at_ pid (while_ body x) g sh).
Proof.
  unfold step; cbn [trees shp]. rewrite lookup_singleton_eq. cbn [step_at].
  unfold set_tree. by rewrite insert_singleton_eq.
Qed.

(** One round of a loop. *)
Lemma wp_while {X Y} (body : X -> M C R G (X + Y)) x g sh (Φ : G -> Y -> shape W -> Prop) :
  wp (body x) g sh (fun g' r sh' =>
    match r with inl x' => wp (while_ body x') g' sh' Φ | inr y => Φ g' y sh' end) ->
  wp (while_ body x) g sh Φ.
Proof.
  intros H. unfold wp. rewrite at_while. unfold while_sys.
  eapply inevitable_bind with (P := fun s => exists g' r sh',
    s = bind_sys while_next (returned pid g' r sh')
    /\ match r with inl x' => wp (while_ body x') g' sh' Φ | inr y => Φ g' y sh' end).
  - eapply inevitable_bind; [exact H|]. intros s (g' & r & sh' & -> & HΦ).
    apply inev_now; [|by exists g', r, sh'].
    unfold bind_sys, returned; cbn [trees shp]. rewrite map_fmap_singleton.
    intros p. unfold step; simpl. destruct (decide (p = pid)) as [->|Hne].
    + rewrite lookup_singleton_eq. by destruct r.
    + by rewrite lookup_singleton_ne.
  - intros s (g' & [x'|y] & sh' & -> & HΦ).
    + change (bind_sys _ (bind_sys _ ?t)) with (while_sys body t). rewrite while_sys_returned.
      eapply inevitable_alone; [done | apply step_again | exact HΦ].
    + change (bind_sys _ (bind_sys _ ?t)) with (while_sys body t). rewrite while_sys_done.
      by apply (wp_ret y).
Qed.

(** A system that can always go on in [S] does not end. *)
Lemma never_ends {A} (S P : sys C R W A -> Prop) s :
  (forall s, S s -> exists p s', step p s = Some s' /\ S s') -> S s -> ~ inevitable P s.
Proof.
  intros Hs HS Hi. revert HS. induction Hi as [s Hf _ | s _ _ _ IH]; intros HS;
    destruct (Hs s HS) as (p & s' & E & HS').
  - specialize (Hf p). congruence.
  - by eapply IH.
Qed.

(** A loop whose body always asks for another round does not end. *)
Lemma while_never_ends {X Y} (I : X -> G -> shape W -> Prop) (body : X -> M C R G (X + Y)) x g sh
    (P : sys C R W (G * Y) -> Prop) :
  (forall x g sh, I x g sh ->
     wp (body x) g sh (fun g' r sh' => exists x', r = inl x' /\ I x' g' sh')) ->
  I x g sh -> ~ inevitable P (at_ pid (while_ body x) g sh).
Proof.
  intros Hb HI. set (Q := fun s : sys C R W (G * (X + Y)) => exists g' r sh', s = returned pid g' r sh'
    /\ exists x', r = inl x' /\ I x' g' sh').
  assert (H0 : forall x g sh, I x g sh ->
    exists t, at_ pid (while_ body x) g sh = while_sys body t /\ inevitable Q t).
  { intros x1 g1 sh1 H1. exists (at_ pid (body x1) g1 sh1). split; [apply at_while | by apply Hb]. }
  apply (never_ends (fun s => exists t, s = while_sys body t /\ inevitable Q t)); [|by apply H0].
  intros s (t & -> & Ht). destruct Ht as [t _ (g' & r & sh' & -> & x' & -> & HI')|t Hr (p & t' & Hp) Hn].
  - exists pid, (at_ pid (while_ body x') g' sh'). rewrite while_sys_returned.
    split; [apply step_again | by apply H0].
  - exists p, (while_sys body t'). split; [|eauto].
    unfold while_sys. rewrite !step_bind, Hp; [done | by apply Hr | by apply no_ret_bind].
Qed.

(** A loop that ends at once. *)
Lemma wp_while_done {X Y} (body : X -> M C R G (X + Y)) x g sh (Φ : G -> Y -> shape W -> Prop) :
  wp (body x) g sh (fun g' r sh' => exists y, r = inr y /\ Φ g' y sh') ->
  wp (while_ body x) g sh Φ.
Proof.
  intros H. apply wp_while. eapply wp_mono; [|exact H]. by intros g' r sh' (y & -> & HΦ).
Qed.

Lemma wp_call c g sh r w (Φ : G -> R -> shape W -> Prop) :
  k_do pid c (s_world sh) = Some (r, w) -> Φ g r (with_world w sh) -> wp (call c) g sh Φ.
Proof.
  intros Hk HΦ. eapply inevitable_alone; [done | |].
  - unfold step; simpl. rewrite lookup_singleton_eq; simpl. by rewrite Hk.
  - unfold set_tree. rewrite insert_singleton_eq. by apply (wp_ret r).
Qed.

Lemma wp_report e g sh (Φ : G -> unit -> shape W -> Prop) :
  Φ g tt (with_report pid e sh) -> wp (ev (Report e)) g sh Φ.
Proof.
  intros HΦ. eapply inevitable_alone; [done | |].
  - unfold step; simpl. by rewrite lookup_singleton_eq.
  - unfold set_tree. rewrite insert_singleton_eq. by apply (wp_ret tt).
Qed.

Lemma wp_pipe_read p m ms g sh (Φ : G -> option (list Z) -> shape W -> Prop) :
  s_pipes sh !! p = Some (m :: ms) -> Φ g (Some m) (with_pipe p ms sh) ->
  wp (ev (PipeRead p)) g sh Φ.
Proof.
  intros Hp HΦ. eapply inevitable_alone; [done | |].
  - unfold step; simpl. rewrite lookup_singleton_eq; simpl. by rewrite Hp.
  - unfold set_tree. rewrite insert_singleton_eq. by apply (wp_ret (Some m)).
Qed.

Lemma wp_resm t fmt args g sh (Φ : G -> unit -> shape W -> Prop) :
  Φ g tt (with_report pid (Entry t None fmt args) sh) ->
  wp (tst_resm t fmt args : M C R G unit) g sh Φ.
Proof. apply wp_report. Qed.

Lemma wp_resm_errno t e fmt args g sh (Φ : G -> unit -> shape W -> Prop) :
  Φ g tt (with_report pid (Entry t (Some e) fmt args) sh) ->
  wp (tst_resm_errno t e fmt args : M C R G unit) g sh Φ.
Proof. apply wp_report. Qed.

Lemma dies_exit {A} code g sh (Φ : shape W -> Prop) :
  Φ (exit_shape pid (exit_status code) sh) -> dies (exit code : M C R G A) g sh Φ.
Proof.
  intros HΦ. eapply inevitable_alone; [done | |].
  - unfold step; simpl. by rewrite lookup_singleton_eq.
  - rewrite delete_singleton_eq. apply inev_now; [|done]. intros p. done.
Qed.

Lemma dies_tst_exit {A} g sh (Φ : shape W -> Prop) :
  Φ (exit_shape pid (exit_status (tst_status (log_of pid sh))) sh) ->
  dies (tst_exit : M C R G A) g sh Φ.
Proof.
  intros HΦ. eapply inevitable_alone; [done | |].
  - unfold step; simpl. by rewrite lookup_singleton_eq.
  - rewrite delete_singleton_eq. apply inev_now; [|done]. intros p. done.
Qed.

Lemma wp_getpid g sh (Φ : G -> Z -> shape W -> Prop) : Φ g pid sh -> wp getpid g sh Φ.
Proof.
  intros HΦ. eapply inevitable_alone; [done | |].
  - unfold step; simpl. by rewrite lookup_singleton_eq.
  - unfold set_tree. rewrite insert_singleton_eq. by apply (wp_ret pid).
Qed.

Lemma wp_when (b : bool) (m : M C R G unit) g sh (Φ : G -> unit -> shape W -> Prop) :
  (b = true -> wp m g sh Φ) -> (b = false -> Φ g tt sh) -> wp (when b m) g sh Φ.
Proof. intros H1 H2. destruct b; [by apply H1 | apply wp_ret; by apply H2]. Qed.

Lemma wp_if {A} (b : bool) (m1 m2 : M C R G A) g sh Φ :
  (b = true -> wp m1 g sh Φ) -> (b = false -> wp m2 g sh Φ) ->
  wp (if b then m1 else m2) g sh Φ.
Proof. destruct b; auto. Qed.

Lemma dies_if {A} (b : bool) (m1 m2 : M C R G A) g sh Φ :
  (b = true -> dies m1 g sh Φ) -> (b = false -> dies m2 g sh Φ) ->
  dies (if b then m1 else m2) g sh Φ.
Proof. destruct b; auto. Qed.
End Wp.

(** ** Two processes *)

Section Two.
Context {C R W B : Type} {K : Kernel C R W}.
Variables p q : Z.
Hypothesis p_q : p <> q.
Implicit Types (P : sys C R W B -> Prop) (n m : node C R B).

(** Processes [p] and [q] and no other. *)
Definition two n m (sh : shape W) : sys C R W B := MkSys (<[p := n]> {[ q := m ]}) sh.

Lemma step_two r n m sh :
  step r (two n m sh)
  = if decide (r = p) then step_at p n (trees (two n m sh)) sh
    else if decide (r = q) then step_at q m (trees (two n m sh)) sh else None.
Proof.
  unfold step; simpl. destruct (decide (r = p)) as [->|Hp].
  - by rewrite lookup_insert_eq.
  - rewrite lookup_insert_ne by done. destruct (decide (r = q)) as [->|Hq].
    + by rewrite lookup_singleton_eq.
    + by rewrite lookup_singleton_ne.
Qed.

Lemma no_ret_two n m sh : is_ret n = false -> is_ret m = false -> no_ret (two n m sh).
Proof.
  intros Hn Hm r x. simpl. destruct (decide (r = p)) as [->|Hp].
  - rewrite lookup_insert_eq. by intros [= <-].
  - rewrite lookup_insert_ne by done. destruct (decide (r = q)) as [->|Hq].
    + rewrite lookup_singleton_eq. by intros [= <-].
    + by rewrite lookup_singleton_ne.
Qed.

Lemma set_left n m n' sh : <[p := n']> (trees (two n m sh)) = trees (two n' m sh).
Proof. apply insert_insert_eq. Qed.

Lemma set_right n m m' sh : <[q := m']> (trees (two n m sh)) = trees (two n m' sh).
Proof. simpl. rewrite insert_insert_ne by done. by rewrite insert_singleton_eq. Qed.

(** The other process is blocked: this one goes on. *)
Lemma two_left P n m sh n' sh' :
  is_ret n = false -> is_ret m = false ->
  step_at q m (trees (two n m sh)) sh = None ->
  step_at p n (trees (two n m sh)) sh = Some (MkSys (<[p := n']> (trees (two n m sh))) sh') ->
  inevitable P (two n' m sh') -> inevitable P (two n m sh).
Proof.
  intros Hn Hm Hq Hp Hi. rewrite set_left in Hp.
  apply inev_step; [by apply no_ret_two | |].
  - exists p. rewrite step_two, decide_True by done. eauto.
  - intros r s'. rewrite step_two. destruct (decide (r = p)) as [->|].
    + rewrite Hp. by intros [= <-].
    + destruct (decide (r = q)) as [->|]; [by rewrite Hq | done].
Qed.

Lemma two_right P n m sh m' sh' :
  is_ret n = false -> is_ret m = false ->
  step_at p n (trees (two n m sh)) sh = None ->
  step_at q m (trees (two n m sh)) sh = Some (MkSys (<[q := m']> (trees (two n m sh))) sh') ->
  inevitable P (two n m' sh') -> inevitable P (two n m sh).
Proof.
  intros Hn Hm Hp Hq Hi. rewrite set_right in Hq.
  apply inev_step; [by apply no_ret_two | |].
  - exists q. rewrite step_two, decide_False, decide_True by done. eauto.
  - intros r s'. rewrite step_two. destruct (decide (r = p)) as [->|].
    + by rewrite Hp.
    + destruct (decide (r = q)) as [->|]; [rewrite Hq; by intros [= <-] | done].
Qed.

(** Neither can go on. *)
Lemma two_final P n m sh :
  step_at p n (trees (two n m sh)) sh = None -> step_at q m (trees (two n m sh)) sh = None ->
  P (two n m sh) -> inevitable P (two n m sh).
Proof.
  intros Hp Hq HP. apply inev_now; [|done]. intros r. rewrite step_two.
  destruct (decide (r = p)) as [->|]; [done|]. by destruct (decide (r = q)) as [->|].
Qed.

(** An internal step of the other process. *)
Lemma two_tau_right P n (t : itree (sysE C R) B) sh :
  (forall s, P s -> solo s) -> is_ret n = false ->
  inevitable P (two n (observe t) sh) -> inevitable P (two n (TauF t) sh).
Proof.
  intros HP Hn Hi.
  eapply (@inevitable_local _ _ _ _ K (no_local K) P q _ _ (TauF t) (observe t) None HP).
  - by apply no_ret_two.
  - simpl. by rewrite lookup_insert_ne, lookup_singleton_eq.
  - done.
  - pose proof (set_right n (TauF t) (observe t) sh) as E. cbn [trees two] in E.
    cbn [reported]. by rewrite E.
Qed.

(** A report of the first process while the second is blocked. *)
Lemma two_report P e (k : unit -> itree (sysE C R) B) m sh :
  is_ret m = false -> step_at q m (trees (two (VisF (Report e) k) m sh)) sh = None ->
  inevitable P (two (observe (k tt)) m (with_report p e sh)) ->
  inevitable P (two (VisF (Report e) k) m sh).
Proof. intros Hm Hb. by eapply two_left. Qed.
Lemma two_comm n m sh : two n m sh = MkSys (<[q := m]> {[ p := n ]}) sh.
Proof. unfold two. f_equal. by rewrite <- insert_empty, (insert_insert_ne _ p q), insert_empty. Qed.

(** The first process ends while the second is blocked. *)
Lemma two_left_ends P n m sh sh' :
  is_ret n = false -> is_ret m = false ->
  step_at q m (trees (two n m sh)) sh = None ->
  step_at p n (trees (two n m sh)) sh = Some (MkSys (delete p (trees (two n m sh))) sh') ->
  inevitable P (MkSys {[ q := m ]} sh') -> inevitable P (two n m sh).
Proof.
  intros Hn Hm Hq Hp Hi.
  assert (E : delete p (trees (two n m sh)) = {[ q := m ]}).
  { unfold two; cbn [trees]. rewrite delete_insert_eq, delete_id; [done|].
    by rewrite lookup_singleton_ne. }
  rewrite E in Hp. apply inev_step; [by apply no_ret_two | |].
  - exists p. rewrite step_two, decide_True by done. eauto.
  - intros r s'. rewrite step_two. destruct (decide (r = p)) as [->|].
    + rewrite Hp. by intros [= <-].
    + destruct (decide (r = q)) as [->|]; [by rewrite Hq | done].
Qed.

(** The first process ends while the second is blocked for good. *)
Lemma two_exit P code (k : Empty_set -> itree (sysE C R) B) m sh :
  is_ret m = false ->
  (forall ts, step_at q m ts sh = None) ->
  (forall ts, step_at q m ts (exit_shape p (exit_status code) sh) = None) ->
  P (MkSys {[ q := m ]} (exit_shape p (exit_status code) sh)) ->
  inevitable P (two (VisF (Exit code) k) m sh).
Proof.
  intros Hm Hb Hb' HP. eapply two_left_ends; [done | done | by apply Hb | reflexivity |].
  apply inev_now; [|done]. intros r. unfold step; cbn [trees shp].
  destruct (decide (r = q)) as [->|].
  - by rewrite lookup_singleton_eq.
  - by rewrite lookup_singleton_ne.
Qed.
End Two.

(** Evaluates the node on the left of an equation. *)
Ltac head_node :=
  match goal with
  | |- ?x = ?y => let x' := eval lazy head beta iota zeta delta in x in change (x' = y)
  end.

(** ** A child that makes one call and exits *)

Section ForkCall.
Context {C R W G : Type} {K : Kernel C R W}.
Variable pid : Z.
Implicit Types (g : G) (sh : shape W).

(** Process [pid] runs, it has no children, and no number from [s_next] on is in
    use. *)
Record childless sh : Prop := Childless {
  cl_pid : pid < s_next sh;
  cl_alive : is_Some (s_info sh !! pid);
  cl_fresh : forall k, s_next sh <= k -> s_info sh !! k = None;
  cl_zombies : s_zombies sh = ∅
}.

(** The shape after a child has come and gone, leaving world [w]. *)
Definition after_child (w : W) sh : shape W :=
  Shape (s_info sh) ∅ (s_pipes sh) (s_logs sh)
    (s_caught sh || from_option p_chld false (s_info sh !! pid)) (s_next sh + 1)
    (k_exit (s_next sh) w).

Lemma after_child_childless w sh : childless sh -> childless (after_child w sh).
Proof.
  intros [H1 H2 H3 H4]. split; cbn; [lia | done | intros k Hk; apply H3; lia | done].
Qed.

(** The child is alive: its parent waits. *)
Lemma wait_alive sh want c i :
  want = -1 \/ want = c ->
  s_zombies sh = ∅ -> s_info sh !! c = Some i -> p_parent i = pid ->
  wait_for pid want sh = None.
Proof.
  intros Hwant Hz Hc Hi. unfold wait_for. rewrite Hz, map_to_list_empty. cbn [filter list_filter].
  match goal with |- match filter ?P ?l with _ => _ end = _ =>
    assert (Hin : (c, i) ∈ filter P l) end.
  { apply list_elem_of_filter. split.
    - unfold child_of; cbn [fst snd]. rewrite Hi, Z.eqb_refl.
      by destruct Hwant as [-> | ->]; rewrite Z.eqb_refl, ?orb_true_r.
    - by apply elem_of_map_to_list. }
  destruct (filter _ _); [by apply not_elem_of_nil in Hin | done].
Qed.

(** The child is dead: its parent gets its status. *)
Lemma wait_dead sh want c st :
  want = -1 \/ want = c ->
  s_zombies sh = {[ c := (pid, st) ]} -> wait_for pid want sh = Some (Some (c, st)).
Proof.
  intros Hwant Hz. unfold wait_for. rewrite Hz, map_to_list_singleton.
  rewrite filter_cons_True; [done|]. cbn [fst snd]. rewrite Z.eqb_refl.
  by destruct Hwant as [-> | ->]; rewrite Z.eqb_refl, ?orb_true_r.
Qed.

(** The shape when the child has exited with status [st] and nobody has waited. *)
Definition dead_child (st : Z) (w : W) sh : shape W :=
  let sh' := after_child w sh in
  Shape (s_info sh') {[ s_next sh := (pid, st) ]} (s_pipes sh') (s_logs sh') (s_caught sh')
    (s_next sh') (s_world sh').

Lemma child_exits st w sh :
  childless sh -> 0 < pid ->
  exit_shape (s_next sh) st (with_world w (fork_shape pid sh)) = dead_child st w sh.
Proof.
  intros [Hp [i0 Ha] Hf Hz] Hpid. unfold exit_shape, dead_child, after_child, fork_shape; cbn.
  rewrite lookup_insert_eq, Ha, Hz; cbn.
  rewrite (proj2 (Z.eqb_neq pid 0)) by lia.
  rewrite lookup_insert_ne, Ha by lia. cbn.
  rewrite delete_insert_eq, delete_id by (apply Hf; lia). done.
Qed.

(** A child that makes call [c] and exits with a code computed from the answer;
    its parent waits for it. *)
Definition fork_call {A} (c : C) (f : R -> Z) (rest : Z * Z -> M C R G A) : M C R G A :=
  kid ← fork;
  if kid =? 0 then (x ← call c; exit (f x)) else (st ← waitpid kid; rest st).

Lemma fork_call_step {A} c f (rest : Z * Z -> M C R G A) g sh :
  s_next sh <> pid -> s_next sh <> 0 ->
  exists kc kp,
    step pid (at_ pid (fork_call c f rest) g sh)
    = Some (two (s_next sh) pid (VisF (Sys c) kc) (VisF (Waitpid (s_next sh)) kp)
              (fork_shape pid sh))
    /\ (forall r, exists ke, observe (kc r) = VisF (Exit (f r)) ke)
    /\ (forall st, observe (kp st) = observe (rest st g)).
Proof.
  intros Hne Hn0. apply Z.eqb_neq in Hn0. eexists _, _. split.
  - unfold step, at_; cbn [trees shp]. rewrite lookup_singleton_eq.
    cbv [mbind M_bind fork ev fork_call]. cbn. rewrite lookup_singleton_ne by done.
    unfold set_tree. cbn. rewrite insert_singleton_eq.
    match goal with
    | |- context [observe ?t] =>
        let t' := eval lazy head beta iota zeta delta -[Z.eqb s_next] in (observe t) in
        change (observe t) with t'
    end.
    cbn [fst snd]. rewrite Hn0. cbn. reflexivity.
  - split; [intros r; eexists; head_node; reflexivity | intros st; reflexivity].
Qed.

Lemma wp_fork_call {A} c f (rest : Z * Z -> M C R G A) g sh r w Φ :
  childless sh -> 0 < pid ->
  k_do (s_next sh) c (k_fork pid (s_next sh) (s_world sh)) = Some (r, w) ->
  wp pid (rest (s_next sh, exit_status (f r))) g (after_child w sh) Φ ->
  wp pid (fork_call c f rest) g sh Φ.
Proof.
  intros [Hp [i0 Ha] Hf Hz] Hpid Hk Hi.
  destruct (fork_call_step c f rest g sh) as (kc & kp & Hs & Hkc & Hkp); [lia|lia|].
  destruct (Hkc r) as [ke Hke].
  assert (Hw : forall w', wait_for pid (s_next sh) (with_world w' (fork_shape pid sh)) = None).
  { intros w'. apply wait_alive with (s_next sh) (PInfo pid (p_chld i0) []); [by right | done | | done].
    unfold fork_shape; cbn. rewrite Ha. cbn. by rewrite lookup_insert_eq. }
  eapply inevitable_alone; [done | exact Hs |].
  eapply two_left; [done | done | | |].
  { cbn [step_at]. pose proof (Hw (k_fork pid (s_next sh) (s_world sh))) as E.
    replace (with_world _ _) with (fork_shape pid sh) in E by by destruct sh. by rewrite E. }
  { cbn [step_at fork_shape s_world]. rewrite Hk. reflexivity. }
  rewrite Hke. eapply two_left_ends; [lia | done | done | | reflexivity |].
  { cbn [step_at]. by rewrite Hw. }
  rewrite (child_exits (exit_status (f r)) w sh) by (by split || lia).
  eapply inevitable_alone; [done | |].
  { unfold step; cbn [trees shp]. rewrite lookup_singleton_eq. cbn [step_at].
    rewrite (wait_dead _ _ (s_next sh) (exit_status (f r))) by (by right || done). reflexivity. }
  unfold set_tree. rewrite insert_singleton_eq, Hkp.
  assert (E : without_zombie (s_next sh) (dead_child (exit_status (f r)) w sh) = after_child w sh).
  { unfold without_zombie, dead_child, after_child; cbn. by rewrite delete_singleton_eq. }
  rewrite E. exact Hi.
Qed.
End ForkCall.


(** What [wp] proves on a reference platform holds on every platform that refines
    it, in related worlds. *)
Lemma wp_refines {C R W V G A} (K : Kernel C R W) (S : Kernel C R V) `{F : !Refines K S} pid
    (m : M C R G A) g (sh : shape W) (v : V) (Φ : G -> A -> shape V -> Prop) :
  rel (s_world sh) v ->
  wp (K := S) pid m g (map_world (fun _ => v) sh) Φ ->
  wp (K := K) pid m g sh (fun g' a sh' =>
    exists v', rel (s_world sh') v' /\ Φ g' a (map_world (fun _ => v') sh')).
Proof.
  intros Hv Hw. eapply inevitable_mono;
    [|apply (inevitable_refines K S _ _ Hw); by repeat split].
  intros s (t & (Ht & Hs & Hr) & g' & a & sh' & -> & HΦ). simpl in *.
  exists g', a, (shp s). split; [by destruct s; simpl in *; subst|].
  exists (s_world sh'). split; [done|]. by rewrite Hs.
Qed.

(** The next event of the first process. *)
Ltac node_head :=
  match goal with
  | |- inevitable ?Q (two ?p ?q ?n ?m ?sh) =>
      let n' := eval lazy head beta iota zeta delta in n in
      change (inevitable Q (two p q n' m sh))
  end.

(** One step of a [wp] or [dies] proof, by the shape of the program. *)
Ltac wp_step :=
  lazymatch goal with
  | |- wp _ (mbind _ _) _ _ _ => apply wp_bind
  | |- dies _ (mbind _ _) _ _ _ => apply dies_bind
  | |- wp _ (mret _) _ _ _ => apply wp_ret
  | |- wp _ get _ _ _ => apply wp_get
  | |- wp _ (modify _) _ _ _ => apply wp_modify
  | |- wp _ (tst_resm _ _ _) _ _ _ => apply wp_resm
  | |- wp _ (tst_resm_errno _ _ _ _) _ _ _ => apply wp_resm_errno
  | |- wp _ (when _ _) _ _ _ => apply wp_when; intros ?
  | |- wp _ (if _ then _ else _) _ _ _ => apply wp_if; intros ?
  | |- dies _ (if _ then _ else _) _ _ _ => apply dies_if; intros ?
  | |- dies _ (exit _) _ _ _ => apply dies_exit
  | |- dies _ tst_exit _ _ _ => apply dies_tst_exit
  | |- wp _ getpid _ _ _ => apply wp_getpid
  end.

Ltac wp_steps := repeat wp_step; cbn beta.
