(* ===== verification/Alone.v ===== *)
(** * A program logic for a test that is a single process

    For a program that never forks, the shape of the system is determined by the
    world of the kernel and the reports made so far ([shape_at]).  [sx m g w log Φ]:
    run from globals [g], world [w] and reports [log], [m] returns, in a state that
    satisfies [Φ]; [sx_dies]: it ends the process.  [sx_run] goes back to runs of the
    system.  [reports n m]: [m] adds exactly [n] reports, whatever the kernel answers
    ([reports] hints). *)

From S2P Require Import Prelude Tst Process Explore Prog Checker Wp.

Definition shape_at {W} (w : W) (log : list entry) : shape W :=
  Shape {[ main_pid := PInfo 0 false [] ]} ∅ ∅
    (match log with [] => ∅ | _ => {[ main_pid := log ]} end) false (main_pid + 1) w.

Lemma log_of_shape_at {W} (w : W) log : log_of main_pid (shape_at w log) = log.
Proof. unfold log_of, shape_at; cbn [s_logs]. by destruct log; rewrite ?lookup_singleton_eq. Qed.

Lemma report_shape_at {W} (w : W) log e :
  with_report main_pid e (shape_at w log) = shape_at w (log ++ [e]).
Proof.
  unfold with_report. rewrite log_of_shape_at.
  unfold shape_at; cbn [s_info s_zombies s_pipes s_logs s_caught s_next s_world].
  destruct log as [|x log]; cbn [app].
  - done.
  - by rewrite insert_singleton_eq.
Qed.

Section Alone.
Context {C R W G : Type} {K : Kernel C R W}.
Implicit Types (g : G) (w : W) (log : list entry).

Definition sx {A} (m : M C R G A) g w log (Φ : G -> A -> W -> list entry -> Prop) : Prop :=
  wp main_pid m g (shape_at w log) (fun g' a sh' =>
    exists w' log', sh' = shape_at w' log' /\ Φ g' a w' log').

Definition sx_dies {A} (m : M C R G A) g w log (Φ : W -> list entry -> Prop) : Prop :=
  dies main_pid m g (shape_at w log) (fun sh' =>
    exists w' log' st, sh' = exit_shape main_pid st (shape_at w' log') /\ Φ w' log').

Lemma sx_ret {A} (x : A) g w log Φ : Φ g x w log -> sx (mret x) g w log Φ.
Proof. intros H. apply wp_ret. eauto. Qed.

Lemma sx_get g w log (Φ : G -> G -> W -> list entry -> Prop) : Φ g g w log -> sx get g w log Φ.
Proof. intros H. apply wp_get. eauto. Qed.

Lemma sx_modify f g w log (Φ : G -> unit -> W -> list entry -> Prop) :
  Φ (f g) tt w log -> sx (modify f) g w log Φ.
Proof. intros H. apply wp_modify. eauto. Qed.

Lemma sx_mono {A} (m : M C R G A) g w log (Φ Ψ : G -> A -> W -> list entry -> Prop) :
  (forall g' a w' log', Φ g' a w' log' -> Ψ g' a w' log') ->
  sx m g w log Φ -> sx m g w log Ψ.
Proof. intros H. apply wp_mono. intros g' a sh' (w' & log' & -> & HΦ). eauto 6. Qed.

Lemma sx_bind {A B} (m : M C R G A) (f : A -> M C R G B) g w log Φ :
  sx m g w log (fun g' a w' log' => sx (f a) g' w' log' Φ) -> sx (m ≫= f) g w log Φ.
Proof.
  intros H. apply wp_bind. eapply wp_mono; [|exact H].
  by intros g' a sh' (w' & log' & -> & HΦ).
Qed.

Lemma sx_dies_mono {A} (m : M C R G A) g w log (Φ Ψ : W -> list entry -> Prop) :
  (forall w' log', Φ w' log' -> Ψ w' log') -> sx_dies m g w log Φ -> sx_dies m g w log Ψ.
Proof.
  intros H. apply inevitable_mono. intros s (He & w' & log' & st & Hs & HΦ). eauto 8.
Qed.

Lemma sx_dies_bind {A B} (m : M C R G A) (f : A -> M C R G B) g w log Φ :
  sx m g w log (fun g' a w' log' => sx_dies (f a) g' w' log' Φ) ->
  sx_dies (m ≫= f) g w log Φ.
Proof.
  intros H. apply dies_bind. eapply wp_mono; [|exact H].
  by intros g' a sh' (w' & log' & -> & HΦ).
Qed.

(** The result is exactly this one. *)
Definition exactly {A} (g1 : G) (a1 : A) (w1 : W) (log1 : list entry) (g : G) (a : A) (w : W)
    (log : list entry) : Prop :=
  g = g1 /\ a = a1 /\ w = w1 /\ log = log1.

(** Running a sequence step by step, when the result of the first part is found by
    running it. *)
Lemma sx_step {A B} (m : M C R G A) (f : A -> M C R G B) g w log g1 a1 w1 log1 Φ :
  sx m g w log (exactly g1 a1 w1 log1) -> sx (f a1) g1 w1 log1 Φ -> sx (m ≫= f) g w log Φ.
Proof.
  intros H1 H2. apply sx_bind. eapply sx_mono; [|exact H1].
  by intros g' a w' log' (-> & -> & -> & ->).
Qed.

Lemma sx_dies_step {A B} (m : M C R G A) (f : A -> M C R G B) g w log g1 a1 w1 log1 Φ :
  sx m g w log (exactly g1 a1 w1 log1) -> sx_dies (f a1) g1 w1 log1 Φ ->
  sx_dies (m ≫= f) g w log Φ.
Proof.
  intros H1 H2. apply sx_dies_bind. eapply sx_mono; [|exact H1].
  by intros g' a w' log' (-> & -> & -> & ->).
Qed.

(** The rule for a sequence whose first part is known by a specification. *)
Lemma sx_seq {A B} (m : M C R G A) (f : A -> M C R G B) g w log Ψ Φ :
  sx m g w log Ψ -> (forall g' a w' log', Ψ g' a w' log' -> sx (f a) g' w' log' Φ) ->
  sx (m ≫= f) g w log Φ.
Proof. intros H1 H2. apply sx_bind. by eapply sx_mono. Qed.

Lemma sx_call c g w log r w' (Φ : G -> R -> W -> list entry -> Prop) :
  k_do main_pid c w = Some (r, w') -> Φ g r w' log -> sx (call c) g w log Φ.
Proof. intros Hk HΦ. eapply wp_call; [exact Hk|]. by exists w', log. Qed.

Lemma sx_report e g w log (Φ : G -> unit -> W -> list entry -> Prop) :
  Φ g tt w (log ++ [e]) -> sx (ev (Report e)) g w log Φ.
Proof. intros HΦ. apply wp_report. rewrite report_shape_at. by exists w, (log ++ [e]). Qed.

Lemma sx_resm t fmt args g w log (Φ : G -> unit -> W -> list entry -> Prop) :
  Φ g tt w (log ++ [Entry t None fmt args]) -> sx (tst_resm t fmt args) g w log Φ.
Proof. apply sx_report. Qed.

Lemma sx_resm_errno t e fmt args g w log (Φ : G -> unit -> W -> list entry -> Prop) :
  Φ g tt w (log ++ [Entry t (Some e) fmt args]) -> sx (tst_resm_errno t e fmt args) g w log Φ.
Proof. apply sx_report. Qed.

Lemma sx_if {A} (b : bool) (m1 m2 : M C R G A) g w log Φ :
  (b = true -> sx m1 g w log Φ) -> (b = false -> sx m2 g w log Φ) ->
  sx (if b then m1 else m2) g w log Φ.
Proof. destruct b; auto. Qed.

Lemma sx_true {A} (b : bool) (m1 m2 : M C R G A) g w log Φ :
  b = true -> sx m1 g w log Φ -> sx (if b then m1 else m2) g w log Φ.
Proof. by intros ->. Qed.

Lemma sx_false {A} (b : bool) (m1 m2 : M C R G A) g w log Φ :
  b = false -> sx m2 g w log Φ -> sx (if b then m1 else m2) g w log Φ.
Proof. by intros ->. Qed.

Lemma sx_when (b : bool) (m : M C R G unit) g w log (Φ : G -> unit -> W -> list entry -> Prop) :
  (b = true -> sx m g w log Φ) -> (b = false -> Φ g tt w log) -> sx (when b m) g w log Φ.
Proof. intros H1 H2. destruct b; [by apply H1 | apply sx_ret; by apply H2]. Qed.

Lemma sx_dies_exit {A} g w log (Φ : W -> list entry -> Prop) :
  Φ w log -> sx_dies (tst_exit : M C R G A) g w log Φ.
Proof. intros H. apply dies_tst_exit. eauto 6. Qed.

(** What follows the end of the process does not matter. *)
Lemma sx_dies_left {A B} (m : M C R G A) (f : A -> M C R G B) g w log Φ :
  sx_dies m g w log Φ -> sx_dies (m ≫= f) g w log Φ.
Proof. apply dies_bind_left. Qed.

(** A loop with an invariant. *)
Lemma sx_for (I : Z -> G -> W -> list entry -> Prop) (body : Z -> M C R G unit) start n g w log :
  (forall i g w log, start <= i < start + Z.of_nat n -> I i g w log ->
     sx (body i) g w log (fun g' _ w' log' => I (i + 1) g' w' log')) ->
  I start g w log ->
  sx (for_from start n body) g w log (fun g' _ w' log' => I (start + Z.of_nat n) g' w' log').
Proof.
  intros Hb HI. apply (wp_for _ (fun i g sh => exists w log, sh = shape_at w log /\ I i g w log)).
  - intros i g1 sh1 Hi (w1 & log1 & -> & H1). by apply Hb.
  - eauto.
Qed.

(** One round of a loop. *)
Lemma sx_while {X Y} (body : X -> M C R G (X + Y)) x g w log Φ :
  sx (body x) g w log (fun g' r w' log' =>
    match r with inl x' => sx (while_ body x') g' w' log' Φ | inr y => Φ g' y w' log' end) ->
  sx (while_ body x) g w log Φ.
Proof.
  intros H. apply wp_while. eapply wp_mono; [|exact H].
  intros g' r sh' (w' & log' & -> & HΦ). destruct r as [x'|y]; [exact HΦ | eauto].
Qed.

(** From the boot of a program to its end. *)
Lemma ended_shape st w log :
  let sh := exit_shape main_pid st (shape_at w log) in
  s_info sh = ∅ /\ s_caught sh = false /\ all_logs sh = log /\ log_of main_pid sh = log.
Proof.
  unfold exit_shape, shape_at, all_logs; cbn [s_info s_caught s_logs].
  rewrite lookup_singleton_eq. cbn [from_option p_parent].
  rewrite lookup_singleton_ne, delete_singleton_eq by done. repeat split; try done.
  - destruct log as [|e log]; [by rewrite map_to_list_empty|].
    rewrite map_to_list_singleton. cbn. by rewrite app_nil_r.
  - exact (log_of_shape_at w log).
Qed.

Lemma sx_ends {A} (m : M C R G A) g w (Φ : W -> list entry -> Prop) :
  sx_dies m g w [] Φ ->
  inevitable (fun s => s_info (shp s) = ∅ /\ exists w', Φ w' (log_of main_pid (shp s)))
    (boot main_pid m g w).
Proof.
  intros Hd. eapply inevitable_mono; [|exact Hd].
  intros s (_ & w' & log & st & -> & HΦ). destruct (ended_shape st w' log) as (H1 & _ & _ & H2).
  split; [done|]. exists w'. by rewrite H2.
Qed.

Lemma sx_run {A} chk (m : M C R G A) g w (Φ : W -> list entry -> Prop) :
  sx_dies m g w [] Φ ->
  (forall w' log, Φ w' log -> clean log = true /\ chk log = true) ->
  inevitable (fun s => passed main_pid chk s = true) (boot main_pid m g w).
Proof.
  intros Hd Hc. eapply inevitable_mono; [|exact Hd].
  intros s (_ & w' & log & st & Hs & HΦ). destruct (Hc _ _ HΦ) as [H1 H2].
  destruct (ended_shape st w' log) as (Hi & Hg & Ha & Hl).
  unfold passed. by rewrite Hs, Hi, Hg, Ha, Hl, H1, H2, map_to_list_empty.
Qed.
End Alone.

(** ** Running a program *)

(** [wait] of a process without children. *)
Lemma wait_alone want {W} (w : W) log :
  wait_for main_pid want (shape_at w log) = Some None.
Proof.
  unfold wait_for, shape_at; cbn [s_zombies s_info].
  rewrite map_to_list_empty, map_to_list_singleton. cbn [filter list_filter].
  rewrite decide_False; [done|].
  unfold child_of; cbn [fst snd p_parent]. intros H. apply andb_true_iff in H as [_ H]. done.
Qed.

Section RunAlone.
Context {C R W G : Type} {K : Kernel C R W}.

(** What a single process does, when it returns within [fuel] events: its result, the
    world and the reports it made. *)
Fixpoint run_alone {A} (fuel : nat) (n : node C R A) (w : W) : option (A * W * list entry) :=
  match fuel with
  | O => None
  | S fuel =>
      match n with
      | RetF a => Some (a, w, [])
      | TauF t => run_alone fuel (observe t) w
      | VisF e k =>
          match e in sysE _ _ X
            return (X -> itree (sysE C R) A) -> option (A * W * list entry) with
          | Sys c => fun k =>
              match k_do main_pid c w with
              | Some (r, w) => run_alone fuel (observe (k r)) w
              | None => None
              end
          | Getpid => fun k => run_alone fuel (observe (k main_pid)) w
          | Waitpid _ => fun k => run_alone fuel (observe (k (-1, 0))) w
          | Report e => fun k =>
              match run_alone fuel (observe (k tt)) w with
              | Some (a, w, l) => Some (a, w, e :: l)
              | None => None
              end
          | _ => fun _ => None
          end k
      end
  end.

Lemma run_alone_inevitable {A} fuel (n : node C R (G * A)) w log g a w' l :
  run_alone fuel n w = Some ((g, a), w', l) ->
  inevitable (fun s => s = returned main_pid g a (shape_at w' (log ++ l)))
    (MkSys {[ main_pid := n ]} (shape_at w log)).
Proof.
  assert (Hgo : forall n0 sh n1 sh1 P, is_ret n0 = false ->
    step main_pid (MkSys {[ main_pid := n0 ]} sh) = Some (MkSys {[ main_pid := n1 ]} sh1) ->
    inevitable P (MkSys {[ main_pid := n1 ]} sh1) ->
    inevitable P (MkSys {[ main_pid := n0 ]} sh : sys C R W (G * A))).
  { intros n0 sh n1 sh1 P Hr Hs. by apply inevitable_alone. }
  revert n w log l. induction fuel as [|fuel IH]; intros n w log l H; [done|]. cbn in H.
  destruct n as [r|t|X e k].
  - simplify_eq. rewrite app_nil_r. apply inev_now; [apply (final_returned main_pid g a) | done].
  - eapply Hgo; [done | | by apply IH].
    unfold step; cbn [trees shp]. rewrite lookup_singleton_eq. cbn [step_at].
    unfold set_tree. by rewrite insert_singleton_eq.
  - destruct e; try done;
      try (eapply Hgo; [done | | by apply IH];
           unfold step; cbn [trees shp]; rewrite lookup_singleton_eq; cbn [step_at];
           rewrite ?wait_alone; unfold set_tree; by rewrite insert_singleton_eq).
    + destruct (k_do main_pid c w) as [[r w1]|] eqn:E; [|done].
      eapply Hgo; [done | | by apply IH].
      unfold step; cbn [trees shp]; rewrite lookup_singleton_eq; cbn [step_at s_world shape_at].
      rewrite E. unfold set_tree. by rewrite insert_singleton_eq.
    + destruct (run_alone fuel (observe (k tt)) w) as [[[x w1] l1]|] eqn:E; [|done]. simplify_eq.
      eapply Hgo; [done | |].
      { unfold step; cbn [trees shp]; rewrite lookup_singleton_eq; cbn [step_at].
        unfold set_tree. rewrite insert_singleton_eq, report_shape_at. reflexivity. }
      replace (log ++ e :: l1) with ((log ++ [e]) ++ l1) by by rewrite <- app_assoc. by apply IH.
Qed.

Lemma sx_run_alone {A} fuel (m : M C R G A) g w log g' a w' l :
  run_alone fuel (observe (m g)) w = Some ((g', a), w', l) ->
  sx m g w log (exactly g' a w' (log ++ l)).
Proof.
  intros H. eapply inevitable_mono; [|by apply (run_alone_inevitable fuel _ w log)].
  intros s ->. by eexists _, _, _; split; [|eexists _, _].
Qed.
End RunAlone.

(** ** Running a program to its end *)

Section RunEnd.
Context {C R W G : Type} {K : Kernel C R W}.

(** What a single process does that ends within [fuel] events: the world it leaves and
    the reports it made. *)
Fixpoint run_end {A} (fuel : nat) (n : node C R A) (w : W) : option (W * list entry) :=
  match fuel with
  | O => None
  | S fuel =>
      match n with
      | RetF _ => None
      | TauF t => run_end fuel (observe t) w
      | VisF e k =>
          match e in sysE _ _ X
            return (X -> itree (sysE C R) A) -> option (W * list entry) with
          | Sys c => fun k =>
              match k_do main_pid c w with
              | Some (r, w) => run_end fuel (observe (k r)) w
              | None => None
              end
          | Report e => fun k =>
              match run_end fuel (observe (k tt)) w with
              | Some (w, l) => Some (w, e :: l)
              | None => None
              end
          | Getpid => fun k => run_end fuel (observe (k main_pid)) w
          | TstExit | Exit _ => fun _ => Some (w, [])
          | _ => fun _ => None
          end k
      end
  end.

Definition ended {A} (w' : W) (log : list entry) (s : sys C R W A) : Prop :=
  trees s = ∅ /\ exists st, shp s = exit_shape main_pid st (shape_at w' log).

(** The step of a process that is alone. *)
Ltac alone_step :=
  unfold step; cbn [trees shp]; rewrite lookup_singleton_eq; cbn [step_at s_world shape_at];
  unfold set_tree; rewrite ?insert_singleton_eq, ?delete_singleton_eq, ?report_shape_at; reflexivity.

Lemma run_end_inevitable {A} fuel (n : node C R A) w log w' l :
  run_end fuel n w = Some (w', l) ->
  inevitable (ended w' (log ++ l)) (MkSys {[ main_pid := n ]} (shape_at w log)).
Proof.
  revert n w log l. induction fuel as [|fuel IH]; intros n w log l H; [done|]. cbn in H.
  assert (Hend : forall st, inevitable (ended w (log ++ []))
    (MkSys ∅ (exit_shape main_pid st (shape_at w log)) : sys C R W A)).
  { intros st. apply inev_now; [intros q; done|]. rewrite app_nil_r. split; [done|by exists st]. }
  destruct n as [r|t|X e k]; [done | eapply inevitable_alone; [done|alone_step|by apply IH] |].
  destruct e; try done.
  - destruct (k_do main_pid c w) as [[r w1]|] eqn:E; [|done].
    eapply inevitable_alone; [done | | by apply IH].
    unfold step; cbn [trees shp]; rewrite lookup_singleton_eq; cbn [step_at s_world shape_at].
    rewrite E. unfold set_tree. by rewrite insert_singleton_eq.
  - eapply inevitable_alone; [done|alone_step|by apply IH].
  - destruct (run_end fuel (observe (k tt)) w) as [[w1 l1]|] eqn:E; [|done]. simplify_eq.
    eapply inevitable_alone; [done|alone_step|].
    replace (log ++ e :: l1) with ((log ++ [e]) ++ l1) by by rewrite <- app_assoc. by apply IH.
  - simplify_eq. eapply inevitable_alone; [done|alone_step|]. apply Hend.
  - simplify_eq. eapply inevitable_alone; [done|alone_step|]. apply Hend.
Qed.

Lemma sx_dies_run_end {A} fuel (m : M C R G A) g w log w' l :
  run_end fuel (observe (m g)) w = Some (w', l) ->
  sx_dies m g w log (fun w1 log1 => w1 = w' /\ log1 = log ++ l).
Proof.
  intros H. eapply inevitable_mono; [|by apply (run_end_inevitable fuel _ w log)].
  intros s (He & st & Hs). split; [done|]. by exists w', (log ++ l), st.
Qed.

(** A property of booleans, checked on both. *)
Definition both (f : bool -> bool) : bool := f true && f false.

Lemma both_spec f b : both f = true -> f b = true.
Proof. intros [H1 H2]%andb_true_iff. by destruct b. Qed.

(** A run whose log is clean exactly when [want] is true. *)
Definition judged_by (want : bool) (r : option (W * list entry)) : bool :=
  match r with Some (_, log) => Bool.eqb (clean log) want | None => false end.

Lemma judged_by_spec want r :
  judged_by want r = true -> exists w l, r = Some (w, l) /\ clean l = want.
Proof. destruct r as [[w l]|]; [|done]. intros H%eqb_prop. by exists w, l. Qed.

(** From the boot of a program to its end. *)
Lemma run_end_ends {A} fuel (m : M C R G A) g w w' l :
  run_end fuel (observe (m g)) w = Some (w', l) ->
  inevitable (fun s => s_info (shp s) = ∅ /\ log_of main_pid (shp s) = l) (boot main_pid m g w).
Proof.
  intros H. apply (sx_dies_run_end fuel m g w []) in H. apply sx_ends in H.
  eapply inevitable_mono; [|exact H]. intros s [H1 (w1 & _ & H2)]. by split.
Qed.

Lemma run_end_passed {A} chk fuel (m : M C R G A) g w w' l :
  run_end fuel (observe (m g)) w = Some (w', l) -> clean l = true -> chk l = true ->
  inevitable (fun s => passed main_pid chk s = true) (boot main_pid m g w).
Proof.
  intros H Hc Hk. eapply sx_run; [exact (sx_dies_run_end _ _ _ _ [] _ _ H)|].
  by intros w1 log [-> ->].
Qed.
End RunEnd.

(** ** How many reports a program makes *)

(** A kernel on which no call blocks. *)
Class Total {C R W} (K : Kernel C R W) : Prop :=
  total_do pid c w : is_Some (k_do pid c w).

Section Reports.
Context {C R W G : Type} {K : Kernel C R W} `{!Total K}.

Definition reports (n : nat) {A} (m : M C R G A) : Prop := forall g w log,
  sx m g w log (fun _ _ _ log' => exists l, log' = log ++ l /\ length l = n).

Lemma reports_ret {A} (x : A) : reports 0 (mret x).
Proof. intros g w log. apply sx_ret. exists []. by rewrite app_nil_r. Qed.

Lemma reports_get : reports 0 get.
Proof. intros g w log. apply sx_get. exists []. by rewrite app_nil_r. Qed.

Lemma reports_modify f : reports 0 (modify f).
Proof. intros g w log. apply sx_modify. exists []. by rewrite app_nil_r. Qed.

Lemma sx_call_any c g w log (Φ : G -> R -> W -> list entry -> Prop) :
  (forall r w', Φ g r w' log) -> sx (call c) g w log Φ.
Proof.
  intros HΦ. destruct (total_do main_pid c w) as [[r w'] E]. by eapply sx_call.
Qed.

Lemma reports_call c : reports 0 (call c).
Proof. intros g w log. apply sx_call_any. intros r w'. exists []. by rewrite app_nil_r. Qed.

(** A program without reports. *)
Lemma sx_quiet {A} (m : M C R G A) g w log (Φ : G -> A -> W -> list entry -> Prop) :
  reports 0 m -> (forall g' a w', Φ g' a w' log) -> sx m g w log Φ.
Proof.
  intros Hm HΦ. eapply sx_mono; [|apply Hm].
  intros g' a w' log' (l & -> & Hl). destruct l; [|done]. by rewrite app_nil_r.
Qed.

Lemma reports_resm t fmt args : reports 1 (tst_resm t fmt args).
Proof. intros g w log. apply sx_resm. by exists [Entry t None fmt args]. Qed.

Lemma reports_resm_errno t e fmt args : reports 1 (tst_resm_errno t e fmt args).
Proof. intros g w log. apply sx_resm_errno. by exists [Entry t (Some e) fmt args]. Qed.

Lemma reports_bind {A B} a b n (m : M C R G A) (f : A -> M C R G B) :
  n = (a + b)%nat -> reports a m -> (forall x, reports b (f x)) -> reports n (m ≫= f).
Proof.
  intros -> Hm Hf g w log. eapply sx_seq; [apply Hm|].
  intros g' x w' log' (l & -> & Hl). eapply sx_mono; [|apply Hf].
  intros g2 y w2 log2 (l2 & -> & Hl2). exists (l ++ l2).
  rewrite length_app, app_assoc. by rewrite Hl, Hl2.
Qed.

Lemma reports_if {A} n (b : bool) (m1 m2 : M C R G A) :
  reports n m1 -> reports n m2 -> reports n (if b then m1 else m2).
Proof. by destruct b. Qed.

Lemma reports_for n (body : Z -> M C R G unit) k start :
  (forall i, reports n (body i)) -> reports (k * n) (for_from start k body).
Proof.
  intros Hb. revert start. induction k as [|k IH]; intros start; cbn [for_from].
  - apply reports_ret.
  - eapply (reports_bind n (k * n)); [lia | apply Hb | intros _; apply IH].
Qed.

Lemma reports_waitpid q : reports 0 (waitpid q).
Proof.
  intros g w log. eapply sx_mono; [|apply (sx_run_alone 2); reflexivity].
  intros g' a w' log' (-> & -> & -> & ->). by exists [].
Qed.
End Reports.

Create HintDb reports.
#[export] Hint Resolve reports_ret reports_get reports_modify reports_call reports_resm
  reports_resm_errno reports_waitpid : reports.

(** Solves [reports n m] for a literal [n] by the structure of [m]: calls are free,
    in a sequence either part may hold the report. *)
Ltac reports_step :=
  lazymatch goal with
  | |- reports _ (if _ then _ else _) => apply reports_if
  | |- reports _ (match ?x with _ => _ end) => destruct x
  | |- reports 0 (mbind _ _) => eapply (reports_bind 0 0); [reflexivity | | intros ?]
  | |- _ => solve [eauto 2 with reports]
  end.

Ltac reports_auto :=
  lazymatch goal with
  | |- reports 1 (mbind _ _) =>
      first [ eapply (reports_bind 0 1);
              [reflexivity | solve [repeat reports_step] | intros ?; reports_auto]
            | eapply (reports_bind 1 0);
              [reflexivity | reports_auto | intros ?; solve [repeat reports_step]] ]
  | |- reports 1 (if _ then _ else _) => apply reports_if; reports_auto
  | |- reports _ _ => repeat reports_step
  end.
