(* ===== verification/Ends.v ===== *)
(** * A test that may end early

    Functions of the newer test library end the process when a check fails.
    [ex m g w log Φ Ψ]: run alone from globals [g], world [w] and reports [log], [m]
    returns in a state that satisfies [Φ], or ends the process with a world and
    reports that satisfy [Ψ].  [yields l m]: whatever the kernel answers, either a
    report of [m] is something else than a pass or an information, or [m] returns and
    the types of its reports are exactly [l] ([yields] hints, [yields_auto]). *)

From S2P Require Import Prelude Tst Process Explore Prog Checker Wp Alone.

(** ** Logs *)

(** A report of a check that holds, or an information. *)
Definition good_type (t : ttype) : bool :=
  match t with TPASS | TINFO => true | _ => false end.

Definition good (e : entry) : bool := good_type (e_type e).

Definition fine (l : list entry) : bool := forallb good l.

Definition types (l : list entry) : list ttype := map e_type l.

Definition passes (n : nat) : list ttype := replicate n TPASS.

Lemma fine_app l1 l2 : fine (l1 ++ l2) = fine l1 && fine l2.
Proof. apply forallb_app. Qed.

Lemma types_app l1 l2 : types (l1 ++ l2) = types l1 ++ types l2.
Proof. apply map_app. Qed.

Lemma fine_clean l : fine l = true -> clean l = true.
Proof.
  intros H. apply forallb_forall. intros e He.
  pose proof (proj1 (forallb_forall _ _) H e He) as Hg. unfold good in Hg.
  unfold bad_entry. by destruct (e_type e).
Qed.

Lemma fine_types l : forallb good_type (types l) = fine l.
Proof. induction l as [|e l IH]; [done|]. by change (good e && forallb good_type (types l) = good e && fine l); rewrite IH. Qed.

Lemma clean_types l :
  forallb (fun t => match t with TFAIL | TBROK | TWARN => false | _ => true end) (types l) = true ->
  clean l = true.
Proof.
  induction l as [|e l IH]; [done|]. intros [He Hl]%andb_true_iff. apply andb_true_iff.
  split; [|by apply IH]. unfold bad_entry. by destruct (e_type e).
Qed.

Lemma types_fine l k : types l = k -> forallb good_type k = true -> fine l = true.
Proof. intros <-. by rewrite fine_types. Qed.

Section Ends.
Context {C R W G : Type} {K : Kernel C R W}.
Implicit Types (g : G) (w : W) (log : list entry).

Definition ex {A} (m : M C R G A) g w log (Φ : G -> A -> W -> list entry -> Prop)
    (Ψ : W -> list entry -> Prop) : Prop :=
  inevitable (fun s =>
      (exists g' a w' log', s = returned main_pid g' a (shape_at w' log') /\ Φ g' a w' log')
      \/ (exists w' log', ended w' log' s /\ Ψ w' log'))
    (at_ main_pid m g (shape_at w log)).

Lemma ex_mono {A} (m : M C R G A) g w log (Φ Φ' : G -> A -> W -> list entry -> Prop)
    (Ψ Ψ' : W -> list entry -> Prop) :
  (forall g' a w' log', Φ g' a w' log' -> Φ' g' a w' log') ->
  (forall w' log', Ψ w' log' -> Ψ' w' log') ->
  ex m g w log Φ Ψ -> ex m g w log Φ' Ψ'.
Proof.
  intros H1 H2. apply inevitable_mono. intros s [(g' & a & w' & log' & -> & H)|(w' & log' & Hs & H)].
  - left. eauto 8.
  - right. eauto 8.
Qed.

Lemma ex_sx {A} (m : M C R G A) g w log Φ Ψ : sx m g w log Φ -> ex m g w log Φ Ψ.
Proof.
  apply inevitable_mono. intros s (g' & a & sh & -> & w' & log' & -> & H). left. eauto 8.
Qed.

Lemma ex_dies {A} (m : M C R G A) g w log (Φ : G -> A -> W -> list entry -> Prop) Ψ :
  sx_dies m g w log Ψ -> ex m g w log Φ Ψ.
Proof.
  apply inevitable_mono. intros s (He & w' & log' & st & Hs & H). right.
  exists w', log'. split; [split; [done|by exists st] | done].
Qed.

Lemma ex_bind {A B} (m : M C R G A) (f : A -> M C R G B) g w log Φ Ψ :
  ex m g w log (fun g' a w' log' => ex (f a) g' w' log' Φ Ψ) Ψ -> ex (m ≫= f) g w log Φ Ψ.
Proof.
  intros H. unfold ex. rewrite at_bind. eapply inevitable_bind; [exact H|].
  intros s [(g' & a & w' & log' & -> & Hk)|(w' & log' & [He [st Hs]] & HΨ)].
  - unfold returned, bind_sys; cbn [trees shp]. rewrite map_fmap_singleton. exact Hk.
  - unfold bind_sys. rewrite He, fmap_empty, Hs. apply inev_now; [intros q; done|].
    right. exists w', log'. split; [split; [done|by exists st] | done].
Qed.

(** One round of a loop. *)
Lemma ex_while {X Y} (body : X -> M C R G (X + Y)) x g w log (Φ : G -> Y -> W -> list entry -> Prop) Ψ :
  ex (body x) g w log (fun g' r w' log' =>
    match r with inl x' => ex (while_ body x') g' w' log' Φ Ψ | inr y => Φ g' y w' log' end) Ψ ->
  ex (while_ body x) g w log Φ Ψ.
Proof.
  intros H. unfold ex. rewrite at_while. unfold while_sys.
  eapply inevitable_bind with (P := fun s =>
    (exists g' r w' log', s = bind_sys while_next (returned main_pid g' r (shape_at w' log'))
      /\ match r with inl x' => ex (while_ body x') g' w' log' Φ Ψ | inr y => Φ g' y w' log' end)
    \/ (exists w' log', ended w' log' s /\ Ψ w' log')).
  - eapply inevitable_bind; [exact H|]. intros s [(g' & r & w' & log' & -> & HΦ)|(w' & log' & [He [st Hs]] & HΨ)].
    + apply inev_now; [|by left; exists g', r, w', log'].
      unfold bind_sys, returned; cbn [trees shp]. rewrite map_fmap_singleton.
      intros p. unfold step; simpl. destruct (decide (p = main_pid)) as [->|Hne].
      * rewrite lookup_singleton_eq. by destruct r.
      * by rewrite lookup_singleton_ne.
    + unfold bind_sys. rewrite He, fmap_empty, Hs. apply inev_now; [intros q; done|].
      right. exists w', log'. split; [split; [done|by exists st] | done].
  - intros s [(g' & [x'|y] & w' & log' & -> & HΦ)|(w' & log' & [He [st Hs]] & HΨ)].
    + change (bind_sys _ (bind_sys _ ?t)) with (while_sys body t). rewrite while_sys_returned.
      eapply inevitable_alone; [done | apply step_again | exact HΦ].
    + change (bind_sys _ (bind_sys _ ?t)) with (while_sys body t). rewrite while_sys_done.
      apply inev_now; [apply (final_returned main_pid g' y)|]. left. by exists g', y, w', log'.
    + unfold bind_sys. rewrite He, fmap_empty, Hs. apply inev_now; [intros q; done|].
      right. exists w', log'. split; [split; [done|by exists st] | done].
Qed.

Lemma ex_if {A} (b : bool) (m1 m2 : M C R G A) g w log Φ Ψ :
  (b = true -> ex m1 g w log Φ Ψ) -> (b = false -> ex m2 g w log Φ Ψ) ->
  ex (if b then m1 else m2) g w log Φ Ψ.
Proof. destruct b; auto. Qed.

Lemma ex_when (b : bool) (m : M C R G unit) g w log (Φ : G -> unit -> W -> list entry -> Prop) Ψ :
  (b = true -> ex m g w log Φ Ψ) -> (b = false -> Φ g tt w log) -> ex (when b m) g w log Φ Ψ.
Proof. destruct b; intros H1 H2; [by apply H1 | apply ex_sx, sx_ret; by apply H2]. Qed.

Lemma ex_exit {A} g w log (Φ : G -> A -> W -> list entry -> Prop) (Ψ : W -> list entry -> Prop) :
  Ψ w log -> ex tst_exit g w log Φ Ψ.
Proof. intros H. by apply ex_dies, sx_dies_exit. Qed.

(** From the boot of a program that ends to its last state. *)
Lemma ex_run {A} (m : M C R G A) g w (Ψ : list entry -> Prop) :
  ex m g w [] (fun _ _ _ _ => False) (fun _ log => Ψ log) ->
  inevitable (fun s => s_info (shp s) = ∅ /\ Ψ (log_of main_pid (shp s))) (boot main_pid m g w).
Proof.
  intros H. eapply inevitable_mono; [|exact H].
  intros s [(g' & a & w' & log' & _ & [])|(w' & log' & [_ [st ->]] & HΨ)].
  destruct (ended_shape st w' log') as (H1 & _ & _ & H2). by rewrite H2.
Qed.

(** ** What a test yields *)

Definition yields (l : list ttype) {A} (m : M C R G A) : Prop := forall g w log,
  ex m g w log
    (fun _ _ _ log' => exists l', log' = log ++ l' /\ (fine l' = true -> types l' = l))
    (fun _ log' => exists l', log' = log ++ l' /\ fine l' = false).

Lemma yields_ret {A} (x : A) : yields [] (mret x).
Proof. intros g w log. apply ex_sx, sx_ret. exists []. by rewrite app_nil_r. Qed.

Lemma yields_get : yields [] get.
Proof. intros g w log. apply ex_sx, sx_get. exists []. by rewrite app_nil_r. Qed.

Lemma yields_modify f : yields [] (modify f).
Proof. intros g w log. apply ex_sx, sx_modify. exists []. by rewrite app_nil_r. Qed.

Lemma yields_bind {A B} l l1 l2 (m : M C R G A) (f : A -> M C R G B) :
  yields l1 m -> l = l1 ++ l2 -> (forall x, yields l2 (f x)) -> yields l (m ≫= f).
Proof.
  intros Hm -> Hf g w log. apply ex_bind. eapply ex_mono; [| |apply Hm].
  - intros g' x w' log' (k1 & -> & H1). eapply ex_mono; [| |apply Hf].
    + intros g2 y w2 log2 (k2 & -> & H2). exists (k1 ++ k2). split; [by rewrite app_assoc|].
      rewrite fine_app, types_app. intros [F1 F2]%andb_true_iff. by rewrite H1, H2.
    + intros w2 log2 (k2 & -> & H2). exists (k1 ++ k2). split; [by rewrite app_assoc|].
      by rewrite fine_app, H2, andb_false_r.
  - by intros w' log' H.
Qed.

(** [m] makes a report that is not good. *)
Definition spoils {A} (m : M C R G A) : Prop := forall g w log,
  ex m g w log
    (fun _ _ _ log' => exists l', log' = log ++ l' /\ fine l' = false)
    (fun _ log' => exists l', log' = log ++ l' /\ fine l' = false).

Lemma spoils_resm t fmt args : good_type t = false -> spoils (tst_resm t fmt args).
Proof.
  intros Ht g w log. apply ex_sx, sx_resm. eexists; split; [done|]. unfold fine, good; cbn. by rewrite Ht.
Qed.

Lemma spoils_resm_errno t e fmt args : good_type t = false -> spoils (tst_resm_errno t e fmt args).
Proof.
  intros Ht g w log. apply ex_sx, sx_resm_errno. eexists; split; [done|].
  unfold fine, good; cbn. by rewrite Ht.
Qed.

Lemma spoils_get {A} (m : G -> M C R G A) : (forall g, spoils (m g)) -> spoils (g ← get; m g).
Proof. intros H g w log. apply ex_bind, ex_sx, sx_get. apply H. Qed.

Lemma yields_spoils {A} l (m : M C R G A) : spoils m -> yields l m.
Proof.
  intros H g w log. eapply ex_mono; [| |apply H]; [|done].
  intros g' a' w' log' (k & -> & Hk). exists k. by rewrite Hk.
Qed.

(** After it the process may end. *)
Lemma spoils_exit {A B} (m : M C R G A) : spoils m -> spoils (m ;; (tst_exit : M C R G B)).
Proof.
  intros H g w log. apply ex_bind. eapply ex_mono; [| |apply H]; [|done].
  intros g' a' w' log' (k & -> & Hk). apply ex_exit. eauto.
Qed.

Lemma yields_report e l : (good e = true -> l = [e_type e]) -> yields l (ev (Report e) : M C R G unit).
Proof.
  intros H g w log. apply ex_sx, sx_report. exists [e]. split; [done|].
  cbn. intros [He _]%andb_true_iff. by rewrite H.
Qed.

Lemma yields_resm t fmt args : good_type t = true -> yields [t] (tst_resm t fmt args : M C R G unit).
Proof. intros _. by apply yields_report. Qed.

Lemma yields_resm_errno t e fmt args : good_type t = true -> yields [t] (tst_resm_errno t e fmt args : M C R G unit).
Proof. intros _. by apply yields_report. Qed.

Lemma yields_if {A} l (b : bool) (m1 m2 : M C R G A) :
  yields l m1 -> yields l m2 -> yields l (if b then m1 else m2).
Proof. by destruct b. Qed.

(** A loop of [n] rounds, the [i]-th of which yields [l i]. *)
Lemma yields_for (l : Z -> list ttype) (body : Z -> M C R G unit) n start :
  (forall i, start <= i < start + Z.of_nat n -> yields (l i) (body i)) ->
  yields (concat (map l (seqZ start (Z.of_nat n)))) (for_from start n body).
Proof.
  revert start. induction n as [|n IH]; intros start Hb; cbn [for_from].
  - apply yields_ret.
  - rewrite seqZ_cons by lia. cbn [map concat].
    replace (Z.pred (Z.of_nat (S n))) with (Z.of_nat n) by lia.
    replace (Z.succ start) with (start + 1) by lia.
    eapply yields_bind; [apply Hb; lia | done |].
    intros _. apply IH. intros i Hi. apply Hb. lia.
Qed.

Lemma yields_run {A} l (m : M C R G unit) g w :
  yields l m ->
  inevitable (fun s => s_info (shp s) = ∅ /\
      (fine (log_of main_pid (shp s)) = true -> types (log_of main_pid (shp s)) = l))
    (boot main_pid (m ;; (tst_exit : M C R G A)) g w).
Proof.
  intros Hm. apply (ex_run _ _ _ (fun log => fine log = true -> types log = l)), ex_bind.
  eapply ex_mono; [| |apply Hm].
  - intros g' x w' log' (k & -> & H). by apply ex_exit.
  - intros w' log' (k & -> & H). cbn [app]. congruence.
Qed.

Section Calls.
Context `{!Total K}.

Lemma ex_call c g w log (Φ : G -> R -> W -> list entry -> Prop) Ψ :
  (forall r w', k_do main_pid c w = Some (r, w') -> Φ g r w' log) -> ex (call c) g w log Φ Ψ.
Proof.
  intros H. destruct (total_do main_pid c w) as [[r w'] E].
  apply ex_sx. eapply sx_call; [exact E | by apply H].
Qed.

Lemma yields_call c : yields [] (call c).
Proof. intros g w log. apply ex_call. intros r w' _. exists []. by rewrite app_nil_r. Qed.
End Calls.
End Ends.

Lemma yields_eq {C R W G A} {K : Kernel C R W} l l' (m : M C R G A) : yields l m -> l = l' -> yields l' m.
Proof. by intros H <-. Qed.

Create HintDb yields discriminated.
#[export] Hint Constants Opaque : yields.
#[export] Hint Resolve yields_ret yields_get yields_modify yields_call yields_resm
  yields_resm_errno spoils_resm spoils_resm_errno : yields.

(** [yields l m] by the structure of [m]; [l] is known, or that of a first part. *)
Ltac spoils_auto :=
  lazymatch goal with
  | |- spoils (mbind (fun _ => tst_exit) _) => apply spoils_exit; spoils_auto
  | |- spoils (mbind _ get) => apply spoils_get; intros ?; spoils_auto
  | |- _ => solve [eauto 3 with yields]
  end.

Ltac yields_auto :=
  lazymatch goal with
  | |- yields _ (if _ then _ else _) => apply yields_if; yields_auto
  | |- yields _ (when _ _) => unfold when; yields_auto
  | |- yields _ (match ?x with _ => _ end) => destruct x; yields_auto
  | |- yields _ (mbind (fun _ => tst_exit) _) => apply yields_spoils; spoils_auto
  | |- yields _ (mbind _ _) =>
      eapply yields_bind; [yields_first | cbn [app replicate passes]; reflexivity | intros ?; yields_auto]
  | |- _ =>
      first
        [ eapply yields_eq; [solve [eauto 3 with yields] | reflexivity]
        | apply yields_spoils; spoils_auto ]
  end
with yields_first :=
  lazymatch goal with
  | |- yields _ (when _ _) => apply (yields_if []); [yields_auto | apply yields_ret]
  | |- yields _ (if _ then _ else _) =>
      first
        [ eapply yields_if; [apply yields_spoils; spoils_auto | yields_auto]
        | eapply yields_if; yields_auto ]
  | |- _ => solve [eauto 3 with yields]
  end.
