(* ===== verification/LockLib.v ===== *)
(** * What the record-lock tests share

    Library calls the [fcntl] tests use around their lock calls: the [SAFE_*]
    wrappers of [safe_macros.h], which report and end the test when the call
    fails, and the calls whose success is all the tests look at. *)

From S2P Require Import Prelude Tst Process Explore RecordLocks Prog Checker.


Definition SIGHUP : Z := 1.
Definition SIGUSR1 : Z := 10.
Definition SIGALRM : Z := 14.
Definition SIGCHLD : Z := 17.

Section Lib.
Context {G : Type}.
Notation LM := (M kcall kreply G).

(** A call through [KMisc]. *)
Definition misc (name : string) (args : list Z) : LM kreply := call (KMisc name args).

Definition misc_ (name : string) (args : list Z) : LM unit := misc name args ;; mret tt.

(** [SAFE_xxx(cleanup, ...)]: the return value, or the end of the test. *)
Definition safe (cleanup : LM unit) (what : string) (c : kcall) : LM Z :=
  r ← call c;
  if rc r <? 0 then tst_brkm TBROK cleanup what [Num (err r)] else mret (rc r).

Definition SAFE_OPEN (cleanup : LM unit) (path : string) (flags mode : Z) : LM Z :=
  safe cleanup "open" (KOpen path flags mode).

Definition SAFE_LSEEK (cleanup : LM unit) (fd off whence : Z) : LM Z :=
  safe cleanup "lseek" (KLseek fd off whence).

Definition SAFE_WRITE (cleanup : LM unit) (fd n : Z) : LM Z :=
  safe cleanup "write" (KWrite fd n).

Definition SAFE_CLOSE (cleanup : LM unit) (fd : Z) : LM Z :=
  safe cleanup "close" (KClose fd).

Definition SAFE_PIPE (cleanup : LM unit) (p : Z) : LM Z :=
  safe cleanup "pipe" (KMisc "pipe" [p]).
End Lib.

(** What a checker finds on the reference platform holds on every POSIX
    platform. *)
Lemma platform_passes {W A G} (K : Kernel kcall kreply W) (w0 : W) `{!PosixPlatform K w0}
    chk (t : G -> shape fstate -> bool) (m : M kcall kreply G A) (g : G) :
  tsound (K := posix (@tst_status _ _ _ K)) main_pid
    (fun s => passed main_pid chk s = true) t m ->
  t g (shp (boot main_pid m g fs_init)) = true ->
  inevitable (fun s => passed main_pid chk s = true) (boot main_pid m g w0).
Proof. exact (refines_passes K (posix tst_status) w0 fs_init chk t m g pp_init). Qed.

(** ** A kernel with a bug

    On [forgetful], a process that sets or clears a lock first loses all its other
    locks on the file: regions are neither split nor kept side by side. *)
Definition forgetful_do (pid : Z) (c : kcall) (w : fstate) : option (kreply * fstate) :=
  match c with
  | KFcntl _ cmd _ => posix_do pid c (if cmd =? F_SETLK then drop_locks pid w else w)
  | _ => posix_do pid c w
  end.

Definition forgetful (ts : list entry -> Z) : Kernel kcall kreply fstate := {|
  k_do := forgetful_do;
  k_fork := fun _ _ w => w;
  k_exit := drop_locks;
  tst_status := ts
|}.

#[export] Instance forgetful_local ts : LocalCalls (forgetful ts).
Proof.
  refine {| k_local := fun c => match c with
                                | KUnlink _ | KMisc _ _ => Some (ok 0)
                                | _ => None
                                end |}.
  intros pid [] r w [=]; by subst.
Defined.
