(* ===== verification/LockServer.v ===== *)
(** * The lock server of fcntl19.c, fcntl20.c and fcntl21.c

    These tests check record locks from two processes.  The parent sets locks;
    it then sends a [struct flock] through [parent_pipe] to a child, which asks
    the kernel with F_GETLK what is in the way and returns the structure through
    [child_pipe] ([do_test]).  [compare_lock] checks the answer.

    The three files contain the same functions, up to the cleanup function and
    what the child does when F_GETLK fails; these are the variables of the
    section.  The definitions below are those of fcntl19.c.

    That a SIGCHLD handler would have run is recorded by the process model, which does
    not run [catch_child].

    [junk] is the indeterminate content of an uninitialised [struct flock]. *)

From S2P Require Import Prelude Tst Process RecordLocks Prog LockLib Explore Checker Wp.

Definition STRINGSIZE : Z := 27.
Definition STOP : Z := 65520.   (* 0xFFF0 *)

(** The two pipes; end 0 is for reading and end 1 for writing. *)
Definition parent_pipe : Z := 0.
Definition child_pipe : Z := 1.

(** The global variables. *)
Record globals := Globals {
  fail : Z;
  fd : Z;
  parent_pid : Z;
  child_pid : Z
}.

#[export] Instance globals_eq_dec : EqDecision globals.
Proof. solve_decision. Defined.

Definition globals0 : globals := Globals 0 0 0 0.

Definition set_fail x g := Globals x (fd g) (parent_pid g) (child_pid g).
Definition set_fd x g := Globals (fail g) x (parent_pid g) (child_pid g).
Definition set_parent_pid x g := Globals (fail g) (fd g) x (child_pid g).
Definition set_child_pid x g := Globals (fail g) (fd g) (parent_pid g) x.

Abbreviation P A := (M kcall kreply globals A).

(** A [struct flock] as bytes on a pipe, one number for each field. *)
Definition to_msg (fl : flock) : list Z :=
  [l_type fl; l_whence fl; l_start fl; l_len fl; l_pid fl].

(** A read of [sizeof(struct flock)] bytes; [None] when it comes back short. *)
Definition of_msg (m : option (list Z)) : option flock :=
  match m with
  | Some [t; w; s; l; p] => Some (Flock t w s l p)
  | _ => None
  end.

Lemma of_to_msg fl : of_msg (Some (to_msg fl)) = Some fl.
Proof. by destruct fl. Qed.

Definition close_end (pipe which : Z) : P unit := misc_ "close" [pipe; which].

(** [fl->l_type == (short)STOP]. *)
Definition is_stop (fl : flock) : bool := l_type fl =? to_short STOP.

(** [fl.l_type = STOP], a [short]. *)
Definition stop_message (junk : flock) : flock :=
  Flock (to_short STOP) (l_whence junk) (l_start junk) (l_len junk) (l_pid junk).

(** [int do_lock(cmd, type, whence, start, len)]. *)
Definition do_lock (junk : flock) (cmd type whence start len : Z) : P kreply :=
  g ← get;
  call (KFcntl (fd g) cmd (Flock type whence start len (l_pid junk))).

Definition fail1 : P unit := modify (set_fail 1).

Definition str_type (type : Z) : string :=
  if type =? 1 then "F_RDLCK"
  else if type =? 2 then "F_WRLCK"
  else if type =? 3 then "F_UNLCK"
  else "BAD VALUE: " +:+ pretty type.

Definition compare_lock (fl : flock) (type whence start len pid : Z) : P unit :=
  when (negb (l_type fl =? type))
    (tst_resm TFAIL "lock type is wrong should be %s is %s"
       [Str (str_type type); Str (str_type (l_type fl))] ;; fail1) ;;
  when (negb (l_whence fl =? whence))
    (tst_resm TFAIL "lock whence is wrong should be %d is %d"
       [Num whence; Num (l_whence fl)] ;; fail1) ;;
  when (negb (l_start fl =? start))
    (tst_resm TFAIL "region starts in wrong place, should be%d is %ld"
       [Num start; Num (l_start fl)] ;; fail1) ;;
  when (negb (l_len fl =? len))
    (tst_resm TFAIL "region length is wrong, should be %d is %ld"
       [Num len; Num (l_len fl)] ;; fail1) ;;
  when (negb (l_pid fl =? pid))
    (tst_resm TFAIL "locking pid is wrong, should be %d is %d"
       [Num pid; Num (l_pid fl)] ;; fail1).

(** ** Messages *)

Definition parent_put (l : flock) : P unit :=
  b ← ev (PipeWrite parent_pipe (to_msg l));
  when (negb b) (tst_resm TFAIL "couldn't send message to child" [] ;; fail1).

(** [*l] after the call. *)
Definition parent_get (l : flock) : P flock :=
  m ← ev (PipeRead child_pipe);
  match of_msg m with
  | Some l' => mret l'
  | None => tst_resm TFAIL "couldn't get message from child" [] ;; fail1 ;; mret l
  end.

Definition child_put (l : flock) : P unit :=
  b ← ev (PipeWrite child_pipe (to_msg l));
  when (negb b) (tst_resm TFAIL "couldn't send message to parent" [] ;; fail1).

Definition do_test (type whence start len : Z) : P flock :=
  let fl := Flock type whence start len 0 in
  parent_put fl ;; parent_get fl.

Section Server.
Variable cleanup : P unit.
Variable getlk_failed : kreply -> P unit.
Variable junk : flock.

Definition child_get (l : flock) : P flock :=
  m ← ev (PipeRead parent_pipe);
  match of_msg m with
  | None => tst_resm TFAIL "couldn't get message from parent" [] ;; cleanup ;; mret l
  | Some l' => if is_stop l' then exit 0 else mret l'
  end.

(** One round of the child's loop; [fl] keeps its content between rounds. *)
Definition serve (fl : flock) : P flock :=
  fl ← child_get fl;
  g ← get;
  r ← call (KFcntl (fd g) F_GETLK fl);
  when (rc r <? 0) (getlk_failed r) ;;
  let fl' := if rc r <? 0 then fl else out r in
  child_put fl' ;;
  mret fl'.

Definition do_child {A} : P A :=
  close_end parent_pipe 1 ;;
  close_end child_pipe 0 ;;
  forever serve junk.

Definition unlock_file : P unit :=
  r ← do_lock junk F_SETLK F_UNLCK 0 0 0;
  when (rc r <? 0)
    (tst_resm TFAIL "fcntl on file failed, errno =%d" [Num (err r)] ;; fail1) ;;
  fl ← do_test F_WRLCK 0 0 0;
  compare_lock fl F_UNLCK 0 0 0 0.

Definition stop_child : P unit :=
  ev (SigChld false) ;;
  parent_put (stop_message junk) ;;
  waitpid (-1) ;;
  mret tt.

(** The SIGCHLD handler, which runs when the child ends before it is told to. *)
Definition catch_child : P unit :=
  tst_resm TFAIL "Unexpected death of child process" [] ;;
  cleanup.

(** [if (do_lock(F_SETLK, type, 0, start, len) < 0) { ...; fail = 1; }]. *)
Definition try_lock (type start len : Z) : P unit :=
  r ← do_lock junk F_SETLK type 0 start len;
  when (rc r <? 0)
    (tst_resm TFAIL "fcntl on file failed, errno =%d" [Num (err r)] ;; fail1).

(** [do_test(&tl, F_WRLCK, 0, at, n); compare_lock(&tl, type, 0, start, len,
    parent_pid)]: the first lock from byte [at] on. *)
Definition expect_lock (at_ n : Z) (type start len : Z) : P unit :=
  tl ← do_test F_WRLCK 0 at_ n;
  g ← get;
  compare_lock tl type 0 start len (parent_pid g).

(** [do_test(&tl, F_WRLCK, 0, at, n); compare_lock(&tl, F_UNLCK, 0, at, n, 0)]:
    no lock there. *)
Definition expect_free (at_ n : Z) : P unit :=
  tl ← do_test F_WRLCK 0 at_ n;
  compare_lock tl F_UNLCK 0 at_ n 0.

(** [if (fail) tst_resm(TINFO, ... FAILED) else tst_resm(TINFO, ... PASSED)]. *)
Definition verdict (failed passed : string) : P unit :=
  g ← get;
  if negb (fail g =? 0) then tst_resm TINFO failed [] else tst_resm TINFO passed [].
End Server.

(** ** The protocol, on any kernel *)

Section Protocol.
Context {W : Type} {K : Kernel kcall kreply W} {B : Type}.
Variables (pp cp : Z) (cleanup : P unit) (getlk_failed : kreply -> P unit).
Hypothesis pp_cp : pp <> cp.
Implicit Types (Q : sys kcall kreply W B -> Prop) (sh : shape W).

(** The child waiting for the next message. *)
Definition serving {A} (k : globals * A -> itree (sysE kcall kreply) B) (fl : flock)
    (gc : globals) : node kcall kreply B :=
  obind (observe (forever (serve cleanup getlk_failed) fl gc)) k.

(** Nothing is in the pipes. *)
Definition quiet sh : Prop :=
  default [] (s_pipes sh !! parent_pipe) = [] /\ default [] (s_pipes sh !! child_pipe) = [].

(** A message through a pipe and back leaves it as it was. *)
Definition exchanged (w : W) sh : shape W :=
  with_pipe child_pipe [] (with_pipe parent_pipe [] (with_world w sh)).


Ltac head_lhs :=
  match goal with
  | |- ?x = ?y => let x' := eval lazy head beta iota zeta delta -[is_stop Z.ltb rc] in x in change (x' = y)
  end.
Lemma serving_node {A} (k : globals * A -> itree (sysE kcall kreply) B) fl gc :
  exists kc, serving k fl gc = VisF (PipeRead parent_pipe) kc
    /\ forall f, is_stop f = false -> exists kd,
         observe (kc (Some (to_msg f))) = VisF (Sys (KFcntl (fd gc) F_GETLK f)) kd
         /\ forall r, 0 <= rc r -> exists ke,
              observe (kd r) = VisF (PipeWrite child_pipe (to_msg (out r))) ke
              /\ exists t, observe (ke true) = TauF t /\ observe t = serving k (out r) gc.
Proof.
  eexists; split; [reflexivity|]. intros [t w s l p] Hs.
  eexists; split.
  { head_lhs. cbn [fst snd l_type l_whence l_start l_len l_pid]. rewrite Hs. head_lhs. reflexivity. }
  intros r Hr. assert (Hb : rc r <? 0 = false) by (apply Z.ltb_ge; lia).
  eexists; split.
  { head_lhs. cbn [fst snd l_type l_whence l_start l_len l_pid]; rewrite !Hb. head_lhs. reflexivity. }
  eexists; split; [reflexivity|]. reflexivity.
Qed.

(** On the stop message the child exits. *)
Lemma serving_stop {A} (k : globals * A -> itree (sysE kcall kreply) B) fl gc :
  exists kc, serving k fl gc = VisF (PipeRead parent_pipe) kc
    /\ forall f, is_stop f = true -> exists ke,
         observe (kc (Some (to_msg f))) = VisF (Exit 0) ke.
Proof.
  eexists; split; [reflexivity|]. intros [t w s l p] Hs. eexists.
  head_lhs. cbn [fst snd l_type l_whence l_start l_len l_pid]. rewrite Hs. head_lhs. reflexivity.
Qed.

(** With nothing in its pipe the child is blocked. *)
Lemma serving_blocked {A} (k : globals * A -> itree (sysE kcall kreply) B) fl gc ts sh :
  default [] (s_pipes sh !! parent_pipe) = [] -> step_at cp (serving k fl gc) ts sh = None.
Proof.
  intros H. destruct (serving_node k fl gc) as (kc & -> & _). simpl.
  by destruct (s_pipes sh !! parent_pipe) as [[|m ms]|].
Qed.

Lemma exchanged_quiet v sh : quiet (exchanged v sh).
Proof.
  split; cbn [s_pipes exchanged with_pipe].
  - by rewrite lookup_insert_ne, lookup_insert_eq.
  - by rewrite lookup_insert_eq.
Qed.

(** The node of a parent that is about to send query [q] and to go on with the
    answer as [cont]. *)
Definition asks (n : node kcall kreply B) (q : flock) (cont : flock -> node kcall kreply B)
  : Prop :=
  exists k1 k2,
    n = VisF (PipeWrite parent_pipe (to_msg q)) k1
    /\ observe (k1 true) = VisF (PipeRead child_pipe) k2
    /\ forall f, observe (k2 (Some (to_msg f))) = cont f.

Lemma exchanged_eq v msg ans sh :
  with_pipe child_pipe [] (with_pipe child_pipe ans
    (with_world v (with_pipe parent_pipe [] (with_pipe parent_pipe msg sh))))
  = exchanged v sh.
Proof.
  unfold exchanged, with_pipe, with_world; simpl. by rewrite !insert_insert_eq.
Qed.

(** One remote query: whatever the kernel and whatever is asked, the parent gets
    the child's F_GETLK answer and the child waits again. *)
Lemma query_rule {A} Q n q cont (k : globals * A -> itree (sysE kcall kreply) B) fl gc sh r v :
  (forall x, Q x -> solo x) -> quiet sh -> asks n q cont -> is_stop q = false ->
  k_do cp (KFcntl (fd gc) F_GETLK q) (s_world sh) = Some (r, v) -> 0 <= rc r ->
  inevitable Q (two pp cp (cont (out r)) (serving k (out r) gc) (exchanged v sh)) ->
  inevitable Q (two pp cp n (serving k fl gc) sh).
Proof.
  intros HQ Hq (k1 & k2 & -> & Hk1 & Hk2) Ht Hk Hr Hi.
  destruct (serving_node k fl gc) as (kc & Hkc0 & Hkc).
  destruct (Hkc _ Ht) as (kd & Hkd & Hke). destruct (Hke r Hr) as (ke & Hke' & t' & Ht' & Ht'').
  destruct Hq as [Hq1 Hq2].
  (* the parent writes *)
  eapply two_left; [done|by rewrite Hkc0|by apply serving_blocked|reflexivity|].
  rewrite Hq1, Hkc0, Hk1. cbn [app].
  set (msg := to_msg q) in *.
  assert (Hblk : forall ts sh', s_pipes sh' !! child_pipe = s_pipes sh !! child_pipe ->
    step_at pp (VisF (PipeRead child_pipe) k2) ts sh' = None).
  { intros ts sh' E. simpl. rewrite E.
    by destruct (s_pipes sh !! child_pipe) as [[|m ms]|]. }
  (* the child reads, asks and writes *)
  eapply two_right; [done|done|done| | |].
  { apply Hblk. simpl. by rewrite lookup_insert_ne. }
  { cbn [step_at with_pipe s_pipes]. rewrite lookup_insert_eq. reflexivity. }
  rewrite Hkd. eapply two_right; [done|done|done| | |].
  { apply Hblk. simpl. by rewrite !lookup_insert_ne. }
  { cbn [step_at with_pipe s_world]. rewrite Hk. reflexivity. }
  rewrite Hke'. eapply two_right; [done|done|done| |reflexivity|].
  { apply Hblk. simpl. by rewrite !lookup_insert_ne. }
  rewrite Ht'. apply two_tau_right; [done|done|done|]. rewrite Ht''.
  (* the parent reads *)
  eapply two_left; [done|by destruct (serving_node k (out r) gc) as (? & -> & _)| | |].
  { apply serving_blocked. cbn [s_pipes with_pipe with_world].
    by rewrite lookup_insert_ne, lookup_insert_eq. }
  { cbn [step_at with_pipe with_world s_pipes]. rewrite lookup_insert_eq.
    rewrite !lookup_insert_ne, Hq2 by done. cbn [app]. reflexivity. }
  rewrite Hk2, exchanged_eq. exact Hi.
Qed.

(** The complaints of [compare_lock], in order. *)
Definition complaints (fl : flock) (type whence start len pid : Z) : list entry :=
  let bad (b : bool) fmt args := if b then [] else [Entry TFAIL None fmt args] in
  bad (l_type fl =? type) "lock type is wrong should be %s is %s"
    [Str (str_type type); Str (str_type (l_type fl))]
  ++ bad (l_whence fl =? whence) "lock whence is wrong should be %d is %d"
       [Num whence; Num (l_whence fl)]
  ++ bad (l_start fl =? start) "region starts in wrong place, should be%d is %ld"
       [Num start; Num (l_start fl)]
  ++ bad (l_len fl =? len) "region length is wrong, should be %d is %ld"
       [Num len; Num (l_len fl)]
  ++ bad (l_pid fl =? pid) "locking pid is wrong, should be %d is %d"
       [Num pid; Num (l_pid fl)].

Definition reports (pid : Z) (l : list entry) sh : shape W :=
  foldl (fun sh e => with_report pid e sh) sh l.

(** [compare_lock] makes these complaints, and sets [fail] when there are any. *)
Lemma compare_lock_rule {A} Q (kp : globals * unit -> itree (sysE kcall kreply) B)
    (k : globals * A -> itree (sysE kcall kreply) B) fl type whence start len pid flc g gc sh :
  let bad := complaints fl type whence start len pid in
  quiet sh ->
  inevitable Q (two pp cp
    (observe (kp (match bad with [] => g | _ => set_fail 1 g end, tt)))
    (serving k flc gc) (reports pp bad sh)) ->
  inevitable Q (two pp cp
    (observe (ITree.bind (compare_lock fl type whence start len pid g) kp))
    (serving k flc gc) sh).
Proof.
  cbv zeta. intros Hq Hi.
  destruct (serving_node k flc gc) as (kc & Hkc & _).
  assert (Hb : forall ts sh', s_pipes sh' = s_pipes sh ->
    step_at cp (serving k flc gc) ts sh' = None).
  { intros ts sh' E. apply serving_blocked. rewrite E. apply Hq. }
  assert (Hn : is_ret (serving k flc gc) = false) by by rewrite Hkc.
  clear Hkc kc. generalize dependent (serving k flc gc). intros m Hi Hb Hm.
  unfold complaints, compare_lock in *.
  destruct (l_type fl =? type), (l_whence fl =? whence), (l_start fl =? start),
    (l_len fl =? len), (l_pid fl =? pid); cbn [negb app reports foldl] in *.
  all: repeat (node_head; eapply two_report; [exact Hm | by apply Hb |]); exact Hi.
Qed.

(** [fail] after these complaints. *)
Definition blame (bad : list entry) (g : globals) : globals :=
  match bad with [] => g | _ => set_fail 1 g end.

Lemma expect_lock_asks (kp : globals * unit -> itree (sysE kcall kreply) B)
    at_ n type start len g :
  asks (observe (ITree.bind (expect_lock at_ n type start len g) kp))
    (Flock F_WRLCK 0 at_ n 0)
    (fun fl => observe (ITree.bind (compare_lock fl type 0 start len (parent_pid g) g) kp)).
Proof.
  eexists _, _. split; [head_lhs; reflexivity|]. split; [head_lhs; reflexivity|].
  intros []. reflexivity.
Qed.

Lemma expect_free_asks (kp : globals * unit -> itree (sysE kcall kreply) B) at_ n g :
  asks (observe (ITree.bind (expect_free at_ n g) kp))
    (Flock F_WRLCK 0 at_ n 0)
    (fun fl => observe (ITree.bind (compare_lock fl F_UNLCK 0 at_ n 0 g) kp)).
Proof.
  eexists _, _. split; [head_lhs; reflexivity|]. split; [head_lhs; reflexivity|].
  intros []. reflexivity.
Qed.

(** What is left of a run of [pp]: its reports, and the child waiting. *)
Definition leaves {A} (k : globals * A -> itree (sysE kcall kreply) B) fl gc
    (log : list entry) (s : sys kcall kreply W B) : Prop :=
  trees s = {[ cp := serving k fl gc ]} /\ log_of pp (shp s) = log.

Lemma leaves_solo {A} (k : globals * A -> itree (sysE kcall kreply) B) fl gc log s :
  leaves k fl gc log s -> solo s.
Proof.
  intros [Ht _] r n. rewrite Ht. intros [-> ->]%lookup_singleton_Some. done.
Qed.

Lemma log_of_reports l sh : log_of pp (reports pp l sh) = log_of pp sh ++ l.
Proof.
  revert sh; induction l as [|e l IH]; intros sh; simpl; [by rewrite app_nil_r|].
  by rewrite IH, log_of_report, <- app_assoc.
Qed.

Lemma reports_pipes l sh : s_pipes (reports pp l sh) = s_pipes sh.
Proof. revert sh; induction l as [|e l IH]; intros sh; simpl; [done|]. by rewrite IH. Qed.

Lemma exit_rule {A} (k : globals * A -> itree (sysE kcall kreply) B)
    (ke : Empty_set -> itree (sysE kcall kreply) B) fl gc v bad sh :
  inevitable (leaves k fl gc (log_of pp sh ++ bad))
    (two pp cp (VisF (Exit 0) ke) (serving k fl gc) (reports pp bad (exchanged v sh))).
Proof.
  assert (Hq : default [] (s_pipes (reports pp bad (exchanged v sh)) !! parent_pipe) = []).
  { rewrite reports_pipes. apply exchanged_quiet. }
  apply two_exit; [done| | | |].
  - by destruct (serving_node k fl gc) as (kc & -> & _).
  - intros ts. by apply serving_blocked.
  - intros ts. by apply serving_blocked.
  - split; [done|]. cbn [shp]. change (log_of pp (reports pp bad (exchanged v sh)) = log_of pp sh ++ bad).
    by rewrite log_of_reports.
Qed.
End Protocol.

(** A complaint is made exactly when the answer is not the expected one. *)
Lemma complaints_nil fl type whence start len pid :
  complaints fl type whence start len pid = [] <-> fl = Flock type whence start len pid.
Proof.
  unfold complaints. split.
  - destruct fl as [t w s l p]; cbn [l_type l_whence l_start l_len l_pid].
    destruct (Z.eqb_spec t type), (Z.eqb_spec w whence), (Z.eqb_spec s start),
      (Z.eqb_spec l len), (Z.eqb_spec p pid); try done. by subst.
  - intros ->. cbn [l_type l_whence l_start l_len l_pid]. by rewrite !Z.eqb_refl.
Qed.

(** C21: [expect_lock] judges the kernel, whatever the kernel is: if F_GETLK, asked
    by the child about the bytes from [at_] on, answers [r], then a parent that
    runs the check and ends has complained about exactly the fields of [r] that
    are not those of the expected lock of the parent, and the child serves on. *)
Theorem expect_lock_verdict {W A} (K : Kernel kcall kreply W) pp cp cleanup getlk_failed
    (k : globals * A -> itree (sysE kcall kreply) (globals * unit))
    at_ n type start len fl g gc sh r v :
  pp <> cp -> quiet sh ->
  k_do cp (KFcntl (fd gc) F_GETLK (Flock F_WRLCK 0 at_ n 0)) (s_world sh) = Some (r, v) ->
  0 <= rc r ->
  inevitable
    (leaves pp cp cleanup getlk_failed k (out r) gc
       (log_of pp sh ++ complaints (out r) type 0 start len (parent_pid g)))
    (two pp cp (observe ((expect_lock at_ n type start len ;; exit 0) g))
       (serving cleanup getlk_failed k fl gc) sh).
Proof.
  intros Hpc Hq Hk Hr.
  eapply query_rule; [done | apply leaves_solo | done | apply (expect_lock_asks (fun x => exit 0 x.1))
    | done | exact Hk | done |].
  - done.
  - apply compare_lock_rule; [apply exchanged_quiet|].
    destruct (complaints _ _ _ _ _ _); node_head; by apply exit_rule.
Qed.

(** A child serving on the reference platform while the parent, process 100,
    holds a write lock on bytes 10 to 14. *)
Definition example_shape : shape fstate :=
  Shape {[ 100 := PInfo 0 true []; 101 := PInfo 100 true [] ]} ∅ ∅ ∅ false 102
    (FState (Some 3) 27 27 [Lock 100 F_WRLCK 10 14]).

Lemma expect_lock_verdict_witness :
  let K := posix (fun _ => 0) in
  inevitable
    (leaves 100 101 (mret tt) (fun _ => mret tt) (fun x : globals * unit => Ret (x.1, tt))
       (Flock F_WRLCK SEEK_SET 10 5 100) (Globals 0 3 100 0) [])
    (two 100 101 (observe ((expect_lock 0 0 F_WRLCK 10 5 ;; exit 0) (Globals 0 3 100 101)))
       (serving (mret tt) (fun _ => mret tt) (fun x : globals * unit => Ret (x.1, tt)) no_flock
          (Globals 0 3 100 0)) example_shape).
Proof.
  apply (expect_lock_verdict (posix (fun _ => 0)) 100 101 (mret tt) (fun _ => mret tt)
    (fun x : globals * unit => Ret (x.1, tt)) 0 0 F_WRLCK 10 5 no_flock
    (Globals 0 3 100 101) (Globals 0 3 100 0) example_shape
    (KReply 0 0 (Flock F_WRLCK SEEK_SET 10 5 100)) (s_world example_shape));
    [lia | split; reflexivity | vm_compute; reflexivity | simpl; lia].
Defined.
(** [expect_free], on any kernel: a parent that runs the check and ends has
    complained about exactly the fields of the child's F_GETLK answer that are not
    those of the query with type F_UNLCK. *)
Theorem expect_free_verdict {W A} (K : Kernel kcall kreply W) pp cp cleanup getlk_failed
    (k : globals * A -> itree (sysE kcall kreply) (globals * unit))
    at_ n fl g gc sh r v :
  pp <> cp -> quiet sh ->
  k_do cp (KFcntl (fd gc) F_GETLK (Flock F_WRLCK 0 at_ n 0)) (s_world sh) = Some (r, v) ->
  0 <= rc r ->
  inevitable
    (leaves pp cp cleanup getlk_failed k (out r) gc
       (log_of pp sh ++ complaints (out r) F_UNLCK 0 at_ n 0))
    (two pp cp (observe ((expect_free at_ n ;; exit 0) g))
       (serving cleanup getlk_failed k fl gc) sh).
Proof.
  intros Hpc Hq Hk Hr.
  eapply query_rule; [done | apply leaves_solo | done | apply (expect_free_asks (fun x => exit 0 x.1))
    | done | exact Hk | done |].
  - done.
  - apply compare_lock_rule; [apply exchanged_quiet|].
    destruct (complaints _ _ _ _ _ _); node_head; by apply exit_rule.
Qed.

Lemma expect_free_verdict_witness :
  let K := posix (fun _ => 0) in
  inevitable
    (leaves 100 101 (mret tt) (fun _ => mret tt) (fun x : globals * unit => Ret (x.1, tt))
       (Flock F_UNLCK 0 15 0 0) (Globals 0 3 100 0) [])
    (two 100 101 (observe ((expect_free 15 0 ;; exit 0) (Globals 0 3 100 101)))
       (serving (mret tt) (fun _ => mret tt) (fun x : globals * unit => Ret (x.1, tt)) no_flock
          (Globals 0 3 100 0)) example_shape).
Proof.
  apply (expect_free_verdict (posix (fun _ => 0)) 100 101 (mret tt) (fun _ => mret tt)
    (fun x : globals * unit => Ret (x.1, tt)) 15 0 no_flock
    (Globals 0 3 100 101) (Globals 0 3 100 0) example_shape
    (KReply 0 0 (Flock F_UNLCK 0 15 0 0)) (s_world example_shape));
    [lia | split; reflexivity | vm_compute; reflexivity | simpl; lia].
Defined.

(** ** Stopping the child *)

Section Stop.
Context {W : Type} {K : Kernel kcall kreply W}.
Variables (pp cp : Z) (cleanup : P unit) (getlk_failed : kreply -> P unit) (junk : flock).

Lemma stop_child_node g :
  exists k1 k2 k3,
    observe (stop_child junk g) = VisF (SigChld false) k1
    /\ observe (k1 0) = VisF (PipeWrite parent_pipe (to_msg (stop_message junk))) k2
    /\ observe (k2 true) = VisF (Waitpid (-1)) k3
    /\ forall st, observe (k3 st) = RetF (g, tt).
Proof.
  eexists _, _, _. split; [head_node; reflexivity|]. split; [head_node; reflexivity|].
  split; [head_node; reflexivity|]. intros st. reflexivity.
Qed.

(** [pp] runs, its only child is [cp], and nothing is in the pipes. *)
Record served (sh : shape W) : Prop := Served {
  sv_pids : 0 < pp /\ pp <> cp;
  sv_parent : is_Some (s_info sh !! pp);
  sv_child : exists b l, s_info sh !! cp = Some (PInfo pp b l);
  sv_zombies : s_zombies sh = ∅;
  sv_quiet : quiet sh
}.

(** The parent alone, the child gone: no SIGCHLD handler ran and nothing was
    reported. *)
Definition stopped (g : globals) (sh : shape W) (s : sys kcall kreply W (globals * unit)) : Prop :=
  exists sh', s = returned pp g tt sh'
    /\ s_info sh' !! cp = None /\ s_zombies sh' = ∅
    /\ s_caught sh' = s_caught sh /\ s_logs sh' = s_logs sh.
End Stop.

(** [stop_child], on any kernel and whatever the rest of the message holds: the
    child gets the stop message and exits, the parent collects it and returns, no
    SIGCHLD handler has run, and nothing was reported. *)
Theorem stop_child_stops {W A} (K : Kernel kcall kreply W) pp cp cleanup getlk_failed junk
    (k : globals * A -> itree (sysE kcall kreply) (globals * unit)) fl g gc sh :
  served pp cp sh ->
  inevitable (stopped pp cp g sh)
    (two pp cp (observe (stop_child junk g)) (serving cleanup getlk_failed k fl gc) sh).
Proof.
  intros [[Hpos Hpc] [[pp0 pb pl] Hpi] (b & l & Hci) Hz Hq].
  destruct (stop_child_node junk g) as (k1 & k2 & k3 & -> & Hk1 & Hk2 & Hk3).
  destruct (serving_stop cleanup getlk_failed k fl gc) as (kc & Hkc & Hstop).
  destruct (Hstop (stop_message junk)) as [ke Hke]; [done|].
  (* the parent ignores SIGCHLD, then writes *)
  eapply two_left; [done | by rewrite Hkc | by apply serving_blocked, Hq | reflexivity |].
  rewrite Hk1. eapply two_left; [done | by rewrite Hkc | by apply serving_blocked, Hq | reflexivity |].
  rewrite Hk2, Hkc. cbn [with_info s_pipes]. rewrite (proj1 Hq). cbn [app].
  set (chg := fun i : pinfo => PInfo (p_parent i) false (p_pending i)).
  assert (Hinfo : alter chg pp (s_info sh) !! cp = Some (PInfo pp b l)).
  { by rewrite lookup_alter_ne. }
  (* the child reads *)
  eapply two_right; [done | done | done | | |].
  { cbn [step_at]. rewrite (wait_alive pp _ (-1) cp (PInfo pp b l)); [done | by left | done | done | done]. }
  { cbn [step_at with_pipe s_pipes]. rewrite lookup_insert_eq. reflexivity. }
  (* the child exits *)
  rewrite Hke, two_comm by done. eapply two_left_ends; [done | done | done | | reflexivity |].
  { cbn [step_at]. rewrite (wait_alive pp _ (-1) cp (PInfo pp b l)); [done | by left | done | done | done]. }
  (* the parent collects it *)
  set (sh2 := exit_shape _ _ _).
  assert (Hsh2 : s_info sh2 !! cp = None /\ s_zombies sh2 = {[ cp := (pp, exit_status 0) ]}
    /\ s_caught sh2 = s_caught sh /\ s_logs sh2 = s_logs sh).
  { unfold sh2, exit_shape; cbn. rewrite Hinfo, Hz; cbn.
    rewrite (proj2 (Z.eqb_neq pp 0)) by lia. rewrite lookup_alter_eq, Hpi; cbn.
    rewrite lookup_delete_eq, orb_false_r. done. }
  destruct Hsh2 as (E1 & E2 & E3 & E4). clearbody sh2.
  eapply inevitable_alone; [done | |].
  { unfold step; cbn [trees shp]. rewrite lookup_singleton_eq. cbn [step_at].
    rewrite (wait_dead pp sh2 (-1) cp (exit_status 0)) by (done || by left). reflexivity. }
  unfold set_tree. rewrite insert_singleton_eq, Hk3.
  apply inev_now; [apply (final_returned pp g tt)|].
  exists (without_zombie cp sh2). repeat split; cbn; [done | | done | done].
  by rewrite E2, delete_singleton_eq.
Qed.

Lemma stop_child_stops_witness :
  let K := posix (fun _ => 0) in
  inevitable (stopped 100 101 (Globals 0 3 100 101) example_shape)
    (two 100 101 (observe (stop_child no_flock (Globals 0 3 100 101)))
       (serving (mret tt) (fun _ => mret tt) (fun x : globals * unit => Ret (x.1, tt)) no_flock
          (Globals 0 3 100 0)) example_shape).
Proof.
  apply (stop_child_stops (posix (fun _ => 0)) 100 101 (mret tt) (fun _ => mret tt) no_flock
    (fun x : globals * unit => Ret (x.1, tt)) no_flock (Globals 0 3 100 101) (Globals 0 3 100 0)
    example_shape).
  split; [lia | by eexists | by eexists _, _ | done | by split].
Defined.

(** ** Names of lock types *)

(** [str_type] as fcntl19.c to fcntl21.c have it names the lock types one off from
    their values, and finds no name for F_RDLCK. *)
Theorem str_type_names :
  List.map str_type [F_RDLCK; F_WRLCK; F_UNLCK] = ["BAD VALUE: 0"; "F_RDLCK"; "F_WRLCK"]%string.
Proof. reflexivity. Qed.
