(* ===== verification/Fcntl14.v ===== *)
(** * fcntl14: record locks taken by a parent, tried by its child

    Model of [src/original tests/fcntl/fcntl14.c].  For every entry of
    [testcases] the parent locks a region of a file, forks, and the child checks
    with F_GETLK and F_SETLK that its own lock is refused ([WILLBLOCK]) or granted
    ([NOBLOCK]); a refused child asks its own child to signal the parent and
    blocks in F_SETLKW until the parent unlocks.

    [run_test], [dochild] and the four blocks of [main] are the C functions; no
    run of the model reaches [catch_alarm], as alarms do not expire.  The variants for
    UCLINUX, which need another compiler, are left out. *)

From S2P Require Import Prelude Tst Process RecordLocks Prog Checker Wp LockLib.

(** ** Constants and data *)

Definition SKIP : Z := 3072.      (* 0x0c00 *)
Definition S_ENFMT : Z := 1024.   (* S_ISGID *)
Definition NOBLOCK : Z := 2.
Definition WILLBLOCK : Z := 3.
Definition TIME_OUT : Z := 60.

Record testcase := TC {
  a_type : Z; a_whence : Z; a_start : Z; a_len : Z;
  b_type : Z; b_whence : Z; b_start : Z; b_len : Z;
  c_type : Z; c_whence : Z; c_start : Z; c_len : Z;
  c_flag : Z
}.

(** Entries #1 to #16. *)
Definition testcases_1 : list testcase := [
  TC F_WRLCK 0 0 0 SKIP 0 0 0 F_RDLCK 0 0 0 WILLBLOCK;
  TC F_WRLCK 0 0 0 SKIP 0 0 0 F_WRLCK 0 0 0 WILLBLOCK;
  TC F_RDLCK 0 0 0 SKIP 0 0 0 F_RDLCK 0 0 0 NOBLOCK;
  TC F_RDLCK 0 0 0 SKIP 0 0 0 F_WRLCK 0 0 0 WILLBLOCK;
  TC F_WRLCK 0 0 0 SKIP 0 0 0 F_RDLCK 0 0 5 WILLBLOCK;
  TC F_WRLCK 0 0 0 SKIP 0 0 0 F_WRLCK 0 0 5 WILLBLOCK;
  TC F_RDLCK 0 0 0 SKIP 0 0 0 F_RDLCK 0 0 5 NOBLOCK;
  TC F_RDLCK 0 0 0 SKIP 0 0 0 F_WRLCK 0 0 5 WILLBLOCK;
  TC F_WRLCK 0 0 0 SKIP 0 0 0 F_RDLCK 0 7 0 WILLBLOCK;
  TC F_WRLCK 0 0 0 SKIP 0 0 0 F_WRLCK 0 7 0 WILLBLOCK;
  TC F_RDLCK 0 0 0 SKIP 0 0 0 F_RDLCK 0 7 0 NOBLOCK;
  TC F_RDLCK 0 0 0 SKIP 0 0 0 F_WRLCK 0 7 0 WILLBLOCK;
  TC F_WRLCK 0 0 5 SKIP 0 0 0 F_RDLCK 0 0 5 WILLBLOCK;
  TC F_WRLCK 0 0 5 SKIP 0 0 0 F_WRLCK 0 0 5 WILLBLOCK;
  TC F_RDLCK 0 0 5 SKIP 0 0 0 F_RDLCK 0 0 5 NOBLOCK;
  TC F_RDLCK 0 0 5 SKIP 0 0 0 F_WRLCK 0 0 5 WILLBLOCK
].

(** Entries #17 to #32. *)
Definition testcases_2 : list testcase := [
  TC F_WRLCK 0 0 5 SKIP 0 0 0 F_RDLCK 0 1 3 WILLBLOCK;
  TC F_WRLCK 0 0 5 SKIP 0 0 0 F_WRLCK 0 1 3 WILLBLOCK;
  TC F_RDLCK 0 0 5 SKIP 0 0 0 F_RDLCK 0 1 3 NOBLOCK;
  TC F_RDLCK 0 0 5 SKIP 0 0 0 F_WRLCK 0 1 3 WILLBLOCK;
  TC F_WRLCK 0 0 5 SKIP 0 0 0 F_RDLCK 0 2 5 WILLBLOCK;
  TC F_WRLCK 0 0 5 SKIP 0 0 0 F_WRLCK 0 2 5 WILLBLOCK;
  TC F_RDLCK 0 0 5 SKIP 0 0 0 F_RDLCK 0 2 5 NOBLOCK;
  TC F_RDLCK 0 0 5 SKIP 0 0 0 F_WRLCK 0 2 5 WILLBLOCK;
  TC F_WRLCK 0 0 5 SKIP 0 0 0 F_RDLCK 0 6 0 NOBLOCK;
  TC F_WRLCK 0 0 5 SKIP 0 0 0 F_WRLCK 0 6 0 NOBLOCK;
  TC F_RDLCK 0 0 5 SKIP 0 0 0 F_RDLCK 0 6 0 NOBLOCK;
  TC F_RDLCK 0 0 5 SKIP 0 0 0 F_WRLCK 0 6 0 NOBLOCK;
  TC F_WRLCK 0 2 5 SKIP 0 0 0 F_RDLCK 0 0 2 NOBLOCK;
  TC F_WRLCK 0 2 5 SKIP 0 0 0 F_WRLCK 0 0 2 NOBLOCK;
  TC F_RDLCK 0 2 5 SKIP 0 0 0 F_RDLCK 0 0 2 NOBLOCK;
  TC F_RDLCK 0 2 5 SKIP 0 0 0 F_WRLCK 0 0 2 NOBLOCK
].

(** Entries #33 to #48. *)
Definition testcases_3 : list testcase := [
  TC F_WRLCK 0 4 0 SKIP 0 0 0 F_RDLCK 0 2 5 WILLBLOCK;
  TC F_WRLCK 0 4 0 SKIP 0 0 0 F_WRLCK 0 2 5 WILLBLOCK;
  TC F_RDLCK 0 4 0 SKIP 0 0 0 F_RDLCK 0 2 5 NOBLOCK;
  TC F_RDLCK 0 4 0 SKIP 0 0 0 F_WRLCK 0 2 5 WILLBLOCK;
  TC F_WRLCK 1 (-3) 2 SKIP 0 0 0 F_WRLCK 0 1 1 NOBLOCK;
  TC F_WRLCK 1 (-3) 2 SKIP 0 0 0 F_WRLCK 0 4 1 NOBLOCK;
  TC F_WRLCK 1 (-3) 2 SKIP 0 0 0 F_WRLCK 0 2 1 WILLBLOCK;
  TC F_WRLCK 1 (-3) 2 SKIP 0 0 0 F_WRLCK 0 3 1 WILLBLOCK;
  TC F_WRLCK 1 (-3) 5 SKIP 0 0 0 F_WRLCK 0 1 1 NOBLOCK;
  TC F_WRLCK 1 (-3) 5 SKIP 0 0 0 F_WRLCK 0 1 1 NOBLOCK;
  TC F_WRLCK 1 (-3) 5 SKIP 0 0 0 F_WRLCK 0 2 1 WILLBLOCK;
  TC F_WRLCK 1 (-3) 5 SKIP 0 0 0 F_WRLCK 0 5 1 WILLBLOCK;
  TC F_WRLCK 1 (-3) 5 SKIP 0 0 0 F_WRLCK 0 6 1 WILLBLOCK;
  TC F_WRLCK 1 2 (-2) SKIP 0 0 0 F_WRLCK 0 1 1 NOBLOCK;
  TC F_WRLCK 1 (-2) (-2) SKIP 0 0 0 F_WRLCK 0 4 1 NOBLOCK;
  TC F_WRLCK 1 (-2) (-2) SKIP 0 0 0 F_WRLCK 0 2 1 WILLBLOCK
].

(** Entries #49 to #59. *)
Definition testcases_4 : list testcase := [
  TC F_WRLCK 1 (-2) (-2) SKIP 0 0 0 F_WRLCK 0 3 1 WILLBLOCK;
  TC F_WRLCK 1 2 (-2) SKIP 0 0 0 F_WRLCK 0 5 1 NOBLOCK;
  TC F_WRLCK 1 2 (-2) SKIP 0 0 0 F_WRLCK 0 8 1 NOBLOCK;
  TC F_WRLCK 1 2 (-2) SKIP 0 0 0 F_WRLCK 0 6 1 WILLBLOCK;
  TC F_WRLCK 1 2 (-2) SKIP 0 0 0 F_WRLCK 0 7 1 WILLBLOCK;
  TC F_WRLCK 1 2 (-5) SKIP 0 0 0 F_WRLCK 0 2 1 NOBLOCK;
  TC F_WRLCK 1 2 (-5) SKIP 0 0 0 F_WRLCK 0 8 1 NOBLOCK;
  TC F_WRLCK 1 2 (-5) SKIP 0 0 0 F_WRLCK 0 3 1 WILLBLOCK;
  TC F_WRLCK 1 2 (-5) SKIP 0 0 0 F_WRLCK 0 5 1 WILLBLOCK;
  TC F_WRLCK 1 2 (-5) SKIP 0 0 0 F_WRLCK 0 7 1 WILLBLOCK;
  TC F_WRLCK 0 0 0 SKIP 0 0 0 F_WRLCK 0 15 0 WILLBLOCK
].
Definition testcases : list testcase :=
  testcases_1 ++ testcases_2 ++ testcases_3 ++ testcases_4.

(** [&testcases[i]]. *)
Definition testcase_at (i : Z) : testcase :=
  nth (Z.to_nat i) testcases (TC 0 0 0 0 0 0 0 0 0 0 0 0 0).

#[export] Instance testcase_eq_dec : EqDecision testcase.
Proof. solve_decision. Defined.

(** The static variables of the file. *)
Record globals := Globals {
  thiscase : testcase;
  flk : flock;
  parent : Z;
  child : Z;
  status : Z;
  fail : Z;
  got1 : Z;
  fd : Z;
  test : Z;
  tmpname : string;
  NO_NFS : Z
}.

#[export] Instance globals_eq_dec : EqDecision globals.
Proof. solve_decision. Defined.

Definition globals0 : globals :=
  Globals (TC 0 0 0 0 0 0 0 0 0 0 0 0 0) no_flock 0 0 0 0 0 0 0 "" 1.

Definition set_thiscase c g := Globals c (flk g) (parent g) (child g) (status g) (fail g)
  (got1 g) (fd g) (test g) (tmpname g) (NO_NFS g).
Definition set_flk f g := Globals (thiscase g) f (parent g) (child g) (status g) (fail g)
  (got1 g) (fd g) (test g) (tmpname g) (NO_NFS g).
Definition set_parent p n g := Globals (thiscase g) (flk g) p (child g) (status g) (fail g)
  (got1 g) (fd g) (test g) n (NO_NFS g).
Definition set_child c g := Globals (thiscase g) (flk g) (parent g) c (status g) (fail g)
  (got1 g) (fd g) (test g) (tmpname g) (NO_NFS g).
Definition set_status s g := Globals (thiscase g) (flk g) (parent g) (child g) s (fail g)
  (got1 g) (fd g) (test g) (tmpname g) (NO_NFS g).
Definition set_fail x g := Globals (thiscase g) (flk g) (parent g) (child g) (status g) x
  (got1 g) (fd g) (test g) (tmpname g) (NO_NFS g).
Definition set_got1 x g := Globals (thiscase g) (flk g) (parent g) (child g) (status g) (fail g)
  x (fd g) (test g) (tmpname g) (NO_NFS g).
Definition set_fd x g := Globals (thiscase g) (flk g) (parent g) (child g) (status g) (fail g)
  (got1 g) x (test g) (tmpname g) (NO_NFS g).
Definition set_test x g := Globals (thiscase g) (flk g) (parent g) (child g) (status g) (fail g)
  (got1 g) (fd g) x (tmpname g) (NO_NFS g).
Definition set_NO_NFS x g := Globals (thiscase g) (flk g) (parent g) (child g) (status g) (fail g)
  (got1 g) (fd g) (test g) (tmpname g) x.

Abbreviation P A := (M kcall kreply globals A).

(** [fcntl(fd, cmd, &flock)]: a successful call may write the structure. *)
Definition fcntl (cmd : Z) : P kreply :=
  g ← get;
  r ← call (KFcntl (fd g) cmd (flk g));
  when (0 <=? rc r) (modify (set_flk (out r))) ;;
  mret r.

(** [flock.l_type = t; flock.l_whence = w; ...], [l_pid] being kept. *)
Definition fill_flock (t w s l : Z) : P unit :=
  modify (fun g => set_flk (Flock t w s l (l_pid (flk g))) g).

Definition fail1 : P unit := modify (set_fail 1).

Definition cleanup : P unit := misc_ "tst_rmdir" [].

(** ** Set-up and signals *)

Definition setup : P unit :=
  misc_ "tst_sig" [] ;;
  misc_ "signal" [SIGHUP] ;;
  misc_ "umask" [0] ;;
  misc_ "tst_tmpdir" [] ;;
  pid ← getpid;
  modify (set_parent pid ("fcntl2." +:+ pretty pid)) ;;
  r ← misc "sigaction" [SIGUSR1];
  when (rc r <? 0)
    (tst_resm TFAIL "SIGUSR1 signal setup failed, errno = %d" [Num (err r)] ;; cleanup) ;;
  r ← misc "sigaction" [SIGALRM];
  when (rc r <? 0) (tst_resm TFAIL "SIGALRM signal setup failed" [] ;; cleanup).

(** The SIGUSR1 handler. *)
Definition catch1 : P unit :=
  misc_ "sigaction" [SIGUSR1] ;;
  modify (fun g => set_got1 (got1 g + 1) g).

(** The SIGALRM handler, which runs when a child takes too long. *)
Definition catch_alarm : P unit :=
  g ← get;
  r ← ev (Kill (child g) 0);
  when (r =? 0)
    (ev (Kill (child g) 9) ;;
     misc_ "perror" []).

(** [sigpause(SIGUSR1)]: the signal is held everywhere else, so this is where
    its handler runs. *)
Definition sigpause_usr1 : P unit := ev (Sigpause SIGUSR1) ;; catch1.

Definition wake_parent : P unit :=
  g ← get;
  r ← ev (Kill (parent g) SIGUSR1);
  when (r <? 0)
    (tst_resm TFAIL "Attempt to send signal to parent failed" [] ;;
     tst_resm TFAIL "Test case %d, errno = %d" [Num (test g + 1)] ;;
     fail1).

Definition do_usleep_child : P unit :=
  misc_ "usleep" [100000] ;; wake_parent ;; exit 0.

(** ** The child *)

(** The checks of F_GETLK's answer when the lock should be free. *)
Definition getlk_noblock_checks : P unit :=
  g ← get;
  let c := thiscase g in
  let f := flk g in
  let n := test g + 1 in
  when (negb (l_type f =? F_UNLCK))
    (tst_resm TFAIL "Test case %d, GETLK: type = %d, %d was expected"
       [Num n; Num (l_type f); Num F_UNLCK] ;; fail1) ;;
  when (negb (l_whence f =? c_whence c))
    (tst_resm TFAIL "Test case %d, GETLK: whence = %d, should have remained %d"
       [Num n; Num (l_whence f); Num (c_whence c)] ;; fail1) ;;
  when (negb (l_start f =? c_start c))
    (tst_resm TFAIL "Test case %d, GETLK: start = %ld, should have remained %ld"
       [Num n; Num (l_start f); Num (c_start c)] ;; fail1) ;;
  when (negb (l_len f =? c_len c))
    (tst_resm TFAIL "Test case %d, GETLK: len = %ld, should have remained %ld"
       [Num n; Num (l_len f); Num (c_len c)] ;; fail1) ;;
  when (negb (l_pid f =? 0))
    (tst_resm TFAIL "Test case %d, GETLK: pid = %d, should have remained 0"
       [Num n; Num (l_pid f)] ;; fail1).

(** ... and when the parent's lock should be in the way. *)
Definition getlk_block_checks : P unit :=
  g ← get;
  let c := thiscase g in
  let f := flk g in
  let n := test g + 1 in
  when (negb (l_pid f =? parent g))
    (tst_resm TFAIL "Test case %d, GETLK: pid = %d, should be parent's id of %d"
       [Num n; Num (l_pid f); Num (parent g)] ;; fail1) ;;
  when (negb (l_type f =? a_type c))
    (tst_resm TFAIL "Test case %d, GETLK: type = %d, should be parent's first lock type of %d"
       [Num n; Num (l_type f); Num (a_type c)] ;; fail1).

(** [flock] describes the child's lock. *)
Definition child_flock : P unit :=
  modify (fun g => let c := thiscase g in
    set_flk (Flock (c_type c) (c_whence c) (c_start c) (c_len c) 0) g).

(** The blocking part: a grandchild signals the parent while this process waits
    for the lock. *)
Definition blocking_setlk (sr : kreply) : P unit :=
  when (negb (rc sr =? -1) || (negb (err sr =? EACCES) && negb (err sr =? EAGAIN)))
    (tst_resm TFAIL "SETLK: rc = %d, errno = %d, -1/EAGAIN or EACCES was expected"
       [Num (rc sr); Num (err sr)] ;; fail1) ;;
  when (rc sr =? 0) (fcntl F_UNLCK ;; mret tt) ;;
  pid ← fork;
  if pid =? -1 then tst_resm TFAIL "Fork failed" [] ;; fail1
  else if pid =? 0 then do_usleep_child
  else
    r ← fcntl F_SETLKW;
    g ← get;
    when (rc r <? 0)
      (tst_resm TFAIL "Attempt to set child BLOCKING lock failed" [] ;;
       tst_resm TFAIL "Test case %d, errno = %d" [Num (test g + 1); Num (err r)] ;; fail1) ;;
    st ← waitpid pid;
    modify (set_status st.2).

(** F_GETLK and the checks of its answer. *)
Definition child_getlk : P unit :=
  r ← fcntl F_GETLK;
  g ← get;
  if rc r <? 0 then
    tst_resm TFAIL "Attempt to check lock status failed" [] ;;
    tst_resm TFAIL "Test case %d, errno = %d" [Num (test g + 1); Num (err r)] ;; fail1
  else if c_flag (thiscase g) =? NOBLOCK then getlk_noblock_checks
  else getlk_block_checks.

(** F_SETLK, and the blocking part when the lock must be refused. *)
Definition child_setlk : P unit :=
  r ← fcntl F_SETLK;
  g ← get;
  when ((rc r <? 0) && (c_flag (thiscase g) =? NOBLOCK))
    (tst_resm TFAIL "Attempt to set child NONBLOCKING lock failed" [] ;;
     tst_resm TFAIL "Test case %d, errno = %d" [Num (test g + 1); Num (err r)] ;; fail1) ;;
  when (c_flag (thiscase g) =? WILLBLOCK) (blocking_setlk r).

Definition dochild : P unit :=
  child_flock ;;
  modify (set_fail 0) ;;
  child_getlk ;;
  child_flock ;;
  child_setlk ;;
  g ← get;
  if negb (fail g =? 0) then exit 1 else exit 0.

(** ** The parent *)

(** Wait for the child's signal, then drop the parent's locks. *)
Definition release_on_signal (n : Z) : P unit :=
  misc_ "alarm" [TIME_OUT] ;;
  sigpause_usr1 ;;
  misc_ "alarm" [0] ;;
  g ← get;
  when (negb (got1 g =? 1))
    (tst_resm TINFO "Pause terminated without signal SIGUSR1 from child" []) ;;
  modify (set_got1 0) ;;
  fill_flock F_UNLCK 0 0 0 ;;
  r ← fcntl F_SETLK;
  when (rc r <? 0)
    (tst_resm TFAIL "Attempt to release parent lock failed" [] ;;
     tst_resm TFAIL "Test case %d, errno = %d" [Num n; Num (err r)] ;; fail1).

(** Set one of the parent's locks. *)
Definition parent_lock (which : string) (n t w s l : Z) : P unit :=
  fill_flock t w s l ;;
  r ← fcntl F_SETLK;
  when (rc r <? 0)
    (tst_resm TFAIL which [] ;;
     tst_resm TFAIL "Test case %d, errno = %d" [Num n; Num (err r)] ;; fail1).

(** Open the test file and fill it with its ten bytes. *)
Definition open_file (msg : string) (file_flag file_mode : Z) : P unit :=
  g ← get;
  d ← SAFE_OPEN cleanup (tmpname g) file_flag file_mode;
  modify (set_fd d) ;;
  r ← call (KWrite d 10);
  when (rc r <? 0) (tst_brkm TBROK cleanup msg []).

(** [if ((child = FORK_OR_VFORK()) == 0) dochild(); if (child < 0) ...]. *)
Definition fork_child : P unit :=
  c ← fork;
  modify (set_child c) ;;
  when (c =? 0) dochild ;;
  when (c <? 0) (tst_brkm TBROK cleanup "Fork failed" []).

Definition wait_child : P unit :=
  misc_ "alarm" [TIME_OUT] ;;
  g ← get;
  st ← waitpid (child g);
  modify (set_status st.2).

(** The body of [run_test]'s loop for entry [i]. *)
Definition run_case (file_flag file_mode seek : Z) (i : Z) : P unit :=
  modify (set_test i) ;;
  open_file "write() failed" file_flag file_mode ;;
  g ← get;
  when (negb (seek =? 0)) (SAFE_LSEEK cleanup (fd g) seek 0 ;; mret tt) ;;
  modify (set_thiscase (testcase_at i)) ;;
  let c := testcase_at i in
  let n := i + 1 in
  parent_lock "First parent lock failed" n (a_type c) (a_whence c) (a_start c) (a_len c) ;;
  when (negb (b_type c =? SKIP))
    (parent_lock "Second parent lock failed" n (b_type c) (b_whence c) (b_start c) (b_len c)) ;;
  if c_type c =? SKIP then
    call_ (KClose (fd g)) ;;
    tst_resm TINFO "skipping test %d" [Num n]
  else
    misc_ "sighold" [SIGUSR1] ;;
    fork_child ;;
    when (c_flag c =? WILLBLOCK) (release_on_signal n) ;;
    wait_child ;;
    misc_ "alarm" [0] ;;
    g ← get;
    when (negb (status g =? 0))
      (tst_resm TFAIL "tchild returned status 0x%x" [Num (status g)] ;; fail1) ;;
    call_ (KClose (fd g)) ;;
    g ← get;
    if negb (fail g =? 0) then tst_resm TFAIL "testcase:%d FAILED" [Num n]
    else tst_resm TPASS "testcase:%d PASSED" [Num n].

Definition run_test (file_flag file_mode seek start end_ : Z) : P unit :=
  modify (set_fail 0) ;;
  for_from start (Z.to_nat (end_ - start)) (run_case file_flag file_mode seek) ;;
  modify (set_test (Z.max start end_)) ;;
  g ← get;
  call_ (KUnlink (tmpname g)).

Definition testcheck_end (msg : string) : P unit :=
  g ← get;
  if negb (fail g =? 0) then tst_resm TFAIL "%s FAILED" [Str msg]
  else tst_resm TPASS "%s PASSED" [Str msg].

(** ** main *)

Definition O_RDWR : Z := 2.
Definition O_CREAT : Z := 64.
Definition O_TRUNC : Z := 512.
Definition O_CRT : Z := Z.lor (Z.lor O_CREAT O_RDWR) O_TRUNC.
Definition S_IRUSR : Z := 256.
Definition S_IWUSR : Z := 128.
Definition TST_NFS_MAGIC : Z := 26985.   (* 0x6969 *)

Definition block1 : P unit :=
  tst_resm TINFO "Enter block 1: without mandatory locking" [] ;;
  modify (set_fail 0) ;;
  run_test O_CRT 511 0 0 36 ;;
  testcheck_end "Block 1, test 1" ;;
  run_test O_CRT 511 5 36 45 ;;
  testcheck_end "Block 1, test 2" ;;
  tst_resm TINFO "Exit block 1" [].

Definition block2 : P unit :=
  tst_resm TINFO "Enter block 2: with mandatory locking" [] ;;
  g ← get;
  let mode := Z.lor (Z.lor S_ENFMT S_IRUSR) S_IWUSR in
  (if negb (NO_NFS g =? 0) then
     modify (set_fail 0) ;;
     run_test O_CRT mode 0 0 36 ;;
     testcheck_end "Block 2, test 1" ;;
     run_test O_CRT mode 5 36 45 ;;
     testcheck_end "Block 2, test 2"
   else tst_resm TCONF "Skip block 2 as NFS does not support mandatory locking" []) ;;
  tst_resm TINFO "Exit block 2" [].

Definition block3 : P unit :=
  tst_resm TINFO "Enter block 3" [] ;;
  modify (set_fail 0) ;;
  open_file "write failed" O_CRT 511 ;;
  fill_flock F_WRLCK (-1) 0 0 ;;
  r ← fcntl F_SETLK;
  (if rc r <? 0 then
     when (negb (err r =? EINVAL))
       (tst_resm TFAIL "Expected %d got %d" [Num EINVAL; Num (err r)] ;; fail1)
   else tst_resm TFAIL "Lock succeeded when it should have failed" [] ;; fail1) ;;
  g ← get;
  call_ (KClose (fd g)) ;;
  call_ (KUnlink (tmpname g)) ;;
  testcheck_end "Test with negative whence locking" ;;
  tst_resm TINFO "Exit block 3" [].

Definition block4 : P unit :=
  tst_resm TINFO "Enter block 4" [] ;;
  modify (set_fail 0) ;;
  open_file "write failed" O_CRT 511 ;;
  modify (set_thiscase (testcase_at 58)) ;;
  let c := testcase_at 58 in
  parent_lock "First parent lock failed" 58 (a_type c) (a_whence c) (a_start c) (a_len c) ;;
  g ← get;
  r ← call (KWrite (fd g) 10);
  when (rc r <? 0) (tst_brkm TBROK cleanup "write failed" []) ;;
  r ← misc "sighold" [SIGUSR1];
  when (rc r <? 0) (tst_brkm TBROK cleanup "sighold failed" []) ;;
  fork_child ;;
  release_on_signal (test g + 1) ;;
  wait_child ;;
  g ← get;
  when (negb (WEXITSTATUS (status g) =? 0))
    (fail1 ;; tst_resm TFAIL "child returned bad exit status" []) ;;
  misc_ "alarm" [0] ;;
  when (negb (status g =? 0))
    (tst_resm TFAIL "child returned status 0x%x" [Num (status g)] ;; fail1) ;;
  call_ (KClose (fd g)) ;;
  call_ (KUnlink (tmpname g)) ;;
  testcheck_end "Test of locks on file" ;;
  tst_resm TINFO "Exit block 4" [].

(** [loops] is what the library's TEST_LOOPING allows (1 without options). *)
Definition main (loops : nat) : P unit :=
  setup ;;
  r ← misc "tst_fs_type" [];
  when (rc r =? TST_NFS_MAGIC) (modify (set_NO_NFS 0)) ;;
  for_from 0 loops (fun _ => block1 ;; block2 ;; block3 ;; block4) ;;
  cleanup ;;
  tst_exit.

(** ** Correctness *)

(** The entries whose PASSED reports a log shows, in order. *)
Definition passed_cases (l : list entry) : list Z :=
  omap (fun e => match e_type e, e_args e with
                 | TPASS, [Num n] => Some n
                 | _, _ => None
                 end) l.

Definition expected_cases : list Z := seqZ 1 45 ++ seqZ 1 45.

(** The reports of a correct run: entries 1 to 45 pass in both blocks, and the
    six block summaries pass. *)
Definition full_log (l : list entry) : bool :=
  bool_decide (passed_cases l = expected_cases)
  && bool_decide (count_type TPASS l = 96%nat).

Lemma fcntl14_checker ts :
  { t | tsound (K := posix ts) main_pid (fun s => passed main_pid full_log s = true) t (main 1) }.
Proof.
  eexists. unfold main, block1, block2, run_test.
  build_checker 200%nat.
Defined.

Lemma fcntl14_checks ts :
  proj1_sig (fcntl14_checker ts) globals0 (shp (boot main_pid (main 1) globals0 fs_init)) = true.
Proof. vm_compute. reflexivity. Qed.

(** C20: on every POSIX platform, whatever the interleaving of the parent, its child
    and its grandchild, a run of fcntl14 ends, with all processes gone; it reports
    no failure, passes entries 1 to 45 once without and once with mandatory locking,
    and passes its six summaries: 96 passes in all. *)
Theorem fcntl14_passes {W} (K : Kernel kcall kreply W) (w0 : W) `{!PosixPlatform K w0} :
  inevitable (fun s => passed main_pid full_log s = true)
    (boot main_pid (main 1) globals0 w0).
Proof.
  exact (platform_passes K w0 full_log _ _ _ (proj2_sig (fcntl14_checker _)) (fcntl14_checks _)).
Qed.

Lemma fcntl14_passes_witness :
  let K := posix (fun _ => 0) in
  inevitable (fun s => passed main_pid full_log s = true)
    (boot main_pid (main 1) globals0 fs_init).
Proof. exact (fcntl14_passes (posix (fun _ => 0)) fs_init). Defined.

(** ** What the child's exit status says *)

Section Verdict.
Context {W : Type} {K : Kernel kcall kreply W}.
Variable pid : Z.
Implicit Types (g : globals) (sh : shape W).

(** The lock the child asks for. *)
Definition wanted g : flock :=
  let c := thiscase g in Flock (c_type c) (c_whence c) (c_start c) (c_len c) 0.

(** F_GETLK's answer for a lock that is free: the query with type F_UNLCK. *)
Definition free_answer g : flock :=
  let c := thiscase g in Flock F_UNLCK (c_whence c) (c_start c) (c_len c) 0.

(** A check that raises [fail] unless [ok] and otherwise leaves the globals
    that matter alone. *)
Definition checked (ok : bool) g g' : Prop :=
  thiscase g' = thiscase g /\ fd g' = fd g /\ fail g' = if ok then fail g else 1.

Lemma getlk_noblock_checks_wp g sh :
  wp pid getlk_noblock_checks g sh (fun g' _ sh' =>
    checked (bool_decide (flk g = free_answer g)) g g' /\ s_world sh' = s_world sh).
Proof.
  unfold getlk_noblock_checks, fail1, free_answer, checked. rewrite flock_eqb.
  cbn [l_type l_whence l_start l_len l_pid].
  wp_step. wp_step. cbv zeta.
  destruct (l_type (flk g) =? F_UNLCK), (l_whence (flk g) =? c_whence (thiscase g)),
    (l_start (flk g) =? c_start (thiscase g)), (l_len (flk g) =? c_len (thiscase g)),
    (l_pid (flk g) =? 0); cbn [negb when andb].
  all: wp_steps; done.
Qed.

Lemma child_getlk_wp g sh r w :
  c_flag (thiscase g) = NOBLOCK ->
  k_do pid (KFcntl (fd g) F_GETLK (flk g)) (s_world sh) = Some (r, w) ->
  wp pid child_getlk g sh (fun g' _ sh' =>
    checked ((0 <=? rc r) && bool_decide (out r = free_answer g)) g g' /\ s_world sh' = w).
Proof.
  intros Hf Hk. apply Z.eqb_eq in Hf. unfold child_getlk, fcntl, fail1.
  wp_steps. eapply wp_call; [exact Hk|].
  rewrite Z.leb_antisym. destruct (rc r <? 0) eqn:E; cbn [negb andb];
    wp_steps; try (rewrite Z.leb_antisym, E in *; discriminate); try (cbn in *; congruence); try done.
  eapply wp_mono; [|apply getlk_noblock_checks_wp]. done.
Qed.

Lemma child_setlk_wp g sh r w :
  c_flag (thiscase g) = NOBLOCK ->
  k_do pid (KFcntl (fd g) F_SETLK (flk g)) (s_world sh) = Some (r, w) ->
  wp pid child_setlk g sh (fun g' _ sh' =>
    checked (0 <=? rc r) g g' /\ s_world sh' = w).
Proof.
  intros Hf Hk. assert (Hw : c_flag (thiscase g) =? WILLBLOCK = false) by by rewrite Hf.
  apply Z.eqb_eq in Hf. unfold child_setlk, fcntl, fail1.
  wp_steps. eapply wp_call; [exact Hk|].
  rewrite Z.leb_antisym. destruct (rc r <? 0) eqn:E; cbn [negb andb];
    wp_steps; try (rewrite Z.leb_antisym, E in *; discriminate);
    try (cbn in *; rewrite ?E, ?Hf, ?Hw in *; discriminate); done.
Qed.

(** The child ran to its end in world [w], with status 0 exactly when [ok]. *)
Definition ended (ok : bool) (w : W) (sh' : shape W) : Prop :=
  exists sh1, s_world sh1 = w
    /\ sh' = exit_shape pid (exit_status (if ok then 0 else 1)) sh1.
End Verdict.

(** C37: the verdict of a child whose lock should be granted, on any kernel: if its
    F_GETLK answers [r1] and its F_SETLK [r2], every run of [dochild] ends, with exit
    status 0 exactly when both calls succeed and F_GETLK left the query as it was but
    for the type F_UNLCK. *)
Theorem dochild_verdict {W} (K : Kernel kcall kreply W) pid g sh r1 w1 r2 w2 :
  c_flag (thiscase g) = NOBLOCK ->
  k_do pid (KFcntl (fd g) F_GETLK (wanted g)) (s_world sh) = Some (r1, w1) ->
  k_do pid (KFcntl (fd g) F_SETLK (wanted g)) w1 = Some (r2, w2) ->
  dies pid dochild g sh
    (ended pid ((0 <=? rc r1) && bool_decide (out r1 = free_answer g) && (0 <=? rc r2)) w2).
Proof.
  intros Hf H1 H2. unfold dochild, child_flock. wp_step. wp_step. wp_step. wp_step. wp_step.
  eapply wp_mono; [|apply child_getlk_wp; [exact Hf | exact H1]].
  intros g1 [] sh1 [(Hc1 & Hd1 & Hf1) Hw1]. wp_step. wp_step. wp_step.
  eapply wp_mono; [|apply (child_setlk_wp _ _ _ r2 w2)].
  - intros g2 [] sh2 [(_ & _ & Hf2) Hw2]. wp_step. wp_step. cbn in Hf1, Hf2.
    change (free_answer (set_fail 0 _)) with (free_answer g) in Hf1.
    assert (Hz : fail g2 =? 0
      = (0 <=? rc r1) && bool_decide (out r1 = free_answer g) && (0 <=? rc r2)).
    { rewrite Hf2, Hf1. by destruct (0 <=? rc r1), (bool_decide _), (0 <=? rc r2). }
    rewrite <- Hz. destruct (fail g2 =? 0); apply dies_exit; by exists sh2.
  - cbn. by rewrite Hc1.
  - cbn. rewrite Hc1, Hd1, Hw1. exact H2.
Qed.

(** A child that asks for a lock nobody holds any part of. *)
Lemma dochild_verdict_witness :
  let K := posix (fun _ => 0) in
  let g := set_fd 3 (set_thiscase (testcase_at 2) globals0) in
  let sh := Shape {[ 101 := PInfo 100 false [] ]} ∅ ∅ ∅ false 102 (FState (Some 3) 10 10 []) in
  dies 101 dochild g sh
    (ended 101 true (FState (Some 3) 10 10 [Lock 101 F_RDLCK 0 OFFSET_MAX])).
Proof.
  intros K g sh.
  apply (dochild_verdict K 101 g sh
    (KReply 0 0 (Flock F_UNLCK 0 0 0 0)) (FState (Some 3) 10 10 [])
    (KReply 0 0 (Flock F_RDLCK 0 0 0 0)) (FState (Some 3) 10 10 [Lock 101 F_RDLCK 0 OFFSET_MAX]));
    vm_compute; reflexivity.
Defined.

(** ** The table *)

(** What fcntl(2) does with the child's lock of entry [c], the file being [size]
    bytes long and its offset [off]: [WILLBLOCK] or [NOBLOCK]. *)
Definition set_parent_lock (t w s l : Z) (st : fstate) : fstate :=
  match resolve 100 (Flock t w s l 0) st with
  | Some lk => FState (fs_fd st) (fs_off st) (fs_size st) (set_locks lk (fs_locks st))
  | None => st
  end.

Definition posix_flag (off size : Z) (c : testcase) : Z :=
  let st := set_parent_lock (a_type c) (a_whence c) (a_start c) (a_len c)
              (FState (Some 3) off size []) in
  let st := if b_type c =? SKIP then st
            else set_parent_lock (b_type c) (b_whence c) (b_start c) (b_len c) st in
  match resolve 101 (Flock (c_type c) (c_whence c) (c_start c) (c_len c) 0) st with
  | Some lk => if blocker lk (fs_locks st) then WILLBLOCK else NOBLOCK
  | None => NOBLOCK
  end.

(** The entries, numbered from 0, whose flag is not what fcntl(2) does at offset
    [off] in the ten-byte file. *)
Definition wrong_flags (off : Z) (l : list Z) : list Z :=
  filter (fun i => posix_flag off 10 (testcase_at i) <> c_flag (testcase_at i)) l.

(** The flags of all entries the test runs agree with fcntl(2); of the entries it
    never runs (46 to 58 in the comments of the table), five do not, at the offset
    the others of their kind are run with. *)
Theorem table_flags :
  wrong_flags 10 (seqZ 0 36) = [] /\ wrong_flags 5 (seqZ 36 9) = []
  /\ wrong_flags 10 [58] = [] /\ wrong_flags 5 (seqZ 45 13) = [48; 49; 52; 53; 57].
Proof. vm_compute. auto. Qed.
