(* ===== verification/Fcntl19.v ===== *)
(** * fcntl19.c: unlocking sections around a write lock

    [main] and the seven blocks of the test, over the server of [LockServer.v].
    In each block a write lock is set, a section around or inside it is
    unlocked, and the child's view of the file is checked. *)

From S2P Require Import Prelude Tst Process Explore RecordLocks Prog Checker LockLib LockServer.

Section Fcntl19.
Variable junk : flock.

Definition cleanup : P unit := misc_ "tst_rmdir" [].

Definition getlk_failed (r : kreply) : P unit :=
  tst_resm_errno TFAIL (err r) "fcntl on file failed" [].

Definition setup : P unit :=
  misc_ "tst_sig" [] ;;
  misc_ "umask" [0] ;;
  SAFE_PIPE cleanup parent_pipe ;;
  SAFE_PIPE cleanup child_pipe ;;
  pid ← getpid;
  modify (set_parent_pid pid) ;;
  misc_ "tst_tmpdir" [] ;;
  r ← call (KMkstemp "fcntl19XXXXXX");
  modify (set_fd (rc r)) ;;
  when (rc r <? 0) (tst_resm TFAIL "Couldn't open temp file! errno = %d" [Num (err r)]) ;;
  g ← get;
  r ← call (KWrite (fd g) STRINGSIZE);
  when (rc r <? 0) (tst_resm TFAIL "Couldn't write to temp file! errno = %d" [Num (err r)]) ;;
  r ← ev (SigChld true);
  when (r <? 0)
    (tst_resm TFAIL "SIGCHLD signal setup failed, errno: %d" [] ;; fail1).

Definition do_child : P unit := LockServer.do_child cleanup getlk_failed junk.

Definition block1 : P unit :=
  tst_resm TINFO "Enter block 1" [] ;;
  try_lock junk F_WRLCK 10 5 ;;
  try_lock junk F_UNLCK 5 5 ;;
  expect_lock 0 0 F_WRLCK 10 5 ;;
  expect_free 15 0 ;;
  unlock_file junk ;;
  verdict "Test block 1: FAILED" "Test block 1: PASSED" ;;
  tst_resm TINFO "Exit block 1" [].

Definition block2 : P unit :=
  tst_resm TINFO "Enter block 2" [] ;;
  modify (set_fail 0) ;;
  try_lock junk F_WRLCK 10 5 ;;
  try_lock junk F_UNLCK 5 6 ;;
  expect_lock 0 0 F_WRLCK 11 4 ;;
  expect_free 15 0 ;;
  unlock_file junk ;;
  verdict "Test block 2: FAILED" "Test block 2: PASSED" ;;
  tst_resm TINFO "Exit block 2" [].

Definition block3 : P unit :=
  tst_resm TINFO "Enter block 3" [] ;;
  modify (set_fail 0) ;;
  try_lock junk F_WRLCK 10 5 ;;
  try_lock junk F_UNLCK 5 8 ;;
  expect_lock 0 0 F_WRLCK 13 2 ;;
  expect_free 15 0 ;;
  unlock_file junk ;;
  verdict "Test block 3: FAILED" "Test block 3: PASSED" ;;
  tst_resm TINFO "Exit block 3" [].

Definition block4 : P unit :=
  tst_resm TINFO "Enter blcok 4" [] ;;
  modify (set_fail 0) ;;
  try_lock junk F_WRLCK 10 10 ;;
  try_lock junk F_UNLCK 13 5 ;;
  expect_lock 0 0 F_WRLCK 10 3 ;;
  expect_lock 13 0 F_WRLCK 18 2 ;;
  expect_free 20 0 ;;
  unlock_file junk ;;
  verdict "Test block 4: FAILED" "Test block 4: PASSED" ;;
  tst_resm TINFO "Exit block 4" [].

Definition block5 : P unit :=
  tst_resm TINFO "Enter block 5" [] ;;
  modify (set_fail 0) ;;
  try_lock junk F_WRLCK 10 5 ;;
  try_lock junk F_UNLCK 13 5 ;;
  expect_lock 0 0 F_WRLCK 10 3 ;;
  expect_free 13 0 ;;
  unlock_file junk ;;
  verdict "Test block 5: FAILED" "Test block 5: PASSED" ;;
  tst_resm TINFO "Exit block 5" [].

Definition block6 : P unit :=
  tst_resm TINFO "Enter block 6" [] ;;
  modify (set_fail 0) ;;
  try_lock junk F_WRLCK 10 5 ;;
  try_lock junk F_UNLCK 14 5 ;;
  expect_lock 10 0 F_WRLCK 10 4 ;;
  expect_free 14 0 ;;
  unlock_file junk ;;
  verdict "Test block 6: FAILED" "Test block 6: PASSED" ;;
  tst_resm TINFO "Exit block 6" [].

Definition block7 : P unit :=
  tst_resm TINFO "Enter block 7" [] ;;
  modify (set_fail 0) ;;
  try_lock junk F_WRLCK 10 5 ;;
  try_lock junk F_UNLCK 16 0 ;;
  expect_lock 0 0 F_WRLCK 10 5 ;;
  expect_free 16 0 ;;
  unlock_file junk ;;
  verdict "Test block 7: FAILED" "Test block 7: PASSED" ;;
  tst_resm TINFO "Exit block 7" [].

(** [child_pid = fork()], the child's branch and the error branch. *)
Definition start_child : P unit :=
  c ← fork;
  modify (set_child_pid c) ;;
  (if c =? 0 then do_child
   else when (c <? 0) (tst_resm TFAIL "Fork failed" [] ;; cleanup)) ;;
  close_end parent_pipe 0 ;;
  close_end child_pipe 1.

(** The body of the loop over TEST_LOOPING. *)
Definition round : P unit :=
  start_child ;;
  block1 ;; block2 ;; block3 ;; block4 ;; block5 ;; block6 ;; block7 ;;
  stop_child junk ;;
  g ← get;
  call_ (KClose (fd g)).

Definition main (loops : nat) : P unit :=
  setup ;;
  for_from 0 loops (fun _ => round) ;;
  cleanup ;;
  tst_exit.

(** The reports of a correct run. *)
Definition expected_log : list entry :=
  infos
    ["Enter block 1"; "Test block 1: PASSED"; "Exit block 1";
     "Enter block 2"; "Test block 2: PASSED"; "Exit block 2";
     "Enter block 3"; "Test block 3: PASSED"; "Exit block 3";
     "Enter blcok 4"; "Test block 4: PASSED"; "Exit block 4";
     "Enter block 5"; "Test block 5: PASSED"; "Exit block 5";
     "Enter block 6"; "Test block 6: PASSED"; "Exit block 6";
     "Enter block 7"; "Test block 7: PASSED"; "Exit block 7"]%string.

Lemma fcntl19_checker ts :
  { t | tsound (K := posix ts) main_pid (fun s => passed main_pid (log_is expected_log) s = true) t (main 1) }.
Proof. eexists. unfold main. build_checker 4000%nat. Defined.

Lemma fcntl19_checks ts :
  proj1_sig (fcntl19_checker ts) globals0 (shp (boot main_pid (main 1) globals0 fs_init)) = true.
Proof. vm_compute. reflexivity. Qed.

(** On every POSIX platform, whatever the interleaving of parent and child,
    the test ends with all its processes gone, no SIGCHLD caught and exactly the
    reports of a correct run. *)
Theorem fcntl19_passes {W} (K : Kernel kcall kreply W) (w0 : W) `{!PosixPlatform K w0} :
  inevitable (fun s => passed main_pid (log_is expected_log) s = true)
    (boot main_pid (main 1) globals0 w0).
Proof. exact (platform_passes K w0 _ _ _ _ (proj2_sig (fcntl19_checker _)) (fcntl19_checks _)). Qed.

Lemma fcntl19_forgetful ts :
  { t | tsound (K := forgetful ts) main_pid (fun s => detected s = true) t (main 1) }.
Proof. eexists. unfold main. build_checker 6000%nat. Defined.

(** The test notices a kernel that forgets locks: on [forgetful], every run ends
    and reports a failure. *)
Theorem fcntl19_detects ts :
  let K := forgetful ts in
  inevitable (fun s => detected s = true) (boot main_pid (main 1) globals0 fs_init).
Proof. apply (proj2_sig (fcntl19_forgetful ts)). vm_compute. reflexivity. Qed.
End Fcntl19.

Lemma fcntl19_passes_witness :
  let K := posix (fun _ => 0) in
  inevitable (fun s => passed main_pid (log_is expected_log) s = true)
    (boot main_pid (main no_flock 1) globals0 fs_init).
Proof. exact (fcntl19_passes no_flock (posix (fun _ => 0)) fs_init). Defined.
