(* ===== verification/Fcntl11.v ===== *)
(** * fcntl11.c: a read lock around a write lock

    The same protocol as in [LockServer.v], in the version of fcntl11.c: pipe
    transfers go through SAFE_READ and SAFE_WRITE, which end the process on an
    error, and there is no [fail] flag. *)

From S2P Require Import Prelude Tst Process Explore RecordLocks Prog Checker LockLib LockServer.
Section Fcntl11.
Variable junk : flock.

Definition cleanup : P unit := misc_ "tst_rmdir" [].

Definition setup : P unit :=
  misc_ "tst_sig" [] ;;
  misc_ "tst_tmpdir" [] ;;
  misc_ "umask" [0] ;;
  SAFE_PIPE cleanup parent_pipe ;;
  SAFE_PIPE cleanup child_pipe ;;
  pid ← getpid;
  modify (set_parent_pid pid) ;;
  r ← call (KMkstemp "fcntl11XXXXXX");
  modify (set_fd (rc r)) ;;
  when (rc r <? 0) (tst_resm TFAIL "Couldn't open temp file! errno = %d" [Num (err r)]) ;;
  g ← get;
  SAFE_WRITE cleanup (fd g) STRINGSIZE ;;
  r ← ev (SigChld true);
  when (r <? 0) (tst_brkm TBROK cleanup "sigaction(SIGCHLD, ..) failed" []).

(** The SIGCHLD handler, which runs when the child ends before it is told to. *)
Definition catch_child : P unit :=
  tst_brkm TFAIL cleanup "Unexpected death of child process" [].

(** [SAFE_WRITE(cleanup, SAFE_WRITE_ALL, pipe, l, sizeof( *l))]. *)
Definition safe_pipe_write (c : P unit) (pipe : Z) (l : flock) : P unit :=
  b ← ev (PipeWrite pipe (to_msg l));
  when (negb b) (tst_brkm TBROK c "write" []).

(** [SAFE_READ(cleanup, 1, pipe, l, sizeof( *l))]: [*l] after the call. *)
Definition safe_pipe_read (c : P unit) (pipe : Z) : P flock :=
  m ← ev (PipeRead pipe);
  match of_msg m with
  | Some l => mret l
  | None => tst_brkm TBROK c "read" []
  end.

Definition parent_put (l : flock) : P unit := safe_pipe_write cleanup parent_pipe l.

Definition parent_get : P flock := safe_pipe_read cleanup child_pipe.

Definition child_put (l : flock) : P unit := safe_pipe_write (mret tt) child_pipe l.

Definition child_get : P flock :=
  l ← safe_pipe_read (mret tt) parent_pipe;
  if is_stop l then exit 0 else mret l.

Definition serve (fl : flock) : P flock :=
  fl ← child_get;
  g ← get;
  r ← call (KFcntl (fd g) F_GETLK fl);
  when (rc r <? 0) (tst_resm_errno TFAIL (err r) "fcntl on file failed" []) ;;
  let fl' := if rc r <? 0 then fl else out r in
  child_put fl' ;;
  mret fl'.

Definition do_child {A} : P A :=
  close_end parent_pipe 1 ;;
  close_end child_pipe 0 ;;
  forever serve junk.

Definition do_test (type whence start len : Z) : P flock :=
  parent_put (Flock type whence start len 0) ;;
  parent_get.

Definition str_type (type : Z) : string :=
  if type =? 0 then "F_RDLCK"
  else if type =? 1 then "F_WRLCK"
  else if type =? 2 then "F_UNLCK"
  else "BAD VALUE: " +:+ pretty type.

Definition compare_lock (fl : flock) (type whence start len pid : Z) : P unit :=
  when (negb (l_type fl =? type))
    (tst_resm TFAIL "lock type is wrong should be %s is %s"
       [Str (str_type type); Str (str_type (l_type fl))]) ;;
  when (negb (l_whence fl =? whence))
    (tst_resm TFAIL "lock whence is wrong should be %d is %d"
       [Num whence; Num (l_whence fl)]) ;;
  when (negb (l_start fl =? start))
    (tst_resm TFAIL "region starts in wrong place, should be %d is %ld"
       [Num start; Num (l_start fl)]) ;;
  when (negb (l_len fl =? len))
    (tst_resm TFAIL "region length is wrong, should be %d is %ld"
       [Num len; Num (l_len fl)]) ;;
  when (negb (l_pid fl =? pid))
    (tst_resm TFAIL "locking pid is wrong, should be %d is %d"
       [Num pid; Num (l_pid fl)]).

Definition try_lock (type start len : Z) : P unit :=
  r ← do_lock junk F_SETLK type 0 start len;
  when (rc r <? 0) (tst_resm_errno TFAIL (err r) "fcntl on file failed" []).

(** [do_test(&tl, F_WRLCK, 0, at, n); compare_lock(&tl, type, 0, start, len,
    parent_pid)]. *)
Definition expect_lock (at_ n : Z) (type start len : Z) : P unit :=
  tl ← do_test F_WRLCK 0 at_ n;
  g ← get;
  compare_lock tl type 0 start len (parent_pid g).

(** [do_test(&tl, F_WRLCK, 0, at, n); compare_lock(&tl, F_UNLCK, 0, at, n, 0)]. *)
Definition expect_free (at_ n : Z) : P unit :=
  tl ← do_test F_WRLCK 0 at_ n;
  compare_lock tl F_UNLCK 0 at_ n 0.

Definition unlock_file : P unit :=
  try_lock F_UNLCK 0 0 ;;
  expect_free 0 0.

Definition stop_child : P unit :=
  ev (SigChld false) ;;
  parent_put (stop_message junk) ;;
  waitpid (-1) ;;
  mret tt.

Definition block1 : P unit :=
  tst_resm TINFO "Enter block 1" [] ;;
  try_lock F_WRLCK 10 5 ;;
  try_lock F_RDLCK 1 5 ;;
  expect_lock 0 0 F_RDLCK 1 5 ;;
  expect_lock 6 0 F_WRLCK 10 5 ;;
  expect_free 15 0 ;;
  unlock_file ;;
  tst_resm TINFO "Exit block 1" [].

Definition block2 : P unit :=
  tst_resm TINFO "Enter block 2" [] ;;
  try_lock F_WRLCK 10 5 ;;
  try_lock F_RDLCK 5 5 ;;
  expect_lock 0 0 F_RDLCK 5 5 ;;
  expect_lock 10 0 F_WRLCK 10 5 ;;
  expect_free 15 0 ;;
  unlock_file ;;
  tst_resm TINFO "Exit block 2" [].

Definition block3 : P unit :=
  tst_resm TINFO "Enter block 3" [] ;;
  try_lock F_WRLCK 10 5 ;;
  try_lock F_RDLCK 5 6 ;;
  expect_lock 0 0 F_RDLCK 5 6 ;;
  expect_lock 11 0 F_WRLCK 11 4 ;;
  expect_free 15 0 ;;
  unlock_file ;;
  tst_resm TINFO "Exit block 3" [].

Definition block4 : P unit :=
  tst_resm TINFO "Enter block 4" [] ;;
  try_lock F_WRLCK 10 5 ;;
  try_lock F_RDLCK 5 8 ;;
  expect_lock 5 0 F_RDLCK 5 8 ;;
  expect_lock 13 0 F_WRLCK 13 2 ;;
  expect_free 15 0 ;;
  unlock_file ;;
  tst_resm TINFO "Exit block 4" [].

Definition block5 : P unit :=
  tst_resm TINFO "Enter block 5" [] ;;
  try_lock F_WRLCK 10 10 ;;
  try_lock F_RDLCK 13 5 ;;
  expect_lock 0 0 F_WRLCK 10 3 ;;
  expect_lock 13 0 F_RDLCK 13 5 ;;
  expect_lock 18 0 F_WRLCK 18 2 ;;
  expect_free 20 0 ;;
  unlock_file ;;
  tst_resm TINFO "Exit block 5" [].

Definition block6 : P unit :=
  tst_resm TINFO "Enter block 6" [] ;;
  try_lock F_WRLCK 10 5 ;;
  try_lock F_RDLCK 13 5 ;;
  expect_lock 0 0 F_WRLCK 10 3 ;;
  expect_lock 13 0 F_RDLCK 13 5 ;;
  expect_free 18 0 ;;
  unlock_file ;;
  tst_resm TINFO "Exit block 6" [].

Definition block7 : P unit :=
  tst_resm TINFO "Enter block 7" [] ;;
  try_lock F_WRLCK 10 5 ;;
  try_lock F_RDLCK 14 5 ;;
  expect_lock 0 0 F_WRLCK 10 4 ;;
  expect_lock 14 0 F_RDLCK 14 5 ;;
  expect_free 19 0 ;;
  unlock_file ;;
  tst_resm TINFO "Exit block 7" [].

Definition block8 : P unit :=
  tst_resm TINFO "Enter block 8" [] ;;
  try_lock F_WRLCK 10 5 ;;
  try_lock F_RDLCK 15 5 ;;
  expect_lock 0 0 F_WRLCK 10 5 ;;
  expect_lock 15 0 F_RDLCK 15 5 ;;
  expect_free 20 0 ;;
  unlock_file ;;
  tst_resm TINFO "Exit block 8" [].

Definition block9 : P unit :=
  tst_resm TINFO "Enter block 9" [] ;;
  try_lock F_WRLCK 10 5 ;;
  try_lock F_RDLCK 16 5 ;;
  expect_lock 0 0 F_WRLCK 10 5 ;;
  expect_free 15 1 ;;
  expect_lock 16 0 F_RDLCK 16 5 ;;
  expect_free 21 0 ;;
  unlock_file ;;
  tst_resm TINFO "Exit block 9" [].

(** [child_pid = fork()], the child's branch and the error branch. *)
Definition start_child : P unit :=
  c ← fork;
  modify (set_child_pid c) ;;
  (if c =? 0 then do_child
   else when (c =? -1) (tst_brkm TBROK cleanup "fork failed" [])) ;;
  safe cleanup "close" (KMisc "close" [parent_pipe; 0]) ;;
  safe cleanup "close" (KMisc "close" [child_pipe; 1]) ;;
  mret tt.

(** The body of the loop over TEST_LOOPING. *)
Definition round : P unit :=
  start_child ;;
  block1 ;; block2 ;; block3 ;; block4 ;; block5 ;; block6 ;;
  block7 ;; block8 ;; block9 ;;
  stop_child ;;
  g ← get;
  SAFE_CLOSE cleanup (fd g) ;;
  mret tt.

Definition main (loops : nat) : P unit :=
  setup ;;
  for_from 0 loops (fun _ => round) ;;
  cleanup ;;
  tst_exit.

(** The reports of a correct run. *)
Definition expected_log : list entry :=
  infos
    ["Enter block 1"; "Exit block 1"; "Enter block 2"; "Exit block 2"; "Enter block 3";
     "Exit block 3"; "Enter block 4"; "Exit block 4"; "Enter block 5"; "Exit block 5";
     "Enter block 6"; "Exit block 6"; "Enter block 7"; "Exit block 7"; "Enter block 8";
     "Exit block 8"; "Enter block 9"; "Exit block 9"]%string.

Lemma fcntl11_checker ts :
  { t | tsound (K := posix ts) main_pid (fun s => passed main_pid (log_is expected_log) s = true) t (main 1) }.
Proof. eexists. unfold main. build_checker 6000%nat. Defined.

Lemma fcntl11_checks ts :
  proj1_sig (fcntl11_checker ts) globals0 (shp (boot main_pid (main 1) globals0 fs_init)) = true.
Proof. vm_compute. reflexivity. Qed.

(** On every POSIX platform, whatever the interleaving of parent and child,
    the test ends with all its processes gone, no SIGCHLD caught and exactly the
    reports of a correct run. *)
Theorem fcntl11_passes {W} (K : Kernel kcall kreply W) (w0 : W) `{!PosixPlatform K w0} :
  inevitable (fun s => passed main_pid (log_is expected_log) s = true)
    (boot main_pid (main 1) globals0 w0).
Proof. exact (platform_passes K w0 _ _ _ _ (proj2_sig (fcntl11_checker _)) (fcntl11_checks _)). Qed.

Lemma fcntl11_forgetful ts :
  { t | tsound (K := forgetful ts) main_pid (fun s => detected s = true) t (main 1) }.
Proof. eexists. unfold main. build_checker 6000%nat. Defined.

(** The test notices a kernel that forgets locks: on [forgetful], every run ends
    and reports a failure. *)
Theorem fcntl11_detects ts :
  let K := forgetful ts in
  inevitable (fun s => detected s = true) (boot main_pid (main 1) globals0 fs_init).
Proof. apply (proj2_sig (fcntl11_forgetful ts)). vm_compute. reflexivity. Qed.
End Fcntl11.

Lemma fcntl11_passes_witness :
  let K := posix (fun _ => 0) in
  inevitable (fun s => passed main_pid (log_is expected_log) s = true)
    (boot main_pid (main no_flock 1) globals0 fs_init).
Proof. exact (fcntl11_passes no_flock (posix (fun _ => 0)) fs_init). Defined.
