(* ===== verification/Fcntl17.v ===== *)
(** * fcntl17.c: deadlock detection among three children

    Model of [src/original tests/fcntl/fcntl17.c].  Each of three children sets a
    lock; then child 2 waits for the lock of child 3, and child 3 for those of
    children 1 and 2.  When child 1 lets go, one of them must be told EDEADLK.
    The parent orders the steps through one pipe for each child, and the children
    answer through [parent_pipe].

    A blocking F_SETLKW is two events, as [DeadlockLocks.v] explains.  No
    run of the model reaches the handlers [catch_alarm] and [catch_child] (see the
    header of [Prelude.v]).  The variants for UCLINUX, which need another compiler, are
    left out; [perrno] is what [errno] happens to hold in the parent. *)

From S2P Require Import Prelude Tst Process Explore Owned RecordLocks DeadlockLocks Prog Checker.
From S2P Require Import LockLib Wp.

Definition STRINGSIZE : Z := 27.
Definition STOP : Z := 65520.   (* 0xFFF0 *)
Definition TIME_OUT : Z := 10.

Definition parent_pipe : Z := 0.
Definition child_pipe1 : Z := 1.
Definition child_pipe2 : Z := 2.
Definition child_pipe3 : Z := 3.

Definition lock1 : flock := Flock F_WRLCK 0 2 5 0.
Definition lock2 : flock := Flock F_WRLCK 0 9 5 0.
Definition lock3 : flock := Flock F_WRLCK 0 17 5 0.
Definition lock4 : flock := Flock F_WRLCK 0 17 5 0.
Definition lock5 : flock := Flock F_WRLCK 0 2 14 0.
Definition unlock : flock := Flock F_UNLCK 0 0 0 0.

Record globals := Globals {
  file_fd : Z;
  parent_pid : Z;
  child_pid1 : Z;
  child_pid2 : Z;
  child_pid3 : Z;
  child_stat : Z
}.

#[export] Instance globals_eq_dec : EqDecision globals.
Proof. solve_decision. Defined.

Definition globals0 : globals := Globals 0 0 0 0 0 0.

Definition set_file_fd x g :=
  Globals x (parent_pid g) (child_pid1 g) (child_pid2 g) (child_pid3 g) (child_stat g).
Definition set_parent_pid x g :=
  Globals (file_fd g) x (child_pid1 g) (child_pid2 g) (child_pid3 g) (child_stat g).
Definition set_child_pid1 x g :=
  Globals (file_fd g) (parent_pid g) x (child_pid2 g) (child_pid3 g) (child_stat g).
Definition set_child_pid2 x g :=
  Globals (file_fd g) (parent_pid g) (child_pid1 g) x (child_pid3 g) (child_stat g).
Definition set_child_pid3 x g :=
  Globals (file_fd g) (parent_pid g) (child_pid1 g) (child_pid2 g) x (child_stat g).
Definition set_child_stat x g :=
  Globals (file_fd g) (parent_pid g) (child_pid1 g) (child_pid2 g) (child_pid3 g) x.

Abbreviation P A := (M dcall kreply globals A).

Definition misc (name : string) (args : list Z) : P kreply := call (File (KMisc name args)).

Definition misc_ (name : string) (args : list Z) : P unit := misc name args ;; mret tt.

Definition close_end (pipe which : Z) : P unit := misc_ "close" [pipe; which].

(** [fcntl(file_fd, cmd, fl)]. *)
Definition fcntl (cmd : Z) (fl : flock) : P kreply :=
  g ← get;
  when (cmd =? F_SETLKW) (call_ (Queue (file_fd g) fl)) ;;
  call (File (KFcntl (file_fd g) cmd fl)).

(** An [int] on a pipe. *)
Definition to_msg (arg : Z) : list Z := [arg].

Definition of_msg (m : option (list Z)) : option Z :=
  match m with Some [a] => Some a | _ => None end.

Definition str_type (type : Z) : string :=
  if type =? F_RDLCK then "F_RDLCK"
  else if type =? F_WRLCK then "F_WRLCK"
  else if type =? F_UNLCK then "F_UNLCK"
  else "BAD VALUE: " +:+ pretty type.

Definition kill_ (pid sig : Z) : P unit := ev (Kill pid sig) ;; mret tt.

Definition cleanup : P unit :=
  g ← get;
  when (0 <? child_pid1 g) (kill_ (child_pid1 g) 9) ;;
  when (0 <? child_pid2 g) (kill_ (child_pid2 g) 9) ;;
  when (0 <? child_pid3 g) (kill_ (child_pid3 g) 9) ;;
  call_ (File (KClose (file_fd g))) ;;
  misc_ "tst_rmdir" [].

(** A step of [setup] whose failure makes it return 1 with a report. *)
Definition setup_pipe (pipe : Z) (msg : string) (rest : P Z) : P Z :=
  r ← misc "pipe" [pipe];
  if rc r <? 0 then tst_resm TFAIL msg [Num (err r)] ;; mret 1 else rest.

Definition setup (perrno : Z) : P Z :=
  misc_ "tst_sig" [] ;;
  misc_ "umask" [0] ;;
  misc_ "tst_tmpdir" [] ;;
  setup_pipe parent_pipe "Couldn't create parent_pipe! errno = %d" (
  setup_pipe child_pipe1 "Couldn't create child_pipe1! errno = %d" (
  setup_pipe child_pipe2 "Couldn't create child_pipe2! errno = %d" (
  setup_pipe child_pipe3 "Couldn't create child_pipe3! errno = %d" (
  pid ← getpid;
  modify (set_parent_pid pid) ;;
  r ← call (File (KMkstemp "fcntl17XXXXXX"));
  modify (set_file_fd (rc r)) ;;
  when (rc r <? 0) (tst_resm TFAIL "Couldn't open temp file! errno = %d" [Num (err r)]) ;;
  w ← call (File (KWrite (rc r) STRINGSIZE));
  when (rc w <? 0) (tst_resm TFAIL "Couldn't write to temp file! errno = %d" [Num (err w)]) ;;
  a ← misc "sigaction" [SIGALRM];
  if rc a <? 0 then tst_resm TFAIL "SIGALRM signal setup failed, errno: %d" [Num (err a)] ;; mret 1
  else
    c ← ev (SigChld true);
    if c <? 0 then tst_resm TFAIL "SIGCHLD signal setup failed, errno: %d" [Num perrno] ;; mret 1
    else mret 0)))).

(** ** Messages *)

Definition parent_free (arg : Z) : P unit :=
  b ← ev (PipeWrite parent_pipe (to_msg arg));
  when (negb b) (tst_resm TFAIL "couldn't send message to parent" [] ;; exit 1).

Definition parent_wait (perrno : Z) : P Z :=
  m ← ev (PipeRead parent_pipe);
  match of_msg m with
  | Some arg => mret arg
  | None => tst_resm TFAIL "parent_wait() failed" [] ;; mret perrno
  end.

Definition child_free (fd arg : Z) : P unit :=
  b ← ev (PipeWrite fd (to_msg arg));
  when (negb b) (tst_resm TFAIL "couldn't send message to child" [] ;; exit 1).

Definition child_wait (fd : Z) : P unit :=
  m ← ev (PipeRead fd);
  match of_msg m with
  | None => tst_resm TFAIL "couldn't get message from parent" [] ;; exit 1
  | Some arg => when (arg =? to_short STOP) (exit 0)
  end.

(** [waitpid(pid, &child_stat, 0)]. *)
Definition reap (pid : Z) : P unit :=
  st ← waitpid pid;
  when (0 <=? st.1) (modify (set_child_stat st.2)).

Definition stop_children : P unit :=
  ev (SigChld false) ;;
  let arg := STOP in
  child_free child_pipe1 arg ;;
  child_free child_pipe2 arg ;;
  child_free child_pipe3 arg ;;
  g ← get;
  reap (child_pid1 g) ;;
  modify (set_child_pid1 0) ;;
  reap (child_pid2 g) ;;
  modify (set_child_pid2 0) ;;
  reap (child_pid3 g) ;;
  modify (set_child_pid3 0).

(** ** Signal handlers *)

Definition catch_child : P unit :=
  tst_resm TFAIL "Unexpected death of child process" [] ;;
  cleanup.

(** [if (pid != 0 && (kill(pid, SIGKILL)) < 0) ...]. *)
Definition kill_child (pid : Z) (failed : string) : P unit :=
  when (negb (pid =? 0))
    (r ← ev (Kill pid 9);
     when (r <? 0) (tst_resm TFAIL failed [])).

Definition catch_alarm : P unit :=
  misc_ "sighold" [17] ;;
  g ← get;
  kill_child (child_pid1 g) "Attempt to signal child 1 failed." ;;
  kill_child (child_pid2 g) "Attempt to signal child 2 failed." ;;
  kill_child (child_pid3 g) "Attempt to signal child 2 failed." ;;
  tst_resm TFAIL "Alarm expired, deadlock not detected" [] ;;
  tst_resm TWARN "You may need to kill child processes by hand" [] ;;
  cleanup.

(** ** The children *)

(** [if (fcntl(file_fd, cmd, fl) < 0) { report; parent_free(errno) } else
    { report; parent_free(0) }]. *)
Definition try_lock (cmd : Z) (fl : flock) (failed : string) (granted : P unit) : P unit :=
  r ← fcntl cmd fl;
  if rc r <? 0 then
    tst_resm TINFO failed [Num (err r)] ;;
    parent_free (err r)
  else
    granted ;;
    parent_free 0.

(** [tst_resm(TINFO, msg, getpid())]. *)
Definition resm_pid (msg : string) : P unit :=
  pid ← getpid;
  tst_resm TINFO msg [Num pid].

Definition do_child1 : P unit :=
  close_end parent_pipe 0 ;;
  close_end child_pipe1 1 ;;
  close_end child_pipe2 0 ;;
  close_end child_pipe2 1 ;;
  close_end child_pipe3 0 ;;
  close_end child_pipe3 1 ;;
  child_wait child_pipe1 ;;
  tst_resm TINFO "child 1 starting" [] ;;
  try_lock F_SETLK lock1 "child 1 lock err %d" (resm_pid "child 1 pid %d locked") ;;
  child_wait child_pipe1 ;;
  tst_resm TINFO "child 1 resuming" [] ;;
  fcntl F_SETLK unlock ;;
  tst_resm TINFO "child 1 unlocked" [] ;;
  child_wait child_pipe1 ;;
  tst_resm TINFO "child 1 exiting" [] ;;
  exit 1.

Definition do_child2 : P unit :=
  close_end parent_pipe 0 ;;
  close_end child_pipe1 0 ;;
  close_end child_pipe1 1 ;;
  close_end child_pipe2 1 ;;
  close_end child_pipe3 0 ;;
  close_end child_pipe3 1 ;;
  child_wait child_pipe2 ;;
  tst_resm TINFO "child 2 starting" [] ;;
  try_lock F_SETLK lock2 "child 2 lock err %d" (resm_pid "child 2 pid %d locked") ;;
  child_wait child_pipe2 ;;
  tst_resm TINFO "child 2 resuming" [] ;;
  try_lock F_SETLKW lock4 "child 2 lockw err %d" (tst_resm TINFO "child 2 lockw locked" []) ;;
  child_wait child_pipe2 ;;
  tst_resm TINFO "child 2 exiting" [] ;;
  exit 1.

Definition do_child3 : P unit :=
  close_end parent_pipe 0 ;;
  close_end child_pipe1 0 ;;
  close_end child_pipe1 1 ;;
  close_end child_pipe2 0 ;;
  close_end child_pipe2 1 ;;
  close_end child_pipe3 1 ;;
  child_wait child_pipe3 ;;
  tst_resm TINFO "child 3 starting" [] ;;
  try_lock F_SETLK lock3 "child 3 lock err %d" (resm_pid "child 3 pid %d locked") ;;
  child_wait child_pipe3 ;;
  tst_resm TINFO "child 3 resuming" [] ;;
  try_lock F_SETLKW lock5 "child 3 lockw err %d" (tst_resm TINFO "child 3 lockw locked" []) ;;
  child_wait child_pipe3 ;;
  tst_resm TINFO "child 3 exiting" [] ;;
  exit 1.

(** ** The parent *)

(** [static int do_test(struct flock *lock, pid_t pid)]: stops at the first
    difference. *)
Definition do_test (lock : flock) (pid : Z) : P Z :=
  r ← fcntl F_GETLK (Flock F_RDLCK (l_whence lock) (l_start lock) (l_len lock) 0);
  let fl := out r in
  if rc r <? 0 then tst_resm TFAIL "fcntl on file failed, errno =%d" [Num (err r)] ;; mret 1
  else if negb (l_type fl =? l_type lock) then
    tst_resm TFAIL "lock type is wrong should be %s is %s"
      [Str (str_type (l_type lock)); Str (str_type (l_type fl))] ;; mret 1
  else if negb (l_whence fl =? l_whence lock) then
    tst_resm TFAIL "lock whence is wrong should be %d is %d"
      [Num (l_whence lock); Num (l_whence fl)] ;; mret 1
  else if negb (l_start fl =? l_start lock) then
    tst_resm TFAIL "region starts in wrong place, should be %ld is %ld"
      [Num (l_start lock); Num (l_start fl)] ;; mret 1
  else if negb (l_len fl =? l_len lock) then
    tst_resm TFAIL "region length is wrong, should be %ld is %ld"
      [Num (l_len lock); Num (l_len fl)] ;; mret 1
  else if negb (l_pid fl =? pid) then
    tst_resm TFAIL "locking pid is wrong, should be %d is %d" [Num pid; Num (l_pid fl)] ;; mret 1
  else mret 0.

(** [if (parent_wait()) { ...; fail = 1 }]; the first of the three calls reports
    without setting [fail]. *)
Definition wait_locked (perrno fail : Z) (t : ttype) (msg : string) (set : bool) : P Z :=
  a ← parent_wait perrno;
  if negb (a =? 0) then
    tst_resm t msg [Num perrno] ;; mret (if set then 1 else fail)
  else mret fail.

(** [if (do_test(lock, pid)) { ...; fail = 1 }]. *)
Definition check_lock (fail : Z) (lock : flock) (pid : Z) (msg : string) : P Z :=
  d ← do_test lock pid;
  if negb (d =? 0) then tst_resm TINFO msg [] ;; mret 1 else mret fail.

Definition block1 (perrno : Z) : P unit :=
  tst_resm TINFO "Enter block 1" [] ;;
  let fail := 0 in
  g ← get;
  child_free child_pipe1 0 ;;
  fail ← wait_locked perrno fail TFAIL "didn't set first child's lock, errno: %d" false;
  fail ← check_lock fail lock1 (child_pid1 g) "do_test failed child 1";
  child_free child_pipe2 0 ;;
  fail ← wait_locked perrno fail TINFO "didn't set second child's lock, errno: %d" true;
  fail ← check_lock fail lock2 (child_pid2 g) "do_test failed child 2";
  child_free child_pipe3 0 ;;
  fail ← wait_locked perrno fail TFAIL "didn't set third child's lock, errno: %d" true;
  fail ← check_lock fail lock3 (child_pid3 g) "do_test failed child 3";
  child_free child_pipe2 0 ;;
  child_free child_pipe3 0 ;;
  child_free child_pipe1 0 ;;
  misc_ "alarm" [TIME_OUT] ;;
  ans ← parent_wait perrno;
  fail ← (if negb (ans =? EDEADLK) then
            tst_resm TFAIL "child 2 didn't deadlock, returned: %d" [Num ans] ;; mret 1
          else mret fail);
  do_test lock2 (child_pid2 g) ;;
  do_test lock3 (child_pid3 g) ;;
  stop_children ;;
  (if negb (fail =? 0) then tst_resm TFAIL "Block 1 FAILED" [] else tst_resm TPASS "Block 1 PASSED" []) ;;
  tst_resm TINFO "Exit block 1" [].

(** [if ((child_pid = fork()) == 0) do_child(); else if (child_pid < 0) ...]. *)
Definition start (set : Z -> globals -> globals) (do_child : P unit) (msg : string) : P unit :=
  pid ← fork;
  modify (set pid) ;;
  if pid =? 0 then do_child
  else when (pid <? 0) (tst_brkm TBROK cleanup msg []).

(** The body of the loop over TEST_LOOPING.  [do_child3] is called twice in the
    source; the first call does not return. *)
Definition round (perrno : Z) : P unit :=
  tst_resm TINFO "Enter preparation phase" [] ;;
  start set_child_pid1 do_child1 "Fork failed: child 1" ;;
  start set_child_pid2 do_child2 "Fork failed: child 2" ;;
  start set_child_pid3 (do_child3 ;; do_child3) "Fork failed: child 3" ;;
  close_end parent_pipe 1 ;;
  close_end child_pipe1 0 ;;
  close_end child_pipe2 0 ;;
  close_end child_pipe3 0 ;;
  tst_resm TINFO "Exit preparation phase" [] ;;
  block1 perrno.

Definition main (perrno : Z) (loops : nat) : P unit :=
  r ← setup perrno;
  when (negb (r =? 0)) (tst_resm TINFO "setup failed" [] ;; cleanup) ;;
  for_from 0 loops (fun _ => round perrno) ;;
  cleanup ;;
  tst_exit.

(** ** Correctness *)

(** Each pipe to a child goes from the parent to that child; only the parent reads
    [parent_pipe].  Children 1, 2 and 3 are the processes after the parent. *)
Definition pipe_reader (p : Z) : option Z :=
  Some (if p =? parent_pipe then main_pid else main_pid + p).

Definition pipe_writer (p : Z) : option Z := if p =? parent_pipe then None else Some main_pid.

(** The parent's reports in a correct run. *)
Definition expected_log : list entry :=
  infos ["Enter preparation phase"; "Exit preparation phase"; "Enter block 1"]%string
  ++ [Entry TPASS None "Block 1 PASSED" []] ++ infos ["Exit block 1"]%string.

Lemma fcntl17_explored ts perrno :
  explore_owned (posix_dl ts) pipe_reader pipe_writer 1000
    (fun s => passed main_pid (log_is expected_log) s)
    (boot main_pid (main perrno 1) globals0 ds_init) = true.
Proof. vm_compute. reflexivity. Qed.

(** C25: on every POSIX platform that detects deadlocks, whatever the interleaving of
    the parent and its three children, fcntl17 ends with all processes gone, no
    SIGCHLD caught, no failure reported by any of them, and block 1 passed: one of
    the waiting children, no matter which, is told EDEADLK. *)
Theorem fcntl17_passes {W} (K : Kernel dcall kreply W) (w0 : W) `{!DeadlockPlatform K w0}
    (perrno : Z) :
  inevitable (fun s => passed main_pid (log_is expected_log) s = true)
    (boot main_pid (main perrno 1) globals0 w0).
Proof.
  apply (refines_run K (posix_dl tst_status) w0 ds_init); [exact dp_init|].
  exact (explore_owned_sound _ _ _ _ _ _ (fcntl17_explored _ perrno)).
Qed.

Lemma fcntl17_passes_witness :
  let K := posix_dl (fun _ => 0) in
  inevitable (fun s => passed main_pid (log_is expected_log) s = true)
    (boot main_pid (main 0 1) globals0 ds_init).
Proof. exact (fcntl17_passes (posix_dl (fun _ => 0)) ds_init 0). Defined.

(** A run that is stuck: the parent and its three children are there, none of them
    has reported a result, and nobody was told EDEADLK. *)
Definition hung {W A} (s : sys dcall kreply W A) : bool :=
  bool_decide (map fst (map_to_list (s_info (shp s))) ≡ₚ [100; 101; 102; 103])
  && forallb (fun e => bool_decide (e_type e = TINFO)) (all_logs (shp s))
  && bool_decide (map e_fmt (log_of main_pid (shp s))
       = ["Enter preparation phase"; "Exit preparation phase"; "Enter block 1"]%string).

Lemma fcntl17_explored_blind ts perrno :
  explore_owned (blind ts) pipe_reader pipe_writer 1000 hung
    (boot main_pid (main perrno 1) globals0 ds_init) = true.
Proof. vm_compute. reflexivity. Qed.

(** In the model, where no alarm expires, every run on a kernel that never answers EDEADLK
    comes to a state in which the parent and all three children wait and no result is
    reported.  In the program that is not the end: the parent has set an alarm, whose handler
    [catch_alarm] kills the children and reports that the deadlock was not detected. *)
Theorem fcntl17_hangs ts (perrno : Z) :
  inevitable (H := blind ts) (fun s => hung s = true)
    (boot main_pid (main perrno 1) globals0 ds_init).
Proof. exact (explore_owned_sound _ _ _ _ _ _ (fcntl17_explored_blind ts perrno)). Qed.

(** ** Verdicts *)

Section Verdict.
Context {W : Type} {K : Kernel dcall kreply W}.
Variable pid : Z.
Implicit Types (sh : shape W).

(** The query [do_test] makes. *)
Definition query (lock : flock) : flock := Flock F_RDLCK (l_whence lock) (l_start lock) (l_len lock) 0.

(** F_GETLK has answered [r]: it succeeded and the lock in the way is [lock], owned
    by [owner]. *)
Definition reports_lock (r : kreply) (lock : flock) (owner : Z) : bool :=
  (0 <=? rc r)
  && bool_decide (out r
       = Flock (l_type lock) (l_whence lock) (l_start lock) (l_len lock) owner).

(** What a check leaves behind: nothing and 0, or one failure report and 1. *)
Definition judged (b : bool) g sh : globals -> Z -> shape W -> Prop := fun g' a sh' =>
  g' = g /\ s_world sh' = s_world sh /\
  if b then a = 0 /\ log_of pid sh' = log_of pid sh
  else a = 1 /\ exists e, e_type e = TFAIL /\ log_of pid sh' = log_of pid sh ++ [e].

Lemma judge_next (b ok : bool) fmt args (rest : P Z) g sh :
  (b = true -> wp (K := K) pid rest g sh (judged ok g sh)) ->
  wp (K := K) pid (if negb b then tst_resm TFAIL fmt args ;; mret 1 else rest) g sh
    (judged (b && ok) g sh).
Proof.
  intros Hr. destruct b; [by apply Hr|]. cbn [negb]. wp_steps.
  repeat split. eexists. split; [|apply log_of_report]. done.
Qed.

Lemma judge_last (b : bool) fmt args g sh :
  wp (K := K) pid (if negb b then tst_resm TFAIL fmt args ;; mret 1 else mret 0) g sh
    (judged b g sh).
Proof.
  rewrite <- (andb_true_r b) at 2. apply judge_next. intros _. by wp_steps.
Qed.
End Verdict.

(** [do_test], on any kernel: it returns 0, without a report, when F_GETLK
    answers with the lock and the owner it is asked to check, and otherwise returns 1
    after exactly one failure report. *)
Theorem do_test_verdict {W} (K : Kernel dcall kreply W) pid lock owner g sh r w :
  k_do pid (File (KFcntl (file_fd g) F_GETLK (query lock))) (s_world sh) = Some (r, w) ->
  wp pid (do_test lock owner) g sh (fun g' a sh' =>
    g' = g /\ s_world sh' = w /\
    if reports_lock r lock owner
    then a = 0 /\ log_of pid sh' = log_of pid sh
    else a = 1 /\ exists e, e_type e = TFAIL /\ log_of pid sh' = log_of pid sh ++ [e]).
Proof.
  intros Hk. unfold do_test, fcntl, reports_lock. rewrite flock_eqb, <- !andb_assoc.
  cbn [l_type l_whence l_start l_len l_pid].
  wp_step. wp_step. wp_step. wp_step. wp_step; [done|]. eapply wp_call; [exact Hk|].
  rewrite Z.ltb_antisym. change (fun g' a sh' => _) with (judged (W := W) pid
    ((0 <=? rc r) && ((l_type (out r) =? l_type lock) && ((l_whence (out r) =? l_whence lock)
      && ((l_start (out r) =? l_start lock)
      && ((l_len (out r) =? l_len lock) && (l_pid (out r) =? owner)))))) g (with_world w sh)).
  do 5 (apply judge_next; intros _).
  apply judge_last.
Qed.

Lemma do_test_verdict_witness :
  let K := posix_dl (fun _ => 0) in
  let w := DState (FState (Some 3) 27 27 [Lock 101 F_WRLCK 2 6]) ∅ in
  let g := Globals 3 100 101 0 0 0 in
  let sh := Shape ∅ ∅ ∅ ∅ false 102 w in
  wp (K := K) 100 (do_test lock1 101) g sh (fun g' a sh' =>
    g' = g /\ s_world sh' = w /\ a = 0 /\ log_of 100 sh' = log_of 100 sh).
Proof.
  intros K w g sh.
  exact (do_test_verdict K 100 lock1 101 g sh (KReply 0 0 (Flock F_WRLCK 0 2 5 101)) w eq_refl).
Defined.

(** The message of [stop_children] stops no child: [child_wait] ends its process
    on -16 only, which is what [(short) STOP] is, while an [int] STOP is 65520; every
    other message is taken as permission to go on. *)
Theorem child_wait_stop {W} (K : Kernel dcall kreply W) pid fd arg ms g sh :
  s_pipes sh !! fd = Some (to_msg arg :: ms) ->
  STOP <> to_short STOP /\
  if arg =? -16
  then dies pid (child_wait fd) g sh
         (fun sh' => sh' = exit_shape pid (exit_status 0) (with_pipe fd ms sh))
  else wp pid (child_wait fd) g sh (fun g' _ sh' => g' = g /\ sh' = with_pipe fd ms sh).
Proof.
  intros Hp. split; [done|]. unfold child_wait.
  destruct (arg =? -16) eqn:Ea; (wp_step; eapply wp_pipe_read; [exact Hp|]);
    cbn [of_msg to_msg]; change (to_short STOP) with (-16); rewrite Ea; cbn [when].
  - by apply dies_exit.
  - by wp_steps.
Qed.

Lemma child_wait_stop_witness :
  let K := posix_dl (fun _ => 0) in
  let sh := Shape ∅ ∅ {[ child_pipe1 := [to_msg STOP] ]} ∅ false 102 ds_init in
  wp (K := K) 101 (child_wait child_pipe1) globals0 sh
    (fun g' _ sh' => g' = globals0 /\ sh' = with_pipe child_pipe1 [] sh).
Proof.
  intros K sh. exact (proj2 (child_wait_stop K 101 child_pipe1 STOP [] globals0 sh eq_refl)).
Defined.
