(* ===== verification/Fcntl16.v ===== *)
(** * fcntl16.c: changing a parent's locks under two children

    Model of [src/original tests/fcntl/fcntl16.c].  A parent is to lock a region,
    let two children ask for overlapping read locks, change its own lock, and see
    from their exit codes which of them were blocked.

    The children are told apart from unused entries by [l_type != IGNORED], but
    IGNORED is 0 and so is F_RDLCK, the type of all their locks: no child is ever
    made.  [fcntl16_vacuous] proves what follows.

    The functions of the children are modelled as well.  A signal is taken during a
    call that waits ([pause], [wait], F_SETLKW): the answer says which ones, and
    their handlers run when the call returns.  Left out: the UCLINUX variants. *)

From S2P Require Import Prelude Tst Process Explore RecordLocks Prog Checker LockLib Wp.

(** ** Calls *)

Inductive scall :=
| File (c : kcall)
| Pause
| Wait
| SendSig (pid sig : Z).

(** An answer, the status [wait] stores, and the signals taken meanwhile. *)
Record sreply := SReply { answer : kreply; status : Z; signals : list Z }.

#[export] Instance sreply_eq_dec : EqDecision sreply.
Proof. solve_decision. Defined.

(** ** Data *)

Definition IGNORED : Z := 0.
Definition NOBLOCK : Z := 2.
Definition WILLBLOCK : Z := 3.
Definition TIME_OUT : Z := 10.
Definition SKIP : flock := Flock 0 0 0 0 0.
Definition SIGUSR2 : Z := 12.
Definition SIGKILL : Z := 9.
Definition EINTR : Z := 4.
Definition TST_NFS_MAGIC : Z := 26985.

Record testcase := TC {
  parent_a : flock;
  parent_b : flock;
  child_a : flock;
  child_b : flock;
  parent_c : flock;
  parent_d : flock
}.

Definition testcases : list testcase := [
  TC (Flock F_WRLCK 0 0 0 IGNORED) SKIP (Flock F_RDLCK 0 0 5 NOBLOCK)
     (Flock F_RDLCK 0 6 5 NOBLOCK) (Flock F_RDLCK 0 0 0 IGNORED) SKIP;
  TC (Flock F_WRLCK 0 0 0 IGNORED) SKIP (Flock F_RDLCK 0 0 5 WILLBLOCK)
     (Flock F_RDLCK 0 6 5 WILLBLOCK) (Flock F_WRLCK 0 0 0 IGNORED) SKIP;
  TC (Flock F_WRLCK 0 0 0 IGNORED) SKIP (Flock F_RDLCK 0 2 3 WILLBLOCK)
     (Flock F_RDLCK 0 6 3 WILLBLOCK) (Flock F_RDLCK 0 3 5 IGNORED) SKIP;
  TC (Flock F_WRLCK 0 0 0 IGNORED) SKIP (Flock F_RDLCK 0 2 3 WILLBLOCK)
     (Flock F_RDLCK 0 6 3 NOBLOCK) (Flock F_RDLCK 0 5 5 IGNORED) SKIP;
  TC (Flock F_WRLCK 0 0 0 IGNORED) SKIP (Flock F_RDLCK 0 3 5 NOBLOCK)
     (Flock F_RDLCK 0 5 6 WILLBLOCK) (Flock F_RDLCK 0 2 7 IGNORED) SKIP;
  TC (Flock F_WRLCK 0 0 0 IGNORED) SKIP (Flock F_RDLCK 0 2 3 WILLBLOCK)
     (Flock F_RDLCK 0 6 3 NOBLOCK) (Flock F_UNLCK 0 3 7 IGNORED) SKIP;
  TC (Flock F_WRLCK 0 0 0 IGNORED) (Flock F_RDLCK 0 3 5 IGNORED) (Flock F_RDLCK 0 2 3 NOBLOCK)
     (Flock F_RDLCK 0 6 3 NOBLOCK) (Flock F_RDLCK 0 1 9 IGNORED) SKIP;
  TC (Flock F_WRLCK 0 2 3 IGNORED) (Flock F_WRLCK 0 6 3 IGNORED) (Flock F_RDLCK 0 3 5 NOBLOCK)
     SKIP (Flock F_RDLCK 0 1 5 IGNORED) (Flock F_RDLCK 0 5 5 IGNORED);
  TC (Flock F_WRLCK 0 0 0 IGNORED) (Flock F_RDLCK 0 3 5 IGNORED) (Flock F_RDLCK 0 2 3 NOBLOCK)
     (Flock F_RDLCK 0 6 3 NOBLOCK) (Flock F_RDLCK 0 1 3 IGNORED) (Flock F_RDLCK 0 7 3 IGNORED);
  TC (Flock F_WRLCK 0 0 0 IGNORED) SKIP (Flock F_RDLCK 0 2 3 NOBLOCK)
     (Flock F_RDLCK 0 6 3 NOBLOCK) (Flock F_RDLCK 0 1 7 IGNORED) (Flock F_RDLCK 0 3 7 IGNORED);
  TC (Flock F_WRLCK 0 0 0 IGNORED) SKIP (Flock F_RDLCK 0 3 5 NOBLOCK)
     (Flock F_RDLCK 0 3 5 NOBLOCK) (Flock F_RDLCK 0 3 5 IGNORED) SKIP
].

(** The static variables; [usr1_is_int] is the handler SIGUSR1 has in this process
    ([catch_usr1] or [catch_int]). *)
Record globals := Globals {
  thislock : flock;
  parent : Z;
  child_flag1 : Z;
  child_flag2 : Z;
  parent_flag : Z;
  alarm_flag : Z;
  child_pid : list Z;
  flag : list Z;
  fd : Z;
  test : Z;
  tmpname : string;
  NO_NFS : Z;
  usr1_is_int : bool
}.

Definition globals0 : globals := Globals SKIP 0 0 0 0 0 [0; 0] [0; 0] 0 0 "" 1 false.

Definition set_thislock x g := Globals x (parent g) (child_flag1 g) (child_flag2 g)
  (parent_flag g) (alarm_flag g) (child_pid g) (flag g) (fd g) (test g) (tmpname g) (NO_NFS g)
  (usr1_is_int g).
Definition set_parent x name g := Globals (thislock g) x (child_flag1 g) (child_flag2 g)
  (parent_flag g) (alarm_flag g) (child_pid g) (flag g) (fd g) (test g) name (NO_NFS g)
  (usr1_is_int g).
Definition set_flags c1 c2 p a g := Globals (thislock g) (parent g) c1 c2 p a (child_pid g)
  (flag g) (fd g) (test g) (tmpname g) (NO_NFS g) (usr1_is_int g).
Definition set_child i pid fl g := Globals (thislock g) (parent g) (child_flag1 g)
  (child_flag2 g) (parent_flag g) (alarm_flag g) (<[Z.to_nat i := pid]> (child_pid g))
  (<[Z.to_nat i := fl]> (flag g)) (fd g) (test g) (tmpname g) (NO_NFS g) (usr1_is_int g).
Definition set_fd x g := Globals (thislock g) (parent g) (child_flag1 g) (child_flag2 g)
  (parent_flag g) (alarm_flag g) (child_pid g) (flag g) x (test g) (tmpname g) (NO_NFS g)
  (usr1_is_int g).
Definition set_test x g := Globals (thislock g) (parent g) (child_flag1 g) (child_flag2 g)
  (parent_flag g) (alarm_flag g) (child_pid g) (flag g) (fd g) x (tmpname g) (NO_NFS g)
  (usr1_is_int g).
Definition set_NO_NFS x g := Globals (thislock g) (parent g) (child_flag1 g) (child_flag2 g)
  (parent_flag g) (alarm_flag g) (child_pid g) (flag g) (fd g) (test g) (tmpname g) x
  (usr1_is_int g).
Definition set_usr1 x g := Globals (thislock g) (parent g) (child_flag1 g) (child_flag2 g)
  (parent_flag g) (alarm_flag g) (child_pid g) (flag g) (fd g) (test g) (tmpname g) (NO_NFS g) x.

Abbreviation P A := (M scall sreply globals A).

Definition catch_alarm : P unit :=
  modify (fun g => set_flags (child_flag1 g) (child_flag2 g) (parent_flag g) 1 g).
Definition catch_usr1 : P unit :=
  modify (fun g => set_flags 1 (child_flag2 g) (parent_flag g) (alarm_flag g) g).
Definition catch_usr2 : P unit :=
  modify (fun g => set_flags (child_flag1 g) 1 (parent_flag g) (alarm_flag g) g).
Definition catch_int : P unit :=
  modify (fun g => set_flags (child_flag1 g) (child_flag2 g) 1 (alarm_flag g) g).

(** The handler of signal [sig]. *)
Definition on_signal (sig : Z) : P unit :=
  g ← get;
  if sig =? SIGUSR1 then (if usr1_is_int g then catch_int else catch_usr1)
  else if sig =? SIGUSR2 then catch_usr2
  else when (sig =? SIGALRM) catch_alarm.

Fixpoint on_signals (l : list Z) : P unit :=
  match l with
  | [] => mret tt
  | sig :: l => on_signal sig ;; on_signals l
  end.

(** A call during which signals may be taken. *)
Definition syscall (c : scall) : P sreply :=
  r ← call c;
  on_signals (signals r) ;;
  mret r.

Definition file (c : kcall) : P kreply := r ← syscall (File c); mret (answer r).

Definition misc (name : string) (args : list Z) : P kreply := file (KMisc name args).

Definition misc_ (name : string) (args : list Z) : P unit := misc name args ;; mret tt.

(** [fcntl(fd, cmd, thislock)]. *)
Definition fcntl (cmd : Z) : P kreply := g ← get; file (KFcntl (fd g) cmd (thislock g)).

Definition cleanup : P unit := misc_ "tst_rmdir" [].

Definition kill (pid sig : Z) : P kreply := r ← syscall (SendSig pid sig); mret (answer r).

(** ** The children *)

Definition dochild {A} (kid : Z) : P A :=
  misc_ "sigaction" [SIGUSR1] ;;
  modify (set_usr1 true) ;;
  g ← get;
  r ← kill (parent g) (if negb (kid =? 0) then SIGUSR2 else SIGUSR1);
  when (rc r <? 0)
    (tst_resm TFAIL "Attempt to send signal to parent failed" [] ;;
     tst_resm TFAIL "Test case %d, child %d, errno = %d" [Num (test g + 1); Num kid; Num (err r)] ;;
     exit 1) ;;
  r ← fcntl F_SETLKW;
  g ← get;
  when (rc r <? 0)
    (if (err r =? EINTR) && negb (parent_flag g =? 0) then exit 1
     else
       tst_resm TFAIL "Attempt to set child BLOCKING lock failed" [] ;;
       tst_resm TFAIL "Test case %d, errno = %d" [Num (test g + 1); Num (err r)] ;;
       exit 2) ;;
  exit 0.

Definition child_sig (sig nkids : Z) : P unit :=
  for_from 0 (Z.to_nat nkids) (fun i =>
    g ← get;
    let pid := nth (Z.to_nat i) (child_pid g) 0 in
    r ← kill pid 0;
    when (rc r =? 0)
      (r ← kill pid sig;
       when (rc r <? 0) (tst_resm TFAIL "Attempt to signal child %d, failed" [Num (i + 1)]))).

(** ** The parent *)

Definition setup : P unit :=
  misc_ "tst_sig" [] ;;
  misc_ "umask" [0] ;;
  pid ← getpid;
  misc_ "tst_tmpdir" [] ;;
  r ← misc "tst_fs_type" [];
  when (rc r =? TST_NFS_MAGIC) (modify (set_NO_NFS 0)) ;;
  modify (set_parent pid ("fcntl4." +:+ pretty pid)) ;;
  misc_ "sigaction" [SIGUSR1] ;;
  misc_ "sigaction" [SIGUSR2] ;;
  misc_ "sigaction" [SIGALRM].

(** [if (fcntl(fd, F_SETLK, thislock) < 0) { ...; return 1 }]: the result of a
    [return], or nothing. *)
Definition set_lock (t : ttype) (msg : string) : P (option Z) :=
  r ← fcntl F_SETLK;
  if rc r <? 0 then
    g ← get;
    tst_resm t msg [] ;;
    tst_resm t "Test case %d, errno = %d" [Num (test g + 1); Num (err r)] ;;
    file (KClose (fd g)) ;;
    file (KUnlink (tmpname g)) ;;
    mret (Some 1)
  else mret None.

(** The same behind [if (thislock->l_type != IGNORED)]. *)
Definition set_lock_unless_ignored (t : ttype) (msg : string) : P (option Z) :=
  g ← get;
  if negb (l_type (thislock g) =? IGNORED) then set_lock t msg else mret None.

(** [m; rest], where [m] may return from the function. *)
Definition or_return {X} (m : P (option Z)) (rest : P (X + Z)) : P (X + Z) :=
  r ← m;
  match r with Some code => mret (inr code) | None => rest end.

(** The body of the loop that makes the children; the local variable is
    [child_count]. *)
Definition spawn (thiscase : testcase) (i : Z) (child_count : Z) : P (Z + Z) :=
  g ← get;
  let next (n : Z) := modify (set_thislock (child_b thiscase)) ;; mret (inl n) in
  if negb (l_type (thislock g) =? IGNORED) then
    child ← fork;
    when (child =? 0) (dochild i) ;;
    if child <? 0 then mret (inr 1)
    else
      modify (set_child i child (l_pid (thislock g))) ;;
      next (child_count + 1)
  else next child_count.

(** [while (!alarm_flag && child_flag1 + child_flag2 != child_count) pause();] *)
Definition wait_ready (child_count : Z) : P unit :=
  while_ (fun _ : unit =>
    g ← get;
    if (alarm_flag g =? 0) && negb (child_flag1 g + child_flag2 g =? child_count)
    then syscall Pause ;; mret (inl tt)
    else mret (inr tt)) tt.

(** The index of the child with this pid, or the number of children. *)
Fixpoint find_kid (pids : list Z) (child : Z) (i : Z) (n : nat) : Z :=
  match n, pids with
  | S n, p :: pids => if child =? p then i else find_kid pids child (i + 1) n
  | _, _ => i
  end.

(** A round of the loop that collects the children; the local variables are
    [nexited] and [fail]. *)
Definition collect (child_count : Z) (x : Z * Z) : P (Z * Z + Z * Z) :=
  let (nexited, fail) := x in
  if nexited <? child_count then
    misc_ "alarm" [TIME_OUT] ;;
    r ← syscall Wait;
    misc_ "alarm" [0] ;;
    g ← get;
    let child := rc (answer r) in
    if child =? -1 then
      if negb (err (answer r) =? EINTR) || negb (alarm_flag g =? 1)
      then mret (inr (nexited, fail))
      else child_sig SIGUSR1 child_count ;; mret (inl (nexited, fail))
    else
      let i := find_kid (child_pid g) child 0 (Z.to_nat child_count) in
      if i =? child_count then mret (inl (nexited, fail))
      else
        let fl := nth (Z.to_nat i) (flag g) 0 in
        let expect_stat := if fl =? NOBLOCK then 0 else 1 in
        if negb (WIFEXITED (status r)) || negb (WEXITSTATUS (status r) =? expect_stat) then
          tst_resm TFAIL "Test case %d: child %d %s or got bad status (x%x)"
            [Num (test g + 1); Num i;
             Str (if fl =? NOBLOCK then "BLOCKED unexpectedly" else "failed to BLOCK");
             Num (status r)] ;;
          mret (inl (nexited + 1, 1))
        else mret (inl (nexited + 1, fail))
  else mret (inr (nexited, fail)).

(** [if (child_flag1 + child_flag2 != child_count) { ...; fail = 1 }]. *)
Definition check_ready (child_count fail : Z) : P Z :=
  g ← get;
  if negb (child_flag1 g + child_flag2 g =? child_count) then
    tst_resm TFAIL "Test case %d: kids didn't signal" [Num (test g + 1)] ;; mret 1
  else mret fail.

(** [if (nexited != child_count) { ...; fail = 1 }]. *)
Definition check_exited (child_count nexited fail : Z) : P Z :=
  g ← get;
  if negb (nexited =? child_count) then
    tst_resm TFAIL "Test case %d, caught %d expected %d children"
      [Num (test g + 1); Num nexited; Num child_count] ;;
    child_sig SIGKILL nexited ;; mret 1
  else mret fail.

(** The second half of the body: the parent changes its lock and the children are
    collected. *)
Definition change_lock (thiscase : testcase) (child_count fail : Z) : P (Z + Z) :=
  misc_ "alarm" [TIME_OUT] ;;
  wait_ready child_count ;;
  misc_ "alarm" [0] ;;
  fail ← check_ready child_count fail;
  modify (fun g => set_flags 0 0 (parent_flag g) 0 g) ;;
  modify (set_thislock (parent_c thiscase)) ;;
  or_return (set_lock TFAIL "Third parent lock failed") (
  modify (set_thislock (parent_d thiscase)) ;;
  or_return (set_lock_unless_ignored TINFO "Fourth parent lock failed") (
  modify (fun g => set_flags (child_flag1 g) (child_flag2 g) (parent_flag g) 0 g) ;;
  c ← while_ (collect child_count) (0, fail);
  fail ← check_exited child_count c.1 c.2;
  g ← get;
  file (KClose (fd g)) ;;
  mret (inl fail))).

Definition case_at (n : Z) : testcase :=
  nth (Z.to_nat n) testcases (TC SKIP SKIP SKIP SKIP SKIP SKIP).

(** The body of the loop over the cases; the local variable is [fail]. *)
Definition run_case (file_flag file_mode : Z) (n : Z) (fail : Z) : P (Z + Z) :=
  modify (set_test n) ;;
  g ← get;
  r ← file (KOpen (tmpname g) file_flag file_mode);
  when (rc r <? 0) (tst_brkm TBROK cleanup "open" [Num (err r)]) ;;
  modify (set_fd (rc r)) ;;
  file (KWrite (rc r) 10) ;;
  let thiscase := case_at n in
  modify (set_thislock (parent_a thiscase)) ;;
  or_return (set_lock TFAIL "First parent lock failed") (
  modify (set_thislock (parent_b thiscase)) ;;
  or_return (set_lock_unless_ignored TFAIL "Second parent lock failed") (
  modify (set_thislock (child_a thiscase)) ;;
  modify (set_flags 0 0 0 0) ;;
  s ← for_sum 0 2 (spawn thiscase) 0;
  match s with
  | inr code => mret (inr code)
  | inl child_count => change_lock thiscase child_count fail
  end)).

Definition run_test (file_flag file_mode start end_ : Z) : P Z :=
  r ← for_sum start (Z.to_nat (end_ - start)) (run_case file_flag file_mode) 0;
  match r with
  | inr code => mret code
  | inl fail =>
      g ← get;
      file (KUnlink (tmpname g)) ;;
      mret (if negb (fail =? 0) then 1 else 0)
  end.

Definition O_CREAT : Z := 64.
Definition O_RDWR : Z := 2.
Definition O_TRUNC : Z := 512.
Definition O_NDELAY : Z := 2048.
Definition S_ISGID : Z := 1024.
Definition S_IRUSR : Z := 256.
Definition S_IWUSR : Z := 128.

Definition block1 : P unit :=
  tst_resm TINFO "Entering block 1" [] ;;
  r ← run_test (Z.lor O_CREAT (Z.lor O_RDWR O_TRUNC)) 511 0 11;
  (if negb (r =? 0)
   then tst_resm TINFO "Test case 1: without mandatory locking FAILED" []
   else tst_resm TINFO "Test case 1: without manadatory locking PASSED" []) ;;
  tst_resm TINFO "Exiting block 1" [].

(** Blocks 2 and 3: [if (NO_NFS && run_test(...)) ... else if (NO_NFS) ... else ...]. *)
Definition mandatory (file_flag : Z) (failed passed conf : string) : P unit :=
  g ← get;
  r ← (if negb (NO_NFS g =? 0)
       then run_test file_flag (Z.lor S_ISGID (Z.lor S_IRUSR S_IWUSR)) 0 11 else mret 0);
  if negb (NO_NFS g =? 0) && negb (r =? 0) then tst_resm TINFO failed []
  else if negb (NO_NFS g =? 0) then tst_resm TINFO passed [] else tst_resm TCONF conf [].

Definition block2 : P unit :=
  tst_resm TINFO "Entering block 2" [] ;;
  mandatory (Z.lor O_CREAT (Z.lor O_RDWR O_TRUNC))
    "Test case 2: with mandatory record locking FAILED"
    "Test case 2: with mandatory record locking PASSED"
    "Test case 2: NFS does not support mandatory locking" ;;
  tst_resm TINFO "Exiting block 2" [].

Definition block3 : P unit :=
  tst_resm TINFO "Entering block 3" [] ;;
  mandatory (Z.lor O_CREAT (Z.lor O_RDWR (Z.lor O_TRUNC O_NDELAY)))
    "Test case 3: mandatory locking with NODELAY FAILED"
    "Test case 3: mandatory locking with NODELAY PASSED"
    "Test case 3: NFS does not support mandatory locking" ;;
  tst_resm TINFO "Exiting block 3" [].

Definition main (loops : nat) : P unit :=
  setup ;;
  for_from 0 loops (fun _ => block1 ;; block2 ;; block3) ;;
  cleanup ;;
  tst_exit.

(** ** What the test checks: nothing *)

Definition is_fs_type (c : kcall) : bool :=
  match c with KMisc name _ => String.eqb name "tst_fs_type" | _ => false end.

(** A kernel that answers every file call with success, whatever it does with
    locks, and whose files are not on NFS. *)
Class Obliging {W} (K : Kernel scall sreply W) : Prop :=
  obliging : forall pid c w, exists r w',
    k_do pid (File c) w = Some (r, w') /\ signals r = [] /\ 0 <= rc (answer r) /\
    (is_fs_type c = true -> rc (answer r) <> TST_NFS_MAGIC).

Section Vacuous.
Context {W : Type} {K : Kernel scall sreply W} `{!Obliging K}.
Variable pid : Z.
Implicit Types (g : globals) (sh : shape W).

(** From [sh] to [sh'] nothing was reported and no process was made. *)
Definition silent sh sh' : Prop := s_logs sh' = s_logs sh /\ s_next sh' = s_next sh.

Lemma silent_trans sh1 sh2 sh3 : silent sh1 sh2 -> silent sh2 sh3 -> silent sh1 sh3.
Proof. intros [] []. split; congruence. Qed.

Lemma file_wp c g sh (Φ : globals -> kreply -> shape W -> Prop) :
  (forall r sh', 0 <= rc r -> (is_fs_type c = true -> rc r <> TST_NFS_MAGIC) ->
     silent sh sh' -> Φ g r sh') ->
  wp (K := K) pid (file c) g sh Φ.
Proof.
  intros HΦ. destruct (obliging pid c (s_world sh)) as (r & w & Hk & Hs & Hr & Hn).
  unfold file, syscall. wp_steps. eapply wp_call; [exact Hk|]. rewrite Hs.
  cbn [on_signals]. wp_steps. by apply HΦ.
Qed.

Lemma misc_wp name args g sh (Φ : globals -> unit -> shape W -> Prop) :
  (forall sh', silent sh sh' -> Φ g tt sh') -> wp (K := K) pid (misc_ name args) g sh Φ.
Proof. intros HΦ. unfold misc_, misc. wp_step. apply file_wp. intros. wp_steps. auto. Qed.

(** The locks of the children have the type [IGNORED]. *)
Lemma kids_ignored n :
  l_type (child_a (case_at n)) = IGNORED /\ l_type (child_b (case_at n)) = IGNORED.
Proof.
  unfold case_at. destruct (Z.to_nat n) as [|m]; [done|].
  do 11 (destruct m as [|m]; [done|]). by destruct m.
Qed.

(** A lock is set, or skipped, without a word. *)
Lemma set_lock_wp t msg g sh (Φ : globals -> option Z -> shape W -> Prop) :
  (forall sh', silent sh sh' -> Φ g None sh') -> wp (K := K) pid (set_lock t msg) g sh Φ.
Proof.
  intros HΦ. unfold set_lock, fcntl. wp_step. wp_step. wp_step. apply file_wp. intros r sh' Hr _ Hs.
  rewrite (proj2 (Z.ltb_ge _ _)) by lia. wp_steps. auto.
Qed.

Lemma set_lock_unless_wp t msg g sh (Φ : globals -> option Z -> shape W -> Prop) :
  (forall sh', silent sh sh' -> Φ g None sh') ->
  wp (K := K) pid (set_lock_unless_ignored t msg) g sh Φ.
Proof.
  intros HΦ. unfold set_lock_unless_ignored. wp_step. wp_step. wp_step.
  - by apply set_lock_wp.
  - wp_step. by apply HΦ.
Qed.

(** With no child the loops end at once. *)
Lemma wait_ready_wp g sh (Φ : globals -> unit -> shape W -> Prop) :
  child_flag1 g + child_flag2 g = 0 -> Φ g tt sh -> wp (K := K) pid (wait_ready 0) g sh Φ.
Proof.
  intros Hf HΦ. apply wp_while_done. wp_step. wp_step. rewrite Hf, andb_false_r.
  wp_step. by exists tt.
Qed.

Lemma collect_wp fail g sh (Φ : globals -> Z * Z -> shape W -> Prop) :
  Φ g (0, fail) sh -> wp (K := K) pid (while_ (collect 0) (0, fail)) g sh Φ.
Proof. intros HΦ. apply wp_while_done. apply wp_ret. eauto. Qed.

Lemma spawn_wp tc i cnt g sh (Φ : globals -> Z + Z -> shape W -> Prop) :
  l_type (thislock g) = IGNORED -> Φ (set_thislock (child_b tc) g) (inl cnt) sh ->
  wp (K := K) pid (spawn tc i cnt) g sh Φ.
Proof. intros Hl HΦ. unfold spawn. wp_step. wp_step. rewrite Hl. cbn [negb]. by wp_steps. Qed.

Lemma spawn_both n g sh (Φ : globals -> Z + Z -> shape W -> Prop) :
  thislock g = child_a (case_at n) ->
  Φ (set_thislock (child_b (case_at n)) (set_thislock (child_b (case_at n)) g)) (inl 0) sh ->
  wp (K := K) pid (for_sum 0 2 (spawn (case_at n)) 0) g sh Φ.
Proof.
  intros Hl HΦ. destruct (kids_ignored n) as [Ha Hb]. cbn [for_sum].
  wp_step. apply spawn_wp; [by rewrite Hl|]. wp_step. apply spawn_wp; [done|]. by wp_steps.
Qed.

Lemma check_ready_wp fail g sh (Φ : globals -> Z -> shape W -> Prop) :
  child_flag1 g + child_flag2 g = 0 -> Φ g fail sh ->
  wp (K := K) pid (check_ready 0 fail) g sh Φ.
Proof. intros Hf HΦ. unfold check_ready. wp_step. wp_step. rewrite Hf. by apply wp_ret. Qed.

Lemma check_exited_wp fail g sh (Φ : globals -> Z -> shape W -> Prop) :
  Φ g fail sh -> wp (K := K) pid (check_exited 0 0 fail) g sh Φ.
Proof. intros HΦ. unfold check_exited. wp_step. wp_step. by apply wp_ret. Qed.

(** A case is over without a child and without a word. *)
Lemma change_lock_wp tc fail g sh :
  child_flag1 g = 0 -> child_flag2 g = 0 ->
  wp (K := K) pid (change_lock tc 0 fail) g sh (fun g' r sh' =>
    r = inl fail /\ silent sh sh' /\ NO_NFS g' = NO_NFS g).
Proof.
  intros H1 H2. unfold change_lock, or_return.
  wp_step. apply misc_wp. intros sh1 S1. wp_step. apply wait_ready_wp; [lia|].
  wp_step. apply misc_wp. intros sh2 S2. wp_step. apply check_ready_wp; [lia|]. wp_steps.
  apply set_lock_wp. intros sh3 S3. wp_steps. apply set_lock_unless_wp. intros sh4 S4. wp_steps.
  apply collect_wp. wp_step. apply check_exited_wp. wp_steps. apply file_wp.
  intros r sh5 _ _ S5. wp_steps. split; [done|]. split; [|done].
  eauto using silent_trans.
Qed.

Lemma run_case_wp ff fm n fail g sh :
  wp (K := K) pid (run_case ff fm n fail) g sh (fun g' r sh' =>
    r = inl fail /\ silent sh sh' /\ NO_NFS g' = NO_NFS g).
Proof.
  unfold run_case, or_return. wp_steps. apply file_wp. intros r sh1 Hr _ S1.
  rewrite (proj2 (Z.ltb_ge _ _)) by lia. cbn [when]. wp_steps.
  apply file_wp. intros r2 sh2 _ _ S2. wp_steps.
  apply set_lock_wp. intros sh3 S3. wp_steps. apply set_lock_unless_wp. intros sh4 S4. wp_steps.
  apply spawn_both; [done|]. eapply wp_mono; [|by apply change_lock_wp].
  intros g' a sh' (-> & S5 & Hn). split; [done|]. split; [|done]. eauto 6 using silent_trans.
Qed.

(** Whatever the locks do, [run_test] returns 0. *)
Lemma run_test_wp ff fm start end_ g sh :
  wp (K := K) pid (run_test ff fm start end_) g sh (fun g' r sh' =>
    r = 0 /\ silent sh sh' /\ NO_NFS g' = NO_NFS g).
Proof.
  unfold run_test. wp_step.
  eapply wp_mono; [|apply (wp_for_sum pid (fun _ x g1 sh1 =>
    x = 0 /\ silent sh sh1 /\ NO_NFS g1 = NO_NFS g))].
  - intros g1 a sh1 (x & -> & -> & S1 & Hn). wp_steps. apply file_wp. intros r sh2 _ _ S2.
    wp_steps. split; [done|]. split; [|done]. eauto using silent_trans.
  - intros i x g1 sh1 _ (-> & S1 & Hn). eapply wp_mono; [|apply run_case_wp].
    intros g2 r sh2 (-> & S2 & Hn2). exists 0. repeat split; try congruence.
    all: by destruct (silent_trans _ _ _ S1 S2).
  - done.
Qed.

(** From [sh] to [sh'] the reports [l] were made, and no process. *)
Definition says (l : list entry) sh sh' : Prop :=
  log_of pid sh' = log_of pid sh ++ l /\ s_next sh' = s_next sh.

Lemma says_silent l sh1 sh2 sh3 : says l sh1 sh2 -> silent sh2 sh3 -> says l sh1 sh3.
Proof. unfold says, log_of. intros [] [->]. split; congruence. Qed.

Lemma silent_says sh1 sh2 : silent sh1 sh2 -> says [] sh1 sh2.
Proof. unfold says, log_of. intros [-> ->]. by rewrite app_nil_r. Qed.

Lemma says_report l e sh1 sh2 : says l sh1 sh2 -> says (l ++ [e]) sh1 (with_report pid e sh2).
Proof. intros [Hl Hn]. split; [|done]. by rewrite log_of_report, Hl, app_assoc. Qed.

Lemma says_app l1 l2 sh1 sh2 sh3 : says l1 sh1 sh2 -> says l2 sh2 sh3 -> says (l1 ++ l2) sh1 sh3.
Proof. intros [Hl Hn] [Hl2 Hn2]. split; [|congruence]. by rewrite Hl2, Hl, app_assoc. Qed.

(** The reports of a block that passes. *)
Definition block_log (enter passed leave : string) : list entry := infos [enter; passed; leave].

Definition block_ok (b : P unit) (l : list entry) : Prop :=
  forall g sh, NO_NFS g = 1 ->
    wp (K := K) pid b g sh (fun g' _ sh' => says l sh sh' /\ NO_NFS g' = 1).

Lemma block1_wp : block_ok block1
  (block_log "Entering block 1" "Test case 1: without manadatory locking PASSED" "Exiting block 1").
Proof.
  intros g sh Hg. unfold block1. wp_steps. eapply wp_mono; [|apply run_test_wp].
  intros g1 r sh1 (-> & S1 & Hn). cbn [Z.eqb negb]. wp_steps. split; [|congruence].
  eapply says_app with (l1 := infos ["Entering block 1"]%string).
  - apply (says_report []), silent_says. done.
  - apply (says_report (infos ["Test case 1: without manadatory locking PASSED"]%string)).
    apply (says_report []). by apply silent_says.
Qed.

Lemma mandatory_wp ff failed passed conf g sh :
  NO_NFS g = 1 ->
  wp (K := K) pid (mandatory ff failed passed conf) g sh
    (fun g' _ sh' => says (infos [passed]) sh sh' /\ NO_NFS g' = 1).
Proof.
  intros Hg. unfold mandatory. wp_step. wp_step. rewrite Hg. cbn [Z.eqb negb andb]. wp_step.
  eapply wp_mono; [|apply run_test_wp]. intros g1 r sh1 (-> & S1 & Hn). cbn [Z.eqb negb].
  wp_steps. split; [|congruence]. apply (says_report []). by apply silent_says.
Qed.

Lemma mandatory_block_wp ff failed passed conf enter leave :
  block_ok (tst_resm TINFO enter [] ;; mandatory ff failed passed conf ;; tst_resm TINFO leave [])
    (block_log enter passed leave).
Proof.
  intros g sh Hg. wp_steps. eapply wp_mono; [|by apply mandatory_wp].
  intros g1 [] sh1 (S1 & Hn). wp_steps. split; [|done].
  apply (says_report (infos [enter; passed])).
  eapply (says_app (infos [enter]) (infos [passed])); [|exact S1].
  apply (says_report []), silent_says. done.
Qed.

(** The reports of one round of [main]. *)
Definition round_log : list entry :=
  block_log "Entering block 1" "Test case 1: without manadatory locking PASSED" "Exiting block 1"
  ++ block_log "Entering block 2" "Test case 2: with mandatory record locking PASSED"
       "Exiting block 2"
  ++ block_log "Entering block 3" "Test case 3: mandatory locking with NODELAY PASSED"
       "Exiting block 3".

Lemma round_wp : block_ok (block1 ;; block2 ;; block3) round_log.
Proof.
  intros g sh Hg. wp_step. eapply wp_mono; [|by apply block1_wp].
  intros g1 [] sh1 (S1 & H1). wp_step. eapply wp_mono; [|by apply mandatory_block_wp].
  intros g2 [] sh2 (S2 & H2). eapply wp_mono; [|by apply mandatory_block_wp].
  intros g3 [] sh3 (S3 & H3). split; [|done].
  eapply says_app; [exact S1|]. eapply says_app; [exact S2|exact S3].
Qed.

Lemma setup_wp g sh :
  NO_NFS g = 1 ->
  wp (K := K) pid setup g sh (fun g' _ sh' => silent sh sh' /\ NO_NFS g' = 1).
Proof.
  intros Hg. unfold setup. wp_step. apply misc_wp. intros sh1 S1. wp_step. apply misc_wp.
  intros sh2 S2. wp_steps. apply misc_wp. intros sh3 S3. wp_steps. apply file_wp.
  intros r sh4 _ Hr S4. specialize (Hr eq_refl). rewrite (proj2 (Z.eqb_neq _ _)) by done.
  cbn [when]. wp_steps. apply misc_wp. intros sh5 S5. wp_steps. apply misc_wp. intros sh6 S6.
  apply misc_wp. intros sh7 S7. split; [|done]. eauto 10 using silent_trans.
Qed.
End Vacuous.

(** C36: on every kernel that answers its calls with success, whether or not it knows
    record locks at all, a run of fcntl16 (of any number of rounds) ends, creates no
    child, and reports that all three blocks passed: the test checks nothing. *)
Theorem fcntl16_vacuous {W} (K : Kernel scall sreply W) `{!Obliging K} pid loops sh :
  dies pid (main loops) globals0 sh (fun sh' =>
    log_of pid sh' = log_of pid sh ++ concat (replicate loops round_log)
    /\ s_next sh' = s_next sh).
Proof.
  unfold main. wp_step. eapply wp_mono; [|by apply setup_wp]. intros g1 [] sh1 (S1 & H1).
  wp_step.
  eapply wp_mono; [|apply (wp_for pid (fun i g2 sh2 =>
    says pid (concat (replicate (Z.to_nat i) round_log)) sh sh2 /\ NO_NFS g2 = 1))].
  - intros g2 [] sh2 (S2 & _). wp_step. apply misc_wp. intros sh3 S3. wp_step.
    pose proof (says_silent _ _ _ _ _ S2 S3) as [Hl Hn].
    rewrite Z.add_0_l, Nat2Z.id in Hl. done.
  - intros i g2 sh2 Hi (S2 & H2). eapply wp_mono; [|by apply round_wp].
    intros g3 [] sh3 (S3 & H3). split; [|done].
    rewrite Z2Nat.inj_add by lia. rewrite replicate_add, concat_app.
    eapply says_app; [exact S2|]. exact S3.
  - split; [|done]. by apply silent_says.
Qed.

(** A kernel without record locks. *)
Definition lockless (ts : list entry -> Z) : Kernel scall sreply unit := {|
  k_do := fun _ _ w => Some (SReply (ok 0) 0 [], w);
  k_fork := fun _ _ w => w;
  k_exit := fun _ w => w;
  tst_status := ts
|}.

#[export] Instance lockless_obliging ts : Obliging (lockless ts).
Proof. intros pid c w. by exists (SReply (ok 0) 0 []), w. Defined.

Lemma fcntl16_vacuous_witness :
  let K := lockless (fun _ => 0) in
  let sh := Shape {[ 100 := PInfo 0 false [] ]} ∅ ∅ ∅ false 101 tt in
  dies (K := K) 100 (main 1) globals0 sh (fun sh' =>
    log_of 100 sh' = round_log ++ [] /\ s_next sh' = 101).
Proof. intros K sh. exact (fcntl16_vacuous K 100 1 sh). Defined.

(** ** What a child would say *)

Section Child.
Context {W : Type} {K : Kernel scall sreply W}.
Variable pid : Z.
Implicit Types (g : globals) (sh : shape W).

(** Handlers change the flags and nothing else; SIGUSR1 sets [parent_flag] once
    [catch_int] is its handler. *)
Definition after_signals (l : list Z) g g' : Prop :=
  parent_flag g' = (if existsb (Z.eqb SIGUSR1) l then 1 else parent_flag g)
  /\ thislock g' = thislock g /\ fd g' = fd g /\ parent g' = parent g /\ test g' = test g
  /\ usr1_is_int g' = usr1_is_int g.

Lemma on_signals_wp l g sh (Φ : globals -> unit -> shape W -> Prop) :
  usr1_is_int g = true -> (forall g', after_signals l g g' -> Φ g' tt sh) ->
  wp (K := K) pid (on_signals l) g sh Φ.
Proof.
  revert g. induction l as [|sig l IH]; intros g Hu HΦ; cbn [on_signals].
  - wp_step. by apply HΦ.
  - wp_step. unfold on_signal. wp_step. wp_step. rewrite Hu.
    unfold catch_int, catch_usr2, catch_alarm.
    assert (Hk : forall c1 c2 p a, p = (if SIGUSR1 =? sig then 1 else parent_flag g) ->
      wp (K := K) pid (on_signals l) (set_flags c1 c2 p a g) sh Φ).
    { intros c1 c2 p a Hp. apply IH; [done|]. intros g' (H1 & H2 & H3 & H4 & H5 & H6).
      apply HΦ. repeat split; try done. rewrite H1. cbn [existsb parent_flag set_flags].
      rewrite Hp. by destruct (existsb _ l), (SIGUSR1 =? sig). }
    wp_step; zbool; [subst; wp_step; by apply Hk|].
    wp_step; zbool; [subst; wp_step; by apply Hk|].
    assert (Hs : SIGUSR1 =? sig = false) by (apply Z.eqb_neq; congruence).
    wp_step; [wp_step; apply Hk; by rewrite Hs|].
    replace g with (set_flags (child_flag1 g) (child_flag2 g) (parent_flag g) (alarm_flag g) g)
      by by destruct g.
    apply Hk. by rewrite Hs.
Qed.
End Child.

(** The exit code of a child whose F_SETLKW was answered [r]. *)
Definition child_code (r : sreply) (flag : Z) : Z :=
  if 0 <=? rc (answer r) then 0
  else if (err (answer r) =? EINTR)
          && negb ((if existsb (Z.eqb SIGUSR1) (signals r) then 1 else flag) =? 0)
  then 1 else 2.

(** What a child would tell its parent, on any kernel: it exits with 0 when it got
    its lock, with 1 when its wait was interrupted by the parent's SIGUSR1, and with 2
    when F_SETLKW failed otherwise. *)
Theorem dochild_exit {W} (K : Kernel scall sreply W) pid kid g sh r0 w0 r1 w1 r2 w2 :
  k_do pid (File (KMisc "sigaction" [SIGUSR1])) (s_world sh) = Some (r0, w0) ->
  k_do pid (SendSig (parent g) (if negb (kid =? 0) then SIGUSR2 else SIGUSR1)) w0 = Some (r1, w1) ->
  k_do pid (File (KFcntl (fd g) F_SETLKW (thislock g))) w1 = Some (r2, w2) ->
  signals r0 = [] -> signals r1 = [] -> 0 <= rc (answer r1) ->
  dies pid (dochild kid : P unit) g sh (fun sh' => exists sh1,
    s_world sh1 = w2
    /\ sh' = exit_shape pid (exit_status (child_code r2 (parent_flag g))) sh1).
Proof.
  intros H0 H1 H2 S0 S1 Hr. unfold dochild, misc_, misc, kill, fcntl, file, syscall.
  wp_steps. eapply wp_call; [exact H0|]. rewrite S0. cbn [on_signals]. wp_steps.
  eapply wp_call; [exact H1|]. rewrite S1. cbn [on_signals]. do 4 wp_step.
  apply dies_when; [intros; zbool; lia|]. intros _. wp_steps. eapply wp_call; [exact H2|].
  wp_step. apply on_signals_wp; [done|]. intros g' (Hp & _). do 4 wp_step.
  unfold child_code. cbn [parent_flag set_usr1] in Hp. rewrite <- Hp, Z.leb_antisym.
  apply dies_when; intros Hrc; rewrite Hrc; cbn [negb].
  - destruct (_ && _); wp_steps; (eexists; split; [|reflexivity]; done).
  - apply dies_exit. eexists; split; [|reflexivity]; done.
Qed.

Lemma dochild_exit_witness :
  let K := lockless (fun _ => 0) in
  let sh := Shape {[ 101 := PInfo 100 false [] ]} ∅ ∅ ∅ false 102 tt in
  dies (K := K) 101 (dochild 0 : P unit) globals0 sh (fun sh' => exists sh1,
    s_world sh1 = tt /\ sh' = exit_shape 101 (exit_status 0) sh1).
Proof.
  intros K sh. exact (dochild_exit K 101 0 globals0 sh (SReply (ok 0) 0 []) tt
    (SReply (ok 0) 0 []) tt (SReply (ok 0) 0 []) tt eq_refl eq_refl eq_refl eq_refl eq_refl
    ltac:(done)).
Defined.
