(* ===== verification/EventCounter.v ===== *)
(** * The eventfd counter: the documented behaviour of eventfd(2)

    The calls eventfd01.c makes and a reference platform [eventfd_kernel] that
    answers them as eventfd(2), select(2), poll(2) and io_submit(2) document.
    The theorems about the test are stated for every platform that refines it.

    The counter is the only shared state: a 64-bit number from 0 to UINT64_MAX.
    An asynchronous write that was submitted completes at the latest when its
    event is collected, and adds 1 without blocking; that is the one way to reach
    UINT64_MAX. *)

From S2P Require Import Prelude Tst Process Explore.

Definition F_SETFL : Z := 4.
Definition O_NONBLOCK : Z := 2048.
Definition POLLIN : Z := 1.
Definition POLLERR : Z := 8.
Definition ENOSYS : Z := 38.

Inductive ecall :=
| EEventfd (initval : Z)
| EFcntl (fd cmd arg : Z)
| ERead (fd n : Z)
| EWrite (fd n val : Z)
| ESelectRead (fd timeout : Z)
| ESelectWrite (fd timeout : Z)
| EPoll (fd events timeout : Z)
| EIoSetup (nr : Z)
| EIoSubmit (ctx fd evfd : Z)
| EIoGetevents (ctx min_nr nr : Z)
| EIoDestroy (ctx : Z)
| EOpen (path : string) (flags mode : Z)
| EClose (fd : Z)
| EMisc (name : string).

(** Return value, [errno] of a failed call, and the datum written back: the
    value read, the bit of the descriptor in the set, [revents], the context. *)
Record ereply := EReply { ret : Z; errno : Z; datum : Z }.

#[export] Instance ereply_eq_dec : EqDecision ereply.
Proof. solve_decision. Defined.

Record estate := EState {
  ev_fd : option Z;
  ev_count : Z;
  ev_nonblock : bool;
  ev_pending : bool     (* an asynchronous write is under way *)
}.

#[export] Instance estate_eq_dec : EqDecision estate.
Proof. solve_decision. Defined.

Definition ev_init : estate := EState None 0 false false.

Definition answers (r d : Z) : ereply := EReply r 0 d.

Definition eok (r : Z) : ereply := EReply r 0 0.

Definition efails (e : Z) : ereply := EReply (-1) e 0.

Definition with_count (n : Z) (w : estate) : estate :=
  EState (ev_fd w) n (ev_nonblock w) (ev_pending w).

Definition is_ev (fd : Z) (w : estate) : bool := bool_decide (ev_fd w = Some fd).

(** A call that would wait: EAGAIN in non-blocking mode, otherwise it blocks. *)
Definition would_block (w : estate) : option (ereply * estate) :=
  if ev_nonblock w then Some (efails EAGAIN, w) else None.

Definition ev_read (fd n : Z) (w : estate) : option (ereply * estate) :=
  if negb (is_ev fd w) then Some (efails EBADF, w)
  else if n <? 8 then Some (efails EINVAL, w)
  else if ev_count w =? 0 then would_block w
  else Some (answers 8 (ev_count w), with_count 0 w).

Definition ev_write (fd n val : Z) (w : estate) : option (ereply * estate) :=
  if negb (is_ev fd w) then Some (efails EBADF, w)
  else if n <? 8 then Some (efails EINVAL, w)
  else if val =? UINT64_MAX then Some (efails EINVAL, w)
  else if UINT64_MAX - 1 <? ev_count w + val then would_block w
  else Some (eok 8, with_count (ev_count w + val) w).

Definition readable (w : estate) : bool := 0 <? ev_count w.

Definition writable (w : estate) : bool := ev_count w <? UINT64_MAX - 1.

Definition select_answer (b : bool) : ereply := answers (Z.b2z b) (Z.b2z b).

Definition poll_events (events : Z) (w : estate) : Z :=
  Z.lor (if ev_count w =? UINT64_MAX then POLLERR else 0)
    (if readable w then Z.land events POLLIN else 0).

Definition ev_do (pid : Z) (c : ecall) (w : estate) : option (ereply * estate) :=
  match c with
  | EEventfd v => Some (eok 3, EState (Some 3) v false (ev_pending w))
  | EFcntl fd cmd a =>
      if negb (is_ev fd w) then Some (efails EBADF, w)
      else if cmd =? F_SETFL
      then Some (eok 0, EState (ev_fd w) (ev_count w) (negb (Z.land a O_NONBLOCK =? 0))
                          (ev_pending w))
      else Some (eok 0, w)
  | ERead fd n => ev_read fd n w
  | EWrite fd n v => ev_write fd n v w
  | ESelectRead fd _ =>
      Some (if is_ev fd w then select_answer (readable w) else efails EBADF, w)
  | ESelectWrite fd _ =>
      Some (if is_ev fd w then select_answer (writable w) else efails EBADF, w)
  | EPoll fd events _ =>
      let e := if is_ev fd w then poll_events events w else 0 in
      Some (answers (if e =? 0 then 0 else 1) e, w)
  | EIoSetup _ => Some (answers 0 7, w)
  | EIoSubmit _ _ evfd =>
      Some (eok 1, EState (ev_fd w) (ev_count w) (ev_nonblock w) (is_ev evfd w))
  | EIoGetevents _ _ _ =>
      if ev_pending w
      then Some (eok 1, EState (ev_fd w) (Z.min (ev_count w + 1) UINT64_MAX) (ev_nonblock w) false)
      else None
  | EIoDestroy _ => Some (eok 0, w)
  | EOpen _ _ _ => Some (eok 4, w)
  | EClose fd =>
      Some (eok 0, if is_ev fd w then EState None (ev_count w) (ev_nonblock w) (ev_pending w)
                   else w)
  | EMisc _ => Some (eok 0, w)
  end.

Definition eventfd_kernel (ts : list entry -> Z) : Kernel ecall ereply estate := {|
  k_do := ev_do;
  k_fork := fun _ _ w => w;
  k_exit := fun _ w => w;
  tst_status := ts
|}.

#[export] Instance eventfd_local ts : LocalCalls (eventfd_kernel ts).
Proof.
  refine {| k_local := fun c => match c with
                                | EMisc _ | EIoDestroy _ => Some (eok 0)
                                | EOpen _ _ _ => Some (eok 4)
                                | _ => None
                                end |}.
  intros pid [] r w [=]; by subst.
Defined.

(** [K] behaves like an eventfd(2) platform without an open eventfd. *)
Class EventfdPlatform {W} (K : Kernel ecall ereply W) (w0 : W) := {
  ep_refines :: Refines K (eventfd_kernel (@tst_status _ _ _ K));
  ep_init : @rel _ _ _ _ K (eventfd_kernel (@tst_status _ _ _ K)) ep_refines w0 ev_init
}.

#[export] Instance eventfd_platform ts : EventfdPlatform (eventfd_kernel ts) ev_init.
Proof. by exists (refines_refl (eventfd_kernel ts)). Defined.

(** ** The counter *)

(** The range of the counter. *)
Definition counter_ok (w : estate) : Prop := 0 <= ev_count w <= UINT64_MAX.

(** Every call keeps the counter in its range, values written being 64-bit. *)
Lemma ev_do_ok pid c w r w' :
  counter_ok w ->
  match c with EEventfd v => 0 <= v < 2 ^ 32 | EWrite _ _ v => 0 <= v <= UINT64_MAX | _ => True end ->
  ev_do pid c w = Some (r, w') -> counter_ok w'.
Proof.
  unfold counter_ok. intros Hw Hc H.
  destruct c; cbn [ev_do] in H; unfold ev_read, ev_write, would_block, with_count in H;
    repeat break_match; simplify_eq/=; zbool; unfold UINT64_MAX in *; lia.
Qed.
