(* ===== verification/Eventfd01.v ===== *)
(** * eventfd01.c: the eventfd counter

    Model of [src/original tests/eventfd/eventfd01.c], compiled with libaio and
    [io_set_eventfd]: the helpers that clear and set the counter, the fifteen
    tests and [main]; what is compiled instead without them. *)

From S2P Require Import Prelude Tst Process Explore EventCounter Prog Checker Wp.

(** The file has no global variables that change. *)
Abbreviation P A := (M ecall ereply unit A).

Definition misc_ (name : string) : P unit := call_ (EMisc name).

Definition sizeof_uint64 : Z := 8.
Definition sizeof_uint32 : Z := 4.
Definition O_RDWR : Z := 2.
Definition O_CREAT : Z := 64.

Definition cleanup : P unit := misc_ "tst_rmdir".

Definition setup : P unit := misc_ "tst_sig" ;; misc_ "tst_tmpdir".

(** [flags] is not used: eventfd(2) in its first form takes none. *)
Definition myeventfd (initval flags : Z) : P ereply := call (EEventfd (uwrap 32 initval)).

Definition clear_counter (fd : Z) : P Z :=
  r ← call (ERead fd sizeof_uint64);
  if ret r =? -1 then
    if negb (errno r =? EAGAIN) then
      tst_resm_errno TINFO (errno r) "error clearing counter" [] ;; mret (-1)
    else mret 0
  else mret 0.

Definition set_counter (fd val : Z) : P Z :=
  c ← clear_counter fd;
  if c =? -1 then mret (-1)
  else
    r ← call (EWrite fd sizeof_uint64 val);
    if ret r =? -1 then
      tst_resm_errno TINFO (errno r) "error setting counter value" [] ;; mret (-1)
    else mret 0.

Definition read_test (fd required : Z) : P unit :=
  r ← call (ERead fd sizeof_uint64);
  if ret r =? -1 then tst_resm_errno TBROK (errno r) "error reading eventfd" []
  else if datum r =? required then tst_resm TPASS "counter value matches required" []
  else tst_resm TFAIL "counter value mismatch: required: %lu, got: %lu"
         [Num required; Num (datum r)].

Definition read_eagain_test (fd : Z) : P unit :=
  c ← clear_counter fd;
  if c =? -1 then tst_resm TBROK "error clearing counter" []
  else
    r ← call (ERead fd sizeof_uint64);
    if ret r =? -1 then
      if errno r =? EAGAIN then tst_resm TPASS "read failed with EAGAIN as expected" []
      else tst_resm_errno TFAIL (errno r) "read failed (wanted EAGAIN)" []
    else tst_resm TFAIL "read returned with %d" [Num (ret r)].

Definition write_test (fd : Z) : P unit :=
  let val := 12 in
  c ← set_counter fd val;
  if c =? -1 then tst_resm TBROK "error setting counter value to %lu" [Num val]
  else read_test fd val.

Definition write_eagain_test (fd : Z) : P unit :=
  c ← set_counter fd (UINT64_MAX - 1);
  if c =? -1 then tst_resm TBROK "error setting counter value to UINT64_MAX-1" []
  else
    r ← call (EWrite fd sizeof_uint64 1);
    if ret r =? -1 then
      if errno r =? EAGAIN then tst_resm TPASS "write failed with EAGAIN as expected" []
      else tst_resm TFAIL "write failed (wanted EAGAIN)" []
    else tst_resm TFAIL "write returned with %d" [Num (ret r)].

Definition read_einval_test (fd : Z) : P unit :=
  r ← call (ERead fd sizeof_uint32);
  if ret r =? -1 then
    if errno r =? EINVAL then tst_resm TPASS "read failed with EINVAL as expected" []
    else tst_resm_errno TFAIL (errno r) "read failed (wanted EINVAL)" []
  else tst_resm TFAIL "read returned with %d" [Num (ret r)].

(** [junk] is the uninitialised value that is written. *)
Definition write_einval_test (junk fd : Z) : P unit :=
  r ← call (EWrite fd sizeof_uint32 junk);
  if ret r =? -1 then
    if errno r =? EINVAL then tst_resm TPASS "write failed with EINVAL as expected" []
    else tst_resm_errno TFAIL (errno r) "write failed (wanted EINVAL)" []
  else tst_resm TFAIL "write returned with %d" [Num (ret r)].

Definition write_einval2_test (fd : Z) : P unit :=
  c ← clear_counter fd;
  if c =? -1 then tst_resm TBROK "error clearing counter" []
  else
    r ← call (EWrite fd sizeof_uint64 18446744073709551615);
    if ret r =? -1 then
      if errno r =? EINVAL then tst_resm TPASS "write failed with EINVAL as expected" []
      else tst_resm_errno TFAIL (errno r) "write failed (wanted EINVAL)" []
    else tst_resm TFAIL "write returned with %d" [Num (ret r)].

(** ** select *)

Definition FD_ISSET (r : ereply) : bool := negb (datum r =? 0).

Definition readfd_set_test (fd : Z) : P unit :=
  let non_zero := 10 in
  c ← set_counter fd non_zero;
  if c =? -1 then tst_resm TBROK "error setting counter value to %lu" [Num non_zero]
  else
    r ← call (ESelectRead fd 0);
    if ret r =? -1 then tst_resm_errno TBROK (errno r) "select() failed" []
    else if FD_ISSET r then tst_resm TPASS "fd is set in readfds" []
    else tst_resm TFAIL "fd is not set in readfds" [].

Definition readfd_not_set_test (fd : Z) : P unit :=
  c ← clear_counter fd;
  if c =? -1 then tst_resm TBROK "error clearing counter" []
  else
    r ← call (ESelectRead fd 0);
    if ret r =? -1 then tst_resm_errno TBROK (errno r) "select() failed" []
    else if negb (FD_ISSET r) then tst_resm TPASS "fd is not set in readfds" []
    else tst_resm TFAIL "fd is set in readfds" [].

Definition writefd_set_test (fd : Z) : P unit :=
  let non_max := 10 in
  c ← set_counter fd non_max;
  if c =? -1 then tst_resm TBROK "error setting counter value to %lu" [Num non_max]
  else
    r ← call (ESelectWrite fd 0);
    if ret r =? -1 then tst_resm_errno TBROK (errno r) "select: error getting fd status" []
    else if FD_ISSET r then tst_resm TPASS "fd is set in writefds" []
    else tst_resm TFAIL "fd is not set in writefds" [].

Definition writefd_not_set_test (fd : Z) : P unit :=
  c ← set_counter fd (UINT64_MAX - 1);
  if c =? -1 then tst_resm TBROK "error setting counter value to UINT64_MAX-1" []
  else
    r ← call (ESelectWrite fd 0);
    if ret r =? -1 then tst_resm_errno TBROK (errno r) "select: error getting fd status" []
    else if negb (FD_ISSET r) then tst_resm TPASS "fd is not set in writefds" []
    else tst_resm TFAIL "fd is set in writefds" [].

(** ** fork *)

Definition child_inherit_test (fd : Z) : P unit :=
  let to_parent := 3735928559 in   (* 0xdeadbeef *)
  cpid ← fork;
  if cpid =? -1 then tst_resm TBROK "fork failed" []
  else if negb (cpid =? 0) then
    st ← waitpid (-1);
    if st.1 =? -1 then tst_resm TBROK "error getting child exit status" []
    else if WEXITSTATUS st.2 =? 1 then
      tst_resm TBROK "counter value write not successful in child" []
    else
      r ← call (ERead fd sizeof_uint64);
      if ret r =? -1 then tst_resm_errno TBROK (errno r) "error reading eventfd" []
      else if datum r =? to_parent then
        tst_resm TPASS "counter value write from child successful" []
      else tst_resm TFAIL "counter value write in child failed" []
  else
    r ← call (ERead fd sizeof_uint64);
    if (ret r =? -1) && negb (errno r =? EAGAIN) then
      tst_resm_errno TWARN (errno r) "error clearing counter" [] ;; exit 1
    else
      r ← call (EWrite fd sizeof_uint64 to_parent);
      if ret r =? -1 then
        tst_resm_errno TWARN (errno r) "error writing eventfd" [] ;; exit 1
      else exit 0.

(** ** Overflow *)

(** The result, [*fd] and [*ctx]. *)
Definition trigger_eventfd_overflow (evfd : Z) : P (Z * Z * Z) :=
  r ← call (EIoSetup 16);
  if ret r <? 0 then
    when (- ret r =? ENOSYS)
      (tst_brkm TCONF cleanup "io_setup(): AIO not supported by kernel" []) ;;
    tst_resm_errno TINFO (- ret r) "io_setup error" [] ;; mret (-1, 0, 0)
  else
    let ctx := datum r in
    f ← call (EOpen "testfile" (Z.lor O_RDWR O_CREAT) 420);
    let fd := ret f in
    let err_io_destroy := call_ (EIoDestroy ctx) ;; mret (-1, fd, ctx) in
    let err_close_file := call_ (EClose fd) ;; err_io_destroy in
    if fd =? -1 then
      tst_resm_errno TINFO (errno f) "open(testfile) failed" [] ;; err_io_destroy
    else
      c ← set_counter evfd (UINT64_MAX - 1);
      if c =? -1 then
        tst_resm TINFO "error setting counter to UINT64_MAX-1" [] ;; err_close_file
      else
        r ← call (EIoSubmit ctx fd evfd);
        if ret r <? 0 then
          tst_resm_errno TINFO (- ret r) "error submitting iocb" [] ;; err_close_file
        else
          r ← call (EIoGetevents ctx 1 1);
          if ret r <? 0 then
            tst_resm_errno TINFO (- ret r) "error waiting for event" [] ;; err_close_file
          else mret (0, fd, ctx).

Definition cleanup_overflow (fd ctx : Z) : P unit :=
  call_ (EClose fd) ;; call_ (EIoDestroy ctx).

Definition overflow_select_test (evfd : Z) : P unit :=
  t ← trigger_eventfd_overflow evfd;
  let '(c, fd, ctx) := t in
  if c =? -1 then tst_resm TBROK "error triggering eventfd overflow" []
  else
    r ← call (ESelectRead evfd 10);
    (if ret r =? -1 then
       tst_resm_errno TBROK (errno r) "error getting evfd status with select" []
     else if FD_ISSET r then tst_resm TPASS "read fd set as expected" []
     else tst_resm TFAIL "read fd not set" []) ;;
    cleanup_overflow fd ctx.

Definition overflow_poll_test (evfd : Z) : P unit :=
  t ← trigger_eventfd_overflow evfd;
  let '(c, fd, ctx) := t in
  if c =? -1 then tst_resm TBROK "error triggering eventfd overflow" []
  else
    r ← call (EPoll evfd POLLIN 10000);
    (if ret r =? -1 then
       tst_resm_errno TBROK (errno r) "error getting evfd status with poll" []
     else if negb (Z.land (datum r) POLLERR =? 0) then
       tst_resm TPASS "POLLERR occurred as expected" []
     else tst_resm TFAIL "POLLERR did not occur" []) ;;
    cleanup_overflow fd ctx.

Definition overflow_read_test (evfd : Z) : P unit :=
  t ← trigger_eventfd_overflow evfd;
  let '(c, fd, ctx) := t in
  if c =? -1 then tst_resm TBROK "error triggering eventfd overflow" []
  else
    r ← call (ERead evfd sizeof_uint64);
    (if ret r =? -1 then tst_resm_errno TBROK (errno r) "error reading eventfd" []
     else if datum r =? UINT64_MAX then tst_resm TPASS "overflow occurred as expected" []
     else tst_resm TFAIL "overflow did not occur" []) ;;
    cleanup_overflow fd ctx.

(** The three tests when libaio has no [io_set_eventfd]. *)
Definition overflow_test_without (evfd : Z) : P unit :=
  tst_resm TCONF "eventfd support is not available in AIO subsystem" [].

(** ** main *)

(** [main] when there is no libaio. *)
Definition main_without : P unit :=
  tst_brkm TCONF (mret tt) "test requires libaio and it's development packages" [].

Definition einit : Z := 10.

Definition open_eventfd : P Z :=
  r ← myeventfd einit 0;
  if ret r =? -1 then tst_brkm TBROK cleanup "error creating eventfd" []
  else
    f ← call (EFcntl (ret r) F_SETFL O_NONBLOCK);
    when (ret f =? -1) (tst_brkm TBROK cleanup "error setting non-block mode" []) ;;
    mret (ret r).

(** The body of the loop over TEST_LOOPING. *)
Definition round (junk : Z) : P unit :=
  fd ← open_eventfd;
  read_test fd einit ;;
  read_eagain_test fd ;;
  write_test fd ;;
  write_eagain_test fd ;;
  read_einval_test fd ;;
  write_einval_test junk fd ;;
  write_einval2_test fd ;;
  readfd_set_test fd ;;
  readfd_not_set_test fd ;;
  writefd_set_test fd ;;
  writefd_not_set_test fd ;;
  child_inherit_test fd ;;
  overflow_select_test fd ;;
  overflow_poll_test fd ;;
  overflow_read_test fd ;;
  call_ (EClose fd).

Definition main (junk : Z) (loops : nat) : P unit :=
  setup ;;
  for_from 0 loops (fun _ => round junk) ;;
  cleanup ;;
  tst_exit.

(** ** The tests do not depend on one another *)

Section Independent.
Context (ts : list entry -> Z) (pid : Z).
Notation K := (eventfd_kernel ts).
Implicit Types (sh : shape estate).

(** [fd] is the open eventfd, in non-blocking mode and with any counter.  (4 is
    the descriptor the kernel gives to the test file.) *)
Record ready (fd : Z) (w : estate) : Prop := Ready {
  rd_fd : ev_fd w = Some fd;
  rd_other : fd <> 4;
  rd_nonblock : ev_nonblock w = true;
  rd_counter : counter_ok w
}.

(** The world with counter [n]. *)
Lemma ready_count fd w n : ready fd w -> 0 <= n <= UINT64_MAX -> ready fd (with_count n w).
Proof. intros [H1 H2 H3 _] Hn. by split. Qed.

Lemma ready_is_ev fd w : ready fd w -> is_ev fd w = true.
Proof. intros [H _ _ _]. by apply bool_decide_eq_true_2. Qed.

Lemma with_world_with_world (w1 w2 : estate) sh :
  with_world w2 (with_world w1 sh) = with_world w2 sh.
Proof. done. Qed.

(** [clear_counter] succeeds and leaves 0. *)
Lemma clear_counter_wp fd sh (Φ : unit -> Z -> shape estate -> Prop) :
  ready fd (s_world sh) ->
  Φ tt 0 (with_world (with_count 0 (s_world sh)) sh) ->
  wp (K := K) pid (clear_counter fd) tt sh Φ.
Proof.
  intros Hr HΦ. pose proof (ready_is_ev _ _ Hr) as He. destruct Hr as [_ _ Hn _].
  unfold clear_counter. wp_steps.
  destruct (Z.eqb_spec (ev_count (s_world sh)) 0) as [Hz|Hz].
  - assert (E : with_count 0 (s_world sh) = s_world sh).
    { destruct (s_world sh); simpl in *; by subst. }
    eapply wp_call.
    { cbn [k_do ev_do eventfd_kernel]. unfold ev_read, would_block.
      rewrite He, Hz, Hn. reflexivity. }
    cbn. wp_steps. by rewrite <- E at 1.
  - eapply wp_call.
    { cbn [k_do ev_do eventfd_kernel]. unfold ev_read.
      rewrite He. rewrite (proj2 (Z.eqb_neq _ _) Hz). reflexivity. }
    cbn. by wp_steps.
Qed.

(** [set_counter] succeeds for every value that can be written. *)
Lemma set_counter_wp fd v sh (Φ : unit -> Z -> shape estate -> Prop) :
  ready fd (s_world sh) -> 0 <= v <= UINT64_MAX - 1 ->
  Φ tt 0 (with_world (with_count v (s_world sh)) sh) ->
  wp (K := K) pid (set_counter fd v) tt sh Φ.
Proof.
  intros Hr Hv HΦ. pose proof (ready_is_ev _ _ Hr) as He.
  unfold set_counter. wp_step. apply clear_counter_wp; [done|]. cbn.
  wp_steps. eapply wp_call.
  { cbn [k_do ev_do eventfd_kernel s_world with_world]. unfold ev_write.
    change (is_ev fd (with_count 0 (s_world sh))) with (is_ev fd (s_world sh)). rewrite He.
    change (sizeof_uint64 <? 8) with false. cbn [ev_count with_count negb]. rewrite (proj2 (Z.eqb_neq v UINT64_MAX)) by lia.
    rewrite (proj2 (Z.ltb_ge _ _)) by lia. reflexivity. }
  cbn. by wp_steps.
Qed.

(** An overflow is triggered from any counter, and leaves it at UINT64_MAX. *)
Lemma trigger_wp fd sh (Φ : unit -> Z * Z * Z -> shape estate -> Prop) :
  ready fd (s_world sh) ->
  (forall w, ready fd w -> ev_count w = UINT64_MAX -> Φ tt (0, 4, 7) (with_world w sh)) ->
  wp (K := K) pid (trigger_eventfd_overflow fd) tt sh Φ.
Proof.
  intros Hr HΦ. pose proof (ready_is_ev _ _ Hr) as He.
  unfold trigger_eventfd_overflow. wp_step. eapply wp_call; [reflexivity|]. cbn.
  wp_step. eapply wp_call; [reflexivity|]. cbn.
  wp_step. apply set_counter_wp; [done|unfold UINT64_MAX; lia|]. cbn.
  wp_step. eapply wp_call; [reflexivity|]. cbn.
  change (is_ev fd (with_count _ _)) with (is_ev fd (s_world sh)). rewrite He.
  wp_step. eapply wp_call; [reflexivity|]. cbn. wp_steps.
  apply HΦ; [|done]. destruct Hr. by split.
Qed.

(** [t] passes from any counter and leaves the eventfd ready for the next test:
    its only report is one TPASS. *)
Definition passes_reference (t : Z -> P unit) : Prop :=
  forall fd sh, ready fd (s_world sh) ->
    wp (K := K) pid (t fd) tt sh (fun _ _ sh' =>
      (exists msg, log_of pid sh' = log_of pid sh ++ [Entry TPASS None msg []])
      /\ ready fd (s_world sh')).

(** The test file is not the eventfd: closing it changes nothing. *)
Lemma cleanup_overflow_wp fd ctx sh (Φ : unit -> unit -> shape estate -> Prop) :
  ready fd (s_world sh) -> Φ tt tt sh -> wp (K := K) pid (cleanup_overflow 4 ctx) tt sh Φ.
Proof.
  intros [Hfd H4 _ _] HΦ. assert (E : is_ev 4 (s_world sh) = false).
  { apply bool_decide_eq_false_2. congruence. }
  unfold cleanup_overflow, call_. wp_steps. eapply wp_call.
  { cbn [k_do ev_do eventfd_kernel]. rewrite E. reflexivity. }
  rewrite with_world_same. wp_steps. eapply wp_call; [reflexivity|].
  rewrite with_world_same. by wp_steps.
Qed.

Lemma passed_report fd msg sh sh0 :
  s_logs sh0 = s_logs sh -> ready fd (s_world sh0) ->
  (exists m, log_of pid (with_report pid (Entry TPASS None msg []) sh0)
             = log_of pid sh ++ [Entry TPASS None m []])
  /\ ready fd (s_world (with_report pid (Entry TPASS None msg []) sh0)).
Proof.
  intros El Hr. split; [|done]. exists msg. rewrite log_of_report. unfold log_of. by rewrite El.
Qed.

Lemma read_eagain_passes : passes_reference read_eagain_test.
Proof.
  intros fd sh Hr. pose proof (ready_count _ _ 0 Hr ltac:(done)) as H0.
  unfold read_eagain_test. wp_step. apply clear_counter_wp; [done|]. cbn. wp_steps.
  eapply wp_call.
  { cbn [k_do ev_do eventfd_kernel s_world with_world]. unfold ev_read, would_block.
    rewrite (ready_is_ev _ _ H0), (rd_nonblock _ _ H0). reflexivity. }
  cbn. wp_steps. by apply passed_report.
Qed.

Lemma write_passes : passes_reference write_test.
Proof.
  intros fd sh Hr. pose proof (ready_count _ _ 12 Hr ltac:(done)) as H0.
  pose proof (ready_count _ _ 0 Hr ltac:(done)) as H1.
  unfold write_test. wp_step. apply set_counter_wp; [done|done|]. cbn. unfold read_test. wp_steps.
  eapply wp_call.
  { cbn [k_do ev_do eventfd_kernel s_world with_world]. unfold ev_read.
    rewrite (ready_is_ev _ _ H0). reflexivity. }
  cbn. wp_steps. by apply passed_report.
Qed.

Lemma write_eagain_passes : passes_reference write_eagain_test.
Proof.
  intros fd sh Hr. pose proof (ready_count _ _ (UINT64_MAX - 1) Hr ltac:(done)) as H0.
  unfold write_eagain_test. wp_step. apply set_counter_wp; [done|done|]. cbn. wp_steps.
  eapply wp_call.
  { cbn [k_do ev_do eventfd_kernel s_world with_world]. unfold ev_write, would_block.
    rewrite (ready_is_ev _ _ H0), (rd_nonblock _ _ H0). reflexivity. }
  cbn. wp_steps. by apply passed_report.
Qed.

Lemma read_einval_passes : passes_reference read_einval_test.
Proof.
  intros fd sh Hr. unfold read_einval_test. wp_steps. eapply wp_call.
  { cbn [k_do ev_do eventfd_kernel]. unfold ev_read. rewrite (ready_is_ev _ _ Hr). reflexivity. }
  cbn. wp_steps. by apply passed_report.
Qed.

Lemma write_einval_passes junk : passes_reference (write_einval_test junk).
Proof.
  intros fd sh Hr. unfold write_einval_test. wp_steps. eapply wp_call.
  { cbn [k_do ev_do eventfd_kernel]. unfold ev_write. rewrite (ready_is_ev _ _ Hr). reflexivity. }
  cbn. wp_steps. by apply passed_report.
Qed.

Lemma write_einval2_passes : passes_reference write_einval2_test.
Proof.
  intros fd sh Hr. pose proof (ready_count _ _ 0 Hr ltac:(done)) as H0.
  unfold write_einval2_test. wp_step. apply clear_counter_wp; [done|]. cbn. wp_steps.
  eapply wp_call.
  { cbn [k_do ev_do eventfd_kernel s_world with_world]. unfold ev_write.
    rewrite (ready_is_ev _ _ H0). reflexivity. }
  cbn. wp_steps. by apply passed_report.
Qed.
Lemma readfd_set_passes : passes_reference readfd_set_test.
Proof.
  intros fd sh Hr. pose proof (ready_count _ _ 10 Hr ltac:(done)) as H0.
  unfold readfd_set_test. wp_step. apply set_counter_wp; [done|done|]. cbn. wp_steps.
  eapply wp_call with (r := select_answer true).
  { cbn [k_do ev_do eventfd_kernel s_world with_world]. rewrite (ready_is_ev _ _ H0). reflexivity. }
  cbn. wp_steps. by apply passed_report.
Qed.

Lemma readfd_not_set_passes : passes_reference readfd_not_set_test.
Proof.
  intros fd sh Hr. pose proof (ready_count _ _ 0 Hr ltac:(done)) as H0.
  unfold readfd_not_set_test. wp_step. apply clear_counter_wp; [done|]. cbn. wp_steps.
  eapply wp_call with (r := select_answer false).
  { cbn [k_do ev_do eventfd_kernel s_world with_world]. rewrite (ready_is_ev _ _ H0). reflexivity. }
  cbn. wp_steps. by apply passed_report.
Qed.

Lemma writefd_set_passes : passes_reference writefd_set_test.
Proof.
  intros fd sh Hr. pose proof (ready_count _ _ 10 Hr ltac:(done)) as H0.
  unfold writefd_set_test. wp_step. apply set_counter_wp; [done|done|]. cbn. wp_steps.
  eapply wp_call with (r := select_answer true).
  { cbn [k_do ev_do eventfd_kernel s_world with_world]. rewrite (ready_is_ev _ _ H0). reflexivity. }
  cbn. wp_steps. by apply passed_report.
Qed.

Lemma writefd_not_set_passes : passes_reference writefd_not_set_test.
Proof.
  intros fd sh Hr. pose proof (ready_count _ _ (UINT64_MAX - 1) Hr ltac:(done)) as H0.
  unfold writefd_not_set_test. wp_step. apply set_counter_wp; [done|done|]. cbn. wp_steps.
  eapply wp_call with (r := select_answer false).
  { cbn [k_do ev_do eventfd_kernel s_world with_world]. rewrite (ready_is_ev _ _ H0). reflexivity. }
  cbn. wp_steps. by apply passed_report.
Qed.

Lemma overflow_select_passes : passes_reference overflow_select_test.
Proof.
  intros fd sh Hr. unfold overflow_select_test. wp_step. apply trigger_wp; [done|]. intros w Hw Hm. cbn.
  wp_steps. eapply wp_call with (r := select_answer true).
  { cbn [k_do ev_do eventfd_kernel s_world with_world]. unfold readable.
    rewrite (ready_is_ev _ _ Hw), Hm. reflexivity. }
  cbn. wp_steps. apply (cleanup_overflow_wp fd); [done|]. by apply passed_report.
Qed.

Lemma overflow_poll_passes : passes_reference overflow_poll_test.
Proof.
  intros fd sh Hr. unfold overflow_poll_test. wp_step. apply trigger_wp; [done|]. intros w Hw Hm. cbn.
  wp_steps. eapply wp_call with (r := answers 1 9).
  { cbn [k_do ev_do eventfd_kernel s_world with_world]. unfold poll_events, readable.
    rewrite (ready_is_ev _ _ Hw), Hm. reflexivity. }
  cbn. change (Z.land 9 POLLERR =? 0) with false. wp_steps; [|done].
  apply (cleanup_overflow_wp fd); [done|]. by apply passed_report.
Qed.

Lemma overflow_read_passes : passes_reference overflow_read_test.
Proof.
  intros fd sh Hr. unfold overflow_read_test. wp_step. apply trigger_wp; [done|]. intros w Hw Hm. cbn.
  wp_steps. eapply wp_call with (r := answers 8 UINT64_MAX).
  { cbn [k_do ev_do eventfd_kernel s_world with_world]. unfold ev_read.
    rewrite (ready_is_ev _ _ Hw), Hm. reflexivity. }
  cbn. wp_steps. apply (cleanup_overflow_wp fd); [by apply ready_count|]. apply passed_report; [done|].
  by apply ready_count.
Qed.
End Independent.

(** The tests that look at the counter alone: all but [read_test], which needs the
    initial value, and [child_inherit_test], which forks. *)
Definition counter_tests (junk : Z) : list (Z -> P unit) :=
  [read_eagain_test; write_test; write_eagain_test; read_einval_test; write_einval_test junk;
   write_einval2_test; readfd_set_test; readfd_not_set_test; writefd_set_test;
   writefd_not_set_test; overflow_select_test; overflow_poll_test; overflow_read_test].

Lemma counter_tests_reference ts pid junk :
  Forall (passes_reference ts pid) (counter_tests junk).
Proof.
  unfold counter_tests. repeat apply List.Forall_cons; try apply List.Forall_nil.
  - apply read_eagain_passes.
  - apply write_passes.
  - apply write_eagain_passes.
  - apply read_einval_passes.
  - apply write_einval_passes.
  - apply write_einval2_passes.
  - apply readfd_set_passes.
  - apply readfd_not_set_passes.
  - apply writefd_set_passes.
  - apply writefd_not_set_passes.
  - apply overflow_select_passes.
  - apply overflow_poll_passes.
  - apply overflow_read_passes.
Qed.

(** On a platform that refines the reference, [w] is a world in which [fd] is the
    open eventfd, in non-blocking mode and with any counter. *)
Definition ready_in {W} (K : Kernel ecall ereply W)
    `{F : !Refines K (eventfd_kernel (@tst_status _ _ _ K))} (fd : Z) (w : W) : Prop :=
  exists v, @rel _ _ _ _ _ _ F w v /\ ready fd v.

(** C26: thirteen of the fifteen tests depend neither on the counter they find nor on
    what ran before: on every eventfd(2) platform and from every counter value, each
    makes one report, a TPASS, and leaves the eventfd ready for any other test. *)
Theorem counter_tests_pass {W} (K : Kernel ecall ereply W)
    `{!Refines K (eventfd_kernel (@tst_status _ _ _ K))} pid junk t fd sh :
  In t (counter_tests junk) -> ready_in K fd (s_world sh) ->
  wp (K := K) pid (t fd) tt sh (fun _ _ sh' =>
    (exists msg, log_of pid sh' = log_of pid sh ++ [Entry TPASS None msg []])
    /\ ready_in K fd (s_world sh')).
Proof.
  intros Ht (v & Hv & Hr).
  pose proof (proj1 (List.Forall_forall _ _) (counter_tests_reference tst_status pid junk) t Ht
                fd (map_world (fun _ => v) sh) Hr) as Hw.
  eapply wp_mono; [|apply (wp_refines K (eventfd_kernel tst_status) pid _ _ _ v _ Hv Hw)].
  intros g' a sh' (v' & Hv' & Hl & Hr'). split; [exact Hl|]. by exists v'.
Qed.

Lemma counter_tests_pass_witness :
  let K := eventfd_kernel (fun _ => 0) in
  let sh := Shape ∅ ∅ ∅ ∅ false 101 (EState (Some 3) 5 true false) in
  wp (K := K) 100 (write_eagain_test 3) tt sh (fun _ _ sh' =>
    (exists msg, log_of 100 sh' = log_of 100 sh ++ [Entry TPASS None msg []])
    /\ ready_in K 3 (s_world sh')).
Proof.
  intros K sh. apply (counter_tests_pass K 100 0 write_eagain_test 3 sh).
  - simpl. tauto.
  - exists (EState (Some 3) 5 true false). split; [reflexivity|].
    split; [reflexivity | lia | reflexivity | split; unfold UINT64_MAX; simpl; lia].
Defined.

(** ** The whole test *)

(** The reports of a correct run, in order. *)
Definition expected_log : list entry :=
  List.map (fun m => Entry TPASS None m [])
    ["counter value matches required"; "read failed with EAGAIN as expected";
     "counter value matches required"; "write failed with EAGAIN as expected";
     "read failed with EINVAL as expected"; "write failed with EINVAL as expected";
     "write failed with EINVAL as expected"; "fd is set in readfds";
     "fd is not set in readfds"; "fd is set in writefds"; "fd is not set in writefds";
     "counter value write from child successful"; "read fd set as expected";
     "POLLERR occurred as expected"; "overflow occurred as expected"]%string.

Lemma eventfd01_checker ts junk :
  { t | tsound (K := eventfd_kernel ts) main_pid
          (fun s => passed main_pid (log_is expected_log) s = true) t (main junk 1) }.
Proof. eexists. unfold main. build_checker 1000%nat. Defined.

Lemma eventfd01_checks ts junk :
  proj1_sig (eventfd01_checker ts junk) tt (shp (boot main_pid (main junk 1) tt ev_init)) = true.
Proof. vm_compute. reflexivity. Qed.

(** On every eventfd(2) platform, whatever the interleaving of parent and child
    and whatever 4-byte value the short write sends, the test ends with all processes
    gone and exactly fifteen passes. *)
Theorem eventfd01_passes {W} (K : Kernel ecall ereply W) (w0 : W) `{!EventfdPlatform K w0}
    (junk : Z) :
  inevitable (fun s => passed main_pid (log_is expected_log) s = true)
    (boot main_pid (main junk 1) tt w0).
Proof.
  exact (refines_passes K (eventfd_kernel tst_status) w0 ev_init _ _ _ _ ep_init
           (proj2_sig (eventfd01_checker _ junk)) (eventfd01_checks _ junk)).
Qed.

Lemma eventfd01_passes_witness :
  let K := eventfd_kernel (fun _ => 0) in
  inevitable (fun s => passed main_pid (log_is expected_log) s = true)
    (boot main_pid (main 0 1) tt ev_init).
Proof. exact (eventfd01_passes (eventfd_kernel (fun _ => 0)) ev_init 0). Defined.
