(* ===== verification/EpollLtp.v ===== *)
(** * epoll-ltp.c: epoll_create and epoll_ctl with bad arguments

    Model of [src/original tests/epoll/epoll-ltp.c].  [test_epoll_create] tries
    sizes; [test_epoll_ctl] tries all combinations of bad descriptors, operations
    and events, each in a child process ([PROTECT_REGION_START] ... [_END]) whose
    exit code is the classification of the result.

    A child that dies from a signal is not part of the process model; the text
    [strsignal] and the percentage of the summaries are left out of the reports. *)

From S2P Require Import Prelude Tst Process Explore Prog Checker Wp.

(** ** The platform *)

Inductive pcall :=
| PEpollCreate (size : Z)
| PEpollCtl (epfd op fd : Z) (event : option Z)   (* the [events] field, [None] for NULL *)
| PClose (fd : Z)
| PRand
| PSrand (seed : Z)
| PGettimeofday
| PFlush.

(** Return value, [errno] of a failed call, and the [tv_usec] written back. *)
Record preply := PReply { ret : Z; errno : Z; tv_usec : Z }.

#[export] Instance preply_eq_dec : EqDecision preply.
Proof. solve_decision. Defined.

(** ** Constants and locals *)

Definition SHRT_MAX : Z := 32767.
Definition NUM_RAND_ATTEMPTS : nat := 16.
Definition BACKING_STORE_SIZE_HINT : Z := 32.
Definition EPOLL_CTL_ADD : Z := 1.
Definition EPOLL_CTL_DEL : Z := 2.
Definition EPOLL_CTL_MOD : Z := 3.
Definition EPOLLIN : Z := 1.
Definition EPOLLPRI : Z := 2.
Definition EPOLLOUT : Z := 4.
Definition EPOLLERR : Z := 8.
Definition EPOLLHUP : Z := 16.
Definition EPOLLET : Z := 2147483648.

(** The counters [num_..._test_fails] and [num_..._test_calls] of the running
    function ([unsigned int]s). *)
Record locals := Locals { fails : Z; calls : Z }.

#[export] Instance locals_eq_dec : EqDecision locals.
Proof. solve_decision. Defined.

Abbreviation P A := (M pcall preply locals A).

Definition start_count : P unit := modify (fun _ => Locals 0 0).
Definition count_call : P unit := modify (fun g => Locals (fails g) (uwrap 32 (calls g + 1))).
Definition count_fail : P unit := modify (fun g => Locals (uwrap 32 (fails g + 1)) (calls g)).

(** ** epoll_create *)

Definition negative_attempt : P unit :=
  count_call ;;
  r ← call (PEpollCreate (-1));
  if 0 <=? ret r then
    tst_resm_errno TFAIL 0 "epoll_create with negative set size succeeded unexpectedly" [] ;;
    count_fail ;;
    call_ (PClose (ret r))
  else if negb (errno r =? EINVAL) then
    tst_resm_errno TFAIL (errno r)
      "epoll_create with negative set size didn't set errno to EINVAL" [] ;;
    count_fail
  else tst_resm TPASS "epoll_create with negative set size" [].

Definition large_attempt (fd_set_size : Z) : P unit :=
  count_call ;;
  r ← call (PEpollCreate fd_set_size);
  if ret r =? -1 then
    if negb (errno r =? ENOMEM) then
      tst_resm TFAIL "epoll_create with large set size (size = %d)" [Num fd_set_size] ;;
      count_fail
    else tst_resm TPASS "epoll_create with large set size (size = %d)" [Num fd_set_size]
  else
    tst_resm TPASS "epoll_create with large set size (size = %d)" [Num fd_set_size] ;;
    call_ (PClose (ret r)).

(** [abs(rand() + SHRT_MAX) % INT_MAX], in [int]s: the sum wraps. *)
Definition random_size (r : Z) : Z := Z.rem (to_int (Z.abs (to_int (r + SHRT_MAX)))) INT_MAX.

Definition random_attempt : P unit :=
  v ← call PRand;
  let fd_set_size := random_size (ret v) in
  count_call ;;
  r ← call (PEpollCreate fd_set_size);
  if ret r <? 0 then
    if negb (errno r =? ENOMEM) then
      tst_resm TFAIL "epoll_create with random random large set size (size = %d)"
        [Num fd_set_size] ;;
      count_fail
    else tst_resm TPASS "epoll_create with random random large set size (size = %d)"
           [Num fd_set_size]
  else
    tst_resm TPASS "epoll_create with random large set size (size = %d)" [Num fd_set_size] ;;
    call_ (PClose (ret r)).

Definition test_epoll_create (num_rand_attempts : nat) : P Z :=
  start_count ;;
  negative_attempt ;;
  for_from 0 num_rand_attempts (fun i => large_attempt (INT_MAX - i)) ;;
  for_from 0 num_rand_attempts (fun _ => random_attempt) ;;
  g ← get;
  tst_resm TINFO "Summary: Of %d tests, epoll_create failed %d"
    [Num (calls g); Num (fails g)] ;;
  mret (fails g).

(** ** Classification of an epoll_ctl result *)

Definition RES_PASS : Z := 0.
Definition RES_FAIL_RETV_MIS_ERRNO_MAT : Z := 1.
Definition RES_FAIL_RETV_BAD_ERRNO_MAT : Z := 2.
Definition RES_FAIL_RETV_MAT_ERRNO_MIS : Z := 3.
Definition RES_FAIL_RETV_BAD_ERRNO_MIS : Z := 4.
Definition RES_FAIL_RETV_MIS_ERRNO_IGN : Z := 5.
Definition RES_FAIL_RETV_BAD_ERRNO_IGN : Z := 6.
Definition RES_PASS_RETV_MAT_ERRNO_IGN : Z := 7.

(** [epoll_events[index]], an [int]. *)
Definition epoll_event (index : Z) : Z :=
  to_int
    (Z.lor (EPOLLIN * Z.shiftr (Z.land index 1) 0)
    (Z.lor (EPOLLOUT * Z.shiftr (Z.land index 2) 1)
    (Z.lor (EPOLLPRI * Z.shiftr (Z.land index 4) 2)
    (Z.lor (EPOLLERR * Z.shiftr (Z.land index 8) 3)
    (Z.lor (EPOLLHUP * Z.shiftr (Z.land index 16) 4)
           (EPOLLET * Z.shiftr (Z.land index 32) 5)))))).

(** [expected_errno] and [num_errors_expected], as they evolve. *)
Record expectation := Exp { exp_errno : Z; num_errors : Z }.

Definition expect_error (e : Z) (x : expectation) : expectation := Exp e (num_errors x + 1).

Definition check_epfd (epfd epoll_fd : Z) (x : expectation) : expectation :=
  if negb (epfd =? epoll_fd) then
    if epfd =? 0 then expect_error EINVAL x else expect_error EBADF x
  else x.

Definition check_op (op : Z) (x : expectation) : expectation :=
  if (op =? EPOLL_CTL_ADD) || (op =? EPOLL_CTL_MOD) || (op =? EPOLL_CTL_DEL) then x
  else expect_error EINVAL x.

(** [for (index = 1; index < 64; index++) if ((int)ev_ptr->events != ...)]. *)
Fixpoint check_mask (events : Z) (index : Z) (n : nat) (x : expectation) : expectation :=
  match n with
  | O => x
  | S n =>
      check_mask events (index + 1) n
        (if negb (to_int events =? epoll_event index) then expect_error EINVAL x else x)
  end.

Definition check_event (event : option Z) (x : expectation) : expectation :=
  match event with
  | None => expect_error EINVAL x
  | Some events =>
      check_mask events 1 63 (if events =? 0 then expect_error EINVAL x else x)
  end.

Definition expected (epfd epoll_fd op : Z) (event : option Z) : expectation :=
  check_event event
    (expect_error EPERM
      (check_op op (check_epfd epfd epoll_fd (Exp 0 0)))).

(** The code the child returns. *)
Definition classify (epfd epoll_fd op : Z) (event : option Z) (result err : Z) : Z :=
  let x := expected epfd epoll_fd op event in
  if num_errors x =? 0 then
    if result =? 0 then RES_PASS
    else if result =? -1 then RES_FAIL_RETV_MIS_ERRNO_IGN
    else RES_FAIL_RETV_BAD_ERRNO_IGN
  else if num_errors x =? 1 then
    if result =? 0 then RES_FAIL_RETV_MIS_ERRNO_IGN
    else if result =? -1 then
      if err =? exp_errno x then RES_PASS else RES_FAIL_RETV_MAT_ERRNO_MIS
    else if err =? exp_errno x then RES_FAIL_RETV_BAD_ERRNO_MAT
    else RES_FAIL_RETV_BAD_ERRNO_MIS
  else if 1 <? num_errors x then
    if result =? 0 then RES_FAIL_RETV_MIS_ERRNO_IGN
    else if result =? -1 then
      if err =? exp_errno x then RES_PASS else RES_PASS_RETV_MAT_ERRNO_IGN
    else if err =? exp_errno x then RES_FAIL_RETV_BAD_ERRNO_MAT
    else RES_FAIL_RETV_BAD_ERRNO_IGN
  else 0.   (* [return 0] of PROTECT_REGION_END *)

(** ** epoll_ctl *)

Definition fds : list Z := [-1; INT_MAX].

Definition epoll_fds (epoll_fd : Z) : list Z := [epoll_fd; -1; 0; INT_MAX].

Definition epoll_ctl_ops : list Z :=
  [EPOLL_CTL_DEL; EPOLL_CTL_MOD; EPOLL_CTL_ADD; EPOLL_CTL_MOD; EPOLL_CTL_DEL; EPOLL_CTL_MOD;
   EPOLL_CTL_DEL; INT_MAX; -1].

Definition at_index (l : list Z) (i : Z) : Z := nth (Z.to_nat i) l 0.

(** What [ev_ptr] points to: NULL for the last [index], otherwise a structure
    (aligned or not) with [events] set. *)
Definition event_arg (index event_index : Z) : option Z :=
  if (index =? 0) || (index =? 1) then Some (uwrap 32 (epoll_event event_index)) else None.

(** The failure report.  The macro drops its message, and prints [errno] of the
    parent ([perrno]) and the element of [epoll_fds] at [fd_index]. *)
Definition EPOLL_CTL_TEST_FAIL (perrno epoll_fd epfd_index op_index fd_index : Z)
    (event : option Z) : P unit :=
  let common := [Num (at_index (epoll_fds epoll_fd) epfd_index);
                 Num (at_index epoll_ctl_ops op_index);
                 Num (at_index (epoll_fds epoll_fd) fd_index)] in
  match event with
  | Some ev =>
      tst_resm TFAIL "(epoll_ctl(%d,%08x,%d,%p = {%08x,%08d}) returned %d:%s)"
        (common ++ [Num ev; Num 0; Num perrno])
  | None =>
      tst_resm TFAIL "(epoll_ctl(%d,%08x,%d,%p) returned %d:%s)" (common ++ [Num perrno])
  end.

(** The call and its classification in a child; the parent's [result]. *)
Definition protected_ctl (epoll_fd epfd op fd : Z) (event : option Z) : P Z :=
  call_ PFlush ;;
  fork_call (PEpollCtl epfd op fd event)
    (fun r => classify epfd epoll_fd op event (ret r) (errno r))
    (fun st =>
       if WIFEXITED st.2 then mret (WEXITSTATUS st.2)
       else
         tst_resm TFAIL "Protected function test exited due to signal %d (%s)"
           [Num (Z.land st.2 127)] ;;
         mret (-1)).

(** The innermost body of the five loops. *)
Definition ctl_case (perrno epoll_fd index epfd_index event_index fd_index op_index : Z)
  : P unit :=
  let event := event_arg index event_index in
  result ← protected_ctl epoll_fd (at_index (epoll_fds epoll_fd) epfd_index)
             (at_index epoll_ctl_ops op_index) (at_index fds fd_index) event;
  count_call ;;
  when (negb ((result =? RES_PASS) || (result =? RES_PASS_RETV_MAT_ERRNO_IGN)))
    (EPOLL_CTL_TEST_FAIL perrno epoll_fd epfd_index op_index fd_index event ;;
     count_fail).

Definition test_epoll_ctl (perrno epoll_fd : Z) : P Z :=
  start_count ;;
  for_from 0 3 (fun index =>
    for_from 0 4 (fun epfd_index =>
      for_from 0 64 (fun event_index =>
        for_from 0 2 (fun fd_index =>
          for_from 0 9 (fun op_index =>
            ctl_case perrno epoll_fd index epfd_index event_index fd_index op_index)))) ;;
    call_ (PClose epoll_fd)) ;;
  g ← get;
  tst_resm TINFO "Summary: Of %d tests, epoll_ctl failed %d" [Num (calls g); Num (fails g)] ;;
  mret (fails g / calls g).

(** ** main *)

(** [PROTECT_FUNC(fn, errval, arg)]. *)
Definition PROTECT_FUNC (fn : P Z) (errval : Z) : P Z :=
  call_ PFlush ;;
  kid ← fork;
  if kid =? 0 then
    code ← fn; exit code
  else
    st ← waitpid kid;
    if WIFEXITED st.2 then mret (WEXITSTATUS st.2)
    else
      tst_resm TFAIL "Protected function test exited due to signal %d (%s)"
        [Num (Z.land st.2 127)] ;;
      mret errval.

Definition main (perrno : Z) : P unit :=
  tst_resm TINFO "testing if epoll() system call works" [] ;;
  tv ← call PGettimeofday;
  (if negb (ret tv =? 0) then tst_brkm TBROK (mret tt) "gettimeofday failed" []
   else tst_resm TINFO "gettimeofday() works" []) ;;
  call_ (PSrand (tv_usec tv)) ;;
  tst_resm TINFO "random number seeded with gettimeofday() [seed = %ld] works"
    [Num (tv_usec tv)] ;;
  tst_resm TINFO "Testing epoll_create" [] ;;
  PROTECT_FUNC (test_epoll_create NUM_RAND_ATTEMPTS) (-1) ;;
  r ← call (PEpollCreate BACKING_STORE_SIZE_HINT);
  when (ret r <? 0) (tst_brkm TFAIL (mret tt) "epoll_create failed" []) ;;
  tst_resm TINFO "Testing epoll_ctl" [] ;;
  PROTECT_FUNC (test_epoll_ctl perrno (ret r)) (-1) ;;
  tst_exit.

(** ** The classification *)

Lemma check_mask_keeps events i n x :
  num_errors x <= num_errors (check_mask events i n x)
  /\ (exp_errno x = EINVAL -> exp_errno (check_mask events i n x) = EINVAL).
Proof.
  revert i x; induction n as [|n IH]; intros i x; cbn [check_mask]; [done|].
  destruct (to_int events =? epoll_event i); cbn [negb]; [apply IH|].
  destruct (IH (i + 1) (expect_error EINVAL x)) as [H1 H2]; cbn in *. split; [lia | auto].
Qed.

Lemma check_mask_S events i n x :
  check_mask events i (S n) x
  = check_mask events (i + 1) n
      (if negb (to_int events =? epoll_event i) then expect_error EINVAL x else x).
Proof. done. Qed.

(** The masks 1 and 2 differ, so one of them is a mismatch. *)
Lemma check_mask_expects events n x :
  let y := check_mask events 1 (S (S n)) x in
  exp_errno y = EINVAL /\ num_errors x < num_errors y.
Proof.
  cbv zeta. rewrite !check_mask_S.
  change (epoll_event 1) with 1. change (epoll_event (1 + 1)) with 4.
  set (x1 := if negb (to_int events =? 4) then _ else _).
  assert (H1 : exp_errno x1 = EINVAL /\ num_errors x < num_errors x1).
  { unfold x1. destruct (Z.eqb_spec (to_int events) 1) as [->|_]; cbn [negb].
    - change (1 =? 4) with false. cbn. split; [done|lia].
    - destruct (negb _); cbn; split; [done|lia|done|lia]. }
  destruct (check_mask_keeps events (1 + 1 + 1) n x1) as [H2 H3].
  split; [apply H3, H1 | lia].
Qed.

Lemma check_event_expects event x :
  let y := check_event event x in exp_errno y = EINVAL /\ num_errors x < num_errors y.
Proof.
  destruct event as [e|]; unfold check_event; [|cbn; split; [done|lia]].
  set (x0 := if e =? 0 then _ else _).
  assert (Hx0 : num_errors x <= num_errors x0) by (unfold x0; destruct (e =? 0); cbn; lia).
  change 63%nat with (S (S 61)). destruct (check_mask_expects e 61 x0) as [H1 H2].
  split; [done|lia].
Qed.

Lemma check_epfd_keeps epfd epoll_fd x : num_errors x <= num_errors (check_epfd epfd epoll_fd x).
Proof. unfold check_epfd. repeat case_match; cbn; lia. Qed.

Lemma check_op_keeps op x : num_errors x <= num_errors (check_op op x).
Proof. unfold check_op. case_match; cbn; lia. Qed.

(** At least two errors are expected whatever the arguments, and EINVAL last. *)
Lemma expected_many epfd epoll_fd op event :
  let x := expected epfd epoll_fd op event in exp_errno x = EINVAL /\ 2 <= num_errors x.
Proof.
  unfold expected.
  destruct (check_event_expects event
    (expect_error EPERM (check_op op (check_epfd epfd epoll_fd (Exp 0 0))))) as [H1 H2].
  split; [done|]. cbn in H2.
  pose proof (check_op_keeps op (check_epfd epfd epoll_fd (Exp 0 0))).
  pose proof (check_epfd_keeps epfd epoll_fd (Exp 0 0)). cbn in *. lia.
Qed.

(** The classification depends on the result and on whether [errno] is EINVAL, and
    on nothing else. *)
Lemma classify_eq epfd epoll_fd op event result err :
  classify epfd epoll_fd op event result err
  = if result =? 0 then RES_FAIL_RETV_MIS_ERRNO_IGN
    else if result =? -1 then
      if err =? EINVAL then RES_PASS else RES_PASS_RETV_MAT_ERRNO_IGN
    else if err =? EINVAL then RES_FAIL_RETV_BAD_ERRNO_MAT
    else RES_FAIL_RETV_BAD_ERRNO_IGN.
Proof.
  unfold classify. destruct (expected_many epfd epoll_fd op event) as [-> Hn].
  rewrite (proj2 (Z.eqb_neq _ 0)), (proj2 (Z.eqb_neq _ 1)), (proj2 (Z.ltb_lt 1 _)) by lia.
  done.
Qed.

(** The parent accepts the result. *)
Definition accepted (code : Z) : bool := (code =? RES_PASS) || (code =? RES_PASS_RETV_MAT_ERRNO_IGN).

Lemma WEXITSTATUS_exit_status code : 0 <= code < 256 -> WEXITSTATUS (exit_status code) = code.
Proof.
  intros H. unfold WEXITSTATUS, exit_status.
  rewrite Z.shiftr_shiftl_l by lia. change (8 - 8) with 0. rewrite Z.shiftl_0_r.
  change 255 with (Z.ones 8). rewrite !Z.land_ones by lia. rewrite Zmod_mod.
  by apply Z.mod_small.
Qed.

Lemma classify_range epfd epoll_fd op event result err :
  0 <= classify epfd epoll_fd op event result err < 256.
Proof. rewrite classify_eq. repeat case_match; done. Qed.

(** Through the exit status of the child, exactly the results -1 are accepted. *)
Lemma accepted_iff epfd epoll_fd op event result err :
  accepted (WEXITSTATUS (exit_status (classify epfd epoll_fd op event result err)))
  = (result =? -1).
Proof.
  rewrite WEXITSTATUS_exit_status by apply classify_range. rewrite classify_eq.
  destruct (Z.eqb_spec result 0) as [->|]; [done|].
  destruct (result =? -1); by destruct (err =? EINVAL).
Qed.

(** The descriptor, the operation and the events make no difference to the verdict,
    since EPERM and a mask mismatch are always counted: the classification depends
    on the result and on whether [errno] is EINVAL, and what the parent accepts,
    through the child's exit status, is exactly the result -1, with any [errno]. *)
Theorem classify_verdict epfd epoll_fd op event result err :
  let code := classify epfd epoll_fd op event result err in
  code = (if result =? 0 then RES_FAIL_RETV_MIS_ERRNO_IGN
          else if result =? -1 then
            if err =? EINVAL then RES_PASS else RES_PASS_RETV_MAT_ERRNO_IGN
          else if err =? EINVAL then RES_FAIL_RETV_BAD_ERRNO_MAT
          else RES_FAIL_RETV_BAD_ERRNO_IGN)
  /\ accepted (WEXITSTATUS (exit_status code)) = (result =? -1).
Proof. split; [apply classify_eq | apply accepted_iff]. Qed.

Lemma WIFEXITED_exit_status code : WIFEXITED (exit_status code) = true.
Proof.
  unfold WIFEXITED, exit_status. apply Z.eqb_eq, Z.bits_inj'. intros n Hn.
  rewrite Z.land_spec, Z.bits_0. destruct (Z.ltb_spec n 8).
  - rewrite Z.shiftl_spec_low by done. done.
  - change 127 with (Z.ones 7). rewrite Z.ones_spec_high by lia. by rewrite andb_false_r.
Qed.

(** ** One protected call, on any kernel *)

Section Ctl.
Context {W : Type} {K : Kernel pcall preply W}.
Variable pid : Z.
Hypothesis pid_pos : 0 < pid.
Implicit Types (sh : shape W).

(** The failure report of a case. *)
Definition ctl_complaint (perrno epoll_fd index epfd_index event_index fd_index op_index : Z)
  : entry :=
  let common := [Num (at_index (epoll_fds epoll_fd) epfd_index);
                 Num (at_index epoll_ctl_ops op_index);
                 Num (at_index (epoll_fds epoll_fd) fd_index)] in
  match event_arg index event_index with
  | Some ev => Entry TFAIL None "(epoll_ctl(%d,%08x,%d,%p = {%08x,%08d}) returned %d:%s)"
                 (common ++ [Num ev; Num 0; Num perrno])
  | None => Entry TFAIL None "(epoll_ctl(%d,%08x,%d,%p) returned %d:%s)" (common ++ [Num perrno])
  end.

(** The shape after a protected call: the child has gone and left world [w]. *)
Definition after_case (w : W) (bad : list entry) sh : shape W :=
  foldl (fun sh e => with_report pid e sh) (after_child pid w sh) bad.

Lemma ctl_case_wp perrno epoll_fd index epfd_index event_index fd_index op_index g sh r0 w0 r w
    (Φ : locals -> unit -> shape W -> Prop) :
  childless pid sh ->
  k_do pid PFlush (s_world sh) = Some (r0, w0) ->
  k_do (s_next sh)
    (PEpollCtl (at_index (epoll_fds epoll_fd) epfd_index) (at_index epoll_ctl_ops op_index)
       (at_index fds fd_index) (event_arg index event_index)) (k_fork pid (s_next sh) w0) = Some (r, w) ->
  Φ (Locals (if ret r =? -1 then fails g else uwrap 32 (fails g + 1)) (uwrap 32 (calls g + 1))) tt
    (after_case w
       (if ret r =? -1 then []
        else [ctl_complaint perrno epoll_fd index epfd_index event_index fd_index op_index])
       (with_world w0 sh)) ->
  wp pid (ctl_case perrno epoll_fd index epfd_index event_index fd_index op_index) g sh Φ.
Proof.
  intros Hc H0 H1 HΦ. unfold ctl_case. wp_step. unfold protected_ctl. wp_step.
  unfold call_. wp_step. eapply wp_call; [exact H0|]. wp_steps.
  eapply wp_fork_call; [by destruct Hc | done | exact H1 |].
  cbn [snd]. rewrite WIFEXITED_exit_status. wp_steps.
  set (code := WEXITSTATUS _).
  pose proof (accepted_iff (at_index (epoll_fds epoll_fd) epfd_index) epoll_fd
    (at_index epoll_ctl_ops op_index) (event_arg index event_index) (ret r) (errno r)) as Ha.
  fold code in Ha. unfold accepted in Ha. rewrite Ha.
  unfold count_call. destruct (ret r =? -1); cbn [negb when].
  - wp_steps. exact HΦ.
  - unfold EPOLL_CTL_TEST_FAIL, count_fail. unfold after_case, ctl_complaint in HΦ.
    destruct (event_arg index event_index); wp_steps; exact HΦ.
Qed.
End Ctl.

(** The verdict on one combination, on any kernel: whatever epoll_ctl answers in
    the child, the parent goes on alone, has counted the call, and has reported a
    failure exactly when the return value was not -1. *)
Theorem ctl_case_verdict {W} (K : Kernel pcall preply W) pid
    perrno epoll_fd index epfd_index event_index fd_index op_index g sh r0 w0 r w :
  0 < pid -> childless pid sh ->
  k_do pid PFlush (s_world sh) = Some (r0, w0) ->
  k_do (s_next sh)
    (PEpollCtl (at_index (epoll_fds epoll_fd) epfd_index) (at_index epoll_ctl_ops op_index)
       (at_index fds fd_index) (event_arg index event_index)) (k_fork pid (s_next sh) w0) = Some (r, w) ->
  wp pid (ctl_case perrno epoll_fd index epfd_index event_index fd_index op_index) g sh
    (fun g' _ sh' =>
       log_of pid sh' = log_of pid sh
         ++ (if ret r =? -1 then []
             else [ctl_complaint perrno epoll_fd index epfd_index event_index fd_index op_index])
       /\ calls g' = uwrap 32 (calls g + 1)
       /\ fails g' = (if ret r =? -1 then fails g else uwrap 32 (fails g + 1))
       /\ childless pid sh').
Proof.
  intros Hp Hc H0 H1. eapply ctl_case_wp; [done | done | exact H0 | exact H1 |].
  assert (Hc' : childless pid (after_child pid w (with_world w0 sh))).
  { apply after_child_childless. by destruct Hc. }
  destruct (ret r =? -1); cbn [after_case foldl].
  - by rewrite app_nil_r.
  - rewrite log_of_report. repeat split; by destruct Hc'.
Qed.

(** ** All combinations, on a conforming kernel *)

(** What the manual pages promise for the calls of the test: a descriptor that is
    not open makes epoll_ctl fail, a size that is not positive makes epoll_create
    fail with EINVAL, and any other size either works or exhausts memory. *)
Class EpollAnswers {W} (K : Kernel pcall preply W) := {
  ea_ctl : forall pid w epfd op fd ev, fd = -1 \/ fd = INT_MAX ->
    exists e u w', k_do pid (PEpollCtl epfd op fd ev) w = Some (PReply (-1) e u, w');
  ea_create_bad : forall pid w size, size <= 0 ->
    exists u w', k_do pid (PEpollCreate size) w = Some (PReply (-1) EINVAL u, w');
  ea_create : forall pid w size, 0 < size ->
    exists r w', k_do pid (PEpollCreate size) w = Some (r, w')
      /\ (0 <= ret r \/ ret r = -1 /\ errno r = ENOMEM);
  ea_close : forall pid w fd, exists r w', k_do pid (PClose fd) w = Some (r, w');
  ea_flush : forall pid w, exists r w', k_do pid PFlush w = Some (r, w')
}.

(** Process [pid] after [n] calls without a failure: the log has not changed. *)
Record clean_so_far {W} (pid : Z) (log : list entry) (n : Z) (g : locals) (sh : shape W) : Prop :=
  CleanSoFar {
    cs_childless : childless pid sh;
    cs_log : log_of pid sh = log;
    cs_fails : fails g = 0;
    cs_calls : calls g = n
  }.

Lemma bad_fd i : 0 <= i < 2 -> at_index fds i = -1 \/ at_index fds i = INT_MAX.
Proof. intros H. assert (i = 0 \/ i = 1) as [-> | ->] by lia; [by left | by right]. Qed.

Section CtlLoops.
Context {W : Type} {K : Kernel pcall preply W} `{!EpollAnswers K}.
Variables (pid : Z) (log : list entry).
Hypothesis pid_pos : 0 < pid.
Notation Clean := (clean_so_far (W := W) pid log).

Lemma ctl_case_clean perrno epoll_fd index epfd_index event_index fd_index op_index n g sh :
  0 <= fd_index < 2 -> 0 <= n < 2 ^ 31 -> Clean n g sh ->
  wp pid (ctl_case perrno epoll_fd index epfd_index event_index fd_index op_index) g sh
    (fun g' _ sh' => Clean (n + 1) g' sh').
Proof.
  intros Hfd Hn [Hc Hl Hf Hcl].
  destruct (ea_flush pid (s_world sh)) as (r0 & w0 & H0).
  destruct (ea_ctl (s_next sh) (k_fork pid (s_next sh) w0) (at_index (epoll_fds epoll_fd) epfd_index)
    (at_index epoll_ctl_ops op_index) (at_index fds fd_index) (event_arg index event_index)
    (bad_fd _ Hfd)) as (e & u & w & H1).
  eapply ctl_case_wp; [done | done | exact H0 | exact H1 |]. cbn [ret].
  change (-1 =? -1) with true. cbn iota. split.
  - apply after_child_childless. by destruct Hc.
  - done.
  - done.
  - cbn. rewrite Hcl. apply uwrap_small. lia.
Qed.

(** A loop of [m] rounds of [n] calls each. *)
Lemma clean_loop (body : Z -> P unit) start (m : nat) n k g sh :
  0 <= n ->
  (forall i n0 g sh, start <= i < start + Z.of_nat m -> k <= n0 <= k + n * Z.of_nat m - n ->
     Clean n0 g sh -> wp pid (body i) g sh (fun g' _ sh' => Clean (n0 + n) g' sh')) ->
  Clean k g sh ->
  wp pid (for_from start m body) g sh (fun g' _ sh' => Clean (k + n * Z.of_nat m) g' sh').
Proof.
  intros Hn Hb Hk.
  eapply wp_mono; [|apply (wp_for _ (fun i g sh => Clean (k + n * (i - start)) g sh))].
  - intros g' [] sh'. cbn beta. by replace (start + Z.of_nat m - start) with (Z.of_nat m) by lia.
  - intros i g' sh' Hi Hc. replace (k + n * (i + 1 - start)) with (k + n * (i - start) + n) by lia.
    apply Hb; [lia | nia | done].
  - by replace (k + n * (start - start)) with k by lia.
Qed.
End CtlLoops.

(** C27: on every kernel that answers as documented, [test_epoll_ctl] makes its 13824
    calls, each in a child of its own, reports no failure, and returns 0.  The number is
    that of the loops, 3 * 4 * 64 * 2 * 9; the comment at the head of the source (line 58)
    speaks of 27648 - (2 + NUM_RAND_ATTEMPTS), which the code does not make. *)
Theorem test_epoll_ctl_clean {W} (K : Kernel pcall preply W) `{!EpollAnswers K}
    pid perrno epoll_fd g sh :
  0 < pid -> childless pid sh ->
  wp pid (test_epoll_ctl perrno epoll_fd) g sh (fun g' r sh' =>
    log_of pid sh' = log_of pid sh
      ++ [Entry TINFO None "Summary: Of %d tests, epoll_ctl failed %d" [Num 13824; Num 0]]
    /\ r = 0 /\ calls g' = 13824 /\ fails g' = 0).
Proof.
  intros Hp Hc. unfold test_epoll_ctl, start_count. wp_step. wp_step. wp_step.
  eapply wp_mono; [|apply (clean_loop pid (log_of pid sh) _ 0 3 4608 0); [lia | | by split]].
  - intros g' [] sh' [_ Hl Hf Hcl]. cbn in Hcl. wp_steps.
    rewrite Hf, Hcl. split; [|by repeat split].
    by rewrite log_of_report, Hl.
  - intros i n0 g0 sh0 Hi Hn0 H0. wp_step.
    eapply wp_mono; [|apply (clean_loop pid (log_of pid sh) _ 0 4 1152 n0); [lia | | done]].
    + intros g' [] sh' Hd. unfold call_. wp_steps.
      destruct (ea_close pid (s_world sh') epoll_fd) as (r & w & H).
      eapply wp_call; [exact H|]. wp_steps. destruct Hd as [Hd1 Hd2 Hd3 Hd4].
      by split; [destruct Hd1; split | | | rewrite Hd4].
    + intros j n1 g1 sh1 Hj Hn1 H1.
      apply (clean_loop pid (log_of pid sh) _ 0 64 18 n1); [lia | | done].
      intros j2 n2 g2 sh2 Hj2 Hn2 H2.
      apply (clean_loop pid (log_of pid sh) _ 0 2 9 n2); [lia | | done].
      intros j3 n3 g3 sh3 Hj3 Hn3 H3.
      apply (clean_loop pid (log_of pid sh) _ 0 9 1 n3); [lia | | done].
      intros j4 n4 g4 sh4 Hj4 Hn4 H4.
      by apply (ctl_case_clean pid (log_of pid sh)); [done | lia | lia | ].
Qed.

(** ** epoll_create *)

Lemma random_size_small r :
  0 <= r < INT_MAX - SHRT_MAX ->
  random_size r = r + SHRT_MAX /\ 0 < random_size r < INT_MAX.
Proof.
  intros Hr. unfold random_size, to_int, INT_MAX, SHRT_MAX in *.
  rewrite (swrap_small 32 (r + 32767)) by lia. rewrite Z.abs_eq by lia.
  rewrite swrap_small by lia. rewrite Z.rem_small by lia. lia.
Qed.

(** For every value of [rand] that leaves room for the sum, the size is the sum,
    and positive; for the next two values it is 0 and, with wrapping [int]s, -1. *)
Theorem random_size_spec :
  (forall r, 0 <= r < INT_MAX - SHRT_MAX ->
     random_size r = r + SHRT_MAX /\ 0 < random_size r < INT_MAX)
  /\ random_size (INT_MAX - SHRT_MAX) = 0 /\ random_size (INT_MAX - SHRT_MAX + 1) = -1.
Proof.
  split; [intros r Hr; by apply random_size_small | done].
Qed.

Section Create.
Context {W : Type} {K : Kernel pcall preply W} `{!EpollAnswers K}.
Variable pid : Z.
Implicit Types (g : locals) (sh : shape W).

(** The report of a size that works or exhausts memory is a pass. *)
Definition passing (log : list entry) (n : Z) g sh : Prop :=
  (exists l, log_of pid sh = log ++ l /\ Forall (fun e => e_type e = TPASS) l
             /\ Z.of_nat (length l) = n)
  /\ fails g = 0 /\ calls g = n.

Lemma passing_report log n g sh sh0 fmt args :
  passing log n g sh0 -> s_logs sh = s_logs sh0 -> 0 <= n < 2 ^ 31 ->
  passing log (n + 1) (Locals (fails g) (uwrap 32 (calls g + 1)))
    (with_report pid (Entry TPASS None fmt args) sh).
Proof.
  intros [(l & Hl & Ha & Hn) [Hf Hc]] Hs Hn'. split; [|split; [done|]].
  - exists (l ++ [Entry TPASS None fmt args]). repeat split.
    + rewrite log_of_report. unfold log_of in *. by rewrite Hs, Hl, app_assoc.
    + apply Forall_app; split; [done | by constructor].
    + rewrite length_app; cbn. lia.
  - cbn. rewrite Hc. apply uwrap_small. lia.
Qed.

Lemma passing_logs log n g sh sh0 :
  passing log n g sh0 -> s_logs sh = s_logs sh0 -> passing log n g sh.
Proof. intros [H1 H2] Hs. split; [|done]. unfold log_of in *. by rewrite Hs. Qed.

Lemma negative_attempt_wp log g sh :
  passing log 0 g sh ->
  wp pid negative_attempt g sh (fun g' _ sh' => passing log 1 g' sh').
Proof.
  intros Hp. unfold negative_attempt, count_call. wp_steps.
  destruct (ea_create_bad pid (s_world sh) (-1) ltac:(lia)) as (u & w & H).
  eapply wp_call; [exact H|]. cbn [ret errno].
  change (0 <=? -1) with false. change (EINVAL =? EINVAL) with true. cbn [negb].
  apply wp_resm. by apply (passing_report log 0 g (with_world w sh) sh).
Qed.

Lemma large_attempt_wp log n size g sh :
  0 < size -> 0 <= n < 2 ^ 31 -> passing log n g sh ->
  wp pid (large_attempt size) g sh (fun g' _ sh' => passing log (n + 1) g' sh').
Proof.
  intros Hs Hn Hp. unfold large_attempt, count_call, call_. wp_steps.
  destruct (ea_create pid (s_world sh) size Hs) as (r & w & H & Hr).
  eapply wp_call; [exact H|]. destruct Hr as [Hr | [Hr He]].
  - rewrite (proj2 (Z.eqb_neq (ret r) (-1))) by lia. wp_steps.
    destruct (ea_close pid w (ret r)) as (r2 & w2 & H2).
    eapply wp_call; [exact H2|]. wp_steps.
    eapply passing_logs; [by eapply (passing_report log n g _ sh) | done].
  - rewrite Hr, He. change (-1 =? -1) with true. change (ENOMEM =? ENOMEM) with true.
    cbn [negb]. wp_steps. by eapply passing_report.
Qed.

Lemma random_attempt_wp log n g sh rv wv :
  k_do pid PRand (s_world sh) = Some (rv, wv) -> 0 <= ret rv < INT_MAX - SHRT_MAX ->
  0 <= n < 2 ^ 31 -> passing log n g sh ->
  wp pid random_attempt g sh (fun g' _ sh' => passing log (n + 1) g' sh').
Proof.
  intros Hrv Hv Hn Hp. unfold random_attempt, count_call, call_. wp_steps.
  eapply wp_call; [exact Hrv|]. wp_steps.
  destruct (random_size_small _ Hv) as [_ [Hs _]].
  destruct (ea_create pid wv _ Hs) as (r & w & H & Hr).
  eapply wp_call; [exact H|]. destruct Hr as [Hr | [Hr He]].
  - rewrite (proj2 (Z.ltb_ge (ret r) 0)) by lia. wp_steps.
    destruct (ea_close pid w (ret r)) as (r2 & w2 & H2).
    eapply wp_call; [exact H2|]. wp_steps.
    eapply passing_logs; [by eapply (passing_report log n g _ sh) | done].
  - rewrite Hr, He. change (-1 <? 0) with true. change (ENOMEM =? ENOMEM) with true.
    cbn [negb]. wp_steps. by eapply passing_report.
Qed.
End Create.

(** On every kernel that answers as documented, and with a [rand] that stays
    below INT_MAX - SHRT_MAX, [test_epoll_create] with [n] attempts passes [2n + 1]
    times and returns 0. *)
Theorem test_epoll_create_clean {W} (K : Kernel pcall preply W) `{!EpollAnswers K} pid
    (n : nat) g sh :
  (forall w, exists r w', k_do pid PRand w = Some (r, w') /\ 0 <= ret r < INT_MAX - SHRT_MAX) ->
  Z.of_nat n < 2 ^ 30 ->
  wp pid (test_epoll_create n) g sh (fun g' r sh' =>
    exists l, log_of pid sh' = log_of pid sh ++ l
        ++ [Entry TINFO None "Summary: Of %d tests, epoll_create failed %d"
              [Num (2 * Z.of_nat n + 1); Num 0]]
      /\ Forall (fun e => e_type e = TPASS) l
      /\ Z.of_nat (length l) = 2 * Z.of_nat n + 1 /\ r = 0).
Proof.
  intros Hrand Hn. unfold test_epoll_create, start_count. wp_step. wp_step. wp_step.
  eapply wp_mono; [|apply (negative_attempt_wp pid (log_of pid sh))].
  2: { repeat split. exists []. by rewrite app_nil_r. }
  intros g1 [] sh1 H1. cbn beta. wp_step.
  eapply wp_mono; [|apply (wp_for pid (fun i g sh' => passing pid (log_of pid sh) (1 + i) g sh'));
    [|by replace (1 + 0) with 1 by lia]].
  2: { intros i g' sh' Hi Hp. replace (1 + (i + 1)) with (1 + i + 1) by lia.
       apply large_attempt_wp; [unfold INT_MAX; lia | lia | done]. }
  intros g2 [] sh2 H2. cbn beta in *. wp_step.
  eapply wp_mono; [|apply (wp_for pid
    (fun i g sh' => passing pid (log_of pid sh) (1 + Z.of_nat n + i) g sh'))].
  - intros g3 [] sh3 [(l & Hl & Ha & Hlen) [Hf Hc]]. wp_steps.
    exists l. replace (2 * Z.of_nat n + 1) with (1 + Z.of_nat n + Z.of_nat n) by lia.
    rewrite Hf, Hc, log_of_report, Hl, <- app_assoc. by repeat split.
  - intros i g' sh' Hi Hp. replace (1 + Z.of_nat n + (i + 1)) with (1 + Z.of_nat n + i + 1) by lia.
    destruct (Hrand (s_world sh')) as (r & w & Hr & Hv).
    by eapply random_attempt_wp; [exact Hr | exact Hv | lia |].
  - by replace (1 + Z.of_nat n + 0) with (1 + (0 + Z.of_nat n)) by lia.
Qed.

(** The edge of [rand]: on every kernel that answers as documented, the value
    INT_MAX - SHRT_MAX makes the size 0, and the attempt reports a failure although
    the kernel is right to refuse. *)
Theorem random_attempt_edge {W} (K : Kernel pcall preply W) `{!EpollAnswers K} pid g sh rv wv :
  k_do pid PRand (s_world sh) = Some (rv, wv) -> ret rv = INT_MAX - SHRT_MAX ->
  wp pid random_attempt g sh (fun g' _ sh' =>
    log_of pid sh' = log_of pid sh
      ++ [Entry TFAIL None "epoll_create with random random large set size (size = %d)" [Num 0]]
    /\ fails g' = uwrap 32 (fails g + 1)).
Proof.
  intros Hrv Hv. unfold random_attempt, count_call, count_fail. wp_steps.
  eapply wp_call; [exact Hrv|]. wp_steps. rewrite Hv.
  change (random_size (INT_MAX - SHRT_MAX)) with 0.
  destruct (ea_create_bad pid wv 0 ltac:(lia)) as (u & w & H).
  eapply wp_call; [exact H|]. cbn [ret errno].
  change (-1 <? 0) with true. change (EINVAL =? ENOMEM) with false. cbn [negb].
  wp_steps. by rewrite log_of_report.
Qed.

(** ** A conforming kernel *)

(** [rand] always returns [v]; a positive size gives descriptor 3. *)
Definition epoll_do (v pid : Z) (c : pcall) (w : unit) : option (preply * unit) :=
  match c with
  | PEpollCreate size =>
      Some (if size <=? 0 then PReply (-1) EINVAL 0 else PReply 3 0 0, w)
  | PEpollCtl _ _ _ _ => Some (PReply (-1) EBADF 0, w)
  | PRand => Some (PReply v 0 0, w)
  | _ => Some (PReply 0 0 0, w)
  end.

Definition epoll_kernel (v : Z) : Kernel pcall preply unit := {|
  k_do := epoll_do v;
  k_fork := fun _ _ w => w;
  k_exit := fun _ w => w;
  tst_status := fun _ => 0
|}.

#[export] Instance epoll_kernel_answers v : EpollAnswers (epoll_kernel v).
Proof.
  split; intros; cbn [k_do epoll_kernel epoll_do]; eauto.
  - rewrite (proj2 (Z.leb_le _ _)) by done. eauto.
  - rewrite (proj2 (Z.leb_gt _ _)) by done. eexists _, _. split; [done|]. by left.
Qed.

Definition alone : shape unit :=
  Shape {[ 100 := PInfo 0 false [] ]} ∅ ∅ ∅ false 101 tt.

Lemma alone_childless : childless 100 alone.
Proof.
  split; [done | by eexists | | done].
  intros k Hk. cbn in *. rewrite lookup_singleton_ne by lia. done.
Qed.

Lemma ctl_case_verdict_witness :
  let K := epoll_kernel 0 in
  wp 100 (ctl_case 0 3 0 0 0 0 0) (Locals 0 0) alone
    (fun g' _ sh' => log_of 100 sh' = [] ++ [] /\ calls g' = uwrap 32 (0 + 1) /\ fails g' = 0
                     /\ childless 100 sh').
Proof.
  exact (ctl_case_verdict (epoll_kernel 0) 100 0 3 0 0 0 0 0 (Locals 0 0) alone
    (PReply 0 0 0) tt (PReply (-1) EBADF 0) tt eq_refl alone_childless eq_refl eq_refl).
Defined.

Lemma test_epoll_ctl_clean_witness :
  let K := epoll_kernel 0 in
  wp 100 (test_epoll_ctl 0 3) (Locals 0 0) alone (fun g' r sh' =>
    log_of 100 sh'
    = [] ++ [Entry TINFO None "Summary: Of %d tests, epoll_ctl failed %d" [Num 13824; Num 0]]
    /\ r = 0 /\ calls g' = 13824 /\ fails g' = 0).
Proof.
  exact (test_epoll_ctl_clean (epoll_kernel 0) 100 0 3 (Locals 0 0) alone eq_refl alone_childless).
Defined.

Lemma test_epoll_create_clean_witness :
  let K := epoll_kernel 7 in
  wp 100 (test_epoll_create 16) (Locals 0 0) alone (fun g' r sh' =>
    exists l, log_of 100 sh' = [] ++ l
        ++ [Entry TINFO None "Summary: Of %d tests, epoll_create failed %d" [Num 33; Num 0]]
      /\ Forall (fun e => e_type e = TPASS) l /\ Z.of_nat (length l) = 33 /\ r = 0).
Proof.
  apply (test_epoll_create_clean (epoll_kernel 7) 100 16 (Locals 0 0) alone); [|done].
  intros w. eexists _, _. split; [reflexivity|]. cbn. done.
Defined.

Lemma random_attempt_edge_witness :
  let K := epoll_kernel (INT_MAX - SHRT_MAX) in
  wp 100 random_attempt (Locals 0 0) alone (fun g' _ sh' =>
    log_of 100 sh'
    = [] ++ [Entry TFAIL None "epoll_create with random random large set size (size = %d)" [Num 0]]
    /\ fails g' = uwrap 32 (0 + 1)).
Proof.
  exact (random_attempt_edge (epoll_kernel (INT_MAX - SHRT_MAX)) 100 (Locals 0 0) alone
    (PReply (INT_MAX - SHRT_MAX) 0 0) tt eq_refl eq_refl).
Defined.
