(* ===== verification/String01.v ===== *)
(** * string01.c: the string functions of the C library

    Model of [src/original tests/string/string01.c]: tables of arguments and
    expected results for strchr, strrchr, strlen, strcmp, strcat, strcpy, strncat,
    strncmp and strncpy.

    The functions under test are a parameter, [libc]; [Lawful] states what the C
    standard promises about them, for calls that stay inside their buffers.  An
    array is an object, a pointer an object with an offset; the memory maps an
    object to its bytes.  Output to stderr is a list of messages. *)

From S2P Require Import Prelude Tst.

(** ** Memory *)

Inductive obj := Tiat | Yat | Tiatyat | Longstr | Dst0 | Dst1 | Dst2 | Lit (s : string).

#[export] Instance obj_eq_dec : EqDecision obj.
Proof. solve_decision. Defined.

Record ptr := Ptr { base : obj; off : nat }.

#[export] Instance ptr_eq_dec : EqDecision ptr.
Proof. solve_decision. Defined.

Definition start (o : obj) : ptr := Ptr o 0.

Definition plus (p : ptr) (n : nat) : ptr := Ptr (base p) (off p + n).

Definition mem : Type := obj -> list Z.

(** The bytes of a string literal, without the final 0. *)
Definition chars (s : string) : list Z :=
  map (fun a => Z.of_nat (Ascii.nat_of_ascii a)) (String.list_ascii_of_string s).

(** A string constant in the source: its object is never written. *)
Definition lit (s : string) : ptr := start (Lit s).

(** The memory with [bytes] at [p]. *)
Definition poke (m : mem) (p : ptr) (bytes : list Z) : mem := fun o =>
  if decide (o = base p)
  then take (off p) (m o) ++ bytes ++ drop (off p + length bytes) (m o)
  else m o.

(** [p] points to the string [s]. *)
Definition cstr (m : mem) (p : ptr) (s : list Z) : Prop :=
  0 ∉ s /\ exists rest, drop (off p) (m (base p)) = s ++ 0 :: rest.

(** There is room for [n] bytes at [p]. *)
Definition room (m : mem) (p : ptr) (n : nat) : Prop := (off p + n <= length (m (base p)))%nat.

(** ** The C library *)

Record libc := LibC {
  strchr : mem -> ptr -> Z -> option ptr;
  strrchr : mem -> ptr -> Z -> option ptr;
  strlen : mem -> ptr -> Z;
  strcmp : mem -> ptr -> ptr -> Z;
  strncmp : mem -> ptr -> ptr -> nat -> Z;
  strcat : mem -> ptr -> ptr -> ptr * mem;
  strcpy : mem -> ptr -> ptr -> ptr * mem;
  strncat : mem -> ptr -> ptr -> nat -> ptr * mem;
  strncpy : mem -> ptr -> ptr -> nat -> ptr * mem;
  memset : mem -> ptr -> Z -> nat -> mem
}.

Fixpoint first_index (c : Z) (s : list Z) : option nat :=
  match s with
  | [] => None
  | x :: s => if x =? c then Some O else S <$> first_index c s
  end.

Fixpoint last_index (c : Z) (s : list Z) : option nat :=
  match s with
  | [] => None
  | x :: s =>
      match last_index c s with
      | Some i => Some (S i)
      | None => if x =? c then Some O else None
      end
  end.

(** The sign of the first difference; a string that ends is smaller. *)
Fixpoint lex (s t : list Z) : Z :=
  match s, t with
  | [], [] => 0
  | [], _ :: _ => -1
  | _ :: _, [] => 1
  | x :: s, y :: t => if x =? y then lex s t else Z.sgn (x - y)
  end.

(** A function that returns its first argument and writes [bytes] at [at_]. *)
Definition writes (m : mem) (d : ptr) (at_ : ptr) (bytes : list Z) (r : ptr * mem) : Prop :=
  r.1 = d /\ forall o, r.2 o = poke m at_ bytes o.

(** What the C standard promises, all but strncmp. *)
Class MostlyLawful (L : libc) : Prop := {
  strchr_spec m p s c : cstr m p s -> c <> 0 -> strchr L m p c = plus p <$> first_index c s;
  strrchr_spec m p s c : cstr m p s -> c <> 0 -> strrchr L m p c = plus p <$> last_index c s;
  strlen_spec m p s : cstr m p s -> strlen L m p = Z.of_nat (length s);
  strcmp_spec m p q s t : cstr m p s -> cstr m q t -> Z.sgn (strcmp L m p q) = lex s t;
  strcat_spec m d p s t :
    cstr m d s -> cstr m p t -> base d <> base p -> room m d (length s + length t + 1) ->
    writes m d (plus d (length s)) (t ++ [0]) (strcat L m d p);
  strcpy_spec m d p t :
    cstr m p t -> base d <> base p -> room m d (length t + 1) ->
    writes m d d (t ++ [0]) (strcpy L m d p);
  strncat_spec m d p s t n :
    cstr m d s -> cstr m p t -> base d <> base p -> room m d (length s + min n (length t) + 1) ->
    writes m d (plus d (length s)) (take n t ++ [0]) (strncat L m d p n);
  strncpy_spec m d p t n :
    cstr m p t -> base d <> base p -> room m d n ->
    writes m d d (take n (t ++ replicate n 0)) (strncpy L m d p n);
  memset_spec m d c n : 0 <= c < 256 -> room m d n -> forall o, memset L m d c n o = poke m d (replicate n c) o
}.

Class Lawful (L : libc) : Prop := {
  lawful_most :: MostlyLawful L;
  strncmp_spec m p q s t n :
    cstr m p s -> cstr m q t -> Z.sgn (strncmp L m p q n) = lex (take n s) (take n t)
}.

(** ** The test *)

Definition FAILED : Z := 0.
Definition PASSED : Z := 1.

(** Kept opaque: the proofs only use the two bounds. *)
Definition LONGSTR : nat := Z.to_nat (96 * 1024 - 1).

Lemma LONGSTR_large : (80 < LONGSTR)%nat.
Proof. unfold LONGSTR. lia. Qed.

Lemma LONGSTR_int : Z.of_nat LONGSTR < 2 ^ 31.
Proof. unfold LONGSTR. lia. Qed.

#[global] Opaque LONGSTR.

Definition tiat : ptr := start Tiat.
Definition yat : ptr := start Yat.
Definition tiatyat : ptr := start Tiatyat.
Definition longstr : ptr := start Longstr.
Definition dst0 : ptr := start Dst0.
Definition dst1 : ptr := start Dst1.
Definition dst2 : ptr := start Dst2.

(** The static arrays before [main]. *)
Definition mem0 : mem := fun o =>
  match o with
  | Tiat => chars "This is a test of the string functions.  " ++ [0]
  | Yat => chars "This is yet another test." ++ [0]
  | Tiatyat => chars "This is a test of the string functions.  This is yet another test." ++ [0]
  | Lit s => chars s ++ [0]
  | _ => replicate (LONGSTR + 1) 0
  end.

(** Memory, [local_flag] and what was printed. *)
Record st := St { memory : mem; local_flag : Z; out : list (string * list Z) }.

Definition set_memory m s := St m (local_flag s) (out s).

(** [fprintf(temp, fmt, args); local_flag = FAILED;] *)
Definition complain (fmt : string) (args : list Z) (s : st) : st :=
  St (memory s) FAILED (out s ++ [(fmt, args)]).

Definition chr (c : string) : Z := nth 0 (chars c) 0.

(** The rows of a table, whose last one has a null pointer, as [while (t[i].s)] goes
    through them. *)
Fixpoint rows {Row} (first : Row -> option ptr) (body : Z -> ptr -> Row -> st -> st) (i : Z)
    (tab : list Row) (s : st) : st :=
  match tab with
  | [] => s
  | r :: tab =>
      match first r with
      | None => s
      | Some p => rows first body (i + 1) tab (body i p r s)
      end
  end.

Definition t_len : list (option ptr * Z) :=
  [(Some (lit ""), 0); (Some (lit "12345"), 5); (Some tiat, 41);
   (Some longstr, Z.of_nat LONGSTR); (None, 0)].

Definition t_index : list (option ptr * Z * option ptr) :=
  [(Some (lit ""), chr "z", None); (Some tiat, chr "a", Some (plus tiat 8));
   (Some tiat, chr "s", Some (plus tiat 3)); (Some tiat, chr "o", Some (plus tiat 15));
   (Some tiat, chr "z", None); (None, 0, None)].

Definition t_rindex : list (option ptr * Z * option ptr) :=
  [(Some (lit ""), chr "z", None); (Some tiat, chr "a", Some (plus tiat 8));
   (Some tiat, chr "s", Some (plus tiat 37)); (Some tiat, chr "o", Some (plus tiat 35));
   (Some tiat, chr "z", None); (None, 0, None)].

Definition t_cmp : list (option ptr * ptr * Z) :=
  [(Some (lit ""), lit "", 0); (Some (lit ""), tiat, - chr "T"); (Some tiat, lit "", chr "T");
   (Some tiat, tiat, 0); (Some yat, tiat, chr "y" - chr "a"); (None, lit "", 0)].

(** A row of the tables of strcat and strcpy: [s1], [s2], the string to compare the
    result with, [e_res]. *)
Record t_strcat := Cat { cat_s1 : option ptr; cat_s2 : ptr; cat_s1s2 : ptr; cat_res : Z }.

Definition t_cat : list t_strcat :=
  [Cat (Some dst0) (lit "") (lit "") 0; Cat (Some dst0) tiat tiat 0;
   Cat (Some dst0) (lit "") tiat 0; Cat (Some dst0) yat tiatyat 0;
   Cat (Some dst1) longstr longstr 0; Cat None (lit "") (lit "") 0].

Definition t_cpy : list (option ptr * ptr * Z) :=
  [(Some dst0, lit "", 0); (Some dst0, tiat, 0); (Some dst0, longstr, 0); (None, lit "", 0)].

Record t_strncmp := NCmp { ncmp_s1 : option ptr; ncmp_s2 : ptr; ncmp_n : nat;
                           ncmp_res : Z; a_res : Z }.

Definition t_ncmp : list t_strncmp :=
  [NCmp (Some (lit "")) (lit "") 0 0 0; NCmp (Some (lit "")) (lit "") 80 0 0;
   NCmp (Some tiat) (lit "") 0 0 0; NCmp (Some (lit "")) tiat 80 (- chr "T") (-1);
   NCmp (Some tiat) (lit "") 80 (chr "T") 1; NCmp (Some tiat) tiat 80 0 0;
   NCmp (Some yat) tiat 80 (chr "y" - chr "a") 1; NCmp (Some yat) tiat 8 0 1;
   NCmp (Some yat) tiat 9 (chr "y" - chr "a") 1; NCmp None (lit "") 0 0 0].

Record t_strncat := NCat { ncat_s1 : option ptr; ncat_s2 : ptr; ncat_n : nat;
                           ncat_s1ns2 : ptr; ncat_res : Z }.

Definition t_ncat : list t_strncat :=
  [NCat (Some dst0) (lit "") LONGSTR (lit "") 0; NCat (Some dst0) tiat LONGSTR tiat 0;
   NCat (Some dst0) (lit "") LONGSTR tiat 0; NCat (Some dst0) yat LONGSTR tiatyat 0;
   NCat (Some dst1) longstr LONGSTR longstr 0; NCat (Some dst2) longstr 0 (lit "") 0;
   NCat (Some dst2) longstr 1 (lit "t") 0; NCat (Some dst2) longstr (LONGSTR - 1) longstr 0;
   NCat None (lit "") 0 (lit "") 0].

(** The rows of strncpy have the same fields. *)
Definition t_ncpy : list t_strncat :=
  [NCat (Some dst0) (lit "") LONGSTR (lit "") 0; NCat (Some dst0) tiat LONGSTR tiat 0;
   NCat (Some dst0) longstr LONGSTR longstr 0; NCat (Some dst1) tiat 0 (lit "") 0;
   NCat (Some dst1) longstr 5 (lit "ttttt") 0; NCat None (lit "") 0 (lit "") 0].

(** [while (n--) *s++ = 't'; *s = 0;] *)
Fixpoint fill (n : nat) (s : ptr) (m : mem) : mem :=
  match n with
  | O => poke m s [0]
  | S n => fill n (plus s 1) (poke m s [chr "t"])
  end.

Definition sign (x : Z) : Z := if x <? 0 then -1 else if 0 <? x then 1 else 0.

Section Test.
Variable L : libc.

Definition index_row (i : Z) (s : ptr) (r : option ptr * Z * option ptr) (x : st) : st :=
  if negb (bool_decide (strchr L (memory x) s r.1.2 = r.2))
  then complain "(Strchr) test %d" [i] x else x.

Definition rindex_row (i : Z) (s : ptr) (r : option ptr * Z * option ptr) (x : st) : st :=
  if negb (bool_decide (strrchr L (memory x) s r.1.2 = r.2))
  then complain "(Strrchr) test %d" [i] x else x.

Definition strlen_row (i : Z) (s : ptr) (r : option ptr * Z) (x : st) : st :=
  let n := to_int (strlen L (memory x) s) in
  if negb (n =? r.2)
  then complain "(Strlen) test %d: expected %d, got %d" [i; r.2; n] x else x.

Definition strcmp_row (i : Z) (s1 : ptr) (r : option ptr * ptr * Z) (x : st) : st :=
  let n := strcmp L (memory x) s1 r.1.2 in
  if negb (sign n =? sign r.2)
  then complain "(Strcmp) test %d: expected %d, got %d" [i; sign r.2; sign n] x else x.

(** [(n = strcmp(f(s1, s2), expected)) != e_res], where the call of [f] has given
    [c]. *)
Definition compare_result (fmt : string) (i : Z) (c : ptr * mem) (expected : ptr) (e_res : Z)
    (x : st) : st :=
  let n := strcmp L c.2 c.1 expected in
  let x := set_memory c.2 x in
  if negb (n =? e_res) then complain fmt [i; e_res; n] x else x.

Definition strcat_row (i : Z) (s1 : ptr) (r : t_strcat) (x : st) : st :=
  compare_result "(Strcat) test %d: expected %d, got %d" i (strcat L (memory x) s1 (cat_s2 r))
    (cat_s1s2 r) (cat_res r) x.

Definition strcpy_row (i : Z) (s1 : ptr) (r : option ptr * ptr * Z) (x : st) : st :=
  compare_result "(Strcpy) test %d: expected %d, got %d" i (strcpy L (memory x) s1 r.1.2)
    r.1.2 r.2 x.

Definition strncat_row (i : Z) (s1 : ptr) (r : t_strncat) (x : st) : st :=
  compare_result "(Strncat) test %d: expected %d, got %d" i
    (strncat L (memory x) s1 (ncat_s2 r) (ncat_n r)) (ncat_s1ns2 r) (ncat_res r) x.

Definition strncpy_row (i : Z) (s1 : ptr) (r : t_strncat) (x : st) : st :=
  compare_result "(Strncpy) test %d: expected %d, got %d" i
    (strncpy L (memory x) s1 (ncat_s2 r) (ncat_n r)) (ncat_s1ns2 r) (ncat_res r) x.

(** Is result [n] of a row of [t_ncmp] a failure? *)
Definition ncmp_bad (r : t_strncmp) (n : Z) : bool :=
  negb (n =? ncmp_res r)
  && (((a_res r <? 0) && (a_res r <? n)) || ((0 <? a_res r) && (n <? a_res r))).

Definition strncmp_row (i : Z) (s1 : ptr) (r : t_strncmp) (x : st) : st :=
  let n := strncmp L (memory x) s1 (ncmp_s2 r) (ncmp_n r) in
  if ncmp_bad r n
  then complain "(Strncmp) test %d: expected %d, got %d" [i; ncmp_res r; n] x else x.

(** [memset(d, 0, LONGSTR + 1)]. *)
Definition clean (d : ptr) (x : st) : st :=
  set_memory (memset L (memory x) d 0 (LONGSTR + 1)) x.

Definition blexit (x : st) : entry :=
  if local_flag x =? PASSED then Entry TPASS None "Test passed" []
  else Entry TFAIL None "Test failed" [].

Definition strchr_tests (x : st) : st :=
  rows (fun r => r.1.1) rindex_row 0 t_rindex (rows (fun r => r.1.1) index_row 0 t_index x).

Definition strlen_tests (x : st) : st := rows fst strlen_row 0 t_len x.

Definition strcmp_tests (x : st) : st := rows (fun r => r.1.1) strcmp_row 0 t_cmp x.

Definition strcat_tests (x : st) : st :=
  rows cat_s1 strcat_row 0 t_cat (clean dst1 (clean dst0 x)).

Definition strcpy_tests (x : st) : st := rows (fun r => r.1.1) strcpy_row 0 t_cpy x.

Definition strncat_tests (x : st) : st :=
  rows ncat_s1 strncat_row 0 t_ncat (clean dst2 (clean dst1 (clean dst0 x))).

Definition strncmp_tests (x : st) : st := rows ncmp_s1 strncmp_row 0 t_ncmp x.

Definition strncpy_tests (x : st) : st :=
  rows ncat_s1 strncpy_row 0 t_ncpy (clean dst1 (clean dst0 x)).

Definition main_state : st :=
  let x := St (fill LONGSTR longstr mem0) PASSED [] in
  strncpy_tests (strncmp_tests (strncat_tests (strcpy_tests (strcat_tests
    (strcmp_tests (strlen_tests (strchr_tests x))))))).

(** The report of [main]. *)
Definition main : entry := blexit main_state.
End Test.

(** ** The memory of a run *)

(** The string an object holds throughout. *)
Definition const_str (o : obj) : option (list Z) :=
  match o with
  | Tiat => Some (chars "This is a test of the string functions.  ")
  | Yat => Some (chars "This is yet another test.")
  | Tiatyat => Some (chars "This is a test of the string functions.  This is yet another test.")
  | Longstr => Some (replicate LONGSTR (chr "t"))
  | Lit s => Some (chars s)
  | _ => None
  end.

Definition consts (m : mem) : Prop := forall o s, const_str o = Some s -> m o = s ++ [0].

(** The other objects are buffers of one size. *)
Definition wf (m : mem) : Prop :=
  consts m /\ forall o, const_str o = None -> length (m o) = (LONGSTR + 1)%nat.

(** The buffer [o] holds the string [s], followed by [rest]. *)
Definition buffer (m : mem) (o : obj) (s rest : list Z) : Prop :=
  const_str o = None /\ 0 ∉ s /\ m o = s ++ 0 :: rest.

Lemma const_cstr m o s : wf m -> const_str o = Some s -> 0 ∉ s -> cstr m (start o) s.
Proof. intros [Hm _] Ho Hs. split; [done|]. exists []. cbn [base off start drop]. by rewrite (Hm _ _ Ho). Qed.

Lemma buffer_cstr m o s rest : buffer m o s rest -> cstr m (start o) s.
Proof. intros (_ & Hs & Hm). split; [done|]. exists rest. cbn [base off start drop]. by rewrite Hm. Qed.

Lemma longstr_nonzero n : 0 ∉ replicate n (chr "t").
Proof. intros Hi%elem_of_replicate. by destruct Hi. Qed.

(** A write into a buffer leaves everything else alone. *)
Lemma poke_other m p bytes o : o <> base p -> poke m p bytes o = m o.
Proof. intros Hp. unfold poke. by rewrite decide_False. Qed.

Lemma poke_length m p bytes o :
  room m p (length bytes) -> length (poke m p bytes o) = length (m o).
Proof.
  unfold poke, room. intros Hr. destruct (decide (o = base p)) as [->|]; [|done].
  rewrite !length_app, length_take, length_drop. lia.
Qed.

Lemma wf_poke m m' at_ bytes :
  wf m -> const_str (base at_) = None -> room m at_ (length bytes) ->
  (forall o, m' o = poke m at_ bytes o) -> wf m'.
Proof.
  intros [Hm Hl] Hd Hr Hw. split.
  - intros o s Ho. rewrite Hw, poke_other; [by apply Hm|]. intros ->. congruence.
  - intros o Ho. rewrite Hw, poke_length by done. by apply Hl.
Qed.

(** Writing [t] and a 0 after the string of a buffer. *)
Lemma poke_append m o s rest t :
  buffer m o s rest ->
  poke m (plus (start o) (length s)) (t ++ [0]) o
  = (s ++ t) ++ 0 :: drop (length t) rest.
Proof.
  intros (_ & _ & Hm). unfold poke. cbn [base off plus start].
  rewrite decide_True by done. rewrite Hm. rewrite Nat.add_0_l.
  rewrite take_app_length, length_app. cbn [length].
  replace (length s + (length t + 1))%nat with (length s + S (length t))%nat by lia.
  rewrite drop_app_ge by lia. replace (length s + S (length t) - length s)%nat with (S (length t)) by lia.
  cbn [drop]. by rewrite <- !app_assoc.
Qed.

Lemma lex_refl s : lex s s = 0.
Proof. induction s as [|x s IH]; [done|]. cbn [lex]. by rewrite Z.eqb_refl. Qed.

(** ** Rows that pass *)

Section Rows.
Context (L : libc) `{!MostlyLawful L}.
Implicit Types (x : st) (m : mem).

(** Nothing has failed so far. *)
Definition good x : Prop := local_flag x = PASSED /\ out x = [] /\ wf (memory x).

(** [x'] is [x] with another content of buffer [d]. *)
Definition only_changes (d : obj) x x' : Prop :=
  good x' /\ forall o, o <> d -> memory x' o = memory x o.

(** A string function wrote [bytes] and the result compares equal. *)
Lemma compare_ok fmt i c d at_ bytes o u x :
  good x -> const_str d = None -> base at_ = d -> room (memory x) at_ (length bytes) ->
  writes (memory x) (start d) at_ bytes c -> cstr c.2 (start d) u ->
  const_str o = Some u -> 0 ∉ u ->
  let x' := compare_result L fmt i c (start o) 0 x in
  only_changes d x x' /\ memory x' = c.2.
Proof.
  intros (Hf & Ho & Hm) Hd Hb Hr [Hc1 Hc2] Hu Hou Hu0. destruct c as [p m']. cbn [fst snd] in *.
  subst p. assert (Hwf : wf m') by (eapply wf_poke; eauto; by rewrite Hb).
  assert (Hz : strcmp L m' (start d) (start o) =? 0 = true).
  { apply Z.eqb_eq, Z.sgn_null_iff.
    rewrite (strcmp_spec _ _ _ u u Hu (const_cstr _ _ _ Hwf Hou Hu0)). apply lex_refl. }
  unfold compare_result. cbn [fst snd]. rewrite Hz. cbn [negb]. split; [|done].
  split; [done|]. intros o' Ho'. cbn [memory set_memory]. rewrite Hc2. apply poke_other. congruence.
Qed.

Lemma buffer_room m d s rest n :
  wf m -> buffer m d s rest -> (n <= LONGSTR + 1)%nat -> room m (start d) n.
Proof. intros [_ Hl] (Hd & _) Hn. unfold room. cbn [off base start]. rewrite Hl by done. lia. Qed.

Lemma buffer_app_nonzero (s t : list Z) : 0 ∉ s -> 0 ∉ t -> 0 ∉ s ++ t.
Proof. intros Hs Ht [Hi|Hi]%elem_of_app; auto. Qed.

(** strcat and strncat: [t] is what is appended of the source string [t0]. *)
Lemma strcat_row_ok i d s rest o1 t o2 x :
  good x -> buffer (memory x) d s rest ->
  const_str o1 = Some t -> 0 ∉ t -> const_str o2 = Some (s ++ t) ->
  (length s + length t <= LONGSTR)%nat ->
  let x' := strcat_row L i (start d) (Cat (Some (start d)) (start o1) (start o2) 0) x in
  only_changes d x x' /\ buffer (memory x') d (s ++ t) (drop (length t) rest).
Proof.
  intros Hx Hbuf Ho1 Ht Ho2 Hn. pose proof Hx as (_ & _ & Hm). destruct Hbuf as (Hd & Hs & Hmd).
  assert (Hbuf : buffer (memory x) d s rest) by done.
  pose proof (strcat_spec (memory x) (start d) (start o1) s t (buffer_cstr _ _ _ _ Hbuf)
    (const_cstr _ _ _ Hm Ho1 Ht) ltac:(cbn; congruence)
    (buffer_room _ _ _ _ (length s + length t + 1) Hm Hbuf ltac:(lia))) as Hw.
  pose proof (buffer_app_nonzero _ _ Hs Ht) as Hst.
  assert (Hc : buffer (strcat L (memory x) (start d) (start o1)).2 d (s ++ t) (drop (length t) rest)).
  { split; [done|]. split; [done|]. rewrite (proj2 Hw). by apply poke_append. }
  unfold strcat_row. cbn [cat_s2 cat_s1s2 cat_res].
  edestruct (compare_ok "(Strcat) test %d: expected %d, got %d" i) as [H1 H2];
    [exact Hx|exact Hd| |..|exact Hw|by eapply buffer_cstr|exact Ho2|exact Hst|]; [done| |].
  { unfold room. cbn [off plus start base]. rewrite length_app, (proj2 Hm) by done. simpl. lia. }
  split; [exact H1|]. by rewrite H2.
Qed.

Lemma strncat_row_ok i d s rest o1 t n t' o2 x :
  good x -> buffer (memory x) d s rest ->
  const_str o1 = Some t -> 0 ∉ t -> take n t = t' -> const_str o2 = Some (s ++ t') ->
  (length s + length t' <= LONGSTR)%nat ->
  let x' := strncat_row L i (start d) (NCat (Some (start d)) (start o1) n (start o2) 0) x in
  only_changes d x x' /\ buffer (memory x') d (s ++ t') (drop (length t') rest).
Proof.
  intros Hx Hbuf Ho1 Ht <- Ho2 Hn. rewrite length_take in Hn. pose proof Hx as (_ & _ & Hm). destruct Hbuf as (Hd & Hs & Hmd).
  assert (Hbuf : buffer (memory x) d s rest) by done.
  pose proof (strncat_spec (memory x) (start d) (start o1) s t n (buffer_cstr _ _ _ _ Hbuf)
    (const_cstr _ _ _ Hm Ho1 Ht) ltac:(cbn; congruence)
    (buffer_room _ _ _ _ (length s + min n (length t) + 1) Hm Hbuf ltac:(lia))) as Hw.
  assert (Htn : 0 ∉ take n t) by (intros Hi; apply Ht; rewrite <- (take_drop n t); apply elem_of_app; by left).
  pose proof (buffer_app_nonzero _ _ Hs Htn) as Hst.
  assert (Hc : buffer (strncat L (memory x) (start d) (start o1) n).2 d (s ++ take n t)
                 (drop (length (take n t)) rest)).
  { split; [done|]. split; [done|]. rewrite (proj2 Hw). by apply poke_append. }
  unfold strncat_row. cbn [ncat_s2 ncat_s1ns2 ncat_res ncat_n].
  edestruct (compare_ok "(Strncat) test %d: expected %d, got %d" i) as [H1 H2];
    [exact Hx|exact Hd| |..|exact Hw|by eapply buffer_cstr|exact Ho2|exact Hst|]; [done| |].
  { unfold room. cbn [off plus start base]. rewrite length_app, length_take, (proj2 Hm) by done.
    simpl. lia. }
  split; [exact H1|]. by rewrite H2.
Qed.

(** strcpy and strncpy write at the start of the buffer. *)
Lemma poke_start m d bytes : poke m (start d) bytes d = bytes ++ drop (length bytes) (m d).
Proof. unfold poke. cbn [base off start]. by rewrite decide_True, Nat.add_0_l. Qed.

Lemma strcpy_row_ok i d o1 t x :
  good x -> const_str d = None -> const_str o1 = Some t -> 0 ∉ t -> (length t <= LONGSTR)%nat ->
  only_changes d x (strcpy_row L i (start d) (Some (start d), start o1, 0) x).
Proof.
  intros Hx Hd Ho1 Ht Hn. pose proof Hx as (_ & _ & Hm).
  assert (Hr : room (memory x) (start d) (length t + 1)).
  { unfold room. cbn [off base start]. rewrite (proj2 Hm) by done. lia. }
  pose proof (strcpy_spec (memory x) (start d) (start o1) t (const_cstr _ _ _ Hm Ho1 Ht)
    ltac:(cbn; congruence) Hr) as Hw.
  unfold strcpy_row. cbn [fst snd].
  edestruct (compare_ok "(Strcpy) test %d: expected %d, got %d" i) as [H1 H2];
    [exact Hx|exact Hd| |..|exact Hw| |exact Ho1|exact Ht|exact H1]; [done| |].
  { by rewrite length_app. }
  split; [done|]. eexists. cbn [base off start drop]. rewrite (proj2 Hw), poke_start, <- app_assoc.
  done.
Qed.

Lemma strncpy_row_ok i d o1 t n o2 u rest x :
  good x -> const_str d = None -> const_str o1 = Some t -> 0 ∉ t -> (n <= LONGSTR)%nat ->
  take n (t ++ replicate n 0) ++ drop n (memory x d) = u ++ 0 :: rest ->
  const_str o2 = Some u -> 0 ∉ u ->
  let x' := strncpy_row L i (start d) (NCat (Some (start d)) (start o1) n (start o2) 0) x in
  only_changes d x x' /\ memory x' d = u ++ 0 :: rest.
Proof.
  intros Hx Hd Ho1 Ht Hn He Ho2 Hu. pose proof Hx as (_ & _ & Hm).
  assert (Hlen : length (take n (t ++ replicate n 0)) = n).
  { rewrite length_take, length_app, length_replicate. lia. }
  assert (Hr : room (memory x) (start d) n).
  { unfold room. cbn [off base start]. rewrite (proj2 Hm) by done. lia. }
  pose proof (strncpy_spec (memory x) (start d) (start o1) t n (const_cstr _ _ _ Hm Ho1 Ht)
    ltac:(cbn; congruence) Hr) as Hw.
  assert (Hmd : (strncpy L (memory x) (start d) (start o1) n).2 d = u ++ 0 :: rest).
  { by rewrite (proj2 Hw), poke_start, Hlen. }
  unfold strncpy_row. cbn [ncat_s2 ncat_s1ns2 ncat_res ncat_n].
  edestruct (compare_ok "(Strncpy) test %d: expected %d, got %d" i) as [H1 H2];
    [exact Hx|exact Hd| |..|exact Hw| |exact Ho2|exact Hu|]; [done|by rewrite Hlen| |].
  { split; [done|]. exists rest. exact Hmd. }
  split; [exact H1|]. by rewrite H2.
Qed.

Lemma clean_ok d x :
  good x -> const_str d = None ->
  only_changes d x (clean L (start d) x)
  /\ memory (clean L (start d) x) d = replicate (LONGSTR + 1) 0.
Proof.
  intros (Hf & Ho & Hm) Hd.
  assert (Hr : room (memory x) (start d) (LONGSTR + 1)).
  { unfold room. cbn [off base start]. rewrite (proj2 Hm) by done. lia. }
  pose proof (memset_spec (memory x) (start d) 0 _ ltac:(lia) Hr) as Hw.
  assert (Hl : length (replicate (LONGSTR + 1) 0) = (LONGSTR + 1)%nat) by apply length_replicate.
  split; [split|].
  - split; [done|]. split; [done|]. eapply wf_poke; [exact Hm| | |exact Hw]; [done|].
    by rewrite Hl.
  - intros o Hne. cbn [clean memory set_memory]. rewrite Hw. by apply poke_other.
  - cbn [clean memory set_memory]. rewrite Hw, poke_start, Hl, drop_ge, app_nil_r; [done|].
    rewrite (proj2 Hm) by done. lia.
Qed.

(** ** Tables that pass *)

Abbreviation tiat_s := (chars "This is a test of the string functions.  ").
Abbreviation yat_s := (chars "This is yet another test.").

Ltac nonzero := refine (bool_decide_eq_true_1 _ _); vm_compute; reflexivity.

Lemma const_good o s x : good x -> const_str o = Some s -> 0 ∉ s -> cstr (memory x) (start o) s.
Proof. intros (_ & _ & Hm). by apply const_cstr. Qed.

Lemma index_row_ok i o s c q x :
  good x -> const_str o = Some s -> 0 ∉ s -> c <> 0 -> plus (start o) <$> first_index c s = q ->
  index_row L i (start o) (Some (start o), c, q) x = x.
Proof.
  intros Hx Ho Hs Hc Hq. unfold index_row. cbn [fst snd].
  rewrite (strchr_spec _ _ s c (const_good _ _ _ Hx Ho Hs) Hc), Hq.
  by rewrite bool_decide_eq_true_2.
Qed.

Lemma rindex_row_ok i o s c q x :
  good x -> const_str o = Some s -> 0 ∉ s -> c <> 0 -> plus (start o) <$> last_index c s = q ->
  rindex_row L i (start o) (Some (start o), c, q) x = x.
Proof.
  intros Hx Ho Hs Hc Hq. unfold rindex_row. cbn [fst snd].
  rewrite (strrchr_spec _ _ s c (const_good _ _ _ Hx Ho Hs) Hc), Hq.
  by rewrite bool_decide_eq_true_2.
Qed.

Lemma strchr_tests_ok x : good x -> strchr_tests L x = x.
Proof.
  intros Hx. unfold strchr_tests, t_index, t_rindex, lit, tiat. cbn [rows fst].
  do 5 (erewrite (index_row_ok _ _ _ _ _ x); [|exact Hx|reflexivity|nonzero|done|reflexivity]).
  do 5 (erewrite (rindex_row_ok _ _ _ _ _ x); [|exact Hx|reflexivity|nonzero|done|reflexivity]).
  done.
Qed.

Lemma strlen_row_ok i o s n x :
  good x -> const_str o = Some s -> 0 ∉ s -> to_int (Z.of_nat (length s)) = n ->
  strlen_row L i (start o) (Some (start o), n) x = x.
Proof.
  intros Hx Ho Hs Hn. unfold strlen_row. cbn [snd].
  by rewrite (strlen_spec _ _ s (const_good _ _ _ Hx Ho Hs)), Hn, Z.eqb_refl.
Qed.

Lemma to_int_small z : 0 <= z < 2 ^ 31 -> to_int z = z.
Proof.
  intros Hz. unfold to_int, swrap. rewrite Z.mod_small by lia. cbv zeta.
  by rewrite (proj2 (Z.ltb_lt _ _)) by lia.
Qed.

Lemma strlen_tests_ok x : good x -> strlen_tests L x = x.
Proof.
  intros Hx. unfold strlen_tests, t_len, lit, tiat, longstr. cbn [rows fst].
  do 3 (erewrite (strlen_row_ok _ _ _ _ x); [|exact Hx|reflexivity|nonzero|reflexivity]).
  erewrite (strlen_row_ok _ _ _ _ x); [done|exact Hx|reflexivity|apply longstr_nonzero|].
  rewrite length_replicate. apply to_int_small. pose proof LONGSTR_int. lia.
Qed.

Lemma sign_sgn n : sign n = Z.sgn n.
Proof. unfold sign. destruct (Z.ltb_spec n 0), (Z.ltb_spec 0 n); lia. Qed.

Lemma strcmp_row_ok i o1 s o2 t n x :
  good x -> const_str o1 = Some s -> const_str o2 = Some t -> 0 ∉ s -> 0 ∉ t ->
  lex s t = Z.sgn n ->
  strcmp_row L i (start o1) (Some (start o1), start o2, n) x = x.
Proof.
  intros Hx Ho1 Ho2 Hs Ht Hl. unfold strcmp_row. cbn [fst snd]. rewrite !sign_sgn.
  rewrite (strcmp_spec _ _ _ s t (const_good _ _ _ Hx Ho1 Hs) (const_good _ _ _ Hx Ho2 Ht)).
  by rewrite Hl, Z.eqb_refl.
Qed.

Lemma strcmp_tests_ok x : good x -> strcmp_tests L x = x.
Proof.
  intros Hx. unfold strcmp_tests, t_cmp, lit, tiat, yat. cbn [rows fst].
  do 5 (erewrite (strcmp_row_ok _ _ _ _ _ _ x); [|exact Hx|reflexivity|reflexivity|nonzero|nonzero|reflexivity]).
  done.
Qed.

Lemma longstr_const : const_str Longstr = Some (replicate LONGSTR (chr "t")).
Proof. done. Qed.

Lemma zeros_buffer m d : const_str d = None -> m d = replicate (LONGSTR + 1) 0 ->
  buffer m d [] (replicate LONGSTR 0).
Proof.
  intros Hd Hm. split; [done|]. split; [apply not_elem_of_nil|].
  rewrite Hm. replace (LONGSTR + 1)%nat with (S LONGSTR) by lia. reflexivity.
Qed.

Lemma buffer_kept m m' d o s rest :
  buffer m o s rest -> (forall o', o' <> d -> m' o' = m o') -> o <> d -> buffer m' o s rest.
Proof. intros (H1 & H2 & H3) Hk Hne. by rewrite <- (Hk o Hne) in H3. Qed.

(** Carries what is known of a buffer over a row that changes another one. *)
Ltac carry D K :=
  let H := fresh in
  pose proof (buffer_kept _ _ _ _ _ _ D K ltac:(done)) as H; clear D; rename H into D.

Lemma fits_long n : (n <=? 80)%nat = true -> (n <= LONGSTR)%nat.
Proof. intros Hn%Nat.leb_le. pose proof LONGSTR_large. lia. Qed.

Ltac fits := apply fits_long; vm_compute; reflexivity.
Ltac fits_longstr := rewrite length_replicate; cbn [length]; lia.

Lemma strcat_tests_ok x : good x -> good (strcat_tests L x).
Proof.
  intros Hx. unfold strcat_tests.
  destruct (clean_ok Dst0 x Hx eq_refl) as [[G0 _] B0].
  destruct (clean_ok Dst1 _ G0 eq_refl) as [[G1 K1] B1].
  fold dst0 dst1 in *. set (x1 := clean L dst1 (clean L dst0 x)) in *.
  pose proof (zeros_buffer _ Dst1 eq_refl B1) as C1.
  assert (C0 : buffer (memory x1) Dst0 [] (replicate LONGSTR 0)).
  { apply zeros_buffer; [done|]. by rewrite K1, B0. }
  edestruct (strcat_row_ok 0 Dst0 _ _ (Lit "") _ (Lit "") x1 G1 C0 eq_refl) as [[G2 K2] C2];
    [nonzero|reflexivity|fits|].
  edestruct (strcat_row_ok (0 + 1) Dst0 _ _ Tiat _ Tiat _ G2 C2 eq_refl) as [[G3 K3] C3];
    [nonzero|reflexivity|fits|].
  edestruct (strcat_row_ok (0 + 1 + 1) Dst0 _ _ (Lit "") _ Tiat _ G3 C3 eq_refl) as [[G4 K4] C4];
    [nonzero|reflexivity|fits|].
  edestruct (strcat_row_ok (0 + 1 + 1 + 1) Dst0 _ _ Yat _ Tiatyat _ G4 C4 eq_refl)
    as [[G5 K5] C5]; [nonzero|reflexivity|fits|].
  carry C1 K2. carry C1 K3. carry C1 K4. carry C1 K5.
  edestruct (strcat_row_ok (0 + 1 + 1 + 1 + 1) Dst1 _ _ Longstr _ Longstr _ G5 C1 eq_refl)
    as [[G6 K6] C6]; [apply longstr_nonzero|reflexivity|fits_longstr|].
  exact G6.
Qed.

Lemma strcpy_tests_ok x : good x -> good (strcpy_tests L x).
Proof.
  intros Hx. unfold strcpy_tests.
  edestruct (strcpy_row_ok 0 Dst0 (Lit "") _ x Hx eq_refl eq_refl) as [G1 _]; [nonzero|fits|].
  edestruct (strcpy_row_ok (0 + 1) Dst0 Tiat _ _ G1 eq_refl eq_refl) as [G2 _]; [nonzero|fits|].
  edestruct (strcpy_row_ok (0 + 1 + 1) Dst0 Longstr _ _ G2 eq_refl eq_refl) as [G3 _];
    [apply longstr_nonzero|fits_longstr|].
  exact G3.
Qed.

Lemma strncat_tests_ok x : good x -> good (strncat_tests L x).
Proof.
  intros Hx. unfold strncat_tests.
  destruct (clean_ok Dst0 x Hx eq_refl) as [[G0 _] B0].
  destruct (clean_ok Dst1 _ G0 eq_refl) as [[G1 K1] B1].
  destruct (clean_ok Dst2 _ G1 eq_refl) as [[G2 K2] B2].
  fold dst0 dst1 dst2 in *. set (x2 := clean L dst2 (clean L dst1 (clean L dst0 x))) in *.
  pose proof (zeros_buffer _ Dst2 eq_refl B2) as E.
  assert (D : buffer (memory x2) Dst1 [] (replicate LONGSTR 0)).
  { apply zeros_buffer; [done|]. by rewrite K2, B1. }
  assert (C : buffer (memory x2) Dst0 [] (replicate LONGSTR 0)).
  { apply zeros_buffer; [done|]. by rewrite K2, K1, B0. }
  edestruct (strncat_row_ok 0 Dst0 _ _ (Lit "") _ LONGSTR [] (Lit "") x2 G2 C eq_refl) as [[G3 K3] C3]; [nonzero|apply take_ge; fits|reflexivity|fits|].
  edestruct (strncat_row_ok (0 + 1) Dst0 _ _ Tiat _ LONGSTR tiat_s Tiat _ G3 C3 eq_refl) as [[G4 K4] C4]; [nonzero|apply take_ge; fits|reflexivity|fits|].
  edestruct (strncat_row_ok (0 + 1 + 1) Dst0 _ _ (Lit "") _ LONGSTR [] Tiat _ G4 C4 eq_refl) as [[G5 K5] C5]; [nonzero|apply take_ge; fits|reflexivity|fits|].
  edestruct (strncat_row_ok (0 + 1 + 1 + 1) Dst0 _ _ Yat _ LONGSTR yat_s Tiatyat _ G5 C5 eq_refl) as [[G6 K6] C6]; [nonzero|apply take_ge; fits|reflexivity|fits|].
  carry D K3. carry D K4. carry D K5. carry D K6.
  carry E K3. carry E K4. carry E K5. carry E K6.
  edestruct (strncat_row_ok (0 + 1 + 1 + 1 + 1) Dst1 _ _ Longstr _ LONGSTR
    (replicate LONGSTR (chr "t")) Longstr _ G6 D eq_refl) as [[G7 K7] C7];
    [apply longstr_nonzero|apply take_ge; by rewrite length_replicate|reflexivity|fits_longstr|].
  carry E K7.
  edestruct (strncat_row_ok (0 + 1 + 1 + 1 + 1 + 1) Dst2 _ _ Longstr _ 0 [] (Lit "") _ G7 E
    eq_refl) as [[G8 K8] C8]; [apply longstr_nonzero|reflexivity|reflexivity|fits|].
  pose proof LONGSTR_large as Hl.
  edestruct (strncat_row_ok (0 + 1 + 1 + 1 + 1 + 1 + 1) Dst2 _ _ Longstr _ 1 [chr "t"] (Lit "t") _
    G8 C8 eq_refl) as [[G9 K9] C9]; [apply longstr_nonzero| |reflexivity|fits|].
  { rewrite take_replicate. replace (1 `min` LONGSTR)%nat with 1%nat by lia. reflexivity. }
  edestruct (strncat_row_ok (0 + 1 + 1 + 1 + 1 + 1 + 1 + 1) Dst2 _ _ Longstr _ (LONGSTR - 1)
    (replicate (LONGSTR - 1) (chr "t")) Longstr _ G9 C9 eq_refl) as [[G10 K10] C10];
    [apply longstr_nonzero| | | |exact G10].
  - rewrite take_replicate. replace ((LONGSTR - 1) `min` LONGSTR)%nat with (LONGSTR - 1)%nat by lia. reflexivity.
  - rewrite longstr_const. cbn [app].
    change (chr "t" :: replicate (LONGSTR - 1) (chr "t")) with (replicate (S (LONGSTR - 1)) (chr "t")).
    replace (S (LONGSTR - 1)) with LONGSTR by lia. reflexivity.
  - rewrite length_replicate. cbn [length app]. lia.
Qed.

(** strncpy pads with zeros; with the last byte of the buffer 0, a full-width copy
    leaves a string. *)
Lemma padded (t rest : list Z) :
  (length t < LONGSTR)%nat ->
  take LONGSTR (t ++ replicate LONGSTR 0) ++ 0 :: rest
  = t ++ 0 :: replicate (LONGSTR - length t - 1) 0 ++ 0 :: rest.
Proof.
  intros Ht. rewrite take_app, take_ge by lia. rewrite take_replicate.
  replace ((LONGSTR - length t) `min` LONGSTR)%nat with (S (LONGSTR - length t - 1)) by lia.
  cbn [replicate]. by rewrite <- app_assoc.
Qed.

Lemma last_byte (t rest : list Z) n :
  length (t ++ 0 :: replicate n 0 ++ 0 :: rest) = (LONGSTR + 1)%nat -> rest = [] ->
  drop LONGSTR (t ++ 0 :: replicate n 0 ++ 0 :: rest) = [0].
Proof.
  intros Hl ->. rewrite length_app in Hl. cbn [length] in Hl.
  rewrite length_app, length_replicate in Hl. cbn [length] in Hl.
  replace (t ++ 0 :: replicate n 0 ++ [0]) with ((t ++ 0 :: replicate n 0) ++ [0])
    by (by rewrite <- app_assoc).
  rewrite drop_app_length'; [done|]. rewrite length_app. cbn [length].
  rewrite length_replicate. lia.
Qed.

Lemma strncpy_full_ok i d o t x :
  good x -> const_str d = None -> const_str o = Some t -> 0 ∉ t -> (length t < LONGSTR)%nat ->
  drop LONGSTR (memory x d) = [0] ->
  let x' := strncpy_row L i (start d) (NCat (Some (start d)) (start o) LONGSTR (start o) 0) x in
  only_changes d x x' /\ drop LONGSTR (memory x' d) = [0].
Proof.
  intros Hx Hd Ho Ht Hl Hz.
  destruct (strncpy_row_ok i d o t LONGSTR o t (replicate (LONGSTR - length t - 1) 0 ++ [0]) x)
    as [H1 H2]; try done.
  { rewrite Hz. by apply padded. }
  split; [exact H1|]. pose proof (proj2 (proj2 (proj2 (proj1 H1))) d Hd) as Hlen.
  rewrite H2 in Hlen |- *. by apply last_byte.
Qed.

Lemma short_long n : (n <? 80)%nat = true -> (n < LONGSTR)%nat.
Proof. intros Hn%Nat.ltb_lt. pose proof LONGSTR_large. lia. Qed.

Lemma strncpy_tests_ok x : good x -> good (strncpy_tests L x).
Proof.
  intros Hx. unfold strncpy_tests. pose proof LONGSTR_large as Hl.
  destruct (clean_ok Dst0 x Hx eq_refl) as [[G0 _] B0].
  destruct (clean_ok Dst1 _ G0 eq_refl) as [[G1 K1] B1].
  fold dst0 dst1 in *. set (x1 := clean L dst1 (clean L dst0 x)) in *.
  edestruct (strncpy_full_ok 0 Dst0 (Lit "") [] x1 G1 eq_refl eq_refl) as [[G2 K2] Z2];
    [nonzero|by apply short_long| |].
  { rewrite K1, B0, drop_replicate by done.
    replace (LONGSTR + 1 - LONGSTR)%nat with 1%nat by lia. reflexivity. }
  edestruct (strncpy_full_ok (0 + 1) Dst0 Tiat tiat_s _ G2 eq_refl eq_refl) as [[G3 K3] Z3];
    [nonzero|by apply short_long|exact Z2|].
  edestruct (strncpy_row_ok (0 + 1 + 1) Dst0 Longstr (replicate LONGSTR (chr "t")) LONGSTR Longstr
    (replicate LONGSTR (chr "t")) [] _ G3 eq_refl eq_refl) as [[G4 K4] _];
    [apply longstr_nonzero|done| |reflexivity|apply longstr_nonzero|].
  { rewrite Z3, take_app_length' by (by rewrite length_replicate). reflexivity. }
  edestruct (strncpy_row_ok (0 + 1 + 1 + 1) Dst1 Tiat tiat_s 0 (Lit "") [] (replicate LONGSTR 0) _
    G4 eq_refl eq_refl) as [[G5 K5] C5]; [nonzero|lia| |reflexivity|nonzero|].
  { cbn [replicate take drop app]. rewrite K4, K3, K2, B1 by done.
    replace (LONGSTR + 1)%nat with (S LONGSTR) by lia. reflexivity. }
  edestruct (strncpy_row_ok (0 + 1 + 1 + 1 + 1) Dst1 Longstr (replicate LONGSTR (chr "t")) 5
    (Lit "ttttt") (replicate 5 (chr "t")) (replicate (LONGSTR - 5) 0) _ G5 eq_refl eq_refl)
    as [[G6 K6] _]; [apply longstr_nonzero|lia| |reflexivity|nonzero|exact G6].
  assert (Hd : drop 5 (0 :: replicate LONGSTR 0) = 0 :: replicate (LONGSTR - 5) 0).
  { change (0 :: replicate LONGSTR 0) with (replicate (S LONGSTR) 0). rewrite drop_replicate.
    replace (S LONGSTR - 5)%nat with (S (LONGSTR - 5)) by lia. reflexivity. }
  rewrite C5, take_app_le by (rewrite length_replicate; lia).
  rewrite take_replicate. replace (5 `min` LONGSTR)%nat with 5%nat by lia. cbn [app].
  rewrite Hd. reflexivity.
Qed.

(** ** The whole run *)

(** The initialisation of [longstr]. *)
Lemma fill_spec n o k m :
  (k + n < length (m o))%nat ->
  fill n (Ptr o k) m o = take k (m o) ++ replicate n (chr "t") ++ 0 :: drop (k + n + 1) (m o).
Proof.
  revert k m. induction n as [|n IH]; intros k m Hk; cbn [fill].
  - unfold poke. cbn [base off length]. rewrite decide_True by done.
    cbn [replicate app]. by rewrite Nat.add_0_r.
  - change (plus (Ptr o k) 1) with (Ptr o (k + 1)).
    assert (Hp : poke m (Ptr o k) [chr "t"] o = take k (m o) ++ chr "t" :: drop (k + 1) (m o)).
    { unfold poke. cbn [base off length]. by rewrite decide_True. }
    assert (Hl : length (take k (m o)) = k) by (rewrite length_take; lia).
    assert (Hd : drop (k + 1 + n + 1) (take k (m o) ++ chr "t" :: drop (k + 1) (m o))
                 = drop (k + S n + 1) (m o)).
    { rewrite drop_app_ge, Hl by lia. replace (k + 1 + n + 1 - k)%nat with (S (n + 1)) by lia.
      cbn [drop]. rewrite drop_drop. by replace (k + 1 + (n + 1))%nat with (k + S n + 1)%nat by lia. }
    rewrite IH; rewrite Hp.
    + rewrite Hd, take_app, take_ge, Hl by lia. replace (k + 1 - k)%nat with 1%nat by lia.
      cbn [take replicate]. by rewrite <- app_assoc.
    + rewrite length_app. cbn [length]. rewrite length_drop, Hl. lia.
Qed.

Lemma fill_other n o o' k m : o' <> o -> fill n (Ptr o k) m o' = m o'.
Proof.
  intros Ho. revert k m. induction n as [|n IH]; intros k m; cbn [fill].
  - by apply poke_other.
  - change (plus (Ptr o k) 1) with (Ptr o (k + 1)). rewrite IH. by apply poke_other.
Qed.

Lemma good_start : good (St (fill LONGSTR longstr mem0) PASSED []).
Proof.
  split; [done|]. split; [done|]. split; cbn [memory].
  - intros o s Ho. destruct (decide (o = Longstr)) as [->|Hne].
    + injection Ho as <-. unfold longstr, start. rewrite fill_spec.
      * cbn [mem0]. rewrite drop_ge by (rewrite length_replicate; lia). done.
      * cbn [mem0]. rewrite length_replicate. lia.
    + unfold longstr, start. rewrite fill_other by done. destruct o; try done; by injection Ho as <-.
  - intros o Ho. unfold longstr, start. rewrite fill_other by (by intros ->).
    destruct o; try discriminate Ho; apply length_replicate.
Qed.

(** A strncmp that has the right sign for different strings, and gives nothing
    negative for equal ones. *)
Definition tolerated (e r : Z) : Prop := if e =? 0 then 0 <= r else Z.sgn r = e.

Definition tolerable : Prop := forall m p q s t n,
  cstr m p s -> cstr m q t -> tolerated (lex (take n s) (take n t)) (strncmp L m p q n).

Lemma strncmp_row_ok i o1 s o2 t n e a x :
  tolerable -> good x -> const_str o1 = Some s -> const_str o2 = Some t -> 0 ∉ s -> 0 ∉ t ->
  (forall r, tolerated (lex (take n s) (take n t)) r ->
     ncmp_bad (NCmp (Some (start o1)) (start o2) n e a) r = false) ->
  strncmp_row L i (start o1) (NCmp (Some (start o1)) (start o2) n e a) x = x.
Proof.
  intros Hl Hx Ho1 Ho2 Hs Ht Hb. unfold strncmp_row. cbn [ncmp_s2 ncmp_n ncmp_res].
  by rewrite (Hb _ (Hl _ _ _ _ _ n (const_good _ _ _ Hx Ho1 Hs) (const_good _ _ _ Hx Ho2 Ht))).
Qed.

Ltac tolerated_row :=
  match goal with |- context [lex ?a ?b] =>
    let v := eval vm_compute in (lex a b) in change (lex a b) with v
  end;
  unfold tolerated, ncmp_bad; cbn [Z.eqb ncmp_res a_res];
  repeat match goal with |- context [chr ?c] =>
    let v := eval vm_compute in (chr c) in change (chr c) with v
  end;
  intros r Hr; apply not_true_is_false; intros Hb;
  rewrite !andb_true_iff, !orb_true_iff, !andb_true_iff in Hb; zbool; lia.

Lemma strncmp_tests_ok x : tolerable -> good x -> strncmp_tests L x = x.
Proof.
  intros Hl Hx. unfold strncmp_tests, t_ncmp, lit, tiat, yat. cbn [rows ncmp_s1].
  do 9 (erewrite (strncmp_row_ok _ _ _ _ _ _ _ _ x);
        [|exact Hl|exact Hx|reflexivity|reflexivity|nonzero|nonzero|tolerated_row]). done.
Qed.

Lemma main_state_good : tolerable -> good (main_state L).
Proof.
  intros Hl. unfold main_state. pose proof good_start as H0.
  rewrite (strchr_tests_ok _ H0), (strlen_tests_ok _ H0), (strcmp_tests_ok _ H0).
  pose proof (strncat_tests_ok _ (strcpy_tests_ok _ (strcat_tests_ok _ H0))) as H1.
  rewrite (strncmp_tests_ok _ Hl H1). by apply strncpy_tests_ok.
Qed.

Lemma good_passes x : good x -> blexit x = Entry TPASS None "Test passed" [] /\ out x = [].
Proof. intros (Hf & Ho & _). split; [|done]. unfold blexit. by rewrite Hf. Qed.
End Rows.

Lemma lawful_tolerable L `{!Lawful L} : tolerable L.
Proof.
  intros m p q s t n Hp Hq. unfold tolerated. rewrite <- (strncmp_spec m p q s t n Hp Hq).
  destruct (Z.eqb_spec (Z.sgn (strncmp L m p q n)) 0) as [Hz|]; [|done].
  apply Z.sgn_null_iff in Hz. lia.
Qed.

(** C35: with every C library that keeps the promises of the C standard, string01 passes
    and prints no complaint; every call it makes stays inside its buffers, since the
    library promises nothing about others. *)
Theorem string01_passes L `{!Lawful L} :
  main L = Entry TPASS None "Test passed" [] /\ out (main_state L) = [].
Proof. apply good_passes, main_state_good; [exact _|]. by apply lawful_tolerable. Qed.

(** ** What the strncmp table does not see *)

(** The rows of [t_ncmp] with [a_res] 0, those that compare equal strings, accept
    every result; the row that compares the 8 equal characters of two different
    strings accepts every result that is not negative; only the other rows ask for
    the right sign. *)
Theorem t_ncmp_accepts n :
  map (fun r => negb (ncmp_bad r n)) (take 9 t_ncmp)
  = [true; true; true; n <? 0; 0 <? n; true; 0 <? n; 0 <=? n; 0 <? n].
Proof.
  unfold t_ncmp. cbn [take map]. unfold ncmp_bad. cbn [ncmp_res a_res].
  change (chr "T") with 84. change (chr "y" - chr "a") with 24.
  rewrite !andb_false_r.
  assert (E : forall e, 1 <= e -> negb (negb (n =? e) && ((1 <? 0) && (1 <? n) || (0 <? 1) && (n <? 1))) = (0 <? n)).
  { intros e He. cbn [Z.ltb Z.compare andb orb]. destruct (Z.eqb_spec n e), (Z.ltb_spec n 1), (Z.ltb_spec 0 n);
      simpl; lia || done. }
  rewrite !E by lia. repeat f_equal.
  - destruct (Z.eqb_spec n (-84)), (Z.ltb_spec (-1) n), (Z.ltb_spec n 0); simpl; lia || done.
  - destruct (Z.eqb_spec n 0), (Z.ltb_spec n 1), (Z.leb_spec 0 n); simpl; lia || done.
Qed.

(** A library whose strncmp never finds two strings equal. *)
Definition never_equal (L : libc) : libc :=
  LibC (strchr L) (strrchr L) (strlen L) (strcmp L)
    (fun m p q n => let r := strncmp L m p q n in if r =? 0 then 1 else r)
    (strcat L) (strcpy L) (strncat L) (strncpy L) (memset L).

#[export] Instance never_equal_most L `{!MostlyLawful L} : MostlyLawful (never_equal L).
Proof.
  split; cbn.
  - apply strchr_spec.
  - apply strrchr_spec.
  - apply strlen_spec.
  - apply strcmp_spec.
  - apply strcat_spec.
  - apply strcpy_spec.
  - apply strncat_spec.
  - apply strncpy_spec.
  - apply memset_spec.
Qed.

(** String01 passes as well with a library whose strncmp tells any two strings
    apart, even a string from itself. *)
Theorem string01_misses L `{!Lawful L} :
  (forall m p q n, strncmp (never_equal L) m p q n <> 0)
  /\ main (never_equal L) = Entry TPASS None "Test passed" [].
Proof.
  split.
  - intros m p q n. cbn. by destruct (Z.eqb_spec (strncmp L m p q n) 0).
  - apply good_passes, main_state_good; [exact _|].
    intros m p q s t n Hp Hq. pose proof (lawful_tolerable L m p q s t n Hp Hq) as Ht.
    unfold tolerated in *. cbn [strncmp never_equal].
    destruct (Z.eqb_spec (lex (take n s) (take n t)) 0) as [He|He].
    + by destruct (strncmp L m p q n =? 0).
    + destruct (Z.eqb_spec (strncmp L m p q n) 0) as [Hz|]; [|done].
      rewrite Hz in Ht. cbn in Ht. congruence.
Qed.

(** ** A library *)

(** The string at [p], read up to the first 0. *)
Fixpoint until_zero (l : list Z) : list Z :=
  match l with
  | [] => []
  | x :: l => if x =? 0 then [] else x :: until_zero l
  end.

Definition read (m : mem) (p : ptr) : list Z := until_zero (drop (off p) (m (base p))).

Lemma read_cstr m p s : cstr m p s -> read m p = s.
Proof.
  intros [Hs [rest Hd]]. unfold read. rewrite Hd. clear Hd.
  induction s as [|x s IH]; [done|]. cbn [app until_zero].
  destruct (Z.eqb_spec x 0) as [->|_]; [by destruct Hs; left|].
  f_equal. apply IH. intros Hi. apply Hs. by right.
Qed.

Definition simple_libc : libc := LibC
  (fun m p c => plus p <$> first_index c (read m p))
  (fun m p c => plus p <$> last_index c (read m p))
  (fun m p => Z.of_nat (length (read m p)))
  (fun m p q => lex (read m p) (read m q))
  (fun m p q n => lex (take n (read m p)) (take n (read m q)))
  (fun m d p => (d, poke m (plus d (length (read m d))) (read m p ++ [0])))
  (fun m d p => (d, poke m d (read m p ++ [0])))
  (fun m d p n => (d, poke m (plus d (length (read m d))) (take n (read m p) ++ [0])))
  (fun m d p n => (d, poke m d (take n (read m p ++ replicate n 0))))
  (fun m d c n => poke m d (replicate n c)).

Lemma sgn_lex s t : Z.sgn (lex s t) = lex s t.
Proof.
  revert t. induction s as [|x s IH]; intros [|y t]; try done. cbn [lex].
  destruct (x =? y); [apply IH|]. by destruct (x - y).
Qed.

#[export] Instance simple_lawful : Lawful simple_libc.
Proof.
  split; [split|]; cbn; intros; unfold writes; cbn;
    repeat match goal with H : cstr ?m ?p ?s |- _ => rewrite (read_cstr m p s H); clear H end;
    rewrite ?sgn_lex; done.
Qed.

Lemma string01_passes_witness :
  main simple_libc = Entry TPASS None "Test passed" [] /\ out (main_state simple_libc) = [].
Proof. exact (string01_passes simple_libc). Defined.

Lemma string01_misses_witness :
  (forall m p q n, strncmp (never_equal simple_libc) m p q n <> 0)
  /\ main (never_equal simple_libc) = Entry TPASS None "Test passed" [].
Proof. exact (string01_misses simple_libc). Defined.
