(* ===== verification/FileSys.v ===== *)
(** * A file system: the documented behaviour of the path calls

    The calls that the tests of symbolic links make, and a reference platform
    [fs_kernel] that answers them as the manual pages of Linux document
    (path_resolution(7), symlink(2), open(2), link(2), rename(2), ...), for a
    process that is alone in its temporary directory.  It is the superuser, or owns
    all the files there.
    Theorems about tests are stated for every platform that refines it.

    The state is a graph of inodes.  A directory lists its entries in the order of
    their creation and knows its parent.  Everything a correct system is free to
    choose is a parameter ([params]): inode numbers, device, owner, the clock, the
    size of a directory, the name of the temporary directory.  The rest of the
    file hierarchy is not visible: a path outside of the temporary directory has no
    file.  A trailing slash is ignored; the sticky bit and the superuser's lack of
    execute permission on plain files do not occur. *)

From Stdlib Require Import Ascii.
From S2P Require Import Prelude Tst Process.

(** ** Constants *)

Definition EBUSY : Z := 16.
Definition ENOENT : Z := 2.
Definition EFAULT : Z := 14.
Definition EEXIST : Z := 17.
Definition EXDEV : Z := 18.
Definition ENOTDIR : Z := 20.
Definition EISDIR : Z := 21.
Definition ENAMETOOLONG : Z := 36.
Definition ENOTEMPTY : Z := 39.
Definition ELOOP : Z := 40.

Definition O_RDONLY : Z := 0.
Definition O_WRONLY : Z := 1.
Definition O_RDWR : Z := 2.
Definition O_CREAT : Z := 64.
Definition O_EXCL : Z := 128.
Definition O_TRUNC : Z := 512.

Definition S_IFMT : Z := 61440.
Definition S_IFDIR : Z := 16384.
Definition S_IFREG : Z := 32768.
Definition S_IFLNK : Z := 40960.

(** <limits.h>; [PATH_MAX] counts the final null byte of a path. *)
Definition PATH_MAX : Z := 4096.
Definition NAME_MAX : Z := 255.

Definition strlen (s : string) : Z := Z.of_nat (String.length s).

(** ** Calls and answers *)

(** A [char *] argument: null or a string. *)
Abbreviation path := (option string).

Inductive fcall :=
| FSymlink (target p : path)
| FReadlink (p : path) (n : Z)
| FStat (p : path)
| FLstat (p : path)
| FMkdir (p : path) (mode : Z)
| FRmdir (p : path)
| FChdir (p : path)
| FLink (old new : path)
| FUnlink (p : path)
| FChmod (p : path) (mode : Z)
| FUtime (p : path) (times : option (Z * Z))
| FRename (old new : path)
| FOpen (p : path) (flags mode : Z)
| FClose (fd : Z)
| FRead (fd n : Z)
| FWrite (fd : Z) (data : string)
| FLseek (fd off whence : Z)
| FGetcwd
| FTmpdir                  (* tst_tmpdir of the test library *)
| FGetTmpdir               (* tst_get_tmpdir *)
| FTmpRmdir                (* tst_rmdir *)
| FMisc (name : string).

(** [struct stat], less the fields no test looks at. *)
Record stat := Stat {
  st_dev : Z; st_ino : Z; st_mode : Z; st_nlink : Z; st_uid : Z; st_gid : Z;
  st_size : Z; st_atime : Z; st_mtime : Z; st_ctime : Z
}.

#[export] Instance stat_eq_dec : EqDecision stat.
Proof. solve_decision. Defined.

Definition stat0 : stat := Stat 0 0 0 0 0 0 0 0 0 0.

(** Return value, [errno] of a failed call, the structure and the bytes written
    back; a null [getcwd] is -1. *)
Record freply := FReply { ret : Z; errno : Z; f_stat : stat; f_text : string }.

#[export] Instance freply_eq_dec : EqDecision freply.
Proof. solve_decision. Defined.

Definition fok (r : Z) : freply := FReply r 0 stat0 "".
Definition ffails (e : Z) : freply := FReply (-1) e stat0 "".
Definition fstats (s : stat) : freply := FReply 0 0 s "".
Definition ftext (r : Z) (s : string) : freply := FReply r 0 stat0 s.

(** ** What a system is free to choose *)

Record params := Params {
  p_ino : Z -> Z;        (* number of the n-th inode created *)
  p_clock : Z -> Z;      (* time at the n-th call *)
  p_dev : Z; p_uid : Z; p_gid : Z;
  p_dirsize : Z;
  p_tmp : string         (* path of the temporary directory, without the first '/' *)
}.

Definition base (p : params) : string := String "/"%char (p_tmp p).

(** The path of the temporary directory and a name in it fit in a buffer of
    [PATH_MAX] bytes, and the directory is not the root. *)
Class FsParams (p : params) : Prop := {
  tmp_not_root : p_tmp p <> "";
  tmp_fits : strlen (base p) <= PATH_MAX - NAME_MAX
}.

(** ** State *)

Inductive kind :=
| Reg (data : string)
| Dir (parent : Z) (entries : list (string * Z))
| Lnk (target : string).

(** A time: that of the n-th call, or one set by [utime]. *)
Inductive time := Tick (n : Z) | At (z : Z).

Record inode := Inode {
  i_kind : kind; i_mode : Z; i_nlink : Z;
  i_atime : time; i_mtime : time; i_ctime : time
}.

(** Finite maps with a small representation: the newest binding first. *)
Section Table.
Context {V : Type}.
Implicit Types (m : list (Z * V)).

Fixpoint tget (k : Z) m : option V :=
  match m with
  | [] => None
  | (k', v) :: m => if k' =? k then Some v else tget k m
  end.

Fixpoint tdel (k : Z) m : list (Z * V) :=
  match m with
  | [] => []
  | (k', v) :: m => if k' =? k then tdel k m else (k', v) :: tdel k m
  end.

Definition tset (k : Z) (v : V) m : list (Z * V) := (k, v) :: tdel k m.

Definition talter (f : V -> V) (k : Z) m : list (Z * V) :=
  map (fun e => if e.1 =? k then (e.1, f e.2) else e) m.
End Table.

Record ofile := OFile { of_ino : Z; of_pos : Z; of_flags : Z }.

Record fs := Fs {
  inodes : list (Z * inode);
  files : list (Z * ofile);      (* open descriptors *)
  cwd : Z;
  umask : Z;
  f_next : Z;                (* number of the next inode *)
  f_now : Z;                 (* calls made so far *)
  f_super : bool             (* the process is the superuser *)
}.

#[export] Instance kind_eq_dec : EqDecision kind.
Proof. solve_decision. Defined.
#[export] Instance time_eq_dec : EqDecision time.
Proof. solve_decision. Defined.
#[export] Instance inode_eq_dec : EqDecision inode.
Proof. solve_decision. Defined.
#[export] Instance ofile_eq_dec : EqDecision ofile.
Proof. solve_decision. Defined.
#[export] Instance fs_eq_dec : EqDecision fs.
Proof. solve_decision. Defined.

(** The temporary directory is inode 0; before [tst_tmpdir] there is none. *)
Definition root : Z := 0.

Definition no_fs : fs := Fs [] [] root 18 1 0 true.

Definition set_inodes m s := Fs m (files s) (cwd s) (umask s) (f_next s) (f_now s) (f_super s).
Definition set_files m s := Fs (inodes s) m (cwd s) (umask s) (f_next s) (f_now s) (f_super s).
Definition set_cwd d s := Fs (inodes s) (files s) d (umask s) (f_next s) (f_now s) (f_super s).
Definition set_next n s := Fs (inodes s) (files s) (cwd s) (umask s) n (f_now s) (f_super s).
Definition set_now n s := Fs (inodes s) (files s) (cwd s) (umask s) (f_next s) n (f_super s).
Definition set_super b s := Fs (inodes s) (files s) (cwd s) (umask s) (f_next s) (f_now s) b.

Definition alter_inode (f : inode -> inode) (i : Z) (s : fs) : fs :=
  set_inodes (talter f i (inodes s)) s.

(** ** Paths *)

(** The components of a path, empty ones left out. *)
Fixpoint components_from (acc : string) (s : string) : list string :=
  match s with
  | "" => if decide (acc = "") then [] else [acc]
  | String "/"%char s =>
      if decide (acc = "") then components_from "" s else acc :: components_from "" s
  | String a s => components_from (acc ++ String a "")%string s
  end%string.

Definition components (s : string) : list string := components_from "" s.

Definition is_absolute (s : string) : bool :=
  match s with String "/"%char _ => true | _ => false end.

(** [s] without its prefix [pre]. *)
Fixpoint strip (pre s : string) : option string :=
  match pre, s with
  | "", _ => Some s
  | String a pre, String b s => if Ascii.eqb a b then strip pre s else None
  | _, _ => None
  end%string.

(** What a path leads to: an entry of a directory, the name of an entry that is not
    there, a directory not reached by an entry (".", ".."), or an error. *)
Inductive found :=
| Entry_ (d : Z) (name : string) (i : Z)
| NoEntry (d : Z) (name : string)
| Bare (i : Z)
| Err (e : Z).

Fixpoint assoc (c : string) (es : list (string * Z)) : option Z :=
  match es with
  | [] => None
  | (n, i) :: es => if String.eqb n c then Some i else assoc c es
  end.

Definition dir_at (s : fs) (d : Z) : option (Z * list (string * Z)) :=
  match i_kind <$> tget d (inodes s) with
  | Some (Dir parent es) => Some (parent, es)
  | _ => None
  end.

Definition link_at (s : fs) (i : Z) : option string :=
  match i_kind <$> tget i (inodes s) with Some (Lnk t) => Some t | _ => None end.

(** What the process may do with an inode, by the bits of its owner: all files
    belong to the user who runs the test. *)
Definition R_OK : Z := 8.
Definition W_OK : Z := 7.
Definition X_OK : Z := 6.

Definition allows (s : fs) (i : Z) (bit : Z) : bool :=
  f_super s || from_option (fun n => Z.testbit (i_mode n) bit) false (tget i (inodes s)).

(** Where resolution of a path starts, and what is left of the path. *)
Definition start_of (p : params) (d : Z) (s : string) : option (Z * list string) :=
  if is_absolute s then
    match strip (base p) s with
    | Some "" => Some (root, [])
    | Some (String "/"%char rest) => Some (root, components rest)
    | _ => None
    end
  else Some (d, components s).

(** Path resolution from directory [d] with at most [links] symbolic links;
    the last component is followed when [follow]. *)
Fixpoint walk (p : params) (s : fs) (links : nat) (follow : bool) {struct links}
  : Z -> list string -> found :=
  fix go (d : Z) (cs : list string) {struct cs} : found :=
    match cs with
    | [] => Bare d
    | c :: rest =>
        match dir_at s d with
        | None => Err ENOTDIR
        | Some (parent, es) =>
            if negb (allows s d X_OK) then Err EACCES
            else if String.eqb c "." then go d rest
            else if String.eqb c ".." then go parent rest
            else if NAME_MAX <? strlen c then Err ENAMETOOLONG
            else
              match assoc c es, rest with
              | None, [] => NoEntry d c
              | None, _ :: _ => Err ENOENT
              | Some i, _ =>
                  match link_at s i, (match rest with [] => follow | _ => true end) with
                  | Some t, true =>
                      match links with
                      | O => Err ELOOP
                      | S links =>
                          match start_of p d t with
                          | None => Err ENOENT
                          | Some (d', cs') => walk p s links follow d' (cs' ++ rest)
                          end
                      end
                  | _, _ => match rest with [] => Entry_ d c i | _ => go i rest end
                  end
              end
        end
    end.

(** The limit Linux sets. *)
Definition MAXSYMLINKS : nat := 40.

Definition lookup_path (p : params) (s : fs) (follow : bool) (pa : path) : found :=
  match pa with
  | None => Err EFAULT
  | Some pa =>
      if String.eqb pa "" then Err ENOENT
      else if PATH_MAX <=? strlen pa then Err ENAMETOOLONG
      else
        match start_of p (cwd s) pa with
        | None => Err ENOENT
        | Some (d, cs) => walk p s MAXSYMLINKS follow d cs
        end
  end.

(** ** Updates *)

Definition touch (s : fs) (i : Z) : fs :=
  alter_inode (fun n => Inode (i_kind n) (i_mode n) (i_nlink n) (i_atime n) (Tick (f_now s))
                          (Tick (f_now s))) i s.

Definition map_entries (f : list (string * Z) -> list (string * Z)) (n : inode) : inode :=
  match i_kind n with
  | Dir parent es => Inode (Dir parent (f es)) (i_mode n) (i_nlink n) (i_atime n) (i_mtime n)
                       (i_ctime n)
  | _ => n
  end.

Definition add_entry (d : Z) (name : string) (i : Z) (s : fs) : fs :=
  touch (alter_inode (map_entries (fun es => es ++ [(name, i)])) d s) d.

Definition del_entry (d : Z) (name : string) (s : fs) : fs :=
  touch (alter_inode (map_entries (filter (fun e => e.1 <> name))) d s) d.

Definition add_links (k : Z) (i : Z) (s : fs) : fs :=
  alter_inode (fun n => Inode (i_kind n) (i_mode n) (i_nlink n + k) (i_atime n) (i_mtime n)
                          (Tick (f_now s))) i s.

(** An inode without names that no descriptor refers to is gone. *)
Definition reap (i : Z) (s : fs) : fs :=
  match tget i (inodes s) with
  | Some n =>
      if (i_nlink n <=? 0)
         && forallb (fun f => negb (of_ino f.2 =? i)) (files s)
      then set_inodes (tdel i (inodes s)) s else s
  | None => s
  end%bool.

(** A new inode with one name. *)
Definition new_inode (k : kind) (mode nlink : Z) (d : Z) (name : string) (s : fs) : Z * fs :=
  let i := f_next s in
  let t := Tick (f_now s) in
  (i, add_entry d name i
        (set_next (i + 1) (set_inodes (tset i (Inode k mode nlink t t t) (inodes s)) s))).

Definition create_mode (s : fs) (mode : Z) : Z := Z.land mode (Z.land 511 (Z.lnot (umask s))).

(** ** The calls *)

Section Calls.
Variable p : params.
Implicit Types (s : fs) (pa : path).

Definition time_of (t : time) : Z := match t with Tick n => p_clock p n | At z => z end.

Definition type_bits (k : kind) : Z :=
  match k with Reg _ => S_IFREG | Dir _ _ => S_IFDIR | Lnk _ => S_IFLNK end.

Definition size_of (k : kind) : Z :=
  match k with Reg d => strlen d | Dir _ _ => p_dirsize p | Lnk t => strlen t end.

Definition stat_of (i : Z) (n : inode) : stat :=
  Stat (p_dev p) (p_ino p i) (Z.lor (type_bits (i_kind n)) (i_mode n)) (i_nlink n) (p_uid p)
    (p_gid p) (size_of (i_kind n)) (time_of (i_atime n)) (time_of (i_mtime n))
    (time_of (i_ctime n)).

(** A call on the existing file a path leads to. *)
Definition on_file (follow : bool) pa s (f : Z -> inode -> freply * fs) : freply * fs :=
  match lookup_path p s follow pa with
  | Entry_ _ _ i | Bare i =>
      match tget i (inodes s) with Some n => f i n | None => (ffails ENOENT, s) end
  | NoEntry _ _ => (ffails ENOENT, s)
  | Err e => (ffails e, s)
  end.

(** A call that changes the entries of directory [d]. *)
Definition in_dir (d : Z) s (a : freply * fs) : freply * fs :=
  if allows s d W_OK then a else (ffails EACCES, s).

(** A call that makes a new entry. *)
Definition on_new pa s (f : Z -> string -> freply * fs) : freply * fs :=
  match lookup_path p s false pa with
  | NoEntry d name => in_dir d s (f d name)
  | Entry_ _ _ _ | Bare _ => (ffails EEXIST, s)
  | Err e => (ffails e, s)
  end.

Definition fs_stat (follow : bool) pa s : freply * fs :=
  on_file follow pa s (fun i n => (fstats (stat_of i n), s)).

Definition fs_symlink (target : path) pa s : freply * fs :=
  match target with
  | None => (ffails EFAULT, s)
  | Some t =>
      if String.eqb t "" then (ffails ENOENT, s)
      else if PATH_MAX <=? strlen t then (ffails ENAMETOOLONG, s)
      else on_new pa s (fun d name => (fok 0, (new_inode (Lnk t) 511 1 d name s).2))
  end.

Definition fs_readlink pa (n : Z) s : freply * fs :=
  if n <=? 0 then (ffails EINVAL, s)
  else on_file false pa s (fun i nd =>
    match i_kind nd with
    | Lnk t => let text := String.substring 0 (Z.to_nat n) t in (ftext (strlen text) text, s)
    | _ => (ffails EINVAL, s)
    end).

Definition fs_mkdir pa (mode : Z) s : freply * fs :=
  on_new pa s (fun d name =>
    (fok 0, add_links 1 d (new_inode (Dir d []) (create_mode s mode) 2 d name s).2)).

Definition fs_rmdir pa s : freply * fs :=
  match lookup_path p s false pa with
  | Entry_ d name i =>
      in_dir d s
        match dir_at s i with
        | None => (ffails ENOTDIR, s)
        | Some (_, _ :: _) => (ffails ENOTEMPTY, s)
        | Some (_, []) =>
            (fok 0, reap i (add_links (-2) i (add_links (-1) d (del_entry d name s))))
        end
  | NoEntry _ _ => (ffails ENOENT, s)
  | Bare _ => (ffails EINVAL, s)
  | Err e => (ffails e, s)
  end.

Definition fs_chdir pa s : freply * fs :=
  on_file true pa s (fun i n =>
    match i_kind n with
    | Dir _ _ => if allows s i X_OK then (fok 0, set_cwd i s) else (ffails EACCES, s)
    | _ => (ffails ENOTDIR, s)
    end).

(** Linux does not follow a symbolic link that is the last component of [old]. *)
Definition fs_link (old new : path) s : freply * fs :=
  on_file false old s (fun i n =>
    match i_kind n with
    | Dir _ _ => (ffails EPERM, s)
    | _ => on_new new s (fun d name => (fok 0, add_entry d name i (add_links 1 i s)))
    end).

Definition fs_unlink pa s : freply * fs :=
  match lookup_path p s false pa with
  | Entry_ d name i =>
      in_dir d s
        match dir_at s i with
        | Some _ => (ffails EISDIR, s)
        | None => (fok 0, reap i (add_links (-1) i (del_entry d name s)))
        end
  | NoEntry _ _ => (ffails ENOENT, s)
  | Bare _ => (ffails EISDIR, s)
  | Err e => (ffails e, s)
  end.

(** The bits of [mode] outside of 07777 are ignored. *)
Definition fs_chmod pa (mode : Z) s : freply * fs :=
  on_file true pa s (fun i n =>
    (fok 0, alter_inode (fun n => Inode (i_kind n) (Z.land mode 4095) (i_nlink n) (i_atime n)
                                    (i_mtime n) (Tick (f_now s))) i s)).

Definition fs_utime pa (times : option (Z * Z)) s : freply * fs :=
  on_file true pa s (fun i n =>
    let '(a, m) := match times with
                   | Some (a, m) => (At a, At m)
                   | None => (Tick (f_now s), Tick (f_now s))
                   end in
    (fok 0, alter_inode (fun n => Inode (i_kind n) (i_mode n) (i_nlink n) a m
                                    (Tick (f_now s))) i s)).

(** The directory [d] is [i] or lies below it. *)
Fixpoint below (fuel : nat) s (i d : Z) : bool :=
  (d =? i)
  || match fuel, dir_at s d with
     | S fuel, Some (parent, _) => if parent =? d then false else below fuel s i parent
     | _, _ => false
     end.

(** An existing target is replaced, unless one is a directory and the other is not,
    or it is a directory with entries. *)
Definition fs_rename (old new : path) s : freply * fs :=
  match lookup_path p s false old with
  | Entry_ d name i =>
      let moving := bool_decide (is_Some (dir_at s i)) in
      let set_parent d' := alter_inode (fun n =>
        match i_kind n with
        | Dir _ es => Inode (Dir d' es) (i_mode n) (i_nlink n) (i_atime n) (i_mtime n) (i_ctime n)
        | _ => n
        end) i in
      let move d' name' s :=
        let s := add_entry d' name' i (add_links 0 i (del_entry d name s)) in
        if moving then set_parent d' (add_links 1 d' (add_links (-1) d s)) else s in
      match lookup_path p s false new with
      | NoEntry d' name' =>
          if moving && below (S (length (inodes s))) s i d' then (ffails EINVAL, s)
          else in_dir d s (in_dir d' s (fok 0, move d' name' s))
      | Entry_ d' name' j =>
          if i =? j then (fok 0, s)
          else if moving && below (S (length (inodes s))) s i d' then (ffails EINVAL, s)
          else
            in_dir d s (in_dir d' s
              match dir_at s j with
              | None =>
                  if moving then (ffails ENOTDIR, s)
                  else (fok 0, move d' name' (reap j (add_links (-1) j (del_entry d' name' s))))
              | Some (_, es) =>
                  if negb moving then (ffails EISDIR, s)
                  else if negb (bool_decide (es = [])) then (ffails ENOTEMPTY, s)
                  else (fok 0, move d' name'
                         (reap j (add_links (-2) j (add_links (-1) d' (del_entry d' name' s)))))
              end)
      | Bare _ => (ffails EBUSY, s)
      | Err e => (ffails e, s)
      end
  | NoEntry _ _ => (ffails ENOENT, s)
  | Bare _ => (ffails EBUSY, s)
  | Err e => (ffails e, s)
  end%bool.

(** The lowest free descriptor from [fd] on. *)
Fixpoint free_fd (fuel : nat) (fd : Z) s : Z :=
  match fuel, tget fd (files s) with
  | S fuel, Some _ => free_fd fuel (fd + 1) s
  | _, _ => fd
  end.

Definition has (flags bit : Z) : bool := negb (Z.land flags bit =? 0).

Definition accmode (flags : Z) : Z := Z.land flags 3.

Definition install (i flags : Z) s : freply * fs :=
  let fd := free_fd (length (files s)) 3 s in
  (fok fd, set_files (tset fd (OFile i 0 flags) (files s)) s).

Definition set_data (d : string) (i : Z) s : fs :=
  touch (alter_inode (fun n => Inode (Reg d) (i_mode n) (i_nlink n) (i_atime n) (i_mtime n)
                                 (i_ctime n)) i s) i.

(** The access that [flags] ask for is allowed. *)
Definition may_open (i flags : Z) s : bool :=
  ((accmode flags =? O_WRONLY) || allows s i R_OK)
  && ((accmode flags =? O_RDONLY) || allows s i W_OK).

Definition fs_open pa (flags mode : Z) s : freply * fs :=
  let creating := has flags O_CREAT in
  let existing i :=
    if creating && has flags O_EXCL then (ffails EEXIST, s)
    else
      match i_kind <$> tget i (inodes s) with
      | Some (Dir _ _) =>
          if creating || negb (accmode flags =? O_RDONLY) then (ffails EISDIR, s)
          else if may_open i flags s then install i flags s else (ffails EACCES, s)
      | Some (Reg _) =>
          if may_open i flags s then install i flags (if has flags O_TRUNC then set_data "" i s else s)
          else (ffails EACCES, s)
      | Some (Lnk _) => (ffails ELOOP, s)
      | None => (ffails ENOENT, s)
      end in
  match lookup_path p s (negb (creating && has flags O_EXCL)) pa with
  | Entry_ _ _ i | Bare i => existing i
  | NoEntry d name =>
      if creating then
        in_dir d s
          (let '(i, s) := new_inode (Reg "") (create_mode s mode) 1 d name s in install i flags s)
      else (ffails ENOENT, s)
  | Err e => (ffails e, s)
  end%bool.

Definition fs_close (fd : Z) s : freply * fs :=
  match tget fd (files s) with
  | None => (ffails EBADF, s)
  | Some f => (fok 0, reap (of_ino f) (set_files (tdel fd (files s)) s))
  end.

Definition set_pos (fd pos : Z) s : fs :=
  set_files (talter (fun f => OFile (of_ino f) pos (of_flags f)) fd (files s)) s.

Definition fs_read (fd n : Z) s : freply * fs :=
  match tget fd (files s) with
  | None => (ffails EBADF, s)
  | Some f =>
      if accmode (of_flags f) =? O_WRONLY then (ffails EBADF, s)
      else
        match i_kind <$> tget (of_ino f) (inodes s) with
        | Some (Reg d) =>
            let text := String.substring (Z.to_nat (of_pos f)) (Z.to_nat n) d in
            (ftext (strlen text) text, set_pos fd (of_pos f + strlen text) s)
        | Some (Dir _ _) => (ffails EISDIR, s)
        | _ => (ffails EINVAL, s)
        end
  end.

Fixpoint zeros (n : nat) : string :=
  match n with O => "" | S n => String Ascii.zero (zeros n) end.

(** [d] with [data] at [pos]; a gap before [pos] reads as zeros. *)
Definition overwrite (d : string) (pos : nat) (data : string) : string :=
  (String.substring 0 pos d ++ zeros (pos - String.length d) ++ data
   ++ String.substring (pos + String.length data) (String.length d) d)%string.

Definition fs_write (fd : Z) (data : string) s : freply * fs :=
  match tget fd (files s) with
  | None => (ffails EBADF, s)
  | Some f =>
      if accmode (of_flags f) =? O_RDONLY then (ffails EBADF, s)
      else
        match i_kind <$> tget (of_ino f) (inodes s) with
        | Some (Reg d) =>
            (fok (strlen data),
             set_pos fd (of_pos f + strlen data)
               (set_data (overwrite d (Z.to_nat (of_pos f)) data) (of_ino f) s))
        | _ => (ffails EINVAL, s)
        end
  end.

Definition fs_lseek (fd off whence : Z) s : freply * fs :=
  match tget fd (files s) with
  | None => (ffails EBADF, s)
  | Some f =>
      let size := from_option (fun n => size_of (i_kind n)) 0 (tget (of_ino f) (inodes s)) in
      let pos := if whence =? 0 then off
                 else if whence =? 1 then of_pos f + off
                 else if whence =? 2 then size + off else -1 in
      if pos <? 0 then (ffails EINVAL, s) else (fok pos, set_pos fd pos s)
  end.

(** The path of directory [d] below the temporary directory. *)
Fixpoint path_below (fuel : nat) s (d : Z) : option string :=
  if d =? root then Some "" else
  match fuel, dir_at s d with
  | S fuel, Some (parent, _) =>
      match dir_at s parent with
      | Some (_, es) =>
          match List.find (fun e => e.2 =? d) es, path_below fuel s parent with
          | Some (name, _), Some pre => Some (pre ++ "/" ++ name)%string
          | _, _ => None
          end
      | None => None
      end
  | _, _ => None
  end.

Definition fs_getcwd s : freply * fs :=
  match path_below (length (inodes s)) s (cwd s) with
  | Some below => (ftext 0 (base p ++ below), s)
  | None => (ffails ENOENT, s)
  end.

(** The test library makes an empty directory and goes there. *)
Definition fs_tmpdir s : freply * fs :=
  let t := Tick (f_now s) in
  (fok 0, Fs [(root, Inode (Dir root []) 448 2 t t t)] [] root (umask s) (f_next s) (f_now s)
            (f_super s)).

Definition fs_do (c : fcall) (s0 : fs) : freply * fs :=
  let s := set_now (f_now s0 + 1) s0 in
  match c with
  | FSymlink t pa => fs_symlink t pa s
  | FReadlink pa n => fs_readlink pa n s
  | FStat pa => fs_stat true pa s
  | FLstat pa => fs_stat false pa s
  | FMkdir pa mode => fs_mkdir pa mode s
  | FRmdir pa => fs_rmdir pa s
  | FChdir pa => fs_chdir pa s
  | FLink old new => fs_link old new s
  | FUnlink pa => fs_unlink pa s
  | FChmod pa mode => fs_chmod pa mode s
  | FUtime pa times => fs_utime pa times s
  | FRename old new => fs_rename old new s
  | FOpen pa flags mode => fs_open pa flags mode s
  | FClose fd => fs_close fd s
  | FRead fd n => fs_read fd n s
  | FWrite fd data => fs_write fd data s
  | FLseek fd off whence => fs_lseek fd off whence s
  | FGetcwd => fs_getcwd s
  | FTmpdir => fs_tmpdir s
  | FGetTmpdir => (ftext 0 (base p), s)
  | FTmpRmdir => (fok 0, set_files [] (set_inodes [] s))
  | FMisc _ => (fok 0, s)
  end.
End Calls.

(** ** The reference platform *)

Definition fs_kernel (p : params) (ts : list entry -> Z) : Kernel fcall freply fs := {|
  k_do := fun _ c s => Some (fs_do p c s);
  k_fork := fun _ _ w => w;
  k_exit := fun _ s => s;
  tst_status := ts
|}.

(** [K] behaves like a documented file system, for some choice of what is free. *)
Class FsPlatform {W} (K : Kernel fcall freply W) (w0 : W) := {
  fp_params : params;
  fp_lawful :: FsParams fp_params;
  fp_refines :: Refines K (fs_kernel fp_params (@tst_status _ _ _ K));
  fp_init : @rel _ _ _ _ K (fs_kernel fp_params (@tst_status _ _ _ K)) fp_refines w0 no_fs
}.

#[export] Instance fs_platform (p : params) `{!FsParams p} ts : FsPlatform (fs_kernel p ts) no_fs.
Proof. by refine {| fp_params := p; fp_refines := refines_refl (fs_kernel p ts) |}. Defined.

(** A system: numbers and times count up, /tmp/sym is the temporary directory. *)
Definition plain_params : params := Params id id 1 0 0 4096 "tmp/sym".

#[export] Instance plain_lawful : FsParams plain_params.
Proof. by split. Qed.
