(* ===== verification/Strings.v ===== *)
(** * Strings: lemmas the file-system tests share *)

From Stdlib Require Import Ascii.
From S2P Require Import Prelude FileSys.

Lemma strip_refl s : strip s s = Some "".
Proof. induction s as [|a s IH]; cbn; [done|]. by rewrite Ascii.eqb_refl. Qed.

Lemma strlen_app s t : strlen (s ++ t) = strlen s + strlen t.
Proof.
  unfold strlen. induction s as [|a s IH].
  - done.
  - change (String.length (String a s ++ t)) with (S (String.length (s ++ t))).
    change (String.length (String a s)) with (S (String.length s)). lia.
Qed.

Lemma strlen_nonneg s : 0 <= strlen s.
Proof. unfold strlen. lia. Qed.

Lemma strlen_nonempty s : s <> "" -> 0 < strlen s.
Proof. destruct s; [done|]. unfold strlen. cbn [String.length]. lia. Qed.

Lemma substring_app s t : String.substring 0 (String.length s) (s ++ t) = s.
Proof.
  induction s as [|a s IH]; [by destruct t|].
  change (String a (String.substring 0 (String.length s) (s ++ t)) = String a s). by rewrite IH.
Qed.

Lemma substring_all s : String.substring 0 (String.length s) s = s.
Proof.
  induction s as [|a s IH]; [done|].
  change (String a (String.substring 0 (String.length s) s) = String a s). by rewrite IH.
Qed.

Lemma append_nil_r s : (s ++ "")%string = s.
Proof. induction s as [|a s IH]; [done|]. change (String a (s ++ "") = String a s). by rewrite IH. Qed.

Lemma append_assoc s t u : ((s ++ t) ++ u)%string = (s ++ (t ++ u))%string.
Proof.
  induction s as [|a s IH]; [done|].
  change (String a ((s ++ t) ++ u) = String a (s ++ (t ++ u)))%string. by rewrite IH.
Qed.

Lemma append_cons a s t : (String a s ++ t)%string = String a (s ++ t).
Proof. done. Qed.

Lemma strip_app s t : strip s (s ++ t) = Some t.
Proof.
  induction s as [|a s IH]; [done|]. rewrite append_cons. cbn [strip]. by rewrite Ascii.eqb_refl.
Qed.

(** The last character. *)
Lemma substring_last s c : String.substring (String.length (s ++ String c "") - 1) 1 (s ++ String c "") = String c "".
Proof.
  induction s as [|a s IH]; [done|]. rewrite append_cons. cbn [String.length].
  rewrite Nat.sub_succ, Nat.sub_0_r.
  assert (exists k, String.length (s ++ String c "") = S k) as [k Hk].
  { destruct s; [by exists O | by eexists]. }
  rewrite Hk in IH |- *. cbn [String.substring]. rewrite Nat.sub_succ, Nat.sub_0_r in IH. exact IH.
Qed.
