(* ===== verification/Symlink01.v ===== *)
(** * symlink01.c: fifteen tests of symbolic links

    Model of [src/original tests/symlink/symlink01.c]: one program that runs, for the
    test case specification chosen with -T, a slice of the table [test_objects].
    An entry names a setup function, a function that checks the setup, the expected
    [errno] (0: the call succeeds) and the message of a pass; [do_syscalltests] goes
    through the slice and hands each entry to one of the [do_*] functions.

    The global variables of the program are the record [globals].  A path is a
    string or null.  [sprintf] builds the messages; [strerror] and the initial bytes
    of the local array [scratch] ([junk]) are parameters.  The variable [tst_count] of
    the test library and the debugging output under [#if DEBUG] are left out; ALL is
    not defined. *)

From Stdlib Require Import Ascii.
From S2P Require Import Prelude Tst Process Prog Wp Checker Alone FileSys.

(** ** Messages *)

Fixpoint oct_digits (fuel : nat) (n : Z) : string :=
  match fuel with
  | O => ""
  | S fuel =>
      String.append (if 8 <=? n then oct_digits fuel (n / 8) else "")
        (String (ascii_of_nat (Z.to_nat (48 + n mod 8))) "")
  end.

(** The conversion "%#o" of a positive number. *)
Definition oct (n : Z) : string := String "0"%char (oct_digits 22 n).

Definition show (a : arg) : string := match a with Num z => pretty z | Str s => s end.

(** [sprintf], for the conversions the program uses: %s, %d, %#o. *)
Fixpoint sprintf (fmt : string) (args : list arg) : string :=
  match fmt, args with
  | String "%"%char (String "s"%char f), a :: args
  | String "%"%char (String "d"%char f), a :: args => (show a ++ sprintf f args)%string
  | String "%"%char (String "#"%char (String "o"%char f)), Num n :: args =>
      (oct n ++ sprintf f args)%string
  | String c f, _ => String c (sprintf f args)
  | "", _ => ""
  end%string.

(** [s] in double quotes. *)
Definition quoted (s : string) : string :=
  (String (ascii_of_nat 34) s ++ String (ascii_of_nat 34) "")%string.

(** A [char *] printed with %s. *)
Definition shown (p : path) : arg := Str (default "(null)" p).

(** The array [old] after [s] was stored at its start, without a final null byte. *)
Definition put (s old : string) : string :=
  (s ++ String.substring (String.length s) (String.length old) old)%string.

(** [strncmp(s, t, n) == 0], where [s] has length [n]. *)
Definition same_prefix (n : Z) (s t : string) : bool :=
  String.eqb (String.substring 0 (Z.to_nat n) s) (String.substring 0 (Z.to_nat n) t).

(** ** The tables *)

Definition S_FILE : string := "symbolic".
Definition O_FILE : string := "object".
Definition A_S_FILE : string := "asymbolic".
Definition Y_A_S_FILE : string := "/NiCkEr".
Definition BIG_STRING : string := "abcdefghijklmnopqrstuvwxyzabcdefghijklmnopqrstuvwxyz".

Definition SYMLINK : string := "symlink01".
Definition READLINK : string := "readlink01".
Definition STAT : string := "stat04".
Definition STAT_64 : string := "stat04_64".
Definition LSTAT : string := "lstat01".
Definition LSTAT_64 : string := "lstat01_64".
Definition MKDIR : string := "mkdir05".
Definition RMDIR : string := "rmdir03".
Definition CHDIR : string := "chdir01".
Definition LINK : string := "link01".
Definition UNLINK : string := "unlink01".
Definition CHMOD : string := "chmod01".
Definition UTIME : string := "utime01".
Definition RENAME : string := "rename01".
Definition OPEN : string := "open01".

Definition DEFAULT_TCID : string := SYMLINK.

Definition cktcsid (s1 s2 : string) : bool := String.eqb s1 s2.

Definition BUFMAX : Z := 512.
Definition MODE : Z := 448.       (* 0700 *)
Definition MASK : Z := 33279.     (* 0100777 *)

Definition msgs : list string :=
  ["Creation of symbolic link file to no object file is ok";
   "Creation of symbolic link file and object file via symbolic link is ok";
   "Creating an existing symbolic link file error is caught";
   "Creating a symbolic link which exceeds maximum pathname error is caught";
   "Reading of symbolic link file contents checks out ok";
   "Reading a symbolic link which exceeds maximum pathname error is caught";
   "Getting stat info about object file through symbolic link file is ok";
   "Stat(2) error when accessing non-existent object through symbolic link is caught";
   "lstat(2) of symbolic link file which points to no object file is ok";
   "lstat(2) of symbolic link file which points at an object file is ok";
   "mkdir(2) of object file through symbolic link file failed as expected";
   "rmdir(2) of object file through symbolic link file failed as expected";
   "chdir(2) to object file location through symbolic link file is ok";
   "chdir(2) to non-existent object file location through symbolic link file failed as expected";
   "link(2) to a symbolic link, which is pointing to an existing object file worked - file created and link count adjusted";
   "link(2) to a symbolic link, which is pointing to a non-existing object file worked ok - file created and link count adjusted.";
   "unlink(2) of symbolic link file with no object file removal is ok";
   "chmod(2) of object file permissions through symbolic link file is ok";
   "chmod(2) error when accessing non-existent object through symbolic link is caught";
   "utime(2) change of object file access and modify times through symbolic link file is ok";
   "utime(2) error when accessing non-existent object through symbolic link is caught";
   "rename(3) of symbolic link file name which points at no object file is ok";
   "rename(3) of symbolic link file name which points at object file is ok";
   "rename(3) error of symbolic link file name across file systems is caught";
   "open(2) with (O_CREAT | O_RDWR) to create object file through symbolic link file and all writes, reads, and lseeks are ok";
   "open(2) with O_RDWR of existing  object file through symbolic link file and all writes, reads, and lseeks are ok";
   "open(2) with (O_CREAT | O_EXCL) error  is caught when creating object file through symbolic link file";
   "open(2) error with O_RDWR is caught when processing symbolic link file which points at no object file";
   "Nested symbolic link access condition caught.  ELOOP is returned";
   "Reading a nonsymbolic link file error condition is caught.  EINVAL is returned";
   "lstat(2) of object file returns object file inode information";
   "NULL"].

(** The setup and validation functions, by name. *)
Inductive setup_fn := Creat_symlink | Creat_object | Creat_both | Creat_path_max.
Inductive ck_fn := Ck_symlink | Ck_object | Ck_both | Ck_path_max.

(** [struct all_test_cases]; [test_fail] is a truth value. *)
Record all_test_cases := TC {
  tcid : string;
  test_fail : bool;
  errno_val : Z;
  pass_msg : Z;
  test_setup : setup_fn;
  ck_test : ck_fn;
  fn_arg0 : path;
  fn_arg1 : path;
  fn_arg2 : path
}.

Definition test_objects : list all_test_cases :=
  [TC SYMLINK false 0 0 Creat_symlink Ck_symlink (Some "%bc+eFhi!k") (Some S_FILE) None;
   TC SYMLINK false 0 0 Creat_symlink Ck_symlink (Some O_FILE) (Some S_FILE) None;
   TC SYMLINK false 0 1 Creat_both Ck_both (Some O_FILE) (Some S_FILE) (Some O_FILE);
   TC SYMLINK true EEXIST 2 Creat_symlink Ck_symlink (Some O_FILE) (Some S_FILE) None;
   TC SYMLINK true ENAMETOOLONG 3 Creat_path_max Ck_path_max (Some O_FILE) (Some S_FILE) None;
   TC READLINK false 0 4 Creat_symlink Ck_symlink (Some O_FILE) (Some S_FILE) None;
   TC READLINK false 0 4 Creat_both Ck_both (Some O_FILE) (Some S_FILE) (Some O_FILE);
   TC READLINK true ENAMETOOLONG 5 Creat_path_max Ck_path_max (Some O_FILE) (Some S_FILE) None;
   TC READLINK true EINVAL 29 Creat_object Ck_object (Some O_FILE) None None;
   TC STAT false 0 6 Creat_both Ck_both (Some O_FILE) (Some S_FILE) (Some O_FILE);
   TC STAT true ENOENT 7 Creat_symlink Ck_symlink (Some O_FILE) (Some S_FILE) None;
   TC STAT true ELOOP 28 Creat_symlink Ck_symlink (Some S_FILE) (Some S_FILE) None;
   TC STAT_64 false 0 6 Creat_both Ck_both (Some O_FILE) (Some S_FILE) (Some O_FILE);
   TC STAT_64 true ENOENT 7 Creat_symlink Ck_symlink (Some O_FILE) (Some S_FILE) None;
   TC STAT_64 true ELOOP 28 Creat_symlink Ck_symlink (Some S_FILE) (Some S_FILE) None;
   TC LSTAT false 0 8 Creat_symlink Ck_symlink (Some O_FILE) (Some S_FILE) None;
   TC LSTAT false 0 9 Creat_both Ck_both (Some O_FILE) (Some S_FILE) (Some O_FILE);
   TC LSTAT false 0 30 Creat_object Ck_object (Some O_FILE) None None;
   TC LSTAT_64 false 0 8 Creat_symlink Ck_symlink (Some O_FILE) (Some S_FILE) None;
   TC LSTAT_64 false 0 9 Creat_both Ck_both (Some O_FILE) (Some S_FILE) (Some O_FILE);
   TC LSTAT_64 false 0 30 Creat_object Ck_object (Some O_FILE) None None;
   TC MKDIR true EEXIST 10 Creat_symlink Ck_symlink (Some O_FILE) (Some S_FILE) None;
   TC RMDIR true ENOTDIR 11 Creat_symlink Ck_symlink (Some O_FILE) (Some S_FILE) None;
   TC CHDIR false 0 12 Creat_symlink Ck_symlink (Some O_FILE) (Some S_FILE) (Some O_FILE);
   TC CHDIR true ENOENT 13 Creat_symlink Ck_symlink (Some "%bc+eFhi!k") (Some S_FILE) None;
   TC CHDIR true ELOOP 28 Creat_symlink Ck_symlink (Some S_FILE) (Some S_FILE) None;
   TC LINK false 0 14 Creat_both Ck_both (Some O_FILE) (Some S_FILE) (Some O_FILE);
   TC LINK false 0 15 Creat_symlink Ck_symlink (Some O_FILE) (Some S_FILE) None;
   TC LINK true (-1) (-1) Creat_symlink Ck_symlink None None None;
   TC UNLINK false 0 16 Creat_both Ck_both (Some O_FILE) (Some S_FILE) (Some O_FILE);
   TC CHMOD false 0 17 Creat_both Ck_both (Some O_FILE) (Some S_FILE) (Some O_FILE);
   TC CHMOD true ENOENT 18 Creat_symlink Ck_symlink (Some O_FILE) (Some S_FILE) None;
   TC CHMOD true ELOOP 28 Creat_symlink Ck_symlink (Some S_FILE) (Some S_FILE) None;
   TC UTIME false 0 19 Creat_both Ck_both (Some O_FILE) (Some S_FILE) (Some O_FILE);
   TC UTIME true ENOENT 20 Creat_symlink Ck_symlink (Some O_FILE) (Some S_FILE) None;
   TC UTIME true ELOOP 28 Creat_symlink Ck_symlink (Some S_FILE) (Some S_FILE) None;
   TC RENAME false 0 21 Creat_symlink Ck_symlink (Some O_FILE) (Some S_FILE) None;
   TC RENAME false 0 22 Creat_both Ck_both (Some O_FILE) (Some S_FILE) (Some O_FILE);
   TC RENAME true EXDEV 23 Creat_both Ck_both (Some O_FILE) (Some S_FILE) (Some O_FILE);
   TC OPEN false 0 24 Creat_symlink Ck_symlink (Some O_FILE) (Some S_FILE) None;
   TC OPEN false 0 25 Creat_both Ck_both (Some O_FILE) (Some S_FILE) (Some O_FILE);
   TC OPEN true EEXIST 26 Creat_symlink Ck_symlink (Some O_FILE) (Some S_FILE) (Some O_FILE);
   TC OPEN true ENOENT 27 Creat_symlink Ck_symlink (Some O_FILE) (Some S_FILE) None;
   TC OPEN true ELOOP 28 Creat_symlink Ck_symlink (Some S_FILE) (Some S_FILE) None].

(** [struct tcses]; [tc_ptr] is an index of [test_objects]. *)
Record tcses := Tcs {
  t_tcid : string;
  t_syscall : string;
  test_cases : Z;
  tc_ptr : nat;
  t_desc : string
}.

Definition all_tcses : list tcses :=
  [Tcs SYMLINK "symlink" 5 0 "Make a Symbolic Link to a File";
   Tcs READLINK "readlink" 4 5 "Reads Value of a Symbolic Link";
   Tcs STAT "stat" 3 9 "Gets File Status Indirectly From a Symbolic Link file";
   Tcs STAT_64 "stat64" 3 12 "Gets File Status Indirectly From a Symbolic Link file";
   Tcs LSTAT "lstat" 3 15 "Get file Status About a Symbolic Link File";
   Tcs LSTAT_64 "lstat64" 3 18 "Get file Status About a Symbolic Link File";
   Tcs MKDIR "mkdir" 1 21 "Fail When Making a Directory File Indirectly from a symlink";
   Tcs RMDIR "rmdir" 1 22 "Fail When Removing a Directory File Indirectly from a symlink";
   Tcs CHDIR "chdir" 3 23 "Changes CWD Location Indirectly from a symlink";
   Tcs LINK "link" 2 26 "Creates a Link To a File Indirectly From a Symbolic";
   Tcs UNLINK "unlink" 1 29 "Removes a Link To a File but not the Object File";
   Tcs CHMOD "chmod" 3 30 "Change Object File Permissions Indirectly From a Symbolic";
   Tcs UTIME "utime" 3 33 "Set File Access And Modify Object File Times via symlink";
   Tcs RENAME "rename" 2 36 "Rename a Symbolic Link File And Not Any Object file";
   Tcs OPEN "open" 5 39 "Create/Open a File For Reading Or Writing via symlink"].

(** The message of a pass. *)
Definition pass_text (tc : all_test_cases) : string := nth (Z.to_nat (pass_msg tc)) msgs "".

(** ** Global variables *)

Record globals := Globals {
  TST_TOTAL : Z;
  TEST_RESULT : ttype;
  TCID : string;
  Selectedtests : option string;
  test_msg : string;
  full_path : string;
  asymlink : stat;
  statter : stat;
  Buffer : string;
  TEST_RETURN : Z;
  TEST_ERRNO : Z;
  c_errno : Z           (* errno *)
}.

Definition globals0 : globals := Globals 0 TPASS "" None "" "" stat0 stat0 "" 0 0 0.

Definition set_total n g := Globals n (TEST_RESULT g) (TCID g) (Selectedtests g) (test_msg g)
  (full_path g) (asymlink g) (statter g) (Buffer g) (TEST_RETURN g) (TEST_ERRNO g) (c_errno g).
Definition set_result t g := Globals (TST_TOTAL g) t (TCID g) (Selectedtests g) (test_msg g)
  (full_path g) (asymlink g) (statter g) (Buffer g) (TEST_RETURN g) (TEST_ERRNO g) (c_errno g).
Definition set_tcid s g := Globals (TST_TOTAL g) (TEST_RESULT g) s (Selectedtests g) (test_msg g)
  (full_path g) (asymlink g) (statter g) (Buffer g) (TEST_RETURN g) (TEST_ERRNO g) (c_errno g).
Definition set_selected s g := Globals (TST_TOTAL g) (TEST_RESULT g) (TCID g) s (test_msg g)
  (full_path g) (asymlink g) (statter g) (Buffer g) (TEST_RETURN g) (TEST_ERRNO g) (c_errno g).
Definition set_msg s g := Globals (TST_TOTAL g) (TEST_RESULT g) (TCID g) (Selectedtests g) s
  (full_path g) (asymlink g) (statter g) (Buffer g) (TEST_RETURN g) (TEST_ERRNO g) (c_errno g).
Definition set_full_path s g := Globals (TST_TOTAL g) (TEST_RESULT g) (TCID g) (Selectedtests g)
  (test_msg g) s (asymlink g) (statter g) (Buffer g) (TEST_RETURN g) (TEST_ERRNO g) (c_errno g).
Definition set_asymlink b g := Globals (TST_TOTAL g) (TEST_RESULT g) (TCID g) (Selectedtests g)
  (test_msg g) (full_path g) b (statter g) (Buffer g) (TEST_RETURN g) (TEST_ERRNO g) (c_errno g).
Definition set_statter b g := Globals (TST_TOTAL g) (TEST_RESULT g) (TCID g) (Selectedtests g)
  (test_msg g) (full_path g) (asymlink g) b (Buffer g) (TEST_RETURN g) (TEST_ERRNO g) (c_errno g).
Definition set_Buffer s g := Globals (TST_TOTAL g) (TEST_RESULT g) (TCID g) (Selectedtests g)
  (test_msg g) (full_path g) (asymlink g) (statter g) s (TEST_RETURN g) (TEST_ERRNO g) (c_errno g).
Definition set_TEST r e g := Globals (TST_TOTAL g) (TEST_RESULT g) (TCID g) (Selectedtests g)
  (test_msg g) (full_path g) (asymlink g) (statter g) (Buffer g) r e (c_errno g).
Definition set_errno e g := Globals (TST_TOTAL g) (TEST_RESULT g) (TCID g) (Selectedtests g)
  (test_msg g) (full_path g) (asymlink g) (statter g) (Buffer g) (TEST_RETURN g) (TEST_ERRNO g) e.

Abbreviation SM := (M fcall freply globals).

(** ** Calls *)

(** A call sets [errno] when it fails. *)
Definition fails (r : freply) : bool := ret r =? -1.

Definition after_call (r : freply) (g : globals) : globals :=
  if fails r then set_errno (errno r) g else g.

Definition sys (c : fcall) : SM freply :=
  r ← call c; modify (after_call r) ;; mret r.

Definition sys_ (c : fcall) : SM unit := sys c ;; mret tt.

(** The macro [TEST]: the call with [errno] cleared before, its result and [errno]
    in [TEST_RETURN] and [TEST_ERRNO]. *)
Definition TEST (c : fcall) : SM freply :=
  modify (set_errno 0) ;; r ← sys c; modify (fun g => set_TEST (ret r) (c_errno g) g) ;; mret r.

(** [TEST(...); errno = TEST_ERRNO;] *)
Definition TEST_errno (c : fcall) : SM freply :=
  r ← TEST c; modify (fun g => set_errno (TEST_ERRNO g) g) ;; mret r.

(** [stat] and [lstat] fill a buffer when they succeed. *)
Definition fill (set : stat -> globals -> globals) (c : fcall) : SM freply :=
  r ← sys c; modify (if fails r then id else set (f_stat r)) ;; mret r.

(** [sprintf(test_msg, ...); return 0;] after [TEST_RESULT = t;] *)
Definition reject (t : ttype) (fmt : string) (args : list arg) : SM Z :=
  modify (set_result t) ;; modify (set_msg (sprintf fmt args)) ;; mret 0.

(** [sprintf(Buf, ...); strcat(Buffer, Buf);] *)
Definition note (fmt : string) (args : list arg) : SM unit :=
  modify (fun g => set_Buffer (Buffer g ++ sprintf fmt args) g).

(** [tst_resm(TEST_RESULT, "%s", s)]. *)
Definition resm_result (s : string) : SM unit :=
  g ← get; tst_resm (TEST_RESULT g) "%s" [Str s].

Definition resm_pass (tc : all_test_cases) : SM unit := resm_result (pass_text tc).

(** [tst_resm(t, "%s", test_msg)]. *)
Definition resm_msg (t : ttype) : SM unit := g ← get; tst_resm t "%s" [Str (test_msg g)].

Section Program.
Variable strerror : Z -> string.
Variable junk : string.

(** ** Setup and validation functions *)

Definition see_if_a_symlink (p : path) : SM Z :=
  r ← fill set_asymlink (FLstat p);
  g ← get;
  if ret r <? 0 then mret (-1)
  else if Z.land (st_mode (asymlink g)) S_IFMT =? S_IFLNK then mret 1 else mret 0.

Definition delete_files (path1 path2 : path) : SM unit :=
  sys_ (FUnlink path1) ;; sys_ (FUnlink path2).

Definition creat_symlink (path1 path2 _path3 : path) : SM Z :=
  r ← TEST_errno (FSymlink path1 path2);
  g ← get;
  if ret r =? -1
  then reject TBROK "symlink(2) Failure when creating setup %s object file: errno:%d %s"
         [shown path1; Num (c_errno g); Str (strerror (c_errno g))]
  else note "symlink(%s, %s) was succesful.
" [shown path1; shown path2] ;; mret 1.

Definition creat_object (path1 _path2 _path3 : path) : SM Z :=
  r ← sys (FOpen path1 (Z.lor O_CREAT (Z.lor O_WRONLY O_TRUNC)) MODE);
  g ← get;
  if ret r =? -1
  then reject TBROK "creat(2) Failure when creating setup %s object file: errno:%d %s"
         [shown path1; Num (c_errno g); Str (strerror (c_errno g))]
  else
    note "creat(%s, %#o) was succesful.
" [shown path1; Num MODE] ;;
    c ← sys (FClose (ret r));
    g ← get;
    if ret c =? -1
    then reject TBROK "close(2) Failure when closing setup %s object file: errno:%d %s"
           [shown path1; Num (c_errno g); Str (strerror (c_errno g))]
    else mret 1.

(** The two functions return 0 when they fail, so the tests against -1 never hold. *)
Definition creat_both (path1 path2 path3 : path) : SM Z :=
  r ← creat_symlink path1 path2 None;
  if r =? -1 then mret 0
  else
    r ← creat_object path3 None None;
    if r =? -1 then mret 0 else mret 1.

Definition ck_symlink (path1 path2 path3 : path) : SM Z :=
  r ← see_if_a_symlink path2;
  if r =? -1
  then reject TBROK "lstat(2) Failure when accessing %s symbolic link file which should contain %s path to %s file "
         [shown path2; shown path1; shown path3]
  else if r =? 0
  then reject TBROK "%s is not a symbolic link file which contains %s path to %s file"
         [shown path2; shown path1; shown path3]
  else mret 1.

Definition ck_both (path1 path2 path3 : path) : SM Z :=
  r ← ck_symlink path1 path2 path3;
  if r =? 0 then mret 0
  else
    r ← fill set_statter (FStat path3);
    g ← get;
    if (ret r =? -1) && (c_errno g =? ENOENT)
    then reject TBROK "stat(2) Failure when accessing %s object file " [shown path3]
    else
      r ← fill set_asymlink (FStat path2);
      g ← get;
      if (ret r =? -1) && (c_errno g =? ENOENT)
      then reject TBROK "stat(2) Failure when accessing %s symbolic link file " [shown path2]
      else if negb (st_ino (statter g) =? st_ino (asymlink g))
      then reject TBROK "stat(2) Failure when accessing %s object file through %s symbolic link file "
             [shown path3; shown path2]
      else mret 1.

(** [for (ctr = 0; ctr < n; ctr++) strcat(s, t);] *)
Fixpoint strcats (n : nat) (s t : string) : string :=
  match n with O => s | S n => strcats n (s ++ t) t end.

(** What [creat_path_max] stores in [full_path].  The two loops run
    [to_go / strlen(path1)] and [to_go] times, not at all for a negative count. *)
Definition path_max (cwd path1 : string) : string :=
  let to_go := PATH_MAX - strlen cwd in
  let whole_chunks := Z.quot to_go (strlen path1) in
  let s := strcats (Z.to_nat whole_chunks) cwd path1 in
  let to_go := PATH_MAX - strlen s in
  strcats (Z.to_nat to_go) (s ++ "/") "Z".

(** [sizeof(full_path)]. *)
Definition full_path_size : Z := PATH_MAX + 1 + 1.

(** [cwd] is no null pointer, and with the slash it fits into [full_path]. *)
Definition cwd_fits (r : freply) : bool := negb (ret r =? -1) && (strlen (f_text r) <=? PATH_MAX).

(** The answer to the second call of [getcwd] is not looked at. *)
Definition creat_path_max (path1 path2 path3 : path) : SM Z :=
  r ← sys FGetcwd;
  if ret r =? -1
  then reject TBROK "getcwd(3) Failure in setup of %s %s %s test case object elements"
         [shown path1; shown path2; shown path3]
  else
    r ← sys FGetcwd;
    defined_if (cwd_fits r) ;;
    modify (set_full_path (path_max (f_text r) (default "" path1))) ;; mret 1.

Definition ck_path_max (path1 path2 path3 : path) : SM Z :=
  g ← get;
  if strlen (full_path g) =? PATH_MAX + 1 then mret 1
  else reject TBROK "%s %d %s %s %s %s"
         [Str "full_path character array length was not"; Num (PATH_MAX + 1);
          Str "characters long for test case object elements"; shown path1; shown path2;
          shown path3].

Definition ck_object (path1 path2 path3 : path) : SM Z :=
  r ← see_if_a_symlink path1;
  if r <? 0
  then reject TFAIL "lstat(2) failed to return inode information for a regular object file" []
  else if r =? 1
  then reject TFAIL "lstat(2) detected a regular object file as a symbolic link file" []
  else
    s ← fill set_statter (FStat path1);
    g ← get;
    if ret s =? -1
    then reject TBROK "stat(2) failed to return inode information for a regular object file" []
    else if negb (bool_decide (statter g = asymlink g))
    then reject TFAIL "lstat(2) and stat(2) do not return same inode information for an object file" []
    else mret 1.

Definition run_setup (f : setup_fn) : path -> path -> path -> SM Z :=
  match f with
  | Creat_symlink => creat_symlink
  | Creat_object => creat_object
  | Creat_both => creat_both
  | Creat_path_max => creat_path_max
  end.

Definition run_ck (f : ck_fn) : path -> path -> path -> SM Z :=
  match f with
  | Ck_symlink => ck_symlink
  | Ck_object => ck_object
  | Ck_both => ck_both
  | Ck_path_max => ck_path_max
  end.

(** ** Expected errors *)

Definition unknown_action : SM unit :=
  tst_resm TBROK "Unknown test case processing actions declared" [].

(** The result [r] is a failure with [errno] equal to [e]. *)
Definition failed_with (e : Z) (r : freply) (g : globals) : bool :=
  (ret r =? -1) && (c_errno g =? e).

(** [tst_resm(TFAIL, "... errno:%d %s", texts, errno, strerror(errno))]. *)
Definition resm_unexpected (fmt : string) (texts : list string) : SM unit :=
  g ← get;
  tst_resm TFAIL fmt (map Str texts ++ [Num (c_errno g); Str (strerror (c_errno g))]).

Definition do_EEXIST (tc : all_test_cases) : SM unit :=
  if cktcsid (tcid tc) SYMLINK then
    r ← TEST_errno (FSymlink (fn_arg0 tc) (fn_arg1 tc));
    g ← get;
    if failed_with EEXIST r g then tst_resm TPASS "%s" [Str (pass_text tc)]
    else tst_resm TFAIL "%s %s" [Str "Expected EEXIST error when creating a symbolic link file";
                                 Str "which already existed"]
  else if cktcsid (tcid tc) MKDIR then
    r ← TEST_errno (FMkdir (fn_arg1 tc) MODE);
    g ← get;
    if failed_with EEXIST r g then resm_pass tc
    else
      tst_resm TFAIL "%s %s" [Str "Expected EEXIST error when creating a directory by a symbolic";
                              Str "link file which pointed at no object file"] ;;
      sys_ (FRmdir (fn_arg1 tc))
  else if cktcsid (tcid tc) OPEN then
    r ← TEST_errno (FOpen (fn_arg1 tc) (Z.lor O_EXCL O_CREAT) 438);
    g ← get;
    if failed_with EEXIST r g then resm_pass tc
    else resm_unexpected "%s %s errno:%d %s"
           ["Expected EEXIST error for exclusively opening an object file";
            "through a symbolic link file was not received:"]
  else unknown_action.

Definition do_ENOENT (tc : all_test_cases) : SM unit :=
  if cktcsid (tcid tc) STAT || cktcsid (tcid tc) STAT_64 then
    r ← fill set_asymlink (FStat (fn_arg1 tc));
    g ← get;
    if failed_with ENOENT r g then resm_pass tc
    else resm_unexpected "%s %s errno:%d %s"
           ["Expected ENOENT error for stating a non-existent directory";
            "through a symbolic link file was not received:"]
  else if cktcsid (tcid tc) CHDIR then
    r ← sys (FChdir (fn_arg1 tc));
    g ← get;
    if failed_with ENOENT r g then resm_pass tc
    else
      resm_unexpected "%s %s errno:%d %s"
        ["Expected ENOENT error for changing to a non-existent";
         "directory through a symbolic link file was not received:"] ;;
      t ← call FGetTmpdir; sys_ (FChdir (Some (f_text t)))
  else if cktcsid (tcid tc) LINK then
    r ← sys (FLink (fn_arg1 tc) (Some "nick"));
    g ← get;
    if failed_with ENOENT r g then resm_pass tc
    else
      resm_unexpected "%s %s errno:%d %s"
        ["Expected ENOENT error condition when link(2) a symbolic";
         "link which pointed at no object:"] ;;
      delete_files (Some "nick") None
  else if cktcsid (tcid tc) CHMOD then
    r ← sys (FChmod (fn_arg1 tc) MODE);
    g ← get;
    if failed_with ENOENT r g then resm_pass tc
    else resm_unexpected "%s %s errno:%d %s"
           ["Expected ENOENT error condition when chmod(2) a symbolic";
            "link which pointed at no object,"]
  else if cktcsid (tcid tc) UTIME then
    r ← sys (FUtime (fn_arg1 tc) None);
    g ← get;
    if failed_with ENOENT r g then resm_pass tc
    else resm_unexpected "%s %s errno:%d %s"
           ["Expected ENOENT error condition when utime(2) a symbolic";
            "link which pointed at no object:"]
  else if cktcsid (tcid tc) OPEN then
    r ← sys (FOpen (fn_arg1 tc) O_RDWR 0);
    g ← get;
    if failed_with ENOENT r g then resm_pass tc
    else resm_unexpected "%s %s errno:%d %s"
           ["Expected ENOENT error for opening a non-existent object";
            " file through a symbolic link file was not received,"]
  else unknown_action.

(** The branch for [stat] reports [TEST_RESULT] even when the error is not there. *)
Definition do_ELOOP (tc : all_test_cases) : SM unit :=
  if cktcsid (tcid tc) STAT || cktcsid (tcid tc) STAT_64 then
    r ← TEST (FStat (fn_arg1 tc));
    modify (if fails r then id else set_asymlink (f_stat r)) ;;
    modify (fun g => set_errno (TEST_ERRNO g) g) ;;
    g ← get;
    if failed_with ELOOP r g then resm_pass tc
    else tst_resm (TEST_RESULT g) "%s errno:%d %s"
           [Str "Expected ELOOP errno from stat(2) (nested symb link),"; Num (c_errno g);
            Str (strerror (c_errno g))]
  else if cktcsid (tcid tc) CHDIR then
    r ← TEST_errno (FChdir (fn_arg1 tc));
    g ← get;
    if failed_with ELOOP r g then resm_pass tc
    else
      resm_unexpected "%s errno:%d %s"
        ["Expected ELOOP error condition when chdir(2) a nested symbolic link:"] ;;
      t ← call FGetTmpdir; sys_ (FChdir (Some (f_text t)))
  else if cktcsid (tcid tc) LINK then
    r ← TEST_errno (FLink (fn_arg1 tc) (Some O_FILE));
    g ← get;
    if failed_with ELOOP r g then resm_pass tc
    else resm_unexpected "%s errno:%d %s"
           ["Expected ELOOP error condition when link(2) a nested symbolic link:"]
  else if cktcsid (tcid tc) CHMOD then
    r ← TEST_errno (FChmod (fn_arg1 tc) MODE);
    g ← get;
    if failed_with ELOOP r g then resm_pass tc
    else resm_unexpected "%s errno:%d %s"
           ["Expected ELOOP error condition when chmod(2) a nested symbolic link:"]
  else if cktcsid (tcid tc) UTIME then
    r ← TEST_errno (FUtime (fn_arg1 tc) None);
    g ← get;
    if failed_with ELOOP r g then resm_pass tc
    else resm_unexpected "%s errno:%d %s"
           ["Expected ELOOP error condition when utime(2) a nested symbolic link:"]
  else if cktcsid (tcid tc) OPEN then
    r ← TEST_errno (FOpen (fn_arg1 tc) O_CREAT 438);
    g ← get;
    if failed_with ELOOP r g then resm_pass tc
    else resm_unexpected "%s errno:%d %s"
           ["Expected ELOOP error condition when open(2) a nested symbolic link:"]
  else unknown_action.

Definition do_ENOTDIR (tc : all_test_cases) : SM unit :=
  if cktcsid (tcid tc) RMDIR then
    r ← TEST_errno (FMkdir (fn_arg0 tc) MODE);
    if ret r =? -1
    then tst_resm TBROK "mkdir(2) Failure when creating %s" [shown (fn_arg0 tc)]
    else
      r ← sys (FRmdir (fn_arg1 tc));
      g ← get;
      if failed_with ENOTDIR r g then resm_pass tc ;; sys_ (FRmdir (fn_arg0 tc))
      else resm_unexpected "%s %s errno:%d %s"
             ["Expected ENOTDIR error for removing a non-existent";
              "directory through a symbolic link file was not received,"]
  else unknown_action.

Definition do_EXDEV (tc : all_test_cases) : SM unit :=
  if cktcsid (tcid tc) RENAME then
    r ← TEST_errno (FRename (fn_arg1 tc) (Some Y_A_S_FILE));
    g ← get;
    if failed_with EXDEV r g then
      s ← see_if_a_symlink (Some Y_A_S_FILE);
      if s =? -1 then resm_pass tc
      else tst_resm TFAIL "%s %s %s file outside of current file system"
             [Str "rename(3) returned -1 when trying to move symbolic link file";
              Str "outside of current file system, but created"; Str Y_A_S_FILE]
    else
      resm_unexpected "%s %s errno:%d %s"
        ["Expected EXDEV error for renaming an existing symbolic";
         "link file to a location outside of existing file system,"] ;;
      delete_files (Some "/NiCkEr") None
  else unknown_action.

Definition do_ENAMETOOLONG (tc : all_test_cases) : SM unit :=
  if cktcsid (tcid tc) SYMLINK then
    g ← get;
    r ← TEST_errno (FSymlink (fn_arg0 tc) (Some (full_path g)));
    g ← get;
    if failed_with ENAMETOOLONG r g then
      s ← see_if_a_symlink (Some (full_path g));
      if s =? -1 then resm_pass tc
      else tst_resm TFAIL "%s %s %d %s"
             [Str "symlink(2) returned -1 when trying to create a symbolic";
              Str "link file whose name exceeded"; Num (PATH_MAX + 1);
              Str "characters, but it created the symbolic link file"]
    else tst_resm_errno TFAIL (c_errno g)
           "Expected ENAMETOOLONG error when creating %s symbolic link file with a path exceeding %d characters"
           [shown (fn_arg1 tc); Num (PATH_MAX + 1)]
  else if cktcsid (tcid tc) READLINK then
    g ← get;
    r ← sys (FReadlink (Some (full_path g)) (strlen (full_path g)));
    g ← get;
    if failed_with ENAMETOOLONG r g then resm_pass tc
    else tst_resm TFAIL
           "Expected ENAMETOOLONG error when reading %s symbolic link file with a path exceeding %d characters: errno:%d %s"
           [shown (fn_arg1 tc); Num (PATH_MAX + 1); Num (c_errno g); Str (strerror (c_errno g))]
  else unknown_action.

Definition do_EINVAL (tc : all_test_cases) : SM unit :=
  if cktcsid (tcid tc) READLINK then
    r ← TEST (FReadlink (fn_arg0 tc) BUFMAX);
    modify (fun g => if fails r then g else set_msg (put (f_text r) (test_msg g)) g) ;;
    modify (fun g => set_errno (TEST_ERRNO g) g) ;;
    g ← get;
    if ret r =? -1 then
      if c_errno g =? EINVAL then resm_pass tc
      else tst_resm TFAIL "readlink(2) ret:-1, errno:%d, : Exp errno:%d"
             [Num (c_errno g); Num EINVAL]
    else tst_resm TFAIL "readlink(2) did not returned -1 when reading %s"
           [Str "a file which is not a symbolic link file"]
  else unknown_action.

(** ** Expected successes *)

Definition do_readlink (tc : all_test_cases) : SM unit :=
  let want := default "" (fn_arg0 tc) in
  r ← sys (FReadlink (fn_arg1 tc) (strlen want));
  if ret r =? -1
  then tst_resm TFAIL "readlink(2) failure on %s symbolic link file" [shown (fn_arg1 tc)]
  else
    let scratch := put (f_text r) junk in
    if negb (same_prefix (strlen want) want scratch)
    then tst_resm TFAIL
           "readlink(2) Error : Expected %s symbolic link file contents but %s actual contents were returned"
           [shown (fn_arg0 tc); Str (String.substring 0 (Z.to_nat (strlen want)) scratch)]
    else resm_pass tc.

Definition do_stat (tc : all_test_cases) : SM unit :=
  g ← get;
  let s := statter g in let a := asymlink g in
  if negb (st_dev s =? st_dev a) then
    tst_resm TFAIL "stat of symbolic link reference to object device info %jd != stat of object file device info %jd"
      [Num (st_dev s); Num (st_dev a)]
  else if negb (st_mode s =? st_mode a) then
    tst_resm TFAIL "stat of symbolic link reference to object file permissions %jd != stat of object file permissions %jd"
      [Num (st_mode s); Num (st_mode a)]
  else if negb (st_nlink s =? st_nlink a) then
    tst_resm TFAIL "stat of symbolic link reference to object file link count %jd != stat of object file link count %jd"
      [Num (st_nlink s); Num (st_nlink a)]
  else if negb (st_uid s =? st_uid a) then
    tst_resm TFAIL "stat of symbolic link reference to object file uid %jd != stat of object file uid %jd"
      [Num (st_uid s); Num (st_uid a)]
  else if negb (st_gid s =? st_gid a) then
    tst_resm TFAIL "stat of symbolic link reference to object file gid %jd != stat of object file gid %jd"
      [Num (st_gid s); Num (st_gid a)]
  else if negb (st_size s =? st_size a) then
    tst_resm TFAIL "stat of symbolic link reference to object file size %ld != stat of object file size %ld"
      [Num (st_size s); Num (st_size a)]
  else if negb (st_atime s =? st_atime a) then
    tst_resm TFAIL "stat of symbolic link reference to object access time %ld != stat of object file access time %ld"
      [Num (st_atime s); Num (st_atime a)]
  else if negb (st_mtime s =? st_mtime a) then
    tst_resm TFAIL "stat of symbolic link reference to object modify time %ld != stat of object file modify time %ld"
      [Num (st_atime s); Num (st_atime a)]
  else if negb (st_ctime s =? st_ctime a) then
    tst_resm TFAIL "stat of symbolic link reference to object change time %ld != stat of object file change time %ld"
      [Num (st_atime s); Num (st_atime a)]
  else resm_pass tc.

Definition do_chdir (tc : all_test_cases) : SM unit :=
  r ← sys (FMkdir (fn_arg2 tc) MODE);
  if ret r =? -1 then tst_resm TFAIL "Could not create a setup directory file" []
  else
    note "mkdir(%s, %#o) was successful
" [shown (fn_arg2 tc); Num MODE] ;;
    r ← sys (FChdir (fn_arg1 tc));
    (if ret r =? -1 then
       g ← get;
       tst_resm TFAIL "%sCould not change a directory file through a %s"
         [Str (Buffer g); Str "symbolic link which which pointed at object"]
     else
       t ← call FGetTmpdir;
       let expected_location := (f_text t ++ "/" ++ default "" (fn_arg2 tc))%string in
       c ← sys FGetcwd;
       g ← get;
       (if ret c =? -1 then tst_resm TFAIL "getcwd(3) FAILURE" []
        else if String.eqb (f_text c) expected_location then resm_pass tc
        else tst_resm TFAIL "%s%s %s %s not equal to expected %s"
               [Str (Buffer g); Str "chdir(2) returned successfully, but getcwd(3) indicated";
                Str "new current working directory location"; Str (f_text c);
                Str expected_location]) ;;
       t ← call FGetTmpdir; sys_ (FChdir (Some (f_text t)))) ;;
    sys_ (FRmdir (fn_arg2 tc)).

(** When the last [lstat] fails, [stbuf] is not initialised. *)
Definition do_link (tc : all_test_cases) : SM unit :=
  let nick := Some "nick" in
  r ← sys (FLink (fn_arg1 tc) nick);
  g ← get;
  if ret r =? -1 then
    tst_resm TFAIL ("%slink(%s, " ++ quoted "nick" ++ ") failed, errno: %d: %s %s")
      [Str (Buffer g); shown (fn_arg1 tc); Num (c_errno g);
       Str "link of new file to object file via symbolic link file failed";
       Str "when expected not to"]
  else
    note ("link(%s, " ++ quoted "nick" ++ ") was successful
") [shown (fn_arg1 tc)] ;;
    a ← fill set_asymlink (FLstat (fn_arg1 tc));
    g ← get;
    (if ret a =? -1 then
       tst_resm TBROK "lstat(%s) failed. errno: %d" [shown (fn_arg1 tc); Num (c_errno g)]
     else
       s ← fill set_statter (FLstat nick);
       g ← get;
       if ret s =? -1 then tst_resm TBROK "lstat(nick) failed, errno:%d" [Num (c_errno g)]
       else if st_ino (statter g) =? st_ino (asymlink g) then
         if (st_nlink (statter g) =? 2) && (st_nlink (asymlink g) =? 2) then resm_pass tc
         else
           b ← sys (FLstat (fn_arg2 tc));
           tst_resm TFAIL "%slink(%s, %s) failed to adjust link count.
		count for nick is %d, count for %s is %d, count for %s is %d."
             [Str (Buffer g); shown (fn_arg1 tc); Str "nick"; Num (st_nlink (statter g));
              shown (fn_arg1 tc); Num (st_nlink (asymlink g)); shown (fn_arg2 tc);
              Num (st_nlink (f_stat b))]
       else
         tst_resm TFAIL "%sA lstat of %s (ino:%jd) and of
		%s (ino:%jd), does not show them being the same ino."
           [Str (Buffer g); shown (fn_arg1 tc); Num (st_ino (asymlink g)); Str "nick";
            Num (st_ino (statter g))]) ;;
    delete_files nick None.

Definition do_unlink (tc : all_test_cases) : SM unit :=
  r ← fill set_asymlink (FStat (fn_arg2 tc));
  if ret r =? -1
  then tst_resm TBROK "stat(2) Failure when accessing %s object file" [shown (fn_arg2 tc)]
  else
    r ← sys (FUnlink (fn_arg1 tc));
    if ret r =? -1
    then tst_resm TFAIL "unlink(2) failed when removing symbolic link file" []
    else
      note "unlink(%s) was successful
" [shown (fn_arg1 tc)] ;;
      r ← fill set_statter (FStat (fn_arg2 tc));
      g ← get;
      if ret r =? -1 then
        tst_resm TFAIL "%s %s"
          [Str "unlink(2) failed because it not only removed symbolic link";
           Str "file which pointed at object file, but object file as well"]
      else if (st_ino (statter g) =? st_ino (asymlink g))
              && (st_dev (statter g) =? st_dev (asymlink g))
              && (st_size (statter g) =? st_size (asymlink g)) then resm_pass tc
      else tst_resm TFAIL "%s%s %s %s"
             [Str (Buffer g); Str "unlink(2) failed because it not only removed symbolic link";
              Str "file which pointed at object file, but it changed object";
              Str "file inode information"].

Definition do_chmod (tc : all_test_cases) : SM unit :=
  r ← fill set_asymlink (FStat (fn_arg2 tc));
  if ret r =? -1
  then tst_resm TBROK "stat(2) Failure when accessing %s object file" [shown (fn_arg2 tc)]
  else
    r ← sys (FChmod (fn_arg1 tc) (Z.lor MODE MASK));
    g ← get;
    if ret r =? -1
    then tst_resm TFAIL "%s%s %s" [Str (Buffer g); Str "chmod(2) failed when changing file permission";
                                   Str "through symbolic link file"]
    else
      note "chmod(%s, %#o) was successful
" [shown (fn_arg1 tc); Num (Z.lor MODE MASK)] ;;
      r ← fill set_statter (FStat (fn_arg2 tc));
      g ← get;
      if ret r =? -1
      then tst_resm TBROK "stat(2) Failure when accessing %s object file" [shown (fn_arg2 tc)]
      else if (st_mode (statter g) =? Z.lor MODE MASK)
              && negb (st_mode (statter g) =? st_mode (asymlink g)) then resm_pass tc
      else tst_resm TFAIL "%s%s %o to %o %s"
             [Str (Buffer g); Str "chmod(2) failed to change object file permissions from";
              Num (st_mode (asymlink g)); Num (Z.lor MODE MASK); Str "through symbolic link file"].

Definition a_time_value : Z := 100.

Definition do_utime (tc : all_test_cases) : SM unit :=
  r ← fill set_asymlink (FStat (fn_arg2 tc));
  if ret r =? -1
  then tst_resm TBROK "stat(2) Failure when accessing %s object file" [shown (fn_arg2 tc)]
  else
    g ← get;
    let actime := st_atime (asymlink g) + a_time_value in
    let modtime := st_mtime (asymlink g) + a_time_value in
    r ← sys (FUtime (fn_arg1 tc) (Some (actime, modtime)));
    if ret r =? -1
    then tst_resm TFAIL "%s %s"
           [Str "utime(2) failed to process object file access and modify";
            Str "time updates through symbolic link"]
    else
      r ← fill set_statter (FStat (fn_arg2 tc));
      g ← get;
      if ret r =? -1
      then tst_resm TBROK "stat(2) Failure when accessing %s object file" [shown (fn_arg2 tc)]
      else
        let temp := st_atime (statter g) - st_atime (asymlink g) in
        let diff := (st_mtime (statter g) - st_mtime (asymlink g)) - temp in
        if diff =? 0 then resm_pass tc
        else tst_resm TFAIL "%s %s %jd greater than original times"
               [Str "utime(2) failed to change object file access and";
                Str "modify times through symbolic link to a value"; Num a_time_value].

(** [if (stat(path, &statter) != -1) pts_at_object = 1;] *)
Definition points_at_object (p : path) : SM bool :=
  r ← fill set_statter (FStat p); mret (negb (ret r =? -1)).

Definition do_rename (tc : all_test_cases) : SM unit :=
  pts_at_object ← points_at_object (fn_arg2 tc);
  r ← TEST_errno (FRename (fn_arg1 tc) (Some A_S_FILE));
  if ret r =? -1
  then tst_resm TFAIL "rename(3) failed to rename %s symbolic link file to %s"
         [shown (fn_arg2 tc); Str A_S_FILE]
  else if pts_at_object : bool then
    k ← ck_both (fn_arg0 tc) (Some A_S_FILE) (fn_arg2 tc);
    if negb (k =? 0) then resm_pass tc else resm_msg TFAIL
  else
    k ← ck_symlink (fn_arg0 tc) (Some A_S_FILE) None;
    if k =? 0 then resm_msg TFAIL
    else
      r ← fill set_asymlink (FStat (fn_arg1 tc));
      if negb (ret r =? -1)
      then tst_resm TFAIL "rename(3) did not remove %s when renaming to %s"
             [shown (fn_arg1 tc); Str A_S_FILE]
      else resm_pass tc.

(** The second half of [do_open]: the file is opened again by its own name, on the
    descriptor [fd] in the end. *)
Definition reopen (tc : all_test_cases) (pts_at_object : bool) (fd : Z) : SM Z :=
  let n := strlen BIG_STRING in
  c ← sys (FClose fd);
  if ret c =? -1 then
    tst_resm TFAIL "close(2) Failure when closing object file accessed symbolic link file" [] ;;
    mret fd
  else
    o ← sys (FOpen (fn_arg0 tc) O_RDONLY 0);
    let fd := ret o in
    g ← get;
    (if fd =? -1 then
       tst_resm TFAIL "open(2) Failure when opening %s file: errno:%d %s"
         [shown (fn_arg0 tc); Num (c_errno g); Str (strerror (c_errno g))]
     else
       r ← sys (FRead fd n);
       g ← get;
       if ret r =? -1 then
         tst_resm TFAIL "read(2) Failure of object file opened through a symbolic link file: errno:%d"
           [Num (c_errno g)]
       else if negb (ret r =? n) then
         tst_resm TFAIL "read(2) Failed to read %zu bytes to object file opened through a symbolic link file"
           [Num n]
       else if negb (same_prefix n BIG_STRING (put (f_text r) junk)) then
         tst_resm TFAIL
           "Content of write(2) and read(2) Failed to object file through symbolic link file was not as expected. Expected %s and read returned %s"
           [Str BIG_STRING; Str (put (f_text r) junk)]
       else if pts_at_object then resm_pass tc
       else
         k ← ck_both (fn_arg0 tc) (fn_arg1 tc) (fn_arg0 tc);
         if negb (k =? 0) then resm_pass tc else resm_msg TFAIL) ;;
    mret fd.

(** The first half, on the descriptor [fd] opened through the symbolic link. *)
Definition write_and_read (tc : all_test_cases) (pts_at_object : bool) (fd : Z) : SM unit :=
  let n := strlen BIG_STRING in
  w ← sys (FWrite fd BIG_STRING);
  g ← get;
  fd ← (if ret w =? -1 then
          tst_resm TFAIL "write(2) Failure to object file opened through a symbolic link file: errno:%d"
            [Num (c_errno g)] ;; mret fd
        else if negb (ret w =? n) then
          tst_resm TFAIL "write(2) Failed to write %zu bytes to object file opened through a symbolic link file"
            [Num n] ;; mret fd
        else
          l ← sys (FLseek fd 0 0);
          g ← get;
          if ret l =? -1 then
            tst_resm TFAIL "lseek(2) Failed to position to beginning of object file opened through a symbolic link file: errno = %d"
              [Num (c_errno g)] ;; mret fd
          else
            r ← sys (FRead fd n);
            g ← get;
            if ret r =? -1 then
              tst_resm TFAIL "read(2) Failure of object file opened through a symbolic link file: errno = %d"
                [Num (c_errno g)] ;; mret fd
            else if negb (ret r =? n) then
              tst_resm TFAIL "read(2) Failed to read %zu bytes to object file opened through a symbolic link file"
                [Num n] ;; mret fd
            else if negb (same_prefix n BIG_STRING (put (f_text r) junk)) then
              tst_resm TFAIL
                "Content of write(2) and read(2) Failed to object file through symbolic link file was not as expected. Expected %s and read returned %s"
                [Str BIG_STRING; Str (put (f_text r) junk)] ;; mret fd
            else reopen tc pts_at_object fd);
  sys_ (FClose fd).

Definition do_open (tc : all_test_cases) : SM unit :=
  pts_at_object ← points_at_object (fn_arg2 tc);
  if pts_at_object : bool then
    r ← TEST_errno (FOpen (fn_arg1 tc) O_RDWR 0);
    if ret r =? -1
    then tst_resm TFAIL "open(2) Failure when opening object file through symbolic link file" []
    else write_and_read tc pts_at_object (ret r)
  else
    r ← TEST_errno (FOpen (fn_arg1 tc) (Z.lor O_CREAT O_RDWR) MODE);
    if ret r =? -1
    then tst_resm TFAIL "open(2) Failure when creating object file through symbolic link file" []
    else write_and_read tc pts_at_object (ret r).

(** ** The main loop *)

(** The handler of an entry whose call fails. *)
Definition error_test (tc : all_test_cases) : SM unit :=
  if errno_val tc =? EEXIST then do_EEXIST tc
  else if errno_val tc =? ENOENT then do_ENOENT tc
  else if errno_val tc =? ELOOP then do_ELOOP tc
  else if errno_val tc =? ENOTDIR then do_ENOTDIR tc
  else if errno_val tc =? EXDEV then do_EXDEV tc
  else if errno_val tc =? ENAMETOOLONG then do_ENAMETOOLONG tc
  else if errno_val tc =? EINVAL then do_EINVAL tc
  else tst_resm TBROK "Test Case Declaration Error" [].

Definition expected_error (tc : all_test_cases) : SM unit :=
  k ← run_ck (ck_test tc) (fn_arg0 tc) (fn_arg1 tc) (fn_arg2 tc);
  g ← get;
  if k =? 0 then resm_msg (TEST_RESULT g) else error_test tc.

(** The test of an entry whose call succeeds. *)
Definition expected_success (tc : all_test_cases) : SM unit :=
  k ← run_ck (ck_test tc) (fn_arg0 tc) (fn_arg1 tc) (fn_arg2 tc);
  g ← get;
  let id := tcid tc in
  if cktcsid id SYMLINK || cktcsid id LSTAT || cktcsid id LSTAT_64 then
    if k =? 1 then resm_pass tc else resm_msg (TEST_RESULT g)
  else if k =? 0 then resm_msg (TEST_RESULT g)
  else if cktcsid id READLINK then do_readlink tc
  else if cktcsid id STAT then do_stat tc
  else if cktcsid id STAT_64 then do_stat tc
  else if cktcsid id CHDIR then do_chdir tc
  else if cktcsid id LINK then do_link tc
  else if cktcsid id UNLINK then do_unlink tc
  else if cktcsid id CHMOD then do_chmod tc
  else if cktcsid id UTIME then do_utime tc
  else if cktcsid id RENAME then do_rename tc
  else if cktcsid id OPEN then do_open tc
  else unknown_action.

(** The body of the loop. *)
Definition do_case (tcs : tcses) (tc : all_test_cases) : SM unit :=
  modify (set_Buffer "") ;;
  g ← get;
  when (bool_decide (Selectedtests g = None) && negb (String.eqb (t_tcid tcs) (tcid tc)))
    (modify (set_tcid (tcid tc))) ;;
  if negb (String.eqb (t_tcid tcs) (tcid tc)) then
    tst_resm TBROK "%s TCID attempted to execute %s %d %d test case"
      [Str (t_tcid tcs); Str (tcid tc); Num (Z.b2z (test_fail tc)); Num (errno_val tc)]
  else
    modify (set_result TPASS) ;;
    delete_files (Some S_FILE) (Some O_FILE) ;;
    r ← run_setup (test_setup tc) (fn_arg0 tc) (fn_arg1 tc) (fn_arg2 tc);
    if test_fail tc then expected_error tc
    else if r =? 1 then
      if negb (errno_val tc =? 0) then tst_resm TBROK "Test Case Declaration Error" []
      else expected_success tc
    else tst_resm TBROK "Test Case Declaration Error" [].

(** What lies behind the end of [test_objects] is never read. *)
Definition no_case : all_test_cases :=
  TC "" false 0 0 Creat_symlink Ck_symlink None None None.

Definition do_syscalltests (tcs : tcses) : SM Z :=
  g ← get;
  for_from 0 (Z.to_nat (TST_TOTAL g)) (fun ctr =>
    do_case tcs (nth (tc_ptr tcs + Z.to_nat ctr) test_objects no_case)) ;;
  mret 0.

(** ** The program *)

Definition matches (ptr : string) (t : tcses) : bool :=
  String.eqb ptr (t_tcid t) || String.eqb ptr (t_syscall t).

Definition get_tcs_info (ptr : string) : SM (option tcses) :=
  match List.find (matches ptr) all_tcses with
  | Some t => modify (set_tcid (t_tcid t)) ;; modify (set_total (test_cases t)) ;; mret (Some t)
  | None => mret None
  end.

Definition setup : SM unit :=
  call_ (FMisc "tst_sig") ;; call_ (FMisc "TEST_PAUSE") ;; call_ FTmpdir.

Definition cleanup : SM unit := call_ FTmpRmdir.

(** [Tcid] is the argument of the option -T. *)
Definition main (Tcid : option string) : SM unit :=
  let id := default DEFAULT_TCID Tcid in
  modify (set_tcid id) ;;
  modify (set_selected (Some id)) ;;
  t ← get_tcs_info id;
  match t with
  | None =>
      modify (set_total 1) ;;
      tst_brkm TBROK cleanup "Unknown symbolic link test case specification executed" []
  | Some tcs =>
      setup ;;
      do_syscalltests tcs ;;
      cleanup ;;
      tst_exit
  end.

(** The lines [help] prints. *)
Definition help : list string :=
  "   -T id  Determines which tests cases to execute:
"
  :: map (fun t => sprintf "  %s/%s - %s
" [Str (t_tcid t); Str (t_syscall t); Str (t_desc t)]) all_tcses.
End Program.

(** ** Rules for the calls *)

Section Rules.
Context {W : Type} {K : Kernel fcall freply W}.
Implicit Types Φ : globals -> freply -> W -> list entry -> Prop.

Lemma sx_sys c g w log r w' b Φ :
  k_do main_pid c w = Some (r, w') -> fails r = b ->
  Φ (if b then set_errno (errno r) g else g) r w' log -> sx (sys c) g w log Φ.
Proof.
  intros E <- H. unfold sys. apply sx_bind. eapply sx_call; [exact E|].
  by apply sx_bind, sx_modify, sx_ret.
Qed.

Lemma sx_fill set c g w log r w' b Φ :
  k_do main_pid c w = Some (r, w') -> fails r = b ->
  Φ (if b then set_errno (errno r) g else set (f_stat r) g) r w' log ->
  sx (fill set c) g w log Φ.
Proof.
  intros E <- H. unfold fill. apply sx_bind. eapply sx_sys; [exact E | reflexivity |].
  apply sx_bind, sx_modify, sx_ret. by destruct (fails r).
Qed.

Lemma sx_TEST c g w log r w' b Φ :
  k_do main_pid c w = Some (r, w') -> fails r = b ->
  Φ (let e := if b then errno r else 0 in set_TEST (ret r) e (set_errno e g)) r w' log ->
  sx (TEST c) g w log Φ.
Proof.
  intros E <- H. unfold TEST. apply sx_bind, sx_modify, sx_bind.
  eapply sx_sys; [exact E | reflexivity |].
  apply sx_bind, sx_modify, sx_ret. by destruct (fails r).
Qed.

Lemma sx_TEST_errno c g w log r w' b Φ :
  k_do main_pid c w = Some (r, w') -> fails r = b ->
  Φ (let e := if b then errno r else 0 in set_TEST (ret r) e (set_errno e g)) r w' log ->
  sx (TEST_errno c) g w log Φ.
Proof.
  intros E Hb H. unfold TEST_errno. apply sx_bind. eapply sx_TEST; [exact E | exact Hb |].
  by apply sx_bind, sx_modify, sx_ret.
Qed.
End Rules.
