(* ===== verification/Symlink01Runs.v ===== *)
(** * Runs of symlink01.c on documented file systems

    Symbolic execution of [Symlink01.main] on the reference platform, for any choice
    of what a system is free to choose: the rules for its calls, and the tactic
    [run_cases] that follows the program through its test cases, in the logic of
    [Alone.v].  What is not a concrete value (inode numbers, times, the temporary
    directory) only occurs in comparisons of equal terms. *)

From S2P Require Import Prelude Tst Process Prog Explore Checker Wp Alone FileSys Strings Symlink01.

(** ** Paths *)

Lemma strlen_strcats n s t : strlen (strcats n s t) = strlen s + Z.of_nat n * strlen t.
Proof.
  revert s. induction n as [|n IH]; intros s; cbn [strcats]; [lia|].
  rewrite IH, strlen_app. lia.
Qed.

(** Storing [s] in an array and comparing with [s]. *)
Lemma same_prefix_put s junk : same_prefix (strlen s) s (put s junk) = true.
Proof.
  unfold same_prefix, put, strlen. rewrite Nat2Z.id, substring_app, substring_all.
  apply String.eqb_refl.
Qed.

Lemma path_max_length cwd path1 :
  strlen cwd <= PATH_MAX -> path1 <> "" -> strlen (path_max cwd path1) = PATH_MAX + 1.
Proof.
  intros Hc Hp. apply strlen_nonempty in Hp. unfold path_max.
  set (k := Z.quot (PATH_MAX - strlen cwd) (strlen path1)).
  assert (0 <= k * strlen path1 <= PATH_MAX - strlen cwd) as Hk.
  { subst k. rewrite Z.mul_comm. pose proof (Z.mul_quot_le (PATH_MAX - strlen cwd) (strlen path1)).
    pose proof (Z.quot_pos (PATH_MAX - strlen cwd) (strlen path1)). nia. }
  assert (0 <= k) by (subst k; apply Z.quot_pos; lia).
  rewrite !strlen_strcats, strlen_app, !strlen_strcats.
  change (strlen "/") with 1. change (strlen "Z") with 1. lia.
Qed.

(** The string that is built when the working directory is too long. *)
Lemma path_max_overflow cwd path1 :
  PATH_MAX < strlen cwd -> strlen cwd + 1 <= strlen (path_max cwd path1).
Proof.
  intros H. unfold path_max. rewrite !strlen_strcats, strlen_app, !strlen_strcats.
  pose proof (strlen_nonneg path1). change (strlen "/") with 1. change (strlen "Z") with 1. nia.
Qed.

(** ** Calls on paths that are not concrete *)

Section Run.
Variable p : params.
Context `{!FsParams p}.
Variable ts : list entry -> Z.
#[local] Instance reference : Kernel fcall freply fs := fs_kernel p ts.

Definition tick (w : fs) : fs := set_now (f_now w + 1) w.

Lemma lookup_long w follow s : PATH_MAX <= strlen s -> lookup_path p w follow (Some s) = Err ENAMETOOLONG.
Proof.
  intros H. unfold lookup_path. destruct (String.eqb_spec s "") as [->|_]; [done|].
  by rewrite (proj2 (Z.leb_le _ _) H).
Qed.

Lemma fs_symlink_long t s w :
  t <> "" -> strlen t < PATH_MAX -> PATH_MAX <= strlen s ->
  fs_do p (FSymlink (Some t) (Some s)) w = (ffails ENAMETOOLONG, tick w).
Proof.
  intros H1 H2 H3. cbn [fs_do]. unfold fs_symlink, on_new. rewrite lookup_long by done.
  destruct (String.eqb_spec t ""); [done|]. by rewrite (proj2 (Z.leb_gt _ _) H2).
Qed.

Lemma fs_lstat_long s w :
  PATH_MAX <= strlen s -> fs_do p (FLstat (Some s)) w = (ffails ENAMETOOLONG, tick w).
Proof. intros H. cbn [fs_do]. unfold fs_stat, on_file. by rewrite lookup_long. Qed.

Lemma fs_readlink_long s w :
  PATH_MAX <= strlen s ->
  fs_do p (FReadlink (Some s) (strlen s)) w = (ffails ENAMETOOLONG, tick w).
Proof.
  intros H. cbn [fs_do]. unfold fs_readlink, on_file. rewrite lookup_long by done.
  rewrite (proj2 (Z.leb_gt (strlen s) 0)); [done|]. unfold PATH_MAX in H. lia.
Qed.

(** Going back to the temporary directory. *)
Lemma fs_chdir_tmp w n :
  f_super w = true -> tget root (inodes w) = Some n -> (exists d es, i_kind n = Dir d es) ->
  fs_do p (FChdir (Some (base p))) w = (fok 0, set_cwd root (tick w)).
Proof.
  intros Hs Hn (d & es & Hk). cbn [fs_do]. unfold fs_chdir, on_file, lookup_path.
  pose proof tmp_fits as Hf. unfold PATH_MAX, NAME_MAX in *.
  rewrite (proj2 (Z.leb_gt 4096 (strlen (base p)))) by lia.
  unfold start_of. cbn [base String.eqb is_absolute]. rewrite strip_refl.
  cbn [walk MAXSYMLINKS set_now inodes]. rewrite Hn, Hk. unfold allows. cbn [set_now f_super].
  by rewrite Hs.
Qed.

Lemma fs_getcwd_tmp w :
  cwd w = root -> fs_do p FGetcwd w = (ftext 0 (base p ++ "")%string, tick w).
Proof.
  intros H. cbn [fs_do]. unfold fs_getcwd. cbn [set_now cwd inodes]. rewrite H.
  by destruct (length (inodes w)).
Qed.

(** The long path, sealed. *)
Lemma long_path_exists :
  { fp | fp = path_max (base p ++ "") O_FILE /\ strlen fp = PATH_MAX + 1 }.
Proof.
  exists (path_max (base p ++ "") O_FILE). split; [done|]. apply path_max_length; [|done].
  rewrite strlen_app. pose proof tmp_fits. change (strlen "") with 0. unfold NAME_MAX in *. lia.
Qed.

Definition long_path : string := proj1_sig long_path_exists.

Lemma long_path_length : strlen long_path = PATH_MAX + 1.
Proof. exact (proj2 (proj2_sig long_path_exists)). Qed.

Lemma fs_answer c w a : fs_do p c w = a -> k_do main_pid c w = Some a.
Proof. intros E. cbn. by rewrite E. Qed.

Lemma tmp_cwd_fits : cwd_fits (ftext 0 (base p ++ "")%string) = true.
Proof.
  unfold cwd_fits. cbn [f_text ftext ret]. rewrite strlen_app. change (strlen "") with 0.
  pose proof tmp_fits. unfold NAME_MAX in *. lia.
Qed.

(** The setup of the tests for long paths. *)
Lemma sx_creat_path_max g w log path2 path3 (Φ : globals -> Z -> fs -> list entry -> Prop) :
  cwd w = root ->
  Φ (set_full_path long_path g) 1 (tick (tick w)) log ->
  sx (creat_path_max (Some O_FILE) path2 path3) g w log Φ.
Proof.
  intros Hw HΦ. unfold creat_path_max. apply sx_bind.
  eapply sx_sys; [apply fs_answer, fs_getcwd_tmp; done | reflexivity |].
  apply sx_false; [done|]. apply sx_bind.
  eapply sx_sys; [apply fs_answer, fs_getcwd_tmp; done | reflexivity |].
  rewrite tmp_cwd_fits. apply sx_bind, sx_ret, sx_bind, sx_modify, sx_ret.
  pose proof (proj1 (proj2_sig long_path_exists) : long_path = _) as E.
  rewrite E in HΦ. exact HΦ.
Qed.
End Run.

(** A sum that computation leaves alone. *)
Lemma sealed_add_exists : { f : Z -> Z -> Z | forall x y, f x y = x + y }.
Proof. by exists Z.add. Qed.

Definition sealed_add : Z -> Z -> Z := proj1_sig sealed_add_exists.

Lemma sealed_add_eq x y : x + y = sealed_add x y.
Proof. symmetry. exact (proj2_sig sealed_add_exists x y). Qed.

(** The kernel compares programs before it unfolds the monad. *)
#[global] Strategy 1000 [mbind M_bind ITree.bind mret M_ret sx wp].

(** ** Symbolic execution *)

(** An entry of the table, kept folded. *)
Definition tc_at (i : nat) : all_test_cases := nth i test_objects no_case.

Ltac norm := cbv beta iota zeta delta [
  set_total set_result set_tcid set_selected set_msg set_full_path set_asymlink set_statter
  set_Buffer set_TEST set_errno TST_TOTAL TEST_RESULT TCID Selectedtests test_msg full_path
  asymlink statter Buffer TEST_RETURN TEST_ERRNO c_errno ret errno f_stat f_text st_dev st_ino
  st_mode st_nlink st_uid st_gid st_size st_atime st_mtime st_ctime id ].

(** A condition that is not a concrete boolean. *)
Ltac solve_cond :=
  norm;
  first [ reflexivity
        | apply String.eqb_eq; reflexivity
        | refine (f_equal negb (same_prefix_put _ _))
        | rewrite <- ?sealed_add_eq, ?long_path_length; apply Z.eqb_eq; lia
        | rewrite ?Z.eqb_refl; rewrite ?bool_decide_eq_true_2 by done; reflexivity ].

Ltac pick b :=
  let v := eval vm_compute in b in
  lazymatch v with
  | true => apply sx_true; [vm_cast_no_check (eq_refl true)|]
  | false => apply sx_false; [vm_cast_no_check (eq_refl false)|]
  | _ => first [ apply sx_true; [solve_cond|] | apply sx_false; [solve_cond|] ]
  end.

(** The answer to a call: by a lemma when a path is not concrete, by computation
    otherwise. *)
Ltac answer :=
  apply fs_answer; norm;
  lazymatch goal with
  | |- fs_do _ (FChdir (Some (String _ ?t))) _ = _ =>
      first [ is_var t;
              lazymatch goal with HP : FsParams _ |- _ => eapply (@fs_chdir_tmp _ HP) end;
              [reflexivity | vm_compute; reflexivity | by eexists _, _]
            | vm_compute; reflexivity ]
  | |- fs_do _ (FSymlink _ (Some (long_path _))) _ = _ =>
      apply fs_symlink_long; [done | reflexivity | rewrite long_path_length; lia]
  | |- fs_do _ (FLstat (Some (long_path _))) _ = _ =>
      apply fs_lstat_long; rewrite long_path_length; lia
  | |- fs_do _ (FReadlink (Some (long_path _)) _) _ = _ =>
      apply fs_readlink_long; rewrite long_path_length; lia
  | |- fs_do _ (FUtime _ (Some _)) _ = _ => rewrite !sealed_add_eq; vm_compute; reflexivity
  | |- _ => vm_compute; reflexivity
  end.

(** The end of a part: its result. *)
Ltac result :=
  repeat match goal with
  | |- context [fails ?r] => let b := eval vm_compute in (fails r) in change (fails r) with b
  end;
  norm;
  lazymatch goal with
  | |- exactly _ _ _ _ _ _ _ _ => repeat split; reflexivity
  | |- _ => idtac
  end.

Ltac run_step :=
  lazymatch goal with
  | |- sx (mret _) _ _ _ _ => apply sx_ret; result
  | |- sx get _ _ _ _ => apply sx_get; result
  | |- sx (modify _) _ _ _ _ => apply sx_modify; result
  | |- sx (tst_resm _ _ _) _ _ _ _ => apply sx_resm; result
  | |- sx (tst_resm_errno _ _ _ _) _ _ _ _ => apply sx_resm_errno; result
  | |- sx (creat_path_max _ _ _) _ _ _ _ =>
      lazymatch goal with HP : FsParams _ |- _ => apply (@sx_creat_path_max _ HP) end;
      [reflexivity | result]
  | |- sx (sys _) _ _ _ _ => eapply sx_sys; [answer | vm_compute; reflexivity | result]
  | |- sx (fill _ _) _ _ _ _ => eapply sx_fill; [answer | vm_compute; reflexivity | result]
  | |- sx (TEST _) _ _ _ _ => eapply sx_TEST; [answer | vm_compute; reflexivity | result]
  | |- sx (TEST_errno _) _ _ _ _ =>
      eapply sx_TEST_errno; [answer | vm_compute; reflexivity | result]
  | |- sx (call _) _ _ _ _ => eapply sx_call; [vm_compute; reflexivity | result]
  | |- sx (if ?b then _ else _) _ _ _ _ => pick b
  | |- sx (when _ _) _ _ _ _ => unfold when
  | |- sx (for_from ?s ?n ?b) _ _ _ _ =>
      let n' := eval vm_compute in n in change n with n'; cbn [for_from]; cbv beta
  | |- sx (do_case ?e ?j ?t (nth ?i _ _)) _ _ _ _ =>
      let i' := eval vm_compute in i in
      let m := eval cbv beta delta [do_case] in (do_case e j t (tc_at i')) in
      change (do_case e j t (nth i test_objects no_case)) with m
  | |- sx (run_setup ?e ?f _ _ _) _ _ _ _ =>
      let f' := eval vm_compute in f in change f with f'; cbn [run_setup]
  | |- sx (run_ck ?f _ _ _) _ _ _ _ =>
      let f' := eval vm_compute in f in change f with f'; cbn [run_ck]
  | |- sx ?m _ _ _ _ => let m' := eval red in m in progress change m with m'
  end.

Ltac run :=
  lazymatch goal with
  | |- sx (mbind _ _) _ _ _ _ => eapply sx_step; [run | cbv beta; run]
  | |- sx _ _ _ _ _ => run_step; run
  | |- _ => idtac
  end.

(** The file system once [setup] is done. *)
Definition ready : fs :=
  Fs [(root, Inode (Dir root []) 448 2 (Tick 3) (Tick 3) (Tick 3))] [] root 18 1 3 true.

(** What a correct system makes the program report. *)
Definition pass_report (tc : all_test_cases) : entry := Entry TPASS None "%s" [Str (pass_text tc)].

Definition cases_of (t : tcses) : list all_test_cases :=
  take (Z.to_nat (test_cases t)) (drop (tc_ptr t) test_objects).

Definition expected (t : tcses) : list entry := map pass_report (cases_of t).

(** ** The program *)

Section Passes.
Variable p : params.
Context `{!FsParams p}.
Variable ts : list entry -> Z.
Variable strerror : Z -> string.
Variable junk : string.
#[local] Existing Instance reference.

(** The test cases of every specification. *)
Lemma all_cases_run t id tc0 :
  t ∈ all_tcses ->
  sx (K := fs_kernel p ts) (do_syscalltests strerror junk t)
    (set_total (test_cases t) (set_tcid tc0 (set_selected (Some id) globals0))) ready []
    (fun _ _ _ log => log = expected t).
Proof.
  intros Ht. destruct p as [ino clock dev uid gid dirsize tmp]. cbv [ready globals0].
  repeat (apply elem_of_cons in Ht as [->|Ht]; [norm; run; vm_compute; reflexivity|]).
  by apply not_elem_of_nil in Ht.
Qed.

Lemma sx_effect c g w log r w' (Φ : globals -> unit -> fs -> list entry -> Prop) :
  fs_do p c w = (r, w') -> Φ g tt w' log -> sx (K := fs_kernel p ts) (call_ c) g w log Φ.
Proof.
  intros E H. unfold call_. apply sx_bind. eapply sx_call; [by apply fs_answer|]. by apply sx_ret.
Qed.

Lemma main_runs Tcid t :
  List.find (matches (default DEFAULT_TCID Tcid)) all_tcses = Some t ->
  sx_dies (K := fs_kernel p ts) (main strerror junk Tcid) globals0 no_fs []
    (fun _ log => log = expected t).
Proof.
  intros Hf. unfold main. apply sx_dies_bind, sx_modify, sx_dies_bind, sx_modify, sx_dies_bind.
  unfold get_tcs_info. rewrite Hf.
  apply sx_bind, sx_modify, sx_bind, sx_modify, sx_ret. unfold setup.
  apply sx_dies_bind, sx_bind. eapply sx_effect; [reflexivity|].
  apply sx_bind. eapply sx_effect; [reflexivity|]. eapply sx_effect; [reflexivity|].
  apply sx_dies_bind. eapply sx_mono; [|apply all_cases_run].
  - intros g r w log ->. apply sx_dies_bind. unfold cleanup. eapply sx_effect; [reflexivity|].
    by apply sx_dies_exit.
  - apply list_elem_of_In. by eapply find_some.
Qed.
End Passes.

(** C1: On every documented file system, with every choice of inode numbers, times
    and temporary directory, and for every test case specification that -T may name
    (or symlink01 without -T), the program ends, and its reports are exactly one pass
    for each test case of the specification, in the order of the table. *)
Theorem symlink01_passes {W} (K : Kernel fcall freply W) (w0 : W) `{!FsPlatform K w0}
    strerror junk Tcid t :
  List.find (matches (default DEFAULT_TCID Tcid)) all_tcses = Some t ->
  inevitable (fun s => passed main_pid (log_is (expected t)) s = true)
    (boot main_pid (main strerror junk Tcid) globals0 w0).
Proof.
  intros Hf. apply (refines_run K (fs_kernel fp_params tst_status) w0 no_fs _ _ _ fp_init).
  eapply sx_run; [exact (main_runs fp_params tst_status strerror junk Tcid t Hf)|].
  intros w log ->. split.
  - apply forallb_forall. intros e He. unfold expected in He.
    apply in_map_iff in He as (tc & <- & _). done.
  - by apply bool_decide_eq_true_2.
Qed.

Lemma symlink01_passes_witness :
  inevitable (H := fs_kernel plain_params (fun _ => 0))
    (fun s => passed main_pid (log_is (map pass_report (cases_of (nth 12 all_tcses (Tcs "" "" 0 0 ""))))) s
              = true)
    (boot main_pid (main (fun _ => "error") "" (Some "utime")) globals0 no_fs).
Proof.
  exact (symlink01_passes (fs_kernel plain_params (fun _ => 0)) no_fs (fun _ => "error") ""
    (Some "utime") _ eq_refl).
Defined.
