(* ===== verification/Symlink01Verdicts.v ===== *)
(** * What the verdicts of symlink01.c say, on any kernel

    How many reports [Symlink01.main] makes whatever the system answers, when the
    handlers report a pass, and what they do not notice. *)

From S2P Require Import Prelude Tst Process Prog Explore Checker Wp Alone FileSys Symlink01.
From S2P Require Import Symlink01Runs.

(** ** One report for each test case *)

(** After a call of [getcwd] that succeeds the next one does too, with a path that is not too
    long.  [creat_path_max] relies on that. *)
Definition getcwd_again {W} (K : Kernel fcall freply W) : Prop := forall w r w1 r' w2,
  k_do main_pid FGetcwd w = Some (r, w1) -> ret r <> -1 ->
  k_do main_pid FGetcwd w1 = Some (r', w2) -> cwd_fits r' = true.

Section AnyKernel.
Context {W : Type} {K : Kernel fcall freply W} `{!Total K}.
Variable strerror : Z -> string.
Variable junk : string.
Hypothesis Hcwd : getcwd_again K.

Lemma reports_sys c : reports 0 (sys c).
Proof. unfold sys. reports_auto. Qed.

#[local] Hint Resolve reports_sys : reports.

Lemma reports_sys_ c : reports 0 (sys_ c).
Proof. unfold sys_. reports_auto. Qed.

#[local] Hint Resolve reports_sys_ : reports.

Lemma reports_TEST c : reports 0 (TEST c).
Proof. unfold TEST. reports_auto. Qed.

#[local] Hint Resolve reports_TEST : reports.

Lemma reports_TEST_errno c : reports 0 (TEST_errno c).
Proof. unfold TEST_errno. reports_auto. Qed.

Lemma reports_fill set c : reports 0 (fill set c).
Proof. unfold fill. reports_auto. Qed.

Lemma reports_reject t fmt args : reports 0 (reject t fmt args).
Proof. unfold reject. reports_auto. Qed.

Lemma reports_note fmt args : reports 0 (note fmt args).
Proof. unfold note. reports_auto. Qed.

#[local] Hint Resolve reports_TEST_errno reports_fill reports_reject reports_note : reports.

Lemma reports_resm_pass tc : reports 1 (resm_pass tc).
Proof. unfold resm_pass, resm_result. reports_auto. Qed.

Lemma reports_resm_msg t : reports 1 (resm_msg t).
Proof. unfold resm_msg. reports_auto. Qed.

Lemma reports_resm_unexpected fmt texts : reports 1 (resm_unexpected strerror fmt texts).
Proof. unfold resm_unexpected. reports_auto. Qed.

Lemma reports_unknown : reports 1 unknown_action.
Proof. unfold unknown_action. reports_auto. Qed.

#[local] Hint Resolve reports_resm_pass reports_resm_msg reports_resm_unexpected reports_unknown : reports.

Lemma reports_see p : reports 0 (see_if_a_symlink p).
Proof. unfold see_if_a_symlink. reports_auto. Qed.

Lemma reports_delete p q : reports 0 (delete_files p q).
Proof. unfold delete_files. reports_auto. Qed.

#[local] Hint Resolve reports_see reports_delete : reports.

Lemma reports_creat_path_max p q r : reports 0 (creat_path_max p q r).
Proof.
  intros g w log. unfold creat_path_max, reject. apply sx_bind.
  destruct (total_do main_pid FGetcwd w) as [[r1 w1] E1]. eapply sx_sys; [exact E1|reflexivity|].
  destruct (Z.eqb_spec (ret r1) (-1)) as [Hr|Hr].
  { apply sx_bind, sx_modify, sx_bind, sx_modify, sx_ret. exists []. by rewrite app_nil_r. }
  destruct (total_do main_pid FGetcwd w1) as [[r2 w2] E2]. apply sx_bind.
  eapply sx_sys; [exact E2|reflexivity|]. rewrite (Hcwd _ _ _ _ _ E1 Hr E2).
  apply sx_bind, sx_ret, sx_bind, sx_modify, sx_ret. exists []. by rewrite app_nil_r.
Qed.

#[local] Hint Resolve reports_creat_path_max : reports.

Lemma reports_setup f p q r : reports 0 (run_setup strerror f p q r).
Proof.
  destruct f; cbn [run_setup]; [| | |auto with reports]; unfold creat_both, creat_symlink, creat_object.
  all: reports_auto.
Qed.

Lemma reports_ck_symlink p q r : reports 0 (ck_symlink p q r).
Proof. unfold ck_symlink. reports_auto. Qed.

#[local] Hint Resolve reports_ck_symlink : reports.

Lemma reports_ck_both p q r : reports 0 (ck_both p q r).
Proof. unfold ck_both. reports_auto. Qed.

#[local] Hint Resolve reports_ck_both : reports.

Lemma reports_ck f p q r : reports 0 (run_ck f p q r).
Proof. destruct f; cbn [run_ck]; unfold ck_path_max, ck_object.  all: reports_auto. Qed.

#[local] Hint Resolve reports_setup reports_ck : reports.
Lemma reports_do_EEXIST tc : reports 1 (do_EEXIST strerror tc).
Proof. unfold do_EEXIST. reports_auto. Qed.

Lemma reports_do_ENOENT tc : reports 1 (do_ENOENT strerror tc).
Proof. unfold do_ENOENT. reports_auto. Qed.

Lemma reports_do_ELOOP tc : reports 1 (do_ELOOP strerror tc).
Proof. unfold do_ELOOP. reports_auto. Qed.

Lemma reports_do_ENOTDIR tc : reports 1 (do_ENOTDIR strerror tc).
Proof. unfold do_ENOTDIR. reports_auto. Qed.

Lemma reports_do_EXDEV tc : reports 1 (do_EXDEV strerror tc).
Proof. unfold do_EXDEV. reports_auto. Qed.

Lemma reports_do_ENAMETOOLONG tc : reports 1 (do_ENAMETOOLONG strerror tc).
Proof. unfold do_ENAMETOOLONG. reports_auto. Qed.

Lemma reports_do_EINVAL tc : reports 1 (do_EINVAL tc).
Proof. unfold do_EINVAL. reports_auto. Qed.

#[local] Hint Resolve reports_do_EEXIST reports_do_ENOENT reports_do_ELOOP reports_do_ENOTDIR reports_do_EXDEV reports_do_ENAMETOOLONG reports_do_EINVAL : reports.

Lemma reports_do_readlink tc : reports 1 (do_readlink junk tc).
Proof. unfold do_readlink. reports_auto. Qed.

Lemma reports_do_stat tc : reports 1 (do_stat tc).
Proof. unfold do_stat. reports_auto. Qed.

Lemma reports_do_chdir tc : reports 1 (do_chdir tc).
Proof. unfold do_chdir. reports_auto. Qed.

Lemma reports_do_link tc : reports 1 (do_link tc).
Proof. unfold do_link. reports_auto. Qed.

Lemma reports_do_unlink tc : reports 1 (do_unlink tc).
Proof. unfold do_unlink. reports_auto. Qed.

Lemma reports_do_chmod tc : reports 1 (do_chmod tc).
Proof. unfold do_chmod. reports_auto. Qed.

Lemma reports_do_utime tc : reports 1 (do_utime tc).
Proof. unfold do_utime. reports_auto. Qed.

#[local] Hint Resolve reports_do_readlink reports_do_stat reports_do_chdir reports_do_link reports_do_unlink reports_do_chmod reports_do_utime : reports.

Lemma reports_points p : reports 0 (points_at_object p).
Proof. unfold points_at_object. reports_auto. Qed.

#[local] Hint Resolve reports_points : reports.

Lemma reports_do_rename tc : reports 1 (do_rename tc).
Proof. unfold do_rename. reports_auto. Qed.

Lemma reports_reopen tc b fd : reports 1 (reopen strerror junk tc b fd).
Proof. unfold reopen. reports_auto. Qed.

#[local] Hint Resolve reports_do_rename reports_reopen : reports.

Lemma reports_write_and_read tc b fd : reports 1 (write_and_read strerror junk tc b fd).
Proof. unfold write_and_read. reports_auto. Qed.

#[local] Hint Resolve reports_write_and_read : reports.

Lemma reports_do_open tc : reports 1 (do_open strerror junk tc).
Proof. unfold do_open. reports_auto. Qed.

#[local] Hint Resolve reports_do_open : reports.

Lemma reports_error_test tc : reports 1 (error_test strerror tc).
Proof. unfold error_test. reports_auto. Qed.

#[local] Hint Resolve reports_error_test : reports.

Lemma reports_do_case t tc : reports 1 (do_case strerror junk t tc).
Proof. unfold do_case, expected_error, expected_success, when. reports_auto. Qed.
End AnyKernel.

Section Main.
Context {W : Type} {K : Kernel fcall freply W} `{!Total K}.
Variable strerror : Z -> string.
Variable junk : string.
Hypothesis Hcwd : getcwd_again K.

(** The number of test cases that -T selects; an unknown name counts as one. *)
Definition cases_selected (Tcid : option string) : Z :=
  from_option test_cases 1 (List.find (matches (default DEFAULT_TCID Tcid)) all_tcses).

Lemma all_tcses_positive t : t ∈ all_tcses -> 0 <= test_cases t.
Proof.
  intros Ht. apply Z.leb_le. revert t Ht. apply Forall_forall.
  change (Forall (fun t => (0 <=? test_cases t) = true) all_tcses). by repeat constructor.
Qed.

Lemma reports_call_ c : reports 0 (call_ c : SM unit).
Proof. unfold call_. reports_auto. Qed.

#[local] Hint Resolve reports_call_ : reports.

Lemma do_syscalltests_reports t g w log :
  0 <= TST_TOTAL g ->
  sx (do_syscalltests strerror junk t) g w log (fun _ _ _ log' =>
    exists l, log' = log ++ l /\ Z.of_nat (length l) = TST_TOTAL g).
Proof.
  intros Hg. unfold do_syscalltests. apply sx_bind, sx_get, sx_bind.
  eapply sx_mono; [|eapply (reports_for 1); intros i; by apply reports_do_case].
  intros g' a w' log' (l & -> & Hl). apply sx_ret. exists l. split; [done|]. lia.
Qed.

Lemma main_reports Tcid w :
  sx_dies (main strerror junk Tcid) globals0 w [] (fun _ log =>
    Z.of_nat (length log) = cases_selected Tcid).
Proof.
  unfold main, cases_selected. set (id := default DEFAULT_TCID Tcid).
  apply sx_dies_bind, sx_modify, sx_dies_bind, sx_modify, sx_dies_bind. unfold get_tcs_info.
  destruct (List.find (matches id) all_tcses) as [t|] eqn:Hf.
  - apply sx_bind, sx_modify, sx_bind, sx_modify, sx_ret. unfold setup, cleanup.
    apply sx_dies_bind, sx_bind, sx_bind, sx_call_any. intros _ w1.
    apply sx_ret, sx_bind, sx_bind, sx_call_any. intros _ w2.
    apply sx_ret, sx_bind, sx_call_any. intros _ w3. apply sx_ret.
    apply sx_dies_bind. eapply sx_mono; [|apply do_syscalltests_reports].
    + intros g a w4 log (l & -> & Hl).
      apply sx_dies_bind, sx_bind, sx_call_any. intros _ w5. by apply sx_ret, sx_dies_exit.
    + apply all_tcses_positive, list_elem_of_In. by eapply find_some.
  - apply sx_ret, sx_dies_bind, sx_modify. unfold tst_brkm, cleanup.
    apply sx_dies_bind, sx_resm, sx_dies_bind, sx_bind, sx_call_any. intros _ w5.
    by apply sx_ret, sx_dies_exit.
Qed.

End Main.

#[export] Instance fs_total p ts : Total (fs_kernel p ts).
Proof. intros pid c w. by eexists. Qed.

(** The reference system, on which [getcwd] fails if the path is too long. *)
Definition limited (p : params) : Kernel fcall freply fs := {|
  k_do := fun _ c s =>
    Some (match c with
          | FGetcwd => if cwd_fits (fs_getcwd p s).1 then fs_getcwd p s else (ffails ENAMETOOLONG, s)
          | _ => fs_do p c s
          end);
  k_fork := fun _ _ w => w;
  k_exit := fun _ s => s;
  tst_status := fun _ => 0
|}.

#[export] Instance limited_total p : Total (limited p).
Proof. intros pid c w. by eexists. Qed.

Lemma limited_again p : getcwd_again (limited p).
Proof.
  intros w r w1 r' w2. cbn [k_do limited]. intros [= E1] Hr [= E2].
  destruct (cwd_fits (fs_getcwd p w).1) eqn:Hc; [|by injection E1 as <- _].
  assert (w1 = w) as -> by (revert E1; unfold fs_getcwd; destruct (path_below _ _ _); by intros [= _ <-]).
  rewrite Hc, E1 in E2. injection E2 as <- _. by rewrite E1 in Hc.
Qed.


(** ** The verdict on an expected error *)

(** The call that an entry with an expected error is about, when it is the first one
    of its handler and the handler looks at nothing else. *)
Definition error_call (g : globals) (tc : all_test_cases) : option fcall :=
  let named := cktcsid (tcid tc) in
  let l := fn_arg1 tc in
  if errno_val tc =? EEXIST then
    if named SYMLINK then Some (FSymlink (fn_arg0 tc) l)
    else if named MKDIR then Some (FMkdir l MODE)
    else if named OPEN then Some (FOpen l (Z.lor O_EXCL O_CREAT) 438)
    else None
  else if errno_val tc =? ENOENT then
    if named STAT || named STAT_64 then Some (FStat l)
    else if named CHDIR then Some (FChdir l)
    else if named LINK then Some (FLink l (Some "nick"))
    else if named CHMOD then Some (FChmod l MODE)
    else if named UTIME then Some (FUtime l None)
    else if named OPEN then Some (FOpen l O_RDWR 0)
    else None
  else if errno_val tc =? ELOOP then
    if named STAT || named STAT_64 then None
    else if named CHDIR then Some (FChdir l)
    else if named LINK then Some (FLink l (Some O_FILE))
    else if named CHMOD then Some (FChmod l MODE)
    else if named UTIME then Some (FUtime l None)
    else if named OPEN then Some (FOpen l O_CREAT 438)
    else None
  else if errno_val tc =? ENAMETOOLONG then
    if named SYMLINK then None
    else if named READLINK then Some (FReadlink (Some (full_path g)) (strlen (full_path g)))
    else None
  else if errno_val tc =? EINVAL then
    if named READLINK then Some (FReadlink (fn_arg0 tc) BUFMAX) else None
  else None.

(** The entries of the table with an expected error that this leaves out: the handlers of stat04
    and stat04_64 pass whatever is answered ([stat_ELOOP_never_fails]), those of symlink01,
    rmdir03 and rename01 also look at the answers to later calls, and the entry of link01 names
    an error that does not exist. *)
Lemma error_entries_left g :
  map (fun tc => (tcid tc, errno_val tc))
    (List.filter (fun tc => test_fail tc && match error_call g tc with Some _ => false | None => true end)
       test_objects)
  = [(SYMLINK, ENAMETOOLONG); (STAT, ELOOP); (STAT_64, ELOOP); (RMDIR, ENOTDIR); (LINK, -1); (RENAME, EXDEV)].
Proof. reflexivity. Qed.

(** One report was added: a pass if [ok], else a failure. *)
Definition verdict (ok : Prop) (log log' : list entry) : Prop :=
  exists e, log' = log ++ [e] /\ ((e_type e = TPASS /\ ok) \/ (e_type e = TFAIL /\ ~ ok)).

Section Errors.
Context {W : Type} {K : Kernel fcall freply W} `{!Total K}.
Variable strerror : Z -> string.

(** Programs that make one report, a failure. *)
Definition complains {A} (m : SM A) : Prop := forall g w log,
  sx m g w log (fun _ _ _ log' => exists e, log' = log ++ [e] /\ e_type e = TFAIL).

Lemma complains_resm fmt args : complains (tst_resm TFAIL fmt args).
Proof. intros g w log. apply sx_resm. by eexists. Qed.

Lemma complains_unexpected fmt texts : complains (resm_unexpected strerror fmt texts).
Proof. intros g w log. unfold resm_unexpected. apply sx_bind, sx_get, sx_resm. by eexists. Qed.

Lemma complains_seq {A B} (m : SM A) (f : A -> SM B) :
  complains m -> (forall x, reports 0 (f x)) -> complains (m ≫= f).
Proof.
  intros Hm Hf g w log. eapply sx_seq; [apply Hm|].
  intros g' a w' log' He. apply sx_quiet; [apply Hf | done].
Qed.

Lemma sx_pass tc g w log :
  TEST_RESULT g = TPASS ->
  sx (resm_pass tc) g w log (fun _ _ _ log' => exists e, log' = log ++ [e] /\ e_type e = TPASS).
Proof.
  intros Hg. unfold resm_pass, resm_result. apply sx_bind, sx_get, sx_resm. by eexists.
Qed.

(** The end of a handler: the answer [r] decides between a pass and a failure. *)
Lemma sx_judge {A} e r (good bad : SM A) g w log :
  (fails r = true -> c_errno g = errno r) ->
  sx good g w log (fun _ _ _ log' => exists e, log' = log ++ [e] /\ e_type e = TPASS) ->
  complains bad ->
  sx (if failed_with e r g then good else bad) g w log (fun _ _ _ =>
    verdict (ret r = -1 /\ errno r = e) log).
Proof.
  intros Hr Hgood Hbad.
  assert (failed_with e r g = true <-> ret r = -1 /\ errno r = e) as Hiff.
  { unfold failed_with, fails in *. rewrite andb_true_iff, !Z.eqb_eq. split; intros [H1 H2];
      rewrite <- Hr in * by (by rewrite Z.eqb_eq); done. }
  apply sx_if; intros Hb.
  - eapply sx_mono; [|exact Hgood]. intros _ _ _ log' (x & -> & Hx). exists x. split; [done|].
    left. split; [done|]. by apply Hiff.
  - eapply sx_mono; [|apply Hbad]. intros _ _ _ log' (x & -> & Hx). exists x. split; [done|].
    right. split; [done|]. intros H. apply Hiff in H. congruence.
Qed.
End Errors.

(** A handler up to its verdict. *)
Ltac judge Hk Hg :=
  apply sx_bind;
  lazymatch goal with
  | |- sx (TEST_errno _) _ _ _ _ => eapply sx_TEST_errno; [exact Hk | reflexivity |]
  | |- sx (sys _) _ _ _ _ => eapply sx_sys; [exact Hk | reflexivity |]
  | |- sx (fill _ _) _ _ _ _ => eapply sx_fill; [exact Hk | reflexivity |]
  end;
  apply sx_bind, sx_get; apply sx_judge;
  [ intros Hf; by rewrite Hf
  | first [ apply sx_resm; by eexists
          | apply sx_pass; destruct (fails _); exact Hg ]
  | first [ apply complains_resm | apply complains_unexpected
          | apply complains_seq; [first [apply complains_resm | apply complains_unexpected] |
              intros ?; reports_auto] ] ].

Section ErrorVerdict.
Context {W : Type} {K : Kernel fcall freply W} `{!Total K}.
Variable strerror : Z -> string.
#[local] Hint Resolve reports_sys reports_sys_ reports_delete : reports.
Variables (tc : all_test_cases) (c : fcall) (g : globals) (w w' : W) (log : list entry) (r : freply).
Hypothesis Hg : TEST_RESULT g = TPASS.
Hypothesis Hk : k_do main_pid c w = Some (r, w').

(** The handlers, with the branches of [error_call]. *)
Lemma error_verdict_holds :
  error_call g tc = Some c ->
  sx (error_test strerror tc) g w log (fun _ _ _ =>
    verdict (ret r = -1 /\ errno r = errno_val tc) log).
Proof.
  unfold error_call, error_test, do_EEXIST, do_ENOENT, do_ELOOP, do_ENAMETOOLONG.
  destruct (Z.eqb_spec (errno_val tc) EEXIST) as [->|_].
  { repeat match goal with
    | |- context [if ?b then _ else _] => destruct b; [intros [= <-]; judge Hk Hg|]
    end. done. }
  destruct (Z.eqb_spec (errno_val tc) ENOENT) as [->|_].
  { repeat match goal with
    | |- context [if ?b then _ else _] => destruct b; [intros [= <-]; judge Hk Hg|]
    end. done. }
  destruct (Z.eqb_spec (errno_val tc) ELOOP) as [->|_].
  { destruct (_ || _)%bool; [done|]. repeat match goal with
    | |- context [if ?b then _ else _] => destruct b; [intros [= <-]; judge Hk Hg|]
    end. done. }
  destruct (Z.eqb_spec (errno_val tc) ENAMETOOLONG) as [->|_].
  { destruct (cktcsid (tcid tc) SYMLINK); [done|].
    destruct (cktcsid (tcid tc) READLINK); [intros [= <-]|done].
    change (ENAMETOOLONG =? ENOTDIR) with false. change (ENAMETOOLONG =? EXDEV) with false. cbn match.
    apply sx_bind, sx_get. judge Hk Hg. }
  destruct (Z.eqb_spec (errno_val tc) EINVAL) as [->|_]; [|done].
  change (EINVAL =? ENOTDIR) with false. change (EINVAL =? EXDEV) with false.
  change (EINVAL =? ENAMETOOLONG) with false. cbn match. unfold do_EINVAL.
  destruct (cktcsid (tcid tc) READLINK); [intros [= <-]|done].
  apply sx_bind. eapply sx_TEST; [exact Hk | reflexivity |].
  apply sx_bind, sx_modify, sx_bind, sx_modify, sx_bind, sx_get. unfold fails.
  destruct (Z.eqb_spec (ret r) (-1)) as [Hr|Hr]; cbn.
  - destruct (Z.eqb_spec (errno r) EINVAL) as [He|He].
    + eapply sx_mono; [|apply sx_pass; exact Hg].
      intros _ _ _ log' (x & -> & Hx). exists x. auto.
    + apply sx_resm. eexists. split; [done|]. right. split; [done|]. by intros [_ ?].
  - apply sx_resm. eexists. split; [done|]. right. split; [done|]. by intros [? _].
Qed.
End ErrorVerdict.

(** ** What is noticed, and what is not *)

Section Noticed.
Context {W : Type} {K : Kernel fcall freply W} `{!Total K}.
Variable strerror : Z -> string.
Variable junk : string.
#[local] Hint Resolve reports_sys reports_sys_ reports_fill reports_TEST_errno reports_points : reports.

Lemma complains_after {A B} (m : SM A) (f : A -> SM B) :
  reports 0 m -> (forall x, complains (f x)) -> complains (m ≫= f).
Proof.
  intros Hm Hf g w log. apply sx_bind, sx_quiet; [done|]. intros g' a w'. apply Hf.
Qed.

Lemma complains_if {A} (b : bool) (m1 m2 : SM A) :
  complains m1 -> complains m2 -> complains (if b then m1 else m2).
Proof. by destruct b. Qed.

Lemma complains_sys {B} c (f : freply -> SM B) :
  (forall r w w', k_do main_pid c w = Some (r, w') -> complains (f r)) ->
  complains (sys c ≫= f).
Proof.
  intros Hf g w log. destruct (total_do main_pid c w) as [[r w'] E].
  apply sx_bind. eapply sx_sys; [exact E | reflexivity |]. by eapply Hf.
Qed.

(** An open file from which other bytes are read than were written. *)
Definition wrong_data : Prop := forall fd w r w',
  k_do main_pid (FRead fd (strlen BIG_STRING)) w = Some (r, w') ->
  ret r = strlen BIG_STRING -> same_prefix (strlen BIG_STRING) BIG_STRING (put (f_text r) junk) = false.

Lemma complains_write_and_read tc b fd :
  wrong_data -> complains (write_and_read strerror junk tc b fd).
Proof.
  intros Hread. unfold write_and_read.
  apply complains_after; [auto with reports|]. intros r1.
  apply complains_after; [auto with reports|]. intros ?.
  apply complains_seq; [|intros ?; auto with reports].
  apply complains_if; [apply complains_seq; [apply complains_resm | intros ?; auto with reports]|].
  apply complains_if; [apply complains_seq; [apply complains_resm | intros ?; auto with reports]|].
  apply complains_after; [auto with reports|]. intros r2.
  apply complains_after; [auto with reports|]. intros ?.
  apply complains_if; [apply complains_seq; [apply complains_resm | intros ?; auto with reports]|].
  apply complains_sys. intros r w w' E.
  apply complains_after; [auto with reports|]. intros ?.
  apply complains_if; [apply complains_seq; [apply complains_resm | intros ?; auto with reports]|].
  destruct (Z.eqb_spec (ret r) (strlen BIG_STRING)) as [Hr|Hr]; cbn [negb].
  - rewrite (Hread _ _ _ _ E Hr). cbn [negb].
    apply complains_seq; [apply complains_resm | intros ?; auto with reports].
  - apply complains_seq; [apply complains_resm | intros ?; auto with reports].
Qed.

(** A system that gives back other bytes than were written to a file opened
    through a symbolic link is noticed: every open test then reports a failure,
    whatever the answers to the other calls are. *)
Theorem open_notices_wrong_data tc g w log :
  wrong_data ->
  sx (do_open strerror junk tc) g w log (fun _ _ _ log' =>
    exists e, log' = log ++ [e] /\ e_type e = TFAIL).
Proof.
  intros Hread. enough (complains (do_open strerror junk tc)) as H by apply H.
  unfold do_open. apply complains_after; [auto with reports|]. intros b.
  apply complains_if; (apply complains_after; [auto with reports|]); intros r;
    apply complains_if; first [apply complains_resm | by apply complains_write_and_read].
Qed.

(** The expected-error tests of stat04 and stat04_64 for ELOOP cannot fail: whatever
    stat(2) answers, the report has the type [TEST_RESULT], a pass in a test case whose
    setup was checked. *)
Theorem stat_ELOOP_never_fails tc g w log :
  tcid tc = STAT \/ tcid tc = STAT_64 ->
  sx (do_ELOOP strerror tc) g w log (fun _ _ _ log' =>
    exists e, log' = log ++ [e] /\ e_type e = TEST_RESULT g).
Proof.
  intros Ht. unfold do_ELOOP.
  assert (cktcsid (tcid tc) STAT || cktcsid (tcid tc) STAT_64 = true)%bool as ->
    by (destruct Ht as [-> | ->]; reflexivity).
  destruct (total_do main_pid (FStat (fn_arg1 tc)) w) as [[r w'] E].
  apply sx_bind. eapply sx_TEST; [exact E | reflexivity |].
  apply sx_bind, sx_modify, sx_bind, sx_modify, sx_bind, sx_get.
  apply sx_if; intros _.
  - unfold resm_pass, resm_result. apply sx_bind, sx_get, sx_resm. eexists. split; [done|].
    cbn. by destruct (fails r).
  - apply sx_resm. eexists. split; [done|]. cbn. by destruct (fails r).
Qed.

(** The setup of two files never reports that it failed. *)
Lemma creat_both_always path1 path2 path3 g w log :
  sx (creat_both strerror path1 path2 path3) g w log (fun _ a _ _ => a = 1).
Proof.
  assert (Hs : forall g w log, sx (creat_symlink strerror path1 path2 None) g w log (fun _ a _ _ => a =? -1 = false)).
  { intros g1 w1 log1. unfold creat_symlink, reject, note.
    eapply sx_seq; [apply reports_TEST_errno|]. intros g2 r w2 log2 _.
    apply sx_bind, sx_get. apply sx_if; intros _.
    - by apply sx_bind, sx_modify, sx_bind, sx_modify, sx_ret.
    - by apply sx_bind, sx_modify, sx_ret. }
  assert (Ho : forall g w log, sx (creat_object strerror path3 None None) g w log (fun _ a _ _ => a =? -1 = false)).
  { intros g1 w1 log1. unfold creat_object, reject, note.
    eapply sx_seq; [apply reports_sys|]. intros g2 r w2 log2 _.
    apply sx_bind, sx_get. apply sx_if; intros _.
    - by apply sx_bind, sx_modify, sx_bind, sx_modify, sx_ret.
    - apply sx_bind, sx_modify. eapply sx_seq; [apply reports_sys|]. intros g3 r3 w3 log3 _.
      apply sx_bind, sx_get. apply sx_if; intros _.
      + by apply sx_bind, sx_modify, sx_bind, sx_modify, sx_ret.
      + by apply sx_ret. }
  unfold creat_both. eapply sx_seq; [apply Hs|]. intros g1 a w1 log1 ->.
  eapply sx_seq; [apply Ho|]. intros g2 b w2 log2 ->. by apply sx_ret.
Qed.
End Noticed.

Section Answers.
Context {W : Type} {K : Kernel fcall freply W}.
Variable strerror : Z -> string.


(** Utime01 compares the change of the modification time with that of the access
    time, not with the requested change: when its calls succeed it passes exactly when
    both times have changed by the same amount, be it 0. *)
Theorem utime_verdict tc g w log r1 w1 r2 w2 r3 w3 :
  TEST_RESULT g = TPASS ->
  let s := f_stat r1 in
  k_do main_pid (FStat (fn_arg2 tc)) w = Some (r1, w1) -> ret r1 <> -1 ->
  k_do main_pid (FUtime (fn_arg1 tc) (Some (st_atime s + 100, st_mtime s + 100))) w1
    = Some (r2, w2) -> ret r2 <> -1 ->
  k_do main_pid (FStat (fn_arg2 tc)) w2 = Some (r3, w3) -> ret r3 <> -1 ->
  sx (do_utime tc) g w log (fun _ _ _ => verdict
    (st_mtime (f_stat r3) - st_mtime s = st_atime (f_stat r3) - st_atime s) log).
Proof.
  intros Hg s E1 H1 E2 H2 E3 H3. unfold do_utime.
  apply Z.eqb_neq in H1, H2, H3.
  apply sx_bind. eapply sx_fill; [exact E1 | exact H1 |]. apply sx_false; [exact H1|].
  apply sx_bind, sx_get, sx_bind. eapply sx_sys; [exact E2 | exact H2 |].
  apply sx_false; [exact H2|].
  apply sx_bind. eapply sx_fill; [exact E3 | exact H3 |].
  apply sx_bind, sx_get. apply sx_false; [exact H3|]. cbn.
  apply sx_if; intros Hd; [apply Z.eqb_eq in Hd | apply Z.eqb_neq in Hd].
  - eapply sx_mono; [|apply sx_pass; exact Hg].
    intros _ _ _ log' (x & -> & Hx). exists x. split; [done|]. left. split; [done|]. subst s. lia.
  - apply sx_resm. eexists. split; [done|]. right. split; [done|]. subst s. lia.
Qed.

(** Creat_path_max is defined exactly when the second answer is a working directory of at
    most PATH_MAX characters; a longer one would make the string overflow [full_path].  Then it
    builds a string of PATH_MAX + 1 characters, which ck_path_max accepts. *)
Theorem creat_path_max_bounds path1 path2 path3 g w log r1 w1 r2 w2 :
  path1 <> "" ->
  k_do main_pid FGetcwd w = Some (r1, w1) -> ret r1 <> -1 ->
  k_do main_pid FGetcwd w1 = Some (r2, w2) -> ret r2 <> -1 ->
  let fp := path_max (f_text r2) path1 in
  (strlen fp < full_path_size <-> strlen (f_text r2) <= PATH_MAX)
  /\ if cwd_fits r2 then
       sx (n ← creat_path_max (Some path1) path2 path3;
           ok ← ck_path_max (Some path1) path2 path3; mret (n, ok)) g w log
         (fun g' a _ log' => log' = log /\ a = (1, 1) /\ full_path g' = fp /\ strlen fp = PATH_MAX + 1)
     else sx_dies (creat_path_max (Some path1) path2 path3) g w log
            (fun _ log' => log' = log ++ [Entry TBROK None "undefined behaviour" []]).
Proof.
  intros Hp E1 H1 E2 H2 fp.
  assert (strlen (f_text r2) <= PATH_MAX -> strlen fp = PATH_MAX + 1) as Hfits
    by (intros; by apply path_max_length).
  assert (PATH_MAX < strlen (f_text r2) -> full_path_size <= strlen fp) as Hover.
  { intros H. subst fp. pose proof (path_max_overflow _ path1 H). unfold full_path_size. lia. }
  split; [unfold full_path_size in *; lia|].
  assert (cwd_fits r2 = (strlen (f_text r2) <=? PATH_MAX)) as -> by (unfold cwd_fits; lia).
  apply Z.eqb_neq in H1, H2. unfold creat_path_max, ck_path_max, reject.
  destruct (Z.leb_spec (strlen (f_text r2)) PATH_MAX) as [H|H].
  - apply sx_bind, sx_bind. eapply sx_sys; [exact E1 | exact H1 |]. apply sx_false; [exact H1|].
    apply sx_bind. eapply sx_sys; [exact E2 | exact H2 |].
    assert (cwd_fits r2 = true) as -> by (unfold cwd_fits; lia).
    apply sx_bind, sx_ret, sx_bind, sx_modify, sx_ret, sx_bind, sx_bind, sx_get.
    cbn [full_path set_full_path default from_option id]. fold fp. rewrite (Hfits H), Z.eqb_refl.
    by apply sx_ret, sx_ret.
  - apply sx_dies_bind. eapply sx_sys; [exact E1 | exact H1 |]. rewrite H1.
    apply sx_dies_bind. eapply sx_sys; [exact E2 | exact H2 |].
    assert (cwd_fits r2 = false) as -> by (unfold cwd_fits; lia).
    apply sx_dies_left, sx_dies_bind, sx_resm, dies_exit. eauto 6.
Qed.
End Answers.

(** ** Examples *)

(** A system on which utime(2) does nothing. *)
Definition no_utime (p : params) : Kernel fcall freply fs := {|
  k_do := fun _ c s => Some (match c with FUtime _ _ => (fok 0, s) | _ => fs_do p c s end);
  k_fork := fun _ _ w => w;
  k_exit := fun _ s => s;
  tst_status := fun _ => 0
|}.

(** A system that reads zeros. *)
Definition zero_read (p : params) : Kernel fcall freply fs := {|
  k_do := fun _ c s =>
    Some (match c with FRead _ n => (ftext n (zeros (Z.to_nat n)), s) | _ => fs_do p c s end);
  k_fork := fun _ _ w => w;
  k_exit := fun _ s => s;
  tst_status := fun _ => 0
|}.

#[export] Instance zero_read_total p : Total (zero_read p).
Proof. intros pid c w. by eexists. Qed.

(** The temporary directory after [creat_both]. *)
Definition both_files : fs :=
  fold_left (fun s c => (fs_do plain_params c s).2)
    [FTmpdir; FSymlink (Some O_FILE) (Some S_FILE); FOpen (Some O_FILE) 577 MODE; FClose 3] no_fs.

Definition globals1 : globals := set_result TPASS globals0.


Lemma utime_verdict_witness :
  let tc := nth 33 test_objects no_case in
  let s := f_stat (fs_do plain_params (FStat (Some O_FILE)) both_files).1 in
  sx (K := no_utime plain_params) (do_utime tc) globals1 both_files []
    (fun _ _ _ => verdict (st_mtime s - st_mtime s = st_atime s - st_atime s) []).
Proof.
  refine (utime_verdict (K := no_utime plain_params) (nth 33 test_objects no_case) globals1
    both_files [] (fs_do plain_params (FStat (Some O_FILE)) both_files).1 _ (fok 0) _
    (fs_do plain_params (FStat (Some O_FILE)) both_files).1 _ _ _ _ _ _ _ _);
    try (vm_compute; reflexivity); vm_compute; discriminate.
Defined.

Lemma creat_path_max_bounds_witness :
  let fp := path_max "/tmp/sym" O_FILE in
  sx (K := fs_kernel plain_params (fun _ => 0))
    (n ← creat_path_max (Some O_FILE) (Some S_FILE) None;
     ok ← ck_path_max (Some O_FILE) (Some S_FILE) None; mret (n, ok)) globals1 both_files []
    (fun g' a _ log' => log' = [] /\ a = (1, 1) /\ full_path g' = fp /\ strlen fp = PATH_MAX + 1).
Proof.
  refine (proj2 (creat_path_max_bounds (K := fs_kernel plain_params (fun _ => 0)) O_FILE (Some S_FILE)
    None globals1 both_files [] (ftext 0 "/tmp/sym") _ (ftext 0 "/tmp/sym") _ _ _ _ _ _));
    try (vm_compute; reflexivity); discriminate.
Defined.

Lemma open_notices_wrong_data_witness :
  sx (K := zero_read plain_params) (do_open (fun _ => "error") "" (nth 40 test_objects no_case))
    globals1 both_files [] (fun _ _ _ log' => exists e, log' = [] ++ [e] /\ e_type e = TFAIL).
Proof.
  apply (open_notices_wrong_data (K := zero_read plain_params) (fun _ => "error") "").
  intros fd w r w' [= <- <-] _. vm_compute. reflexivity.
Defined.

Lemma stat_ELOOP_never_fails_witness :
  sx (K := fs_kernel plain_params (fun _ => 0)) (do_ELOOP (fun _ => "error") (nth 11 test_objects no_case))
    globals1 both_files [] (fun _ _ _ log' => exists e, log' = [] ++ [e] /\ e_type e = TPASS).
Proof.
  apply (stat_ELOOP_never_fails (K := fs_kernel plain_params (fun _ => 0)) (fun _ => "error")
           (nth 11 test_objects no_case) globals1). left. reflexivity.
Defined.
