(* ===== verification/TreeWalk.v ===== *)
(** * nftw(3): walking a directory tree

    The calls that the nftw tests make, and a reference platform [walk_kernel] that
    answers them: the file system of [FileSys.v] and the walk that nftw(3) documents,
    with the use of descriptors and the order of the calls of the GNU C library.

    nftw(3) calls a function of the program for each file.  Here the call and the
    returns of that function are calls of the program: [NNftw] starts a walk,
    [NReturn r] goes on with it after the function has returned [r]; the answer holds
    the next file to call the function for ([n_visit]), or nftw(3) has returned.  A
    directory is read in the order in which its entries were made. *)

From Stdlib Require Import Ascii.
From S2P Require Import Prelude Tst Process FileSys.

(** ** Constants of <ftw.h> and <unistd.h> *)

Definition FTW_F : Z := 0.
Definition FTW_D : Z := 1.
Definition FTW_DNR : Z := 2.
Definition FTW_NS : Z := 3.
Definition FTW_SL : Z := 4.
Definition FTW_DP : Z := 5.
Definition FTW_SLN : Z := 6.

Definition FTW_PHYS : Z := 1.
Definition FTW_MOUNT : Z := 2.
Definition FTW_CHDIR : Z := 4.
Definition FTW_DEPTH : Z := 8.

Definition PC_NAME_MAX : Z := 3.
Definition PC_PATH_MAX : Z := 4.

(** ** Calls and answers *)

Inductive ncall :=
| NFile (c : fcall)
| NGetpwnam (name : string)
| NSetuid (uid : Z)
| NPathconf (p : string) (name : Z)
| NMalloc (n : Z)                           (* 0 when there is no memory *)
| NSystem (cmd : string)
| NStderr (fmt : string) (args : list arg)  (* perror, fprintf(stderr, ...) *)
| NNftw (p : string) (nopenfd flags : Z)
| NReturn (r : Z).

(** What nftw(3) passes to the function: [struct FTW] is [v_base] and [v_level]. *)
Record ftw_call := FtwCall {
  v_path : string;
  v_stat : stat;
  v_flag : Z;
  v_base : Z;
  v_level : Z
}.

Record nreply := NReply { n_file : freply; n_visit : option ftw_call }.

Definition answer (r : freply) : nreply := NReply r None.

(** ** State *)

(** How the files of a walk are named: the path of a file, from its path relative to
    the root of the walk; the offset of its name, from the offset in that path; and
    the offset of the name of the root. *)
Record naming := Naming {
  nm_path : string -> string;
  nm_base : Z -> Z;
  nm_root : Z
}.

(** What is left of a walk: an entry of directory [d], whose relative path is [rel]
    with its name at [off]; or the end of a directory that is entry of [d]. *)
Inductive task :=
| TEntry (d : Z) (name rel : string) (off level : Z)
| TEnd (d : Z) (v : ftw_call).

Record walk_state := Walk {
  w_names : naming;
  w_flags : Z;
  w_max : Z;                     (* descriptors it may use *)
  w_tasks : list task;
  w_streams : list (option Z);   (* directories being read, the innermost first; [None]
                                    when the rest of one is in memory *)
  w_seen : list Z;               (* directories already reported *)
  w_home : Z                     (* working directory before the walk *)
}.

Record nstate := NState { n_fs : fs; n_walks : list walk_state }.

Definition n_init : nstate := NState no_fs [].

Definition set_tasks ts w := Walk (w_names w) (w_flags w) (w_max w) ts (w_streams w) (w_seen w) (w_home w).
Definition set_streams l w := Walk (w_names w) (w_flags w) (w_max w) (w_tasks w) l (w_seen w) (w_home w).
Definition set_seen l w := Walk (w_names w) (w_flags w) (w_max w) (w_tasks w) (w_streams w) l (w_home w).

(** ** Strings *)

(** strstr(3): [s] from the first occurrence of [t] on. *)
Fixpoint strstr (s t : string) : option string :=
  match strip t s, s with
  | Some _, _ => Some s
  | None, "" => None
  | None, String _ s => strstr s t
  end%string.

(** ** Paths *)

(** Offset of the last component. *)
Fixpoint base_from (i last : Z) (s : string) : Z :=
  match s with
  | "" => last
  | String "/"%char s => base_from (i + 1) (i + 1) s
  | String _ s => base_from (i + 1) last s
  end%string.

Definition base_of (s : string) : Z := base_from 0 0 s.

Definition with_slash (path : string) : string :=
  if String.eqb path "/" then path else (path ++ "/")%string.

(** The names of the files of the walk at [path]. *)
Definition names_of (path : string) : naming :=
  Naming (fun rel => if String.eqb rel "" then path else with_slash path ++ rel)%string
    (fun off => strlen (with_slash path) + off) (base_of path).

Definition memb (x : Z) (l : list Z) : bool := existsb (Z.eqb x) l.

Section Walk.
Variable p : params.
Implicit Types (s : fs) (w : walk_state).

(** ** Descriptors *)

Definition close_stream (o : option Z) s : fs :=
  match o with Some fd => (fs_close fd s).2 | None => s end.

Definition open_count (l : list (option Z)) : Z :=
  Z.of_nat (length (filter (fun o => o <> None) l)).

(** Reads the outermost open directory into memory. *)
Fixpoint close_outermost (l : list (option Z)) s : list (option Z) * fs :=
  match l with
  | [] => ([], s)
  | o :: l =>
      if open_count l =? 0 then (None :: l, close_stream o s)
      else let '(l, s) := close_outermost l s in (o :: l, s)
  end.

(** Opens directory [i]. *)
Definition open_stream (i : Z) w s : walk_state * fs :=
  let '(l, s) := if open_count (w_streams w) <? w_max w then (w_streams w, s)
                 else close_outermost (w_streams w) s in
  let '(r, s) := install i O_RDONLY s in
  (set_streams (Some (ret r) :: l) w, s).

(** ** The walk *)

Definition chdir_to (d : Z) w s : fs := if has (w_flags w) FTW_CHDIR then set_cwd d s else s.

(** What nftw(3) finds out about a file: a directory, a file of another type, or an
    error that ends the walk.  [find follow] looks for it. *)
Inductive kind_found :=
| IsDir (i : Z) (st : stat) (entries : list (string * Z))
| IsFile (flag : Z) (st : stat)
| IsError (e : Z).

Definition status_of (r : found) s : option (Z * inode) + Z :=
  match r with
  | Entry_ _ _ i | Bare i =>
      match tget i (inodes s) with Some n => inl (Some (i, n)) | None => inr ENOENT end
  | NoEntry _ _ => inr ENOENT
  | Err e => inr e
  end.

Definition examine (flags : Z) (find : bool -> found) s : kind_found :=
  match status_of (find (negb (has flags FTW_PHYS))) s with
  | inl (Some (i, n)) =>
      match i_kind n with
      | Dir _ es => IsDir i (stat_of p i n) es
      | Lnk _ => IsFile FTW_SL (stat_of p i n)
      | Reg _ => IsFile FTW_F (stat_of p i n)
      end
  | inl None => IsError ENOENT
  | inr e =>
      if negb ((e =? EACCES) || (e =? ENOENT)) then IsError e
      else if has flags FTW_PHYS then IsFile FTW_NS stat0
      else
        match status_of (find false) s with
        | inl (Some (i, n)) =>
            match i_kind n with
            | Lnk _ => IsFile FTW_SLN (stat_of p i n)
            | _ => IsFile FTW_NS stat0
            end
        | _ => IsFile FTW_NS stat0
        end
  end.

(** What happens next: the function is called, or the walk goes on. *)
Inductive outcome :=
| Call (v : ftw_call) (w : walk_state) (s : fs)
| Go (w : walk_state) (s : fs)
| Stop (e : Z) (w : walk_state) (s : fs).

(** The file with relative path [rel], its name at [base]. *)
Definition ftw_args (w : walk_state) (rel : string) (base level flag : Z) (st : stat) : ftw_call :=
  FtwCall (nm_path (w_names w) rel) st flag base level.

(** A directory that is an entry of [d]: it is opened, and reported unless its
    contents come first. *)
Definition visit_dir (d i : Z) (es : list (string * Z)) (rel : string) (base level : Z)
    (st : stat) w s : outcome :=
  if negb (allows s i R_OK) then Call (ftw_args w rel base level FTW_DNR st) w s
  else
    let '(w, s) := open_stream i w s in
    let pre := if String.eqb rel "" then ""%string else (rel ++ "/")%string in
    let inside := map (fun e => TEntry i e.1 (pre ++ e.1)%string (strlen pre) (level + 1)) es in
    let w := set_tasks (inside ++ TEnd d (ftw_args w rel base level FTW_DP st) :: w_tasks w) w in
    if has (w_flags w) FTW_DEPTH then Go w s
    else Call (ftw_args w rel base level FTW_D st) w s.

Definition visit_file (d : Z) (k : kind_found) (rel : string) (base level : Z) w s : outcome :=
  match k with
  | IsError e => Stop e w s
  | IsFile flag st => Call (ftw_args w rel base level flag st) w s
  | IsDir i st es =>
      if has (w_flags w) FTW_PHYS then visit_dir d i es rel base level st w s
      else if memb i (w_seen w) then Go w s
      else visit_dir d i es rel base level st (set_seen (i :: w_seen w) w) s
  end.

(** The files of a directory are reported with that directory as the working
    directory, under [FTW_CHDIR]. *)
Definition do_task (t : task) w s : outcome :=
  match t with
  | TEntry d name rel off level =>
      let s := chdir_to d w s in
      visit_file d (examine (w_flags w) (fun follow => walk p s MAXSYMLINKS follow d [name]) s)
        rel (nm_base (w_names w) off) level w s
  | TEnd d v =>
      let s := close_stream (default None (head (w_streams w))) s in
      let w := set_streams (tail (w_streams w)) w in
      let s := chdir_to d w s in
      if has (w_flags w) FTW_DEPTH then Call v w s else Go w s
  end.

(** nftw(3) returns. *)
Definition finish w s : fs :=
  chdir_to (w_home w) w (foldr close_stream s (w_streams w)).

(** Runs the walk up to the next call of the function; [None] without fuel. *)
Fixpoint advance (fuel : nat) w s : option (nreply * (option walk_state * fs)) :=
  match fuel with
  | O => None
  | S fuel =>
      match w_tasks w with
      | [] => Some (answer (fok 0), (None, finish w s))
      | t :: ts =>
          match do_task t (set_tasks ts w) s with
          | Call v w s => Some (NReply (fok 0) (Some v), (Some w, s))
          | Go w s => advance fuel w s
          | Stop e w s => Some (answer (ffails e), (None, finish w s))
          end
      end
  end.

(** More tasks than any walk of the tests goes through without a call. *)
Definition walk_fuel : nat := 1000.

Fixpoint strip_slashes (n : nat) (s : string) : string :=
  match n with
  | O => s
  | S n =>
      let k := (String.length s - 1)%nat in
      if (1 <? strlen s) && String.eqb (String.substring k 1 s) "/"
      then strip_slashes n (String.substring 0 k s) else s
  end%bool.

(** The directory the path of the whole walk lies in. *)
Definition parent_of (r : found) s : Z :=
  match r with
  | Entry_ d _ _ | NoEntry d _ => d
  | Bare i => match dir_at s i with Some (d, _) => d | None => i end
  | Err _ => cwd s
  end.

(** The walk from the file that [find] leads to. *)
Definition start_from (find : bool -> found) (names : naming) (nopenfd flags : Z) s
  : option (nreply * (option walk_state * fs)) :=
  let d := parent_of (find false) s in
  let w := Walk names flags (Z.max 1 nopenfd) [] [] [] (cwd s) in
  match status_of (find (negb (has flags FTW_PHYS))) s, examine flags find s with
  | inr e, IsFile flag st =>
      if flag =? FTW_SLN
      then Some (NReply (fok 0) (Some (ftw_args w "" (nm_root names) 0 flag st)),
             (Some w, chdir_to d w s))
      else Some (answer (ffails e), (None, s))
  | _, k =>
      match visit_file d k "" (nm_root names) 0 w (chdir_to d w s) with
      | Call v w s => Some (NReply (fok 0) (Some v), (Some w, s))
      | Go w s => advance walk_fuel w s
      | Stop e w s => Some (answer (ffails e), (None, finish w s))
      end
  end.

Definition start (path : string) (nopenfd flags : Z) s : option (nreply * (option walk_state * fs)) :=
  start_from (fun follow => lookup_path p s follow (Some path))
    (names_of (strip_slashes (String.length path) path)) nopenfd flags s.

(** [rm -rf path]. *)
Fixpoint subtree (fuel : nat) s (i : Z) : list Z :=
  i :: match fuel, dir_at s i with
       | S fuel, Some (_, es) => flat_map (fun e => subtree fuel s e.2) es
       | _, _ => []
       end.

Definition remove_tree (path : string) s : fs :=
  match lookup_path p s false (Some path) with
  | Entry_ d name i =>
      let dead := subtree (length (inodes s)) s i in
      let s := del_entry d name (if dir_at s i then add_links (-1) d s else s) in
      set_inodes (filter (fun e => negb (memb e.1 dead)) (inodes s)) s
  | _ => s
  end.

(** ** The calls *)

Definition with_fs (ws : list walk_state) (a : freply * fs) : nreply * nstate :=
  (answer a.1, NState a.2 ws).

Definition resume (ws : list walk_state) (a : option (nreply * (option walk_state * fs)))
  : option (nreply * nstate) :=
  match a with
  | Some (r, (Some w, s)) => Some (r, NState s (w :: ws))
  | Some (r, (None, s)) => Some (r, NState s ws)
  | None => None
  end.

Definition nobody : Z := 65534.

Definition n_do (c : ncall) (st : nstate) : option (nreply * nstate) :=
  let s := n_fs st in
  let ws := n_walks st in
  match c with
  | NFile c => Some (with_fs ws (fs_do p c s))
  | NGetpwnam _ => Some (with_fs ws (fok nobody, s))
  | NSetuid uid => Some (with_fs ws (fok 0, set_super (uid =? 0) s))
  | NPathconf _ name =>
      Some (with_fs ws (fok (if name =? PC_PATH_MAX then PATH_MAX else NAME_MAX), s))
  | NMalloc _ => Some (with_fs ws (fok 1, s))
  | NSystem cmd =>
      Some (with_fs ws (fok 0, match strip "rm -rf " cmd with
                               | Some path => remove_tree path s
                               | None => s
                               end))
  | NStderr _ _ => Some (with_fs ws (fok 0, s))
  | NNftw path nopenfd flags => resume ws (start path nopenfd flags s)
  | NReturn r =>
      match ws with
      | [] => Some (with_fs ws (ffails EINVAL, s))
      | w :: ws =>
          if r =? 0 then resume ws (advance walk_fuel w s)
          else Some (with_fs ws (fok r, finish w s))
      end
  end.
End Walk.

(** ** The reference platform *)

Definition walk_kernel (p : params) (ts : list entry -> Z) : Kernel ncall nreply nstate := {|
  k_do := fun _ c s => n_do p c s;
  k_fork := fun _ _ w => w;
  k_exit := fun _ s => s;
  tst_status := ts
|}.

(** [K] behaves like a documented system that reads a directory in the order in which its
    entries were made, for some choice of what else is free. *)
Class WalkPlatform {W} (K : Kernel ncall nreply W) (w0 : W) := {
  wk_params : params;
  wk_lawful :: FsParams wk_params;
  wk_refines :: Refines K (walk_kernel wk_params (@tst_status _ _ _ K));
  wk_init : @rel _ _ _ _ K (walk_kernel wk_params (@tst_status _ _ _ K)) wk_refines w0 n_init
}.

#[export] Instance walk_platform ts : WalkPlatform (walk_kernel plain_params ts) n_init.
Proof.
  by refine {| wk_params := plain_params; wk_refines := refines_refl (walk_kernel plain_params ts) |}.
Defined.
