(* ===== verification/NftwLib.v ===== *)
(** * The nftw tests: data, tools and common failure conditions

    Model of [src/original tests/nftw]: the header [nftw.h], the data of [nftw.c], and
    the files [tools.c] and [lib.c].  The global variables of the program are the
    record [globals].  Output to [stderr] (perror, fprintf) is a call without effect,
    its formats are written without their newlines; memory that is released stays as
    it is.  The output under [#ifdef DEBUG] is left out.

    A buffer that is filled from its start is the string written so far; writing the
    next character means appending it. *)

From Stdlib Require Import Ascii.
From S2P Require Import Prelude Tst Process Prog FileSys TreeWalk.

(** ** nftw.h *)

Definition MAX_FD : Z := 20.
Definition NDIRLISTENTS : Z := 100.
Definition NFTW : string := "./tmp/data".
Definition NFTW2 : string := "/tmp/data".
Definition LINK_CNT : Z := 13.
Definition NO_LINK_CNT : Z := 7.

Inductive ptype := DIR | REG | SYM.

Record pathdata := PathData { p_name : string; p_mode : Z; p_type : ptype; p_contents : string }.

(** [struct list]. *)
Record list_ := List_ { l_s : string; l_i : Z }.

(** ** nftw.c: the data *)

(** Bits of <sys/stat.h>. *)
Definition S_IRWXU : Z := 448.
Definition S_IRUSR : Z := 256.
Definition S_IWUSR : Z := 128.
Definition S_IXUSR : Z := 64.
Definition S_IRWXG : Z := 56.
Definition S_IRGRP : Z := 32.
Definition S_IWGRP : Z := 16.
Definition S_IXGRP : Z := 8.
Definition S_IRWXO : Z := 7.
Definition S_IROTH : Z := 4.
Definition S_IWOTH : Z := 2.
Definition S_IXOTH : Z := 1.

Definition modes (l : list Z) : Z := foldr Z.lor 0 l.

Definition line (s : string) : string := (s ++ String "010"%char "")%string.

Definition pathdat : list pathdata :=
  [PathData "./tmp/data" (modes [S_IRWXU; S_IRWXG; S_IROTH; S_IXOTH]) DIR "";
   PathData "./tmp/byebye" (modes [S_IRWXU; S_IRWXG; S_IROTH; S_IWOTH]) REG (line "byebye!");
   PathData "./tmp/data/d333" (modes [S_IRWXU; S_IRWXG; S_IRWXO]) DIR "";
   PathData "./tmp/data/d666" (modes [S_IRWXU; S_IRWXG; S_IRWXO]) DIR "";
   PathData "./tmp/data/d777" (modes [S_IRWXU; S_IRWXG; S_IRWXO]) DIR "";
   PathData "./tmp/data/dirg" (modes [S_IRWXU; S_IRWXG; S_IROTH; S_IWOTH]) DIR "";
   PathData "./tmp/data/dirh" (modes [S_IRWXU; S_IRWXG; S_IROTH; S_IWOTH]) DIR "";
   PathData "./tmp/data/dirl" (modes [S_IRWXU; S_IRWXG; S_IROTH; S_IWOTH]) DIR "";
   PathData "./tmp/data/d333/errs" (modes [S_IRWXU; S_IRWXG; S_IROTH; S_IWOTH]) REG (line "Do not eat yellow snow!");
   PathData "./tmp/data/d666/errs" (modes [S_IRWXU; S_IRWXG; S_IROTH; S_IWOTH]) REG (line "Do not eat yellow snow!");
   PathData "./tmp/data/d777/errs" (modes [S_IRWXU; S_IRWXG; S_IROTH; S_IWOTH]) REG (line "Do not eat yellow snow!");
   PathData "./tmp/data/dirg/filebad" (modes [S_IRUSR; S_IWUSR; S_IRGRP; S_IROTH]) REG "";
   PathData "./tmp/data/dirg/fileok" (modes [S_IRUSR; S_IWUSR; S_IRGRP; S_IROTH]) REG "";
   PathData "./tmp/data/dirg/symlink" (modes [S_IRWXU; S_IRWXG; S_IRWXO]) SYM "../../byebye";
   PathData "./tmp/data/dirg/dir_left.1" (modes [S_IRWXU; S_IRWXG; S_IROTH; S_IWOTH]) DIR "";
   PathData "./tmp/data/dirg/dir_left.1/dir_left.2" (modes [S_IRWXU; S_IRWXG; S_IROTH; S_IWOTH]) DIR "";
   PathData "./tmp/data/dirg/dir_right.1" (modes [S_IRWXU; S_IRWXG; S_IRWXO]) DIR "";
   PathData "./tmp/data/dirg/dir_left.1/dir_left.2/left.3" (modes [S_IRUSR; S_IWUSR; S_IRGRP; S_IWGRP; S_IROTH]) REG "";
   PathData "./tmp/data/dirh/dir_left.1" (modes [S_IRWXU; S_IRWXG; S_IROTH; S_IWOTH]) DIR "";
   PathData "./tmp/data/dirh/dir_right.1" (modes [S_IRWXU; S_IRWXG; S_IROTH; S_IWOTH]) DIR "";
   PathData "./tmp/data/dirh/dir_left.1/dir_left.2" (modes [S_IRWXU; S_IRWXG; S_IROTH; S_IWOTH]) DIR "";
   PathData "./tmp/data/dirh/dir_left.1/dir_left.2/left.3" (modes [S_IRWXU; S_IRGRP; S_IWGRP; S_IROTH; S_IWOTH]) REG (line "left leaf");
   PathData "./tmp/data/dirh/dir_right.1/dir_right.2" (modes [S_IRWXU; S_IRWXG; S_IROTH; S_IWOTH]) DIR "";
   PathData "./tmp/data/dirh/dir_right.1/dir_right.2/right.3" (modes [S_IRWXU; S_IRGRP; S_IWGRP; S_IROTH; S_IWOTH]) REG (line "right leaf");
   PathData "./tmp/data/dirl/dir_left.1" (modes [S_IRWXU; S_IRWXG; S_IROTH; S_IWOTH]) DIR "";
   PathData "./tmp/data/dirl/dir_left.1/dir_left.2" (modes [S_IRWXU; S_IRWXG; S_IROTH; S_IWOTH]) DIR "";
   PathData "./tmp/data/dirl/dir_left.1/dir_left.2/left.3" 0 SYM "../../../dirh";
   PathData "./tmp/data/dirl/dir_right.1" (modes [S_IRWXU; S_IRWXG; S_IROTH; S_IWOTH]) DIR "";
   PathData "./tmp/data/dirl/dir_right.1/dir_right.2" (modes [S_IRWXU; S_IRWXG; S_IROTH; S_IWOTH]) DIR "";
   PathData "./tmp/data/dirl/dir_right.1/dir_right.2/right.3" 0 SYM "../dir_right.2";
   PathData "./tmp/data/loop" 0 SYM "./loop"].

Definition goodlist : list string :=
  ["/dirh";
   "/dirh/dir_left.1";
   "/dirh/dir_right.1";
   "/dirh/dir_left.1/dir_left.2";
   "/dirh/dir_right.1/dir_right.2";
   "/dirh/dir_left.1/dir_left.2/left.3";
   "/dirh/dir_right.1/dir_right.2/right.3"].

Definition badlist0 : list list_ :=
  [List_ "/dirg" FTW_D;
   List_ "/dirg/dir_left.1" FTW_D;
   List_ "/dirg/filebad" FTW_F;
   List_ "/dirg/fileok" FTW_F;
   List_ "/dirg/symlink" FTW_SL;
   List_ "/dirg/dir_right.1" FTW_DNR;
   List_ "/dirg/dir_left.1/dir_left.2" FTW_D;
   List_ "/dirg/dir_left.1/dir_left.2/left.3" FTW_F].

(** On Linux, the entries for FTW_DP and FTW_SLN are left out. *)
Definition mnem : list list_ :=
  [List_ "FTW_F" FTW_F; List_ "FTW_D" FTW_D; List_ "FTW_DNR" FTW_DNR; List_ "FTW_NS" FTW_NS;
   List_ "FTW_SL" FTW_SL].

Definition npathdats : Z := Z.of_nat (length pathdat).
Definition ngoods : Z := Z.of_nat (length goodlist).
Definition nbads : Z := Z.of_nat (length badlist0).

Definition FAILED : Z := 0.
Definition PASSED : Z := 1.

(** ** Global variables *)

(** [c_errno] is [errno]; the arrays [dirlist] and [next_fd] have 100 and 4 elements. *)
Record globals := Globals {
  visit : Z;
  dirlist : list (option string);
  next_fd : list Z;
  badlist : list list_;
  local_flag : Z;
  block_number : Z;
  s2 : Z;
  c_errno : Z
}.

Definition globals0 : globals :=
  Globals 0 (replicate (Z.to_nat NDIRLISTENTS) None) (replicate 4 0) badlist0 PASSED 0 0 0.

Definition set_visit v g := Globals v (dirlist g) (next_fd g) (badlist g) (local_flag g) (block_number g) (s2 g) (c_errno g).
Definition set_dirlist v g := Globals (visit g) v (next_fd g) (badlist g) (local_flag g) (block_number g) (s2 g) (c_errno g).
Definition set_next_fd v g := Globals (visit g) (dirlist g) v (badlist g) (local_flag g) (block_number g) (s2 g) (c_errno g).
Definition set_badlist v g := Globals (visit g) (dirlist g) (next_fd g) v (local_flag g) (block_number g) (s2 g) (c_errno g).
Definition set_local_flag v g := Globals (visit g) (dirlist g) (next_fd g) (badlist g) v (block_number g) (s2 g) (c_errno g).
Definition set_block_number v g := Globals (visit g) (dirlist g) (next_fd g) (badlist g) (local_flag g) v (s2 g) (c_errno g).
Definition set_s2 v g := Globals (visit g) (dirlist g) (next_fd g) (badlist g) (local_flag g) (block_number g) v (c_errno g).
Definition set_errno v g := Globals (visit g) (dirlist g) (next_fd g) (badlist g) (local_flag g) (block_number g) (s2 g) v.

(** [array[i] = v]; [i] is in range in every assignment of the program. *)
Definition store {A} (i : Z) (v : A) (l : list A) : list A := <[Z.to_nat i := v]> l.

Abbreviation NM := (M ncall nreply globals).

(** [nftw_fn] and the functions passed to nftw(3). *)
Abbreviation ftw_fn := (ftw_call -> NM Z).

(** ** Calls *)

Section Lib.
(** strerror(3). *)
Variable strerror : Z -> string.

(** A failing call sets [errno]. *)
Definition syscall (c : ncall) : NM nreply :=
  r ← call c;
  modify (fun g => if errno (n_file r) =? 0 then g else set_errno (errno (n_file r)) g) ;;
  mret r.

Definition file_call (c : fcall) : NM freply := r ← syscall (NFile c); mret (n_file r).

(** The return value of a call. *)
Definition sys (c : ncall) : NM Z := r ← syscall c; mret (ret (n_file r)).

Definition fsys (c : fcall) : NM Z := sys (NFile c).

Definition sys_ (c : ncall) : NM unit := syscall c ;; mret tt.

Definition fprintf (fmt : string) (args : list arg) : NM unit := sys_ (NStderr fmt args).

Definition perror (s : string) : NM unit :=
  g ← get; fprintf "%s: %s" [Str s; Str (strerror (c_errno g))].

(** [nftw(path, fn, depth, flags)]. *)
Definition nftw_next (fn : ftw_fn) (r : nreply) : NM (nreply + Z) :=
  match n_visit r with
  | None => mret (inr (ret (n_file r)))
  | Some v => x ← fn v; r ← syscall (NReturn x); mret (inl r)
  end.

Definition nftw (path : string) (fn : ftw_fn) (depth flags : Z) : NM Z :=
  r ← syscall (NNftw path depth flags);
  while_ (nftw_next fn) r.

(** ** tools.c *)

Definition fail_exit : NM unit := tst_brkm TFAIL (mret tt) "Test failed" [].

Definition cleanup_function : NM unit :=
  sys_ (NFile (FChmod (Some "./tmp/data/d333") (modes [S_IRWXU; S_IRWXG; S_IRWXO]))) ;;
  sys_ (NFile (FChmod (Some "./tmp/data/d666") (modes [S_IRWXU; S_IRWXG; S_IRWXO]))) ;;
  sys_ (NFile (FChmod (Some "./tmp/data/dirg/dir_right.1") (modes [S_IRWXU; S_IRWXG; S_IRWXO]))) ;;
  sys_ (NSystem "rm -rf ./tmp") ;;
  waitpid (-1) ;;
  mret tt.

(** [perror(what); fprintf(temp, ...); cleanup_function(); fail_exit();] *)
Definition setup_failed (what : string) : NM unit :=
  perror what ;;
  fprintf "ERROR: setup_path function failed" [] ;;
  cleanup_function ;;
  fail_exit.

Definition make_path (i : Z) (d : pathdata) : NM unit :=
  match p_type d with
  | DIR =>
      r ← fsys (FMkdir (Some (p_name d)) (p_mode d));
      when (r =? -1) (setup_failed ("Can't mkdir " ++ p_name d ++ " " ++ pretty i)%string)
  | SYM =>
      r ← fsys (FSymlink (Some (p_contents d)) (Some (p_name d)));
      when (r =? -1) (setup_failed ("Can't symlink " ++ p_name d ++ " ")%string)
  | REG =>
      fd ← fsys (FOpen (Some (p_name d)) (Z.lor O_WRONLY O_CREAT) (p_mode d));
      when (fd =? -1) (setup_failed ("Can't open " ++ p_name d)%string) ;;
      r ← fsys (FWrite fd (p_contents d));
      when (r =? -1)
        (perror "Can't write" ;;
         fsys (FClose fd) ;;
         fprintf "ERROR: setup_path function failed" [] ;;
         cleanup_function ;;
         fail_exit) ;;
      sys_ (NFile (FClose fd))
  end.

Definition restrict (path : string) (mode : Z) : NM unit :=
  r ← fsys (FChmod (Some path) mode);
  when (r =? -1) (setup_failed ("Can't chmod " ++ path ++ " ")%string).

Definition no_path : pathdata := PathData "" 0 DIR "".

Definition setup_path : NM unit :=
  r ← fsys (FMkdir (Some "./tmp") (modes [S_IRWXU; S_IRWXG; S_IROTH; S_IXOTH]));
  when (r =? -1)
    (perror "Can't mkdir ./tmp" ;; fprintf "ERROR: setup_path function failed" [] ;; fail_exit) ;;
  for_from 0 (Z.to_nat npathdats) (fun i => make_path i (nth (Z.to_nat i) pathdat no_path)) ;;
  restrict "./tmp/data/d333" (modes [S_IWUSR; S_IXUSR; S_IWGRP; S_IXGRP; S_IWOTH; S_IXOTH]) ;;
  restrict "./tmp/data/d666" (modes [S_IRUSR; S_IWUSR; S_IRGRP; S_IWGRP; S_IROTH; S_IWOTH]) ;;
  restrict "./tmp/data/dirg/dir_right.1"
    (modes [S_IWUSR; S_IXUSR; S_IWGRP; S_IXGRP; S_IWOTH; S_IXOTH]).

Definition nftw_fn : ftw_fn := fun v => mret 0.

Definition callback (path : string) : NM Z := nftw path nftw_fn 10 FTW_MOUNT.

Definition ftw_mnemonic (x : Z) : arg :=
  match List.find (fun m => x =? l_i m) mnem with
  | Some m => Str (l_s m)
  | None => Str ("Unknown value for third argument to fn(): " ++ pretty x)%string
  end.

(** The loop of [getbase] at offset [i], and its result. *)
Fixpoint last_slash (i last : Z) (s : string) : Z :=
  match s with
  | "" => last
  | String c s => last_slash (i + 1) (if Ascii.eqb c "/"%char then i else last) s
  end%string.

Definition getbase (s : string) : Z :=
  let last := last_slash 0 0 s in
  if negb (last =? 0) then last + 1 else 0.

Fixpoint getlev (s : string) : Z :=
  match s with
  | "" => 0
  | String c s => (if Ascii.eqb c "/"%char then 1 else 0) + getlev s
  end%string.

Definition do_info (path_name : string) : NM unit := mret tt.

(** ** lib.c *)

Definition tmp_path : string := "./tmp".
Definition no_file : string := "./tmp/no_such_file".
Definition is_a_file : string := "./tmp/is_a_file".

(** [cleanup_function(); fail_exit();] *)
Definition cleanup_and_fail : NM unit := cleanup_function ;; fail_exit.

(** [tst_resm(TFAIL, ...); cleanup_function(); fail_exit();] *)
Definition lib_fails (fmt : string) (args : list arg) : NM unit :=
  tst_resm TFAIL fmt args ;; cleanup_and_fail.

Definition remove_test_ENOTDIR_files : NM unit := sys_ (NFile (FUnlink (Some is_a_file))).

Definition remove_test_ENOENT_files : NM unit := sys_ (NFile (FUnlink (Some no_file))).

(** The value of a [long] stored in a [size_t]. *)
Definition size_t (z : Z) : Z := to_uint64 z.

(** The size of the buffer that is allocated, and [*length]. *)
Definition get_long_name_buffer (extra : Z) : NM (Z * Z) :=
  r ← sys (NPathconf tmp_path PC_PATH_MAX);
  g ← get;
  let path_length := size_t r in
  when (path_length =? size_t (-1))
    (lib_fails "pathconf(_PC_PATH_MAX) failed: %s" [Str (strerror (c_errno g))]) ;;
  r ← sys (NPathconf tmp_path PC_NAME_MAX);
  g ← get;
  let name_length := size_t r in
  when (name_length =? size_t (-1))
    (lib_fails "pathconf(_PC_NAME_MAX) failed: %s" [Str (strerror (c_errno g))]) ;;
  when (path_length <? size_t (strlen tmp_path + name_length + extra))
    (lib_fails
       "pathconf(_PC_NAME_MAX)[=%zi] too large relative to pathconf(_PC_PATH_MAX)[=%zi]"
       [Num name_length; Num path_length]) ;;
  r ← sys (NMalloc (size_t (path_length + extra)));
  g ← get;
  when (r =? 0)
    (lib_fails "malloc(%zi) failed: %s"
       [Num (size_t (path_length + extra)); Str (strerror (c_errno g))]) ;;
  mret (size_t (path_length + extra), name_length).

Definition execute_function (name : string) (callback : string -> NM Z) (buffer : string)
    (expected : Z) : NM unit :=
  modify (set_errno 0) ;;
  result ← callback buffer;
  when (result =? -752)
    (lib_fails "%s callback did not work correctly" [Str name]) ;;
  when (negb (result =? expected))
    (lib_fails "%s did not return value as expected; Expected=%d Received=%d"
       [Str name; Num expected; Num result]) ;;
  g ← get;
  when (negb (c_errno g =? ENAMETOOLONG))
    (lib_fails "%s failed: errno should be %i but is %i"
       [Str name; Num ENAMETOOLONG; Num (c_errno g)]).

(** [while (ptr < ptr_end) *(ptr++) = c;] *)
Fixpoint put_chars (n : nat) (c : ascii) (buffer : string) : string :=
  match n with O => buffer | S n => put_chars n c (buffer ++ String c "")%string end.

Definition put_until (ptr_end : Z) (c : ascii) (buffer : string) : string :=
  put_chars (Z.to_nat (ptr_end - strlen buffer)) c buffer.

(** What [test_long_file_name] writes before the final null character: [ptr] is the
    length of what has been written. *)
Definition long_file_name (name_length : Z) : string :=
  let buffer := tmp_path in
  let ptr_end := strlen buffer + name_length + 1 in
  let buffer := (buffer ++ "/")%string in
  put_until (ptr_end + 1) "E"%char buffer.

Definition test_long_file_name (name : string) (callback : string -> NM Z) (expected : Z)
  : NM unit :=
  b ← get_long_name_buffer 1;
  execute_function name callback (long_file_name b.2) expected.

Definition long_component_name (name_length : Z) : string :=
  let buffer := tmp_path in
  let ptr_end := strlen buffer + name_length + 2 in
  let buffer := (buffer ++ "/")%string in
  (put_until ptr_end "E"%char buffer ++ "/F")%string.

Definition test_long_component_name (name : string) (callback : string -> NM Z) (expected : Z)
  : NM unit :=
  b ← get_long_name_buffer 3;
  execute_function name callback (long_component_name b.2) expected.

(** [while (pathLength < limit) { sprintf(tmpPtr, ...); pathLength += tempPathLength; }];
    the length grows, so [limit] rounds are enough. *)
Fixpoint add_tmp_paths (fuel : nat) (limit : Z) (path : string) (pathLength : Z) : string * Z :=
  match fuel with
  | O => (path, pathLength)
  | S fuel =>
      if pathLength <? limit
      then add_tmp_paths fuel limit (path ++ "/" ++ tmp_path) (pathLength + (strlen tmp_path + 1))
      else (path, pathLength)
  end.

(** [while (pathLength <= pcPathMax) { *tmpPtr++ = 'z'; pathLength++; }] *)
Definition add_zs (pcPathMax : Z) (path : string) (pathLength : Z) : string :=
  put_chars (Z.to_nat (pcPathMax + 1 - pathLength)) "z"%char path.

Definition long_path (pcPathMax : Z) : string :=
  let tempPathLength := strlen tmp_path + 1 in
  let limit := size_t (pcPathMax - tempPathLength - 5) in
  let '(path, pathLength) :=
    add_tmp_paths (Z.to_nat limit) limit tmp_path (strlen tmp_path) in
  add_zs pcPathMax (path ++ "/") (pathLength + 1).

Definition test_ENAMETOOLONG_path (name : string) (callback : string -> NM Z) (expected : Z)
  : NM unit :=
  r ← sys (NPathconf tmp_path PC_PATH_MAX);
  g ← get;
  let pcPathMax := size_t r in
  when (pcPathMax =? size_t (-1))
    (lib_fails "pathconf(_PC_PATH_MAX) failed: %s" [Str (strerror (c_errno g))]) ;;
  r ← sys (NMalloc (size_t (pcPathMax + 2)));
  g ← get;
  when (r =? 0)
    (lib_fails "malloc(%zu) for path failed: %s"
       [Num (size_t (pcPathMax + 2)); Str (strerror (c_errno g))]) ;;
  let path := long_path pcPathMax in
  when (negb (strlen path =? pcPathMax + 1))
    (lib_fails "test logic failure, path length is %d, should be %lu"
       [Num (strlen path); Num (pcPathMax + 1)]) ;;
  execute_function name callback path expected.

Definition test_ENAMETOOLONG_name (name : string) (callback : string -> NM Z) (expected : Z)
  : NM unit :=
  test_long_file_name name callback expected ;;
  test_long_component_name name callback expected.

(** The result of the callback is [expected] and [errno] is [e]. *)
Definition check_result (name : string) (expected e : Z) : NM unit :=
  g ← get;
  if s2 g =? expected then
    when (negb (c_errno g =? e))
      (lib_fails "%s failed: errno should be %i but is %i" [Str name; Num e; Num (c_errno g)])
  else
    lib_fails "%s did not return correct value; Expected=%d Received=%d"
      [Str name; Num expected; Num (s2 g)].

(** The callback's result is stored in [s2]. *)
Definition run_callback (callback : string -> NM Z) (path : string) : NM unit :=
  r ← callback path; modify (set_s2 r).

Definition test_ENOENT_empty (name : string) (callback : string -> NM Z) (expected : Z) : NM unit :=
  modify (set_errno 0) ;;
  run_callback callback "" ;;
  check_result name expected ENOENT.

Definition create_a_file : NM unit :=
  fd ← fsys (FOpen (Some is_a_file) (Z.lor O_CREAT (Z.lor O_WRONLY O_TRUNC))
               (modes [S_IRWXU; S_IRWXG; S_IRWXO]));
  g ← get;
  when (fd =? -1)
    (lib_fails "creat(%s) failed: %s" [Str is_a_file; Str (strerror (c_errno g))]) ;;
  r ← fsys (FClose fd);
  g ← get;
  when (r =? -1)
    (tst_resm TFAIL "close(%i) failed: %s" [Num fd; Str (strerror (c_errno g))] ;;
     remove_test_ENOTDIR_files ;;
     cleanup_and_fail).

Definition test_ENOTDIR (name : string) (callback : string -> NM Z) (expected : Z) : NM unit :=
  create_a_file ;;
  modify (set_errno 0) ;;
  run_callback callback "./tmp/is_a_file/no_file" ;;
  g ← get;
  when (s2 g =? -752) (remove_test_ENOTDIR_files ;; cleanup_and_fail) ;;
  check_result name expected ENOTDIR ;;
  remove_test_ENOTDIR_files.

Definition test_ENOENT_nofile (name : string) (callback : string -> NM Z) (expected : Z) : NM unit :=
  remove_test_ENOENT_files ;;
  run_callback callback no_file ;;
  check_result name expected ENOENT.
End Lib.
