(* ===== verification/NftwFuncs.v ===== *)
(** * The nftw tests: the functions nftw(3) calls

    Model of [src/original tests/nftw/test_func.c].  Each function gets what nftw(3)
    passes, an [ftw_call], and returns 0 to go on with the walk.  [strerror] and
    what lies behind the array [next_fd] ([beyond]) are parameters. *)

From Stdlib Require Import Ascii.
From S2P Require Import Prelude Tst Process Prog FileSys TreeWalk NftwLib.

Section Funcs.
Variable strerror : Z -> string.
Variable beyond : Z.

#[local] Abbreviation perror := (perror strerror).

(** [p = strstr(path_name, prefix)]: the text [n] characters after the match, or the
    whole path. *)
Definition after (prefix : string) (n : Z) (path_name : string) : string :=
  match strstr path_name prefix with
  | Some p => String.substring (Z.to_nat n) (String.length p) p
  | None => path_name
  end.

(** [p] of most functions: the path without [NFTW]. *)
Definition short_name (path_name : string) : string := after NFTW (strlen NFTW) path_name.

(** [fprintf(temp, ...); return 999;] *)
Definition bad (fmt : string) (args : list arg) : NM Z := fprintf fmt args ;; mret 999.

Definition test_func1 : ftw_fn := fun v =>
  r ← sys (NMalloc (strlen (v_path v) + 1));
  if r =? 0 then perror "malloc in test_func1" ;; mret 999
  else
    let s := short_name (v_path v) in
    modify (fun g => set_visit (visit g + 1) (set_dirlist (store (visit g) (Some s) (dirlist g)) g)) ;;
    g ← get;
    if NDIRLISTENTS <=? visit g then bad "ERROR: Too many paths traversed" [] else mret 0.

Definition test_func3 : ftw_fn := fun v =>
  modify (fun g => set_visit (visit g + 1) g) ;;
  g ← get;
  if NDIRLISTENTS <=? visit g then bad "ERROR: Too many paths traversed" []
  else if String.eqb (v_path v) "./tmp/data/dirl/dir_right.1/dir_right.2/right.3"
  then bad "ERROR: Target of right.3 was already reported so this file should not be" []
  else mret 0.

Definition test_func4 : ftw_fn := fun v =>
  modify (fun g => set_visit (visit g + 1) g) ;;
  do_info (v_path v) ;;
  if String.eqb (v_path v) "./tmp/data/d777" then mret 999 else mret 0.

Definition test_func5 : ftw_fn := fun v =>
  if v_flag v =? FTW_D then mret 0
  else
    r ← file_call FGetcwd;
    if ret r =? -1 then perror "getcwd" ;; mret 998
    else if strstr (v_path v) (f_text r)
    then mret 0
    else bad "ERROR: For file %s cwd is %s" [Str (v_path v); Str (f_text r)].

Definition test_func7 : ftw_fn := fun v =>
  do_info (v_path v) ;;
  g ← get;
  let p := short_name (v_path v) in
  if existsb (fun b => String.eqb p (l_s b)) (badlist g) then mret 0
  else bad "ERROR: Should not have traversed %s" [Str (v_path v)].

(** A member of the two structures that differs. *)
Definition stat_differs (a b : stat) : option string :=
  if negb (st_dev a =? st_dev b) then Some "ERROR: st_dev members do not match for %s"
  else if negb (st_ino a =? st_ino b) then Some "ERROR: st_ino members do not match for %s"
  else if negb (st_mode a =? st_mode b) then Some "ERROR: st_mode members do not match for %s"
  else if negb (st_nlink a =? st_nlink b) then Some "ERROR: st_nlink members d o not match for %s"
  else if negb (st_uid a =? st_uid b) then Some "ERROR: st_uid members do not match for %s"
  else if negb (st_gid a =? st_gid b) then Some "ERROR: st_gid members do not match for %s"
  else if negb (st_size a =? st_size b) then Some "ERROR: st_size members do not match for %s"
  else None.

(** The body of the loop of [test_func8]; [inr] returns from the function. *)
Definition compare_stat (v : ftw_call) : NM (unit + Z) :=
  if (v_flag v =? FTW_D) || (v_flag v =? FTW_F) || (v_flag v =? FTW_SL) then
    r ← file_call (if (v_flag v =? FTW_D) || (v_flag v =? FTW_F) then FStat (Some (v_path v))
                   else FLstat (Some (v_path v)));
    if ret r =? -1 then perror "stat" ;; mret (inr 999)
    else
      match stat_differs (f_stat r) (v_stat v) with
      | Some fmt => r ← bad fmt [Str (v_path v)]; mret (inr r)
      | None => mret (inl tt)
      end
  else mret (inl tt).

Definition test_func8 : ftw_fn := fun v =>
  do_info (v_path v) ;;
  r ← for_sum 0 (Z.to_nat nbads) (fun _ _ => compare_stat v) tt;
  match r with inl _ => mret 0 | inr x => mret x end.

(** The loop of [test_func9] to [test_func14], which differ in the type [t] and in
    the messages: [bad_arg] reports the entry. *)
Definition check_entry (t : Z) (bad_arg : ftw_call -> list_ -> NM unit) (v : ftw_call) (i : Z)
  : NM (unit + Z) :=
  g ← get;
  let b := nth (Z.to_nat i) (badlist g) (List_ "" 0) in
  if String.eqb (short_name (v_path v)) (l_s b) && (v_flag v =? t) && negb (v_flag v =? l_i b)
  then bad_arg v b ;; mret (inr 999)
  else mret (inl tt).

Definition check_type (t : Z) (bad_arg : ftw_call -> list_ -> NM unit) : ftw_fn := fun v =>
  do_info (v_path v) ;;
  r ← for_sum 0 (Z.to_nat nbads) (fun i _ => check_entry t bad_arg v i) tt;
  match r with inl _ => mret 0 | inr x => mret x end.

Definition bad_arg3 (first : string) (v : ftw_call) (b : list_) : NM unit :=
  fprintf first [Str (v_path v)] ;;
  fprintf "       Expected %s" [ftw_mnemonic (l_i b)] ;;
  fprintf "       Received %s" [ftw_mnemonic (v_flag v)].

Definition bad_arg1 (v : ftw_call) (b : list_) : NM unit :=
  fprintf "ERROR: Bad third arg to fn() for %s.  Expected %s, Received %s"
    [Str (v_path v); ftw_mnemonic (l_i b); ftw_mnemonic (v_flag v)].

Definition test_func9 : ftw_fn := check_type FTW_F (bad_arg3 "ERROR: Bad thrid arg to fn () for %s").

Definition test_func10 : ftw_fn := check_type FTW_D (bad_arg3 "ERROR: Bad third arg to fn () for %s").

Definition test_func11 : ftw_fn := check_type FTW_DP (bad_arg3 "ERROR: Bad third arg to fn () for %s").

Definition test_func12 : ftw_fn := check_type FTW_SL bad_arg1.

Definition test_func13 : ftw_fn := check_type FTW_SLN (bad_arg3 "ERROR: Bad third arg to fn() for %s").

Definition test_func14 : ftw_fn := check_type FTW_DNR (bad_arg3 "ERROR: Bad third arg to fn() for %s").

Definition test_func15 : ftw_fn := fun v =>
  do_info (v_path v) ;;
  if String.eqb (v_path v) "./tmp/data/d666/errs" && negb (v_flag v =? FTW_NS)
  then bad "ERROR: FTW_NS not passed for file in unsearchable dir" []
  else mret 0.

Definition test_func16 : ftw_fn := fun v =>
  let p := after NFTW2 (strlen NFTW2 + 1) (v_path v) in
  if negb (v_level v =? getlev p) then
    fprintf "ERROR: Incorrect value of level for %s" [Str (v_path v)] ;;
    bad "       Expected %d, received %d" [Num (getlev p); Num (v_level v)]
  else if negb (v_base v =? getbase (v_path v)) then
    fprintf "ERROR: Incorrect value of base for %s" [Str (v_path v)] ;;
    bad "       Expected %d, received %d" [Num (getbase (v_path v)); Num (v_base v)]
  else mret 0.

(** [test_func17] and [test_func18] look for a type. *)
Definition find_type (t : Z) : ftw_fn := fun v =>
  do_info (v_path v) ;;
  if v_flag v =? t
  then modify (fun g => set_visit (visit g + 1) g) ;; mret 999
  else mret 0.

Definition test_func17 : ftw_fn := find_type FTW_SL.

Definition test_func18 : ftw_fn := find_type FTW_SLN.

Definition test_func19 : ftw_fn := fun v =>
  do_info (v_path v) ;;
  modify (fun g => set_visit (visit g + 1) g) ;;
  if v_flag v =? FTW_DNR then
    if String.eqb (v_path v) "./tmp/data/d333" then mret 0
    else
      fprintf "ERROR: When FTW_DNR is passed to the function fn the" [] ;;
      fprintf "       descendants of the directory should not have" [] ;;
      bad "       Been processed" []
  else bad "ERROR: Directory has read permission or FTW_DNR was not passed to fn" [].

Definition test_func20 : ftw_fn := fun v => mret 0.

(** The next file descriptor: [inr] returns from the function. *)
Definition next_descriptor (path_name : string) : NM (Z + Z) :=
  fd ← fsys (FOpen (Some path_name) O_RDONLY 0);
  if fd =? -1 then perror "open" ;; mret (inr 999)
  else
    r ← fsys (FClose fd);
    if r =? -1 then perror "close" ;; mret (inr 999) else mret (inl fd).

(** [next_fd[i]]. *)
Definition next_fd_at (g : globals) (i : Z) : Z := nth (Z.to_nat i) (next_fd g) beyond.

Definition test_func21 : ftw_fn := fun v =>
  do_info (v_path v) ;;
  r ← next_descriptor (v_path v);
  match r with
  | inr x => mret x
  | inl fd =>
      g ← get;
      if negb (fd =? next_fd_at g 0) && negb (fd =? next_fd_at g 1) then
        fprintf "ERROR: Expected next fd available to be %d (none used) or %d (1 used)"
          [Num (next_fd_at g 0); Num (next_fd_at g 1)] ;;
        bad "       Next fd available is %d" [Num fd]
      else mret 0
  end.

Definition test_func22 : ftw_fn := fun v =>
  do_info (v_path v) ;;
  r ← next_descriptor (v_path v);
  match r with
  | inr x => mret x
  | inl fd =>
      g ← get;
      if existsb (fun i => fd =? next_fd_at g (Z.of_nat i)) (seq 0 (Z.to_nat (v_level v + 2)))
      then mret 0
      else
        fprintf "ERROR: At the start of the traversal the next four fds were: %d, %d, %d, and %d"
          [Num (next_fd_at g 0); Num (next_fd_at g 1); Num (next_fd_at g 2); Num (next_fd_at g 3)] ;;
        bad "       Traversing level %d the next fd is %d" [Num (v_level v); Num fd]
  end.

Definition test_func23 : ftw_fn := fun v =>
  modify (fun g => set_visit (visit g + 1) g) ;;
  do_info (v_path v) ;;
  if v_flag v =? FTW_F then mret 999 else mret 0.
End Funcs.
