(* ===== verification/Nftw.v ===== *)
(** * nftw01: thirty tests of nftw(3)

    Model of [src/original tests/nftw/test.c] and of the functions of [nftw.c]
    ([main], [setup], [blenter], [blexit], [anyfail]). *)

From Stdlib Require Import Ascii.
From S2P Require Import Prelude Tst Process Prog FileSys TreeWalk NftwLib NftwFuncs.

Section Tests.
Variable strerror : Z -> string.
Variable beyond : Z.

#[local] Abbreviation perror := (perror strerror).

(** [if (failed) { perror(s); cleanup_function(); fail_exit(); }] *)
Definition perror_when (failed : bool) (s : string) : NM unit :=
  when failed (perror s ;; cleanup_function ;; fail_exit).

(** [if (wrong) { cleanup_function(); fail_exit(); }] *)
Definition fail_when (wrong : bool) : NM unit := when wrong cleanup_and_fail.

(** [if (wrong) { fprintf(temp, ...); cleanup_function(); fail_exit(); }] *)
Definition error_when (wrong : bool) (fmt : string) (args : list arg) : NM unit :=
  when wrong (fprintf fmt args ;; cleanup_function ;; fail_exit).

(** A walk that fails when nftw(3) fails or the function found an error. *)
Definition walk_ok (path : string) (fn : ftw_fn) (depth flags : Z) : NM unit :=
  ret ← nftw path fn depth flags;
  perror_when (ret =? -1) "nftw" ;;
  fail_when (ret =? 999).

Definition dirlist_at (g : globals) (i : Z) : option string := nth (Z.to_nat i) (dirlist g) None.

(** Frees entry [i] of [dirlist] when it is in [goodlist]. *)
Definition strike (i : Z) : NM unit :=
  modify (fun g =>
    match dirlist_at g i with
    | Some s => if existsb (String.eqb s) goodlist then set_dirlist (store i None (dirlist g)) g else g
    | None => g
    end).

(** Reports entry [i] of [dirlist] if it is still there. *)
Definition report_left (i : Z) : NM unit :=
  g ← get;
  match dirlist_at g i with
  | Some s => error_when true "ERROR: Unexpected visit to %s" [Str s]
  | None => mret tt
  end.

(** The number of files visited, then their names. *)
Definition check_dirlist : NM unit :=
  g ← get;
  when (negb (visit g =? ngoods))
    (fprintf "ERROR: Count of objects visited incorrect" [] ;;
     fprintf "       Expected %d, Received %d" [Num ngoods; Num (visit g)] ;;
     cleanup_function ;;
     fail_exit) ;;
  for_from 0 (Z.to_nat (visit g)) strike ;;
  for_from 0 (Z.to_nat (visit g)) report_left.

Definition test1A : NM unit :=
  modify (set_visit 0) ;;
  ret ← nftw "./tmp/data/dirh" (test_func1 strerror) MAX_FD 0;
  perror_when (ret =? -1) "ERROR: nftw failed" ;;
  fail_when (ret =? 999) ;;
  check_dirlist.

Definition test2A : NM unit :=
  modify (set_visit 0) ;;
  walk_ok "./tmp/data/dirl" (test_func1 strerror) MAX_FD FTW_PHYS ;;
  g ← get;
  error_when (negb (visit g =? NO_LINK_CNT))
    "ERROR: Expected %d files to be visited.  nftw() visited %d" [Num NO_LINK_CNT; Num (visit g)].

Definition test3A : NM unit :=
  modify (set_visit 0) ;;
  walk_ok "./tmp/data/dirl" test_func3 MAX_FD 0 ;;
  g ← get;
  error_when (negb (visit g =? LINK_CNT - 1))
    "ERROR: Expected %d files to be visited.  nftw() visited %d"
    [Num (LINK_CNT - 1); Num (visit g)].

Definition test4A : NM unit :=
  let path := "./tmp/data/d777" in
  modify (set_visit 0) ;;
  ret_val ← nftw path test_func4 MAX_FD FTW_DEPTH;
  perror_when (ret_val =? -1) "nftw" ;;
  error_when (negb (ret_val =? 999)) "ERROR: %s never visited" [Str path] ;;
  g ← get;
  error_when (negb (visit g =? 2)) "ERROR: Visited directory before contents" [].

Definition test5A : NM unit :=
  let path := "./tmp/data/d777" in
  modify (set_visit 0) ;;
  ret_val ← nftw path test_func4 MAX_FD 0;
  perror_when (ret_val =? -1) "nftw" ;;
  error_when (negb (ret_val =? 999)) "ERROR: %s never visited" [Str path] ;;
  g ← get;
  error_when (negb (visit g =? 1)) "ERROR: Visited contents before directory" [].

(** [getcwd(path, sizeof(path))], or the end of the test. *)
Definition get_cwd (what : string) : NM string :=
  r ← file_call FGetcwd;
  perror_when (ret r =? -1) what ;;
  mret (f_text r).

Definition test6A : NM unit :=
  path ← get_cwd "getcwd";
  let path := (path ++ "/tmp/data/dirh")%string in
  ret_val ← nftw path (test_func5 strerror) MAX_FD FTW_CHDIR;
  perror_when (ret_val =? -1) "nftw" ;;
  fail_when ((ret_val =? 998) || (ret_val =? 999)).

Definition test7A : NM unit := walk_ok "./tmp/data/dirg" test_func7 MAX_FD 0.

Definition test8A : NM unit := walk_ok "./tmp/data/dirg" (test_func8 strerror) MAX_FD 0.

Definition test9A : NM unit := walk_ok "./tmp/data/dirg" test_func9 MAX_FD FTW_PHYS.

Definition test10A : NM unit := walk_ok "./tmp/data/dirg" test_func10 MAX_FD FTW_PHYS.

(** The entries of [badlist] of type [t] get type [t']. *)
Definition retype (t t' : Z) : NM unit :=
  modify (fun g =>
    set_badlist (map (fun b => if l_i b =? t then List_ (l_s b) t' else b) (badlist g)) g).

Definition test11A : NM unit :=
  retype FTW_D FTW_DP ;;
  walk_ok "./tmp/data/dirg" test_func11 MAX_FD (Z.lor FTW_DEPTH FTW_PHYS).

Definition test12A : NM unit := walk_ok "./tmp/data/dirg" test_func12 MAX_FD FTW_PHYS.

Definition test13A : NM unit :=
  r ← fsys (FUnlink (Some "./tmp/byebye"));
  perror_when (r =? -1) "unlink" ;;
  retype FTW_SL FTW_SLN ;;
  walk_ok "./tmp/data/dirg" test_func13 MAX_FD FTW_PHYS.

Definition test14A : NM unit := walk_ok "./tmp/data/d333" test_func14 MAX_FD 0.

Definition test15A : NM unit := walk_ok "./tmp/data/d666" test_func15 MAX_FD FTW_PHYS.

(** [if ((s2 = nftw(path, test_func16, MAX_FD, 0)) == -1) ... if (s2 == 999) ...] *)
Definition walk16 (path : string) : NM unit :=
  r ← nftw path test_func16 MAX_FD 0;
  modify (set_s2 r) ;;
  perror_when (r =? -1) "nftw" ;;
  fail_when (r =? 999).

Definition test16A : NM unit :=
  orig ← get_cwd "getcwd on original wd";
  walk16 (orig ++ "/tmp/data/dirg")%string ;;
  walk16 "./tmp/data/dirg".

Definition test17A : NM unit :=
  modify (set_visit 0) ;;
  ret ← nftw "./tmp/data/dirl" test_func17 MAX_FD FTW_PHYS;
  perror_when (ret =? -1) "nftw" ;;
  error_when (negb (ret =? 999)) "ERROR: nftw() failed to find symbolic link" [] ;;
  modify (set_visit 0) ;;
  ret ← nftw "./tmp/data/dirl" test_func17 MAX_FD 0;
  perror_when (ret =? -1) "nftw" ;;
  error_when (ret =? 999) "ERROR: nftw() found symbolic link" [].

Definition test18A : NM unit :=
  sys_ (NFile (FUnlink (Some "./tmp/byebye"))) ;;
  modify (set_visit 0) ;;
  ret ← nftw "./tmp/data/dirg" test_func18 MAX_FD FTW_PHYS;
  perror_when (ret =? -1) "nftw" ;;
  error_when (ret =? 999) "ERROR: nftw() passed FTW_SLN" [] ;;
  modify (set_visit 0) ;;
  ret ← nftw "./tmp/data/dirg" test_func18 MAX_FD 0;
  perror_when (ret =? -1) "nftw" ;;
  g ← get;
  if visit g =? 1 then
    if ret =? 999 then mret tt
    else
      fprintf "ERROR: nftw passed FTW_SLN but did" [] ;;
      fprintf "not return value returned by fn()" [] ;;
      cleanup_function ;;
      fail_exit
  else error_when true "ERROR: nftw() did not pass FTW_SLN" [].

Definition test19A : NM unit :=
  modify (set_visit 0) ;;
  walk_ok "./tmp/data/d333" test_func19 MAX_FD 0 ;;
  g ← get;
  when (negb (visit g =? 1))
    (fprintf "ERROR: %s" [Str "Directory without read permission allows traversing"] ;;
     fprintf "       Visited %d files" [Num (visit g)] ;;
     cleanup_function ;;
     fail_exit).

(** [open(path, O_RDONLY)] and [close(fd)], or the end of the test. *)
Definition open_dir (path what : string) : NM Z :=
  fd ← fsys (FOpen (Some path) O_RDONLY 0);
  perror_when (fd =? -1) what ;;
  mret fd.

Definition close_fd (fd : Z) (what : string) : NM unit :=
  r ← fsys (FClose fd); perror_when (r =? -1) what.

Definition test20A : NM unit :=
  fd ← open_dir "./tmp/data/dirh" "close";
  close_fd fd "close" ;;
  r ← nftw "./tmp/data/dirh" test_func20 1 0;
  perror_when (r =? -1) "nftw" ;;
  nfd ← open_dir "./tmp/data/dirh" "open";
  error_when (negb (nfd =? fd)) "ERROR: %s,fd == %d ofd = %d"
    [Str "nftw did not close all file descriptors used in traversal"; Num nfd; Num fd] ;;
  close_fd nfd "close".

(** [next_fd[i] = open(path, O_RDONLY)], or the end of the test. *)
Definition open_next (path what : string) (i : Z) : NM unit :=
  fd ← fsys (FOpen (Some path) O_RDONLY 0);
  modify (fun g => set_next_fd (store i fd (next_fd g)) g) ;;
  perror_when (fd =? -1) what.

Definition close_next (what : string) (i : Z) : NM unit :=
  g ← get; close_fd (next_fd_at beyond g i) what.

Definition test21A : NM unit :=
  let path := "./tmp/data/dirh" in
  open_next path "open next_fd[0]" 0 ;;
  open_next path "open next_fd[1]" 1 ;;
  close_next "close next_fd[0]" 0 ;;
  close_next "close next_fd[1]" 1 ;;
  modify (set_visit 0) ;;
  walk_ok path (test_func21 strerror beyond) 1 0.

Definition test22A : NM unit :=
  let path := "./tmp/data/dirh" in
  for_from 0 4 (open_next path "open") ;;
  for_from 0 4 (close_next "close") ;;
  modify (set_visit 0) ;;
  walk_ok path (test_func22 strerror beyond) MAX_FD 0.

Definition test23A : NM unit :=
  modify (set_visit 0) ;;
  ret ← nftw "./tmp/data/dirh" test_func23 MAX_FD FTW_PHYS;
  perror_when (ret =? -1) "nftw" ;;
  error_when (negb (ret =? 999)) "ERROR: nftw did not return value returned by fn()" [] ;;
  g ← get;
  error_when (negb (visit g =? 4)) "ERROR: nftw() did not return immediately on non-zero fn() return" [].

Definition test24A : NM unit := test_ENAMETOOLONG_path strerror "nftw" callback (-1).

Definition test25A : NM unit := test_ENAMETOOLONG_name strerror "nftw" callback (-1).

Definition test26A : NM unit := test_ENOENT_nofile "nftw" callback (-1).

Definition test27A : NM unit := test_ENOENT_empty "nftw" callback (-1).

Definition test28A : NM unit := test_ENOTDIR strerror "nftw" callback (-1).

Definition chmod_d333 (mode : Z) : NM unit :=
  r ← fsys (FChmod (Some "./tmp/data/d333") mode); perror_when (r =? -1) "chmod".

Definition test29A : NM unit :=
  chmod_d333 S_IRUSR ;; test_ENOTDIR strerror "nftw" callback (-1).

Definition test30A : NM unit :=
  chmod_d333 S_IXUSR ;; test_ENOTDIR strerror "nftw" callback (-1).

(** ** nftw.c *)

Definition setup : NM unit :=
  r ← sys (NGetpwnam "nobody");
  when (r =? -1) (perror "nobody not found in /etc/passwd" ;; exit 1) ;;
  sys_ (NSetuid r) ;;
  sys_ (NFile FTmpdir).

Definition blenter : NM unit := modify (set_local_flag PASSED).

Definition blexit : NM unit :=
  g ← get;
  tst_resm (if local_flag g =? PASSED then TPASS else TFAIL) "Test block %d" [Num (block_number g)] ;;
  modify (fun g => set_block_number (block_number g + 1) g).

Definition anyfail : NM unit :=
  g ← get;
  (if local_flag g =? FAILED then tst_resm TFAIL "Test failed" [] else tst_resm TPASS "Test passed" []) ;;
  sys_ (NFile FTmpRmdir) ;;
  tst_exit.

Definition block (test : NM unit) : NM unit := blenter ;; test ;; blexit.

(** The blocks of [main], in their order. *)
Definition tests : list (NM unit) :=
  [test1A; test2A; test3A; test4A; test5A; test6A; test7A; test8A; test9A; test10A;
   test11A; test12A; test13A; test14A; test15A; test16A; test17A; test18A; test19A; test20A;
   test21A; test22A; test23A; test24A; test25A; test26A; test27A; test28A; test29A; test30A].

Fixpoint run_blocks (l : list (NM unit)) : NM unit :=
  match l with [] => mret tt | t :: l => block t ;; run_blocks l end.

Definition main : NM unit :=
  setup ;;
  setup_path strerror ;;
  run_blocks tests ;;
  cleanup_function ;;
  anyfail ;;
  tst_exit.
End Tests.
