(* ===== verification/NftwPaths.v ===== *)
(** * The nftw tests: paths

    Lemmas on strstr(3), [getbase] and [getlev]. *)

From Stdlib Require Import Ascii.
From S2P Require Import Prelude FileSys Strings TreeWalk NftwLib NftwFuncs.

(** ** strstr *)

Lemma strstr_eq s t :
  strstr s t = match strip t s, s with
               | Some _, _ => Some s
               | None, ""%string => None
               | None, String _ s => strstr s t
               end.
Proof. by destruct s. Qed.

Lemma strstr_prefix s t : strstr (s ++ t) s = Some (s ++ t)%string.
Proof. by rewrite strstr_eq, strip_app. Qed.

(** No occurrence of [NFTW2] begins before the first whole one. *)
Lemma strip_straddle s r :
  strip NFTW2 s = None -> s <> ""%string -> strip NFTW2 (s ++ NFTW2 ++ r) = None.
Proof.
  unfold NFTW2. intros H Hs. destruct s as [|a s]; [done|]. clear Hs. rewrite append_cons.
  cbn [strip] in *. destruct (Ascii.eqb _ a); [|done].
  do 8 (destruct s as [|? s]; [reflexivity|]; rewrite append_cons; cbn [strip] in *;
        match goal with |- context [Ascii.eqb ?x ?c] => destruct (Ascii.eqb x c); [|done] end).
  done.
Qed.

Lemma strstr_base b r :
  strstr b NFTW2 = None -> strstr (b ++ NFTW2 ++ r) NFTW2 = Some (NFTW2 ++ r)%string.
Proof.
  induction b as [|a b IH]; intros H.
  - exact (strstr_prefix NFTW2 r).
  - rewrite strstr_eq in H. rewrite strstr_eq.
    destruct (strip NFTW2 (String a b)) eqn:E; [done|]. by rewrite strip_straddle, append_cons, IH.
Qed.

Lemma after_base b r :
  strstr b NFTW2 = None ->
  after NFTW2 (strlen NFTW2 + 1) (b ++ NFTW2 ++ r) =
  String.substring 10 (String.length (NFTW2 ++ r)) (NFTW2 ++ r).
Proof. intros H. unfold after. by rewrite strstr_base. Qed.

(** ** Offsets in paths *)

Lemma last_slash_app i l s t :
  last_slash i l (s ++ t) = last_slash (i + strlen s) (last_slash i l s) t.
Proof.
  revert i l. induction s as [|a s IH]; intros i l.
  - change (strlen "") with 0. by rewrite Z.add_0_r.
  - rewrite append_cons. cbn [last_slash]. rewrite IH.
    replace (i + strlen (String a s)) with (i + 1 + strlen s); [done|].
    unfold strlen. cbn [String.length]. lia.
Qed.

Lemma last_slash_shift i l l' s :
  last_slash i l (String "/" s) = i + last_slash 0 l' (String "/" s).
Proof.
  cbn [last_slash]. rewrite Ascii.eqb_refl, Z.add_0_l.
  assert (forall j k m, last_slash (i + j) (i + k) m = i + last_slash j k m) as H.
  { intros j k m. revert j k. induction m as [|c m IH]; intros j k; [done|].
    cbn [last_slash]. rewrite <- Z.add_assoc. by destruct (Ascii.eqb c "/"). }
  rewrite <- (H 1 0 s). f_equal; lia.
Qed.

(** [getbase] on a path that begins with another one. *)
Lemma getbase_app b r :
  b <> ""%string -> getbase (b ++ String "/" r) = strlen b + last_slash 0 0 (String "/" r) + 1.
Proof.
  intros Hb%strlen_nonempty. unfold getbase.
  rewrite last_slash_app, Z.add_0_l, (last_slash_shift _ _ 0).
  assert (forall i l s, 0 <= i -> 0 <= l -> 0 <= last_slash i l s) as Hp.
  { intros i l s. revert i l. induction s as [|c s IH]; intros i l Hi Hl; [done|].
    cbn [last_slash]. apply IH; [lia|]. by destruct (Ascii.eqb c "/"). }
  pose proof (Hp 0 0 (String "/" r) ltac:(done) ltac:(done)).
  destruct (Z.eqb_spec (strlen b + last_slash 0 0 (String "/" r)) 0); [lia | done].
Qed.

(** A name without slashes. *)
Lemma last_slash_name i l s : getlev s = 0 -> last_slash i l s = l.
Proof.
  assert (forall s, 0 <= getlev s) as Hp.
  { clear. intros s. induction s as [|c s IH]; cbn [getlev]; [done|]. case_match; lia. }
  revert i l. induction s as [|c s IH]; intros i l H; [done|].
  cbn [getlev] in H. specialize (Hp s). cbn [last_slash]. destruct (Ascii.eqb c "/"); [lia|].
  apply IH. lia.
Qed.

(** [short_name] of a path below [NFTW]. *)
Lemma short_name_below r : short_name (NFTW ++ r) = r.
Proof.
  unfold short_name, after. rewrite strstr_prefix.
  assert (forall s n, (String.length s <= n)%nat -> String.substring 0 n s = s) as H.
  { clear. intros s. induction s as [|c s IH]; intros n Hn; [by destruct n|].
    destruct n as [|n]; [cbn [String.length] in Hn; lia|]. cbn. rewrite IH; [done|].
    cbn [String.length] in Hn. lia. }
  change (Z.to_nat (strlen NFTW)) with 10%nat.
  change (String.substring 10 (String.length (NFTW ++ r)) (NFTW ++ r))
    with (String.substring 0 (10 + String.length r) r).
  apply H. lia.
Qed.
