(* ===== verification/NftwRuns.v ===== *)
(** * Runs of nftw01 on documented systems

    The program is run by computation ([run_alone] of [Alone.v]), for any choice of
    what a system is free to choose.  Three tests look at values that are not
    concrete: the absolute paths of test6A and test16A, and the status of files in
    test8A; for these the walk is followed call by call with the lemmas below. *)

From Stdlib Require Import Ascii.
From S2P Require Import Prelude Tst Process Prog Explore Checker Wp Alone FileSys Strings TreeWalk.
From S2P Require Import NftwLib NftwFuncs Nftw NftwPaths.

(** ** Calls *)

Section Run.
Variable p : params.
Context `{!FsParams p}.
Hypothesis no_name : strstr (base p) NFTW2 = None.
Variable ts : list entry -> Z.
Variable strerror : Z -> string.
Variable beyond : Z.
#[local] Instance walk_ref : Kernel ncall nreply nstate := walk_kernel p ts.
Implicit Types (g : globals) (w : nstate) (log : list entry).

Lemma sx_syscall c g w log r w' (Φ : globals -> nreply -> nstate -> list entry -> Prop) :
  k_do main_pid c w = Some (r, w') -> errno (n_file r) = 0 ->
  Φ g r w' log -> sx (syscall c) g w log Φ.
Proof.
  intros Hk He HΦ. unfold syscall. apply sx_bind. eapply sx_call; [exact Hk|].
  apply sx_bind, sx_modify. rewrite He. by apply sx_ret.
Qed.

Lemma sx_file_call c g w log r w' :
  k_do main_pid (NFile c) w = Some (answer r, w') -> errno r = 0 ->
  sx (file_call c) g w log (exactly g r w' log).
Proof.
  intros Hk He. unfold file_call. apply sx_bind. eapply sx_syscall; [exact Hk | done |].
  by apply sx_ret.
Qed.

(** One call of the function, which returns 0. *)
Lemma nftw_round fn f v g w log g1 w1 r w2 Φ :
  sx (fn v) g w log (exactly g1 0 w1 log) ->
  k_do main_pid (NReturn 0) w1 = Some (r, w2) -> errno (n_file r) = 0 ->
  sx (while_ (nftw_next fn) r) g1 w2 log Φ ->
  sx (while_ (nftw_next fn) (NReply f (Some v))) g w log Φ.
Proof.
  intros Hf Hk He HΦ. apply sx_while. unfold nftw_next at 1. cbn [n_visit].
  eapply sx_step; [exact Hf|]. cbv beta. apply sx_bind.
  eapply sx_syscall; [exact Hk | done |]. by apply sx_ret.
Qed.

Lemma nftw_done fn f g w log (Φ : globals -> Z -> nstate -> list entry -> Prop) :
  Φ g (ret f) w log -> sx (while_ (nftw_next fn) (answer f)) g w log Φ.
Proof. intros H. apply sx_while. by apply sx_ret. Qed.

Lemma sx_nftw path fn depth flags g w log r w1 Φ :
  k_do main_pid (NNftw path depth flags) w = Some (r, w1) -> errno (n_file r) = 0 ->
  sx (while_ (nftw_next fn) r) g w1 log Φ ->
  sx (nftw path fn depth flags) g w log Φ.
Proof.
  intros Hk He H. unfold nftw. apply sx_bind. by eapply sx_syscall.
Qed.

(** ** Absolute paths *)

Lemma lookup_base s follow rel :
  strlen rel < NAME_MAX - 1 ->
  lookup_path p s follow (Some (base p ++ String "/" rel)%string) =
  walk p s MAXSYMLINKS follow root (components rel).
Proof.
  intros Hr. unfold lookup_path. pose proof tmp_fits as Hf.
  rewrite (proj2 (Z.leb_gt PATH_MAX _)).
  - unfold start_of. change (is_absolute (base p ++ String "/" rel)%string) with true.
    rewrite strip_app. done.
  - rewrite strlen_app. change (strlen (String "/" rel)) with (Z.of_nat (S (String.length rel))).
    unfold strlen, PATH_MAX, NAME_MAX in *. lia.
Qed.

Lemma strip_slashes_done n s c :
  c <> "/"%char -> strip_slashes n (s ++ String c "")%string = (s ++ String c "")%string.
Proof.
  intros Hc. destruct n as [|n]; [done|]. cbn [strip_slashes]. rewrite substring_last.
  destruct (String.eqb_spec (String c "") "/") as [[= ->]|_]; [done|].
  by rewrite andb_false_r.
Qed.

(** The directory [dir] of the tree, by its absolute path. *)
Definition abs_path (dir : string) : string := (base p ++ (NFTW2 ++ String "/" dir))%string.

Lemma start_from_ext find find' names nopenfd flags s :
  (forall b, find b = find' b) ->
  start_from p find names nopenfd flags s = start_from p find' names nopenfd flags s.
Proof. intros H. unfold start_from, examine. by rewrite !H. Qed.

Lemma start_abs dir s c nopenfd flags :
  c <> "/"%char -> strlen dir < 200 ->
  start p (abs_path (dir ++ String c "")%string) nopenfd flags s =
  start_from p (fun follow => walk p s MAXSYMLINKS follow root
                                (components ("tmp/data/" ++ dir ++ String c "")%string))
    (names_of (abs_path (dir ++ String c "")%string)) nopenfd flags s.
Proof.
  intros Hc Hd. unfold start.
  replace (strip_slashes _ _) with (abs_path (dir ++ String c "")%string).
  - apply start_from_ext. intros follow. apply lookup_base.
    unfold NAME_MAX. change (strlen ("tmp/data/" ++ dir ++ String c "")%string < 254).
    rewrite !strlen_app. change (strlen (String c "")) with 1. change (strlen "tmp/data/") with 9. lia.
  - unfold abs_path. rewrite <- append_cons, <- !append_assoc. by rewrite strip_slashes_done.
Qed.
Lemma base_from_app i l s t :
  base_from i l (s ++ t) = base_from (i + strlen s) (base_from i l s) t.
Proof.
  revert i l. induction s as [|a s IH]; intros i l.
  - change (strlen "") with 0. by rewrite Z.add_0_r.
  - rewrite append_cons.
    replace (i + strlen (String a s)) with (i + 1 + strlen s)
      by (unfold strlen; cbn [String.length]; lia).
    cbn [base_from]. rewrite !IH. by repeat case_match.
Qed.

Lemma base_from_shift i l l' s :
  base_from i l (String "/" s) = i + base_from 0 l' (String "/" s).
Proof.
  cbn [base_from]. rewrite Z.add_0_l.
  assert (forall j k m, base_from (i + j) (i + k) m = i + base_from j k m) as H.
  { intros j k m. revert j k. induction m as [|c m IH]; intros j k; [done|].
    cbn [base_from]. rewrite <- Z.add_assoc. by repeat case_match. }
  apply H.
Qed.

(** The names of the walk at the directory [dir] of the tree. *)
Record named (dir : string) (nm : naming) : Prop := {
  nd_path rel : nm_path nm rel =
    (base p ++ (NFTW2 ++ String "/" (dir ++ if String.eqb rel "" then "" else String "/" rel)))%string;
  nd_base off : nm_base nm off = strlen (base p) + (11 + strlen dir + off);
  nd_root : nm_root nm = strlen (base p) + base_of (NFTW2 ++ String "/" dir)
}.

Lemma names_named dir : named dir (names_of (abs_path dir)).
Proof.
  assert (with_slash (abs_path dir) = abs_path dir ++ "/")%string as E.
  { unfold with_slash, abs_path. destruct (String.eqb_spec (base p ++ (NFTW2 ++ String "/" dir)) "/")
      as [H|]; [|done].
    apply (f_equal strlen) in H. rewrite !strlen_app in H. pose proof (strlen_nonneg (base p)).
    pose proof (strlen_nonneg (String "/" dir)). change (strlen NFTW2) with 9 in H.
    change (strlen "/") with 1 in H. lia. }
  split.
  - intros rel. unfold names_of; cbn [nm_path]. rewrite E. unfold abs_path.
    destruct (String.eqb rel "").
    + by rewrite append_nil_r.
    + by rewrite !append_assoc.
  - intros off. unfold names_of; cbn [nm_base]. rewrite E. unfold abs_path. rewrite !strlen_app.
    change (strlen (String "/" dir)) with (Z.of_nat (S (String.length dir))).
    change (strlen NFTW2) with 9. change (strlen "/") with 1. unfold strlen. lia.
  - unfold names_of; cbn [nm_root]. unfold abs_path, base_of. rewrite base_from_app, Z.add_0_l.
    change (NFTW2 ++ String "/" dir)%string with (String "/" ("tmp/data" ++ String "/" dir)).
    apply base_from_shift.
Qed.

(** A walk at an absolute path, whatever the names. *)
Lemma sx_nftw_abs dir c fn depth flags g w log Φ :
  c <> "/"%char -> strlen dir < 200 ->
  (forall nm, named (dir ++ String c "")%string nm -> exists r w1,
     resume (n_walks w)
       (start_from p (fun follow => walk p (n_fs w) MAXSYMLINKS follow root
                        (components ("tmp/data/" ++ dir ++ String c "")%string))
          nm depth flags (n_fs w)) = Some (r, w1)
     /\ errno (n_file r) = 0
     /\ sx (while_ (nftw_next fn) r) g w1 log Φ) ->
  sx (nftw (abs_path (dir ++ String c "")%string) fn depth flags) g w log Φ.
Proof.
  intros Hc Hd H. destruct (H _ (names_named _)) as (r & w1 & Hk & He & Hx).
  eapply sx_nftw; [|exact He|exact Hx]. cbn [k_do walk_ref walk_kernel n_do].
  rewrite start_abs by done. exact Hk.
Qed.

Lemma getcwd_below w below :
  path_below (length (inodes (n_fs w))) (n_fs w) (cwd (n_fs w)) = Some below ->
  k_do main_pid (NFile FGetcwd) w =
  Some (answer (ftext 0 (base p ++ below)%string),
        NState (set_now (f_now (n_fs w) + 1) (n_fs w)) (n_walks w)).
Proof.
  intros H. cbn [k_do walk_ref walk_kernel n_do fs_do]. unfold fs_getcwd.
  change (path_below (length (inodes (n_fs w))) (n_fs w) (cwd (n_fs w)) = Some below) in H.
  assert (forall n s d k, path_below n (set_now k s) d = path_below n s d) as E.
  { intros n s d k. revert d. induction n as [|n IH]; intros d; cbn [path_below]; [done|].
    destruct (d =? root); [done|]. unfold dir_at. cbn [inodes set_now]. repeat case_match; try done;
    by rewrite ?IH in *; simplify_eq. }
  rewrite E. cbn [inodes cwd set_now]. rewrite H. done.
Qed.

(** ** The functions of the three tests *)

Lemma test_func5_dir v g w log :
  v_flag v = FTW_D -> sx (test_func5 strerror v) g w log (exactly g 0 w log).
Proof. intros H. unfold test_func5. rewrite H. by apply sx_ret. Qed.

Lemma test_func5_file v g w log r w' rest :
  v_flag v <> FTW_D -> k_do main_pid (NFile FGetcwd) w = Some (answer r, w') ->
  ret r = 0 -> errno r = 0 -> v_path v = (f_text r ++ rest)%string ->
  sx (test_func5 strerror v) g w log (exactly g 0 w' log).
Proof.
  intros Hf Hk Hr He Hp. unfold test_func5. rewrite (proj2 (Z.eqb_neq _ _) Hf).
  eapply sx_step; [by eapply sx_file_call|]. cbv beta. rewrite Hr, Hp, strstr_prefix.
  by apply sx_ret.
Qed.

Lemma test_func16_ok v g w log :
  v_level v = getlev (after NFTW2 (strlen NFTW2 + 1) (v_path v)) ->
  v_base v = getbase (v_path v) ->
  sx (test_func16 v) g w log (exactly g 0 w log).
Proof.
  intros Hl Hb. unfold test_func16. cbv zeta. rewrite Hl, Hb, !Z.eqb_refl. by apply sx_ret.
Qed.

Lemma stat_differs_refl st : stat_differs st st = None.
Proof. unfold stat_differs. by rewrite !Z.eqb_refl. Qed.

Lemma test_func8_other v g w log :
  (v_flag v =? FTW_D) || (v_flag v =? FTW_F) || (v_flag v =? FTW_SL) = false ->
  sx (test_func8 strerror v) g w log (exactly g 0 w log).
Proof.
  intros Hf. unfold test_func8, do_info. apply sx_bind, sx_ret. cbv beta.
  assert (forall n i, sx (for_sum i n (fun _ _ => compare_stat strerror v) tt) g w log
                        (exactly g (inl tt) w log)) as H.
  { intros n. induction n as [|n IH]; intros i; cbn [for_sum]; [by apply sx_ret|].
    eapply sx_step; [unfold compare_stat; rewrite Hf; by apply sx_ret | apply IH]. }
  eapply sx_step; [apply H|]. by apply sx_ret.
Qed.

(** The world at call [n]. *)
Definition at_call (n : Z) w : nstate := NState (set_now n (n_fs w)) (n_walks w).

(** The status of the file is what nftw(3) passed, whenever it is asked for. *)
Lemma test_func8_same v g w log :
  (v_flag v =? FTW_D) || (v_flag v =? FTW_F) = true ->
  (forall n, k_do main_pid (NFile (FStat (Some (v_path v)))) (at_call n w)
             = Some (answer (fstats (v_stat v)), at_call (n + 1) w)) ->
  sx (test_func8 strerror v) g w log (exactly g 0 (at_call (f_now (n_fs w) + nbads) w) log).
Proof.
  intros Hf Hk. unfold test_func8, do_info. apply sx_bind, sx_ret. cbv beta.
  assert (forall n i k, sx (for_sum i n (fun _ _ => compare_stat strerror v) tt) g (at_call k w) log
                        (exactly g (inl tt) (at_call (k + Z.of_nat n) w) log)) as H.
  { intros n. induction n as [|n IH]; intros i k; cbn [for_sum].
    - rewrite Z.add_0_r. by apply sx_ret.
    - eapply sx_step.
      + unfold compare_stat. rewrite Hf. cbn [orb].
        eapply sx_step; [eapply sx_file_call; [apply Hk | done]|]. cbv beta. cbn [ret fstats f_stat].
        change (0 =? -1) with false. cbv iota. rewrite stat_differs_refl. by apply sx_ret.
      + cbv beta iota. replace (k + Z.of_nat (S n)) with (k + 1 + Z.of_nat n) by lia. apply IH. }
  specialize (H (Z.to_nat nbads) 0 (f_now (n_fs w))).
  replace (at_call _ w) with w in H at 1 by by destruct w as [[] ?].
  eapply sx_step; [exact H|]. by apply sx_ret.
Qed.
End Run.

Lemma add_offset x a b : a = b + 1 -> x + a = x + b + 1.
Proof. lia. Qed.

(** ** Symbolic execution *)

Ltac run_it := eapply (sx_run_alone (Z.to_nat 20000)); vm_compute; reflexivity.

Ltac compute_step := eapply sx_step; [run_it | cbv beta].

(** A block of [main] whose test is run by [tac]. *)
Ltac block_by tac :=
  eapply sx_step;
  [ unfold block; eapply sx_step; [run_it | cbv beta; eapply sx_step; [tac | run_it]]
  | cbv beta ].

(** The end of a part: its result. *)
Ltac result := repeat split; reflexivity.

(** One round of a walk: the function by [tac], the answer to its return by
    computation. *)
Ltac next_visit tac :=
  eapply nftw_round; [tac | vm_compute; reflexivity | reflexivity |].

Ltac visits tac := repeat next_visit tac; apply nftw_done; result.

Ltac visit5 H :=
  first
  [ apply test_func5_dir; reflexivity
  | eapply test_func5_file;
    [ discriminate | apply getcwd_below; vm_compute; reflexivity | reflexivity | reflexivity |];
    cbn [v_path f_text ftext];
    lazymatch type of H with
    | named ?p _ _ => rewrite (nd_path _ _ _ H), (append_assoc (base p)); f_equal; reflexivity
    end ].

Ltac visit8 :=
  first [ apply test_func8_other; reflexivity
        | apply test_func8_same; [reflexivity | intros n; vm_compute; reflexivity] ].

Ltac visit16 no_name H :=
  apply test_func16_ok; cbn [v_path v_level v_base]; rewrite (nd_path _ _ _ H);
  [ rewrite (after_base _ _ no_name); vm_compute; reflexivity
  | first [ etransitivity; [exact (nd_root _ _ _ H)|]
          | etransitivity; [exact (nd_base _ _ _ H _)|] ];
    match goal with |- _ = getbase (_ ++ ?r) =>
      change r with (String "/" (String.substring 1 (String.length r) r)) end;
    rewrite getbase_app by done; apply add_offset; vm_compute; reflexivity ].

(** The path of the working directory, from [get_cwd]. *)
Ltac run_getcwd :=
  unfold get_cwd;
  eapply sx_step;
  [ eapply sx_file_call; [apply getcwd_below; vm_compute; reflexivity | reflexivity] |];
  cbv beta; compute_step; apply sx_ret; cbn [f_text ftext]; rewrite append_nil_r; result.

(** A walk at the absolute path of a directory [d ++ c]. *)
Ltac run_abs_walk d c tac :=
  apply (sx_nftw_abs _ _ d c); [done | done |];
  let nm := fresh "nm" in
  let H := fresh "H" in
  intros nm H; eexists _, _; split; [vm_compute; reflexivity | split; [reflexivity|]];
  visits ltac:(idtac; tac H).

Ltac run_test6A :=
  unfold test6A; eapply sx_step; [run_getcwd|]; cbv beta zeta;
  eapply sx_step; [run_abs_walk "dir"%string "h"%char ltac:(fun H => visit5 H) | run_it].

Ltac run_test8A :=
  unfold test8A, walk_ok; eapply sx_step;
  [ eapply sx_nftw; [vm_compute; reflexivity | reflexivity | visits visit8] | run_it ].

Ltac run_test16A no_name :=
  unfold test16A; eapply sx_step; [run_getcwd|]; cbv beta;
  eapply sx_step;
  [ unfold walk16; eapply sx_step;
    [ run_abs_walk "dir"%string "g"%char ltac:(fun H => visit16 no_name H) | run_it ]
  | run_it ].

(** ** The program *)

Section Passes.
Variable p : params.
Context `{!FsParams p}.
Hypothesis no_name : strstr (base p) NFTW2 = None.
Variable ts : list entry -> Z.
Variable strerror : Z -> string.
Variable beyond : Z.
#[local] Existing Instance walk_ref.

(** The reports of a run without failures. *)
Definition block_passed (i : nat) : entry := Entry TPASS None "Test block %d" [Num (Z.of_nat i)].

Definition expected : list entry :=
  map block_passed (seq 0 30) ++ [Entry TPASS None "Test passed" []].

Lemma nftw01_runs :
  sx_dies (K := walk_kernel p ts) (main strerror beyond) globals0 n_init []
    (fun _ log => log = expected).
Proof.
  unfold main. do 2 (eapply sx_dies_step; [run_it | cbv beta]).
  eapply sx_dies_step.
  { unfold tests; cbn [run_blocks].
    do 5 compute_step. block_by run_test6A.
    compute_step. block_by run_test8A.
    do 7 compute_step. block_by ltac:(run_test16A no_name).
    do 14 compute_step. apply sx_ret. result. }
  cbv beta. eapply sx_dies_step; [run_it | cbv beta]. apply sx_dies_left. unfold anyfail.
  do 3 (eapply sx_dies_step; [run_it | cbv beta]). apply sx_dies_exit. vm_compute. reflexivity.
Qed.
End Passes.

(** C2: On every system that behaves as documented and reads a directory in the order in which
    its entries were made, with every choice of inode numbers, times and owner, and every
    temporary directory whose path does not contain /tmp/data (what test16A looks for in the
    paths it is given), nftw01 ends, and its reports are exactly one pass for each of the thirty
    blocks and the final one. *)
Theorem nftw01_passes {W} (K : Kernel ncall nreply W) (w0 : W) `{!WalkPlatform K w0}
    strerror beyond :
  strstr (base wk_params) NFTW2 = None ->
  inevitable (fun s => passed main_pid (log_is expected) s = true)
    (boot main_pid (main strerror beyond) globals0 w0).
Proof.
  intros no_name. apply (refines_run K (walk_kernel wk_params tst_status) w0 n_init _ _ _ wk_init).
  eapply sx_run; [exact (nftw01_runs wk_params no_name tst_status strerror beyond)|].
  intros w log ->. split; [reflexivity | by apply bool_decide_eq_true_2].
Qed.

Lemma nftw01_passes_witness :
  strstr (base plain_params) NFTW2 = None
  /\ inevitable (H := walk_kernel plain_params (fun _ => 0))
    (fun s => passed main_pid (log_is expected) s = true)
    (boot main_pid (main (fun _ => "error") 0) globals0 n_init).
Proof.
  split; [reflexivity|].
  exact (nftw01_passes (walk_kernel plain_params (fun _ => 0)) n_init (fun _ => "error"%string) 0 eq_refl).
Defined.
