(* ===== verification/NftwVerdicts.v ===== *)
(** * What the nftw tests report, on any system

    The verdict of test1A by the walk it was given; the buffers of lib.c; what the
    functions that look at types, offsets and descriptors accept. *)

From Stdlib Require Import Ascii.
From S2P Require Import Prelude Tst Process Prog Explore Checker Wp Alone FileSys Strings TreeWalk.
From S2P Require Import NftwLib NftwFuncs Nftw.

(** ** Buffers of lib.c *)

Lemma strlen_put_chars n c s : strlen (put_chars n c s) = strlen s + Z.of_nat n.
Proof.
  revert s. induction n as [|n IH]; intros s; cbn [put_chars]; [lia|].
  rewrite IH, strlen_app. change (strlen (String c "")) with 1. lia.
Qed.

Lemma strlen_long_file_name n : 0 <= n -> strlen (long_file_name n) = n + 7.
Proof.
  intros H. unfold long_file_name, put_until. rewrite strlen_put_chars.
  change (strlen tmp_path) with 5. change (strlen (tmp_path ++ "/")) with 6. lia.
Qed.

Lemma strlen_long_component_name n : 0 <= n -> strlen (long_component_name n) = n + 9.
Proof.
  intros H. unfold long_component_name, put_until. rewrite strlen_app, strlen_put_chars.
  change (strlen tmp_path) with 5. change (strlen (tmp_path ++ "/")) with 6.
  change (strlen "/F") with 2. lia.
Qed.

(** The loop of [test_ENAMETOOLONG_path] keeps count of the length, and stops between
    [limit] and six characters further. *)
Lemma add_tmp_paths_spec fuel limit path len path' len' :
  add_tmp_paths fuel limit path len = (path', len') ->
  len = strlen path -> limit <= len + Z.of_nat fuel ->
  len' = strlen path' /\ Z.max len limit <= len' <= Z.max len (limit + 5).
Proof.
  revert path len. induction fuel as [|fuel IH]; intros path len H Hl Hf; cbn [add_tmp_paths] in H.
  - simplify_eq. split; [done|lia].
  - destruct (Z.ltb_spec len limit) as [Hlt|Hge]; [|simplify_eq; split; [done|lia]].
    change (strlen tmp_path + 1) with 6 in H.
    apply IH in H as [H1 H2]; [split; [done|lia] | | lia].
    rewrite strlen_app. change (strlen ("/" ++ tmp_path)) with 6. lia.
Qed.

Lemma strlen_long_path P :
  let limit := size_t (P - 11) in
  exists len, Z.max 5 limit <= len <= Z.max 5 (limit + 5)
    /\ strlen (long_path P) = Z.max (len + 1) (P + 1).
Proof.
  cbv zeta. unfold long_path. change (strlen tmp_path + 1) with 6.
  replace (P - 6 - 5) with (P - 11) by lia. change (strlen tmp_path) with 5.
  assert (0 <= size_t (P - 11)) as H0.
  { pose proof (uwrap_range 64 (P - 11)). unfold size_t, to_uint64. lia. }
  destruct (add_tmp_paths _ _ _ _) as [path len] eqn:E.
  apply add_tmp_paths_spec in E as [Hlen Hr]; [|done|lia].
  exists len. split; [done|]. unfold add_zs. rewrite strlen_put_chars, strlen_app, <- Hlen.
  change (strlen "/") with 1. lia.
Qed.

(** C29: The path test_ENAMETOOLONG_path builds, with its final null character, fits in
    the [PATH_MAX + 2] bytes allocated for it exactly when the limit the system
    reports is at least 11 (below, the subtraction of 11 wraps around), and then it
    is one character longer than the limit. *)
Theorem long_path_fits P :
  0 <= P <= INT_MAX ->
  (strlen (long_path P) + 1 <= P + 2 <-> 11 <= P)
  /\ (11 <= P -> strlen (long_path P) = P + 1).
Proof.
  intros HP. unfold INT_MAX in HP. destruct (strlen_long_path P) as (len & Hlen & ->).
  destruct (Z.le_gt_cases 11 P) as [H|H].
  - assert (size_t (P - 11) = P - 11) as E
      by (unfold size_t, to_uint64; apply uwrap_small; simpl; lia).
    rewrite E in Hlen. lia.
  - assert (size_t (P - 11) = P - 11 + 2 ^ 64) as E.
    { unfold size_t, to_uint64, uwrap. symmetry. apply Z.mod_unique_pos with (-1); lia. }
    rewrite E in Hlen. lia.
Qed.

Lemma long_path_fits_witness :
  (0 <= 4096 <= INT_MAX)
  /\ ((strlen (long_path 4096) + 1 <= 4096 + 2 <-> 11 <= 4096)
      /\ (11 <= 4096 -> strlen (long_path 4096) = 4096 + 1)).
Proof. split; [unfold INT_MAX; lia | apply (long_path_fits 4096); unfold INT_MAX; lia]. Defined.

(** When get_long_name_buffer accepts the limits of the system, what
    test_long_component_name writes fits in the buffer; what test_long_file_name
    writes fits unless PATH_MAX is exactly NAME_MAX + 6, when its final null
    character is written behind the buffer. *)
Theorem name_buffers path_length name_length :
  0 <= name_length ->
  (strlen tmp_path + name_length + 3 <= path_length ->
   strlen (long_component_name name_length) + 1 <= path_length + 3)
  /\ (strlen tmp_path + name_length + 1 <= path_length ->
      (strlen (long_file_name name_length) + 1 <= path_length + 1
       <-> path_length <> name_length + 6)).
Proof.
  intros Hn. rewrite strlen_long_file_name, strlen_long_component_name by done.
  change (strlen tmp_path) with 5. lia.
Qed.

Lemma name_buffers_witness :
  0 <= 255 /\
  (strlen tmp_path + 255 + 3 <= 4096 -> strlen (long_component_name 255) + 1 <= 4096 + 3)
  /\ (strlen tmp_path + 255 + 1 <= 4096 ->
      (strlen (long_file_name 255) + 1 <= 4096 + 1 <-> 4096 <> 255 + 6)).
Proof. split; [lia | apply (name_buffers 4096 255); lia]. Defined.

(** ** A walk on any kernel *)

Section Verdicts.
Context {W : Type} {K : Kernel ncall nreply W} `{!Total K}.
Variable strerror : Z -> string.
Implicit Types (g : globals) (w : W) (log : list entry).

Lemma reports_syscall c : reports 0 (syscall c).
Proof.
  unfold syscall. eapply (reports_bind 0 0); [done | apply reports_call | intros r].
  eapply (reports_bind 0 0); [done | apply reports_modify | intros _; apply reports_ret].
Qed.

#[local] Hint Resolve reports_syscall : reports.

Lemma reports_fprintf fmt args : reports 0 (fprintf fmt args).
Proof. unfold fprintf, sys_. repeat reports_step. Qed.

Lemma reports_perror s : reports 0 (perror strerror s).
Proof.
  unfold perror. eapply (reports_bind 0 0); [done | apply reports_get|].
  intros g. apply reports_fprintf.
Qed.

Lemma reports_cleanup_function : reports 0 cleanup_function.
Proof. unfold cleanup_function, sys_. repeat reports_step. Qed.

#[local] Hint Resolve reports_fprintf reports_perror reports_cleanup_function : reports.

Definition test_failed : entry := Entry TFAIL None "Test failed" [].

(** The ways a test ends with a failure. *)
Definition failed_log (log : list entry) : W -> list entry -> Prop :=
  fun _ log' => log' = log ++ [test_failed].

Lemma dies_fail_exit g w log : sx_dies fail_exit g w log (failed_log log).
Proof.
  unfold fail_exit, tst_brkm. apply sx_dies_bind, sx_resm, sx_dies_bind, sx_ret, sx_dies_exit. done.
Qed.

Lemma dies_after {A B} (m : NM A) (f : A -> NM B) g w log Φ :
  reports 0 m -> (forall a g' w', sx_dies (f a) g' w' log Φ) -> sx_dies (m ≫= f) g w log Φ.
Proof. intros Hm Hf. apply sx_dies_bind. apply sx_quiet; [done|]. intros g' a w'. apply Hf. Qed.

Lemma dies_cleanup_and_fail g w log : sx_dies cleanup_and_fail g w log (failed_log log).
Proof. apply dies_after; [auto with reports | intros _ g' w'; apply dies_fail_exit]. Qed.

Lemma dies_error fmt args g w log :
  sx_dies (fprintf fmt args ;; cleanup_function ;; fail_exit) g w log (failed_log log).
Proof. apply dies_after; [auto with reports | intros _ g' w'; apply dies_cleanup_and_fail]. Qed.

Lemma dies_perror s g w log :
  sx_dies (perror strerror s ;; cleanup_function ;; fail_exit) g w log (failed_log log).
Proof. apply dies_after; [auto with reports | intros _ g' w'; apply dies_cleanup_and_fail]. Qed.

(** [if (b) { ... }], when the condition holds and when it does not. *)
Lemma dies_when_true {A} (m : NM unit) (f : unit -> NM A) g w log Φ :
  sx_dies m g w log Φ -> sx_dies (when true m ≫= f) g w log Φ.
Proof. apply sx_dies_left. Qed.

Lemma dies_when_not {A} (m : NM unit) (f : unit -> NM A) g w log Φ :
  sx_dies (f tt) g w log Φ -> sx_dies (when false m ≫= f) g w log Φ.
Proof. intros H. by apply sx_dies_bind, sx_ret. Qed.

Lemma sx_when_not {A} (m : NM unit) (f : unit -> NM A) g w log Φ :
  sx (f tt) g w log Φ -> sx (when false m ≫= f) g w log Φ.
Proof. intros H. by apply sx_bind, sx_ret. Qed.

(** ** Walks

    [walked pre r w vs x w']: after the answer [r] in world [w], nftw(3) calls its
    function for the files [vs], which returns 0 each time and changes the world by
    [pre]; then nftw(3) returns [x]. *)
Inductive walked (pre : ftw_call -> W -> W -> Prop) : nreply -> W -> list ftw_call -> Z -> W -> Prop :=
| walked_end r w : n_visit r = None -> walked pre r w [] (ret (n_file r)) w
| walked_file r w v w1 r' w2 vs x w3 :
    n_visit r = Some v -> pre v w w1 ->
    k_do main_pid (NReturn 0) w1 = Some (r', w2) ->
    walked pre r' w2 vs x w3 ->
    walked pre r w (v :: vs) x w3.

Lemma sx_syscall_any c g w log r w' (Φ : globals -> nreply -> W -> list entry -> Prop) :
  k_do main_pid c w = Some (r, w') -> (forall e, Φ (set_errno e g) r w' log) ->
  sx (syscall c) g w log Φ.
Proof.
  intros Hk HΦ. unfold syscall. apply sx_bind. eapply sx_call; [exact Hk|].
  apply sx_bind, sx_modify, sx_ret. case_match; [|apply HΦ].
  specialize (HΦ (c_errno g)). by destruct g.
Qed.

(** What the function keeps true of the globals: [I done g] after the files [done]. *)
Lemma sx_walked pre (fn : ftw_fn) (I : list ftw_call -> globals -> Prop) done vs r w x w' g log :
  (forall pref v rest g w w1 log, vs = pref ++ v :: rest -> I (done ++ pref) g -> pre v w w1 ->
     sx (fn v) g w log (fun g' a w' log' => a = 0 /\ w' = w1 /\ log' = log /\ I (done ++ pref ++ [v]) g')) ->
  (forall l e g, I l g -> I l (set_errno e g)) ->
  walked pre r w vs x w' -> I done g ->
  sx (while_ (nftw_next fn) r) g w log
    (fun g' a w2 log' => a = x /\ w2 = w' /\ log' = log /\ I (done ++ vs) g').
Proof.
  intros Hfn He Hw. revert g log done Hfn.
  induction Hw as [r w Hr | r w v w1 r' w2 vs x w3 Hv Hp Hk Hw IH]; intros g log done Hfn HI;
    apply sx_while; unfold nftw_next at 1.
  - rewrite Hr. apply sx_ret. by rewrite app_nil_r.
  - rewrite Hv. eapply sx_seq.
    { apply (Hfn [] v vs g w w1 log); [done | by rewrite app_nil_r | done]. }
    intros g1 a w1' log1 (-> & -> & -> & HI1). cbn [app] in HI1.
    apply sx_bind. eapply sx_syscall_any; [exact Hk|]. intros e. apply sx_ret.
    replace (done ++ v :: vs) with ((done ++ [v]) ++ vs) by by rewrite <- app_assoc.
    apply IH; [|by apply He].
    intros pref v' rest g' w' w1'' log' -> HI' Hp'.
    replace ((done ++ [v]) ++ pref ++ [v']) with (done ++ (v :: pref) ++ [v']) by by rewrite <- app_assoc.
    apply (Hfn (v :: pref) v' rest g' w' w1'' log'); [done | | done].
    by rewrite <- app_assoc in HI'.
Qed.
(** ** test1A *)

(** [test_func1] allocates memory. *)
Definition with_malloc (v : ftw_call) (w w' : W) : Prop :=
  exists r, k_do main_pid (NMalloc (strlen (v_path v) + 1)) w = Some (r, w') /\ ret (n_file r) <> 0.

Definition name_of (v : ftw_call) : string := short_name (v_path v).

Definition is_good (s : string) : bool := existsb (String.eqb s) goodlist.

Definition listed (l : list ftw_call) g : Prop :=
  visit g = Z.of_nat (length l) /\ length (dirlist g) = 100%nat
  /\ forall i v, l !! i = Some v -> dirlist g !! i = Some (Some (name_of v)).

Lemma listed_errno l e g : listed l g -> listed l (set_errno e g).
Proof. by destruct g. Qed.

Lemma test_func1_lists l v g w w1 log :
  Z.of_nat (length l) + 1 < NDIRLISTENTS -> listed l g -> with_malloc v w w1 ->
  sx (test_func1 strerror v) g w log
    (fun g' a w' log' => a = 0 /\ w' = w1 /\ log' = log /\ listed (l ++ [v]) g').
Proof.
  intros Hl Hg (r & Hk & Hr). unfold test_func1, sys. apply sx_bind, sx_bind.
  eapply sx_syscall_any; [exact Hk|]. intros e. apply sx_ret.
  apply sx_false; [by apply Z.eqb_neq|]. apply (listed_errno _ e) in Hg. generalize dependent (set_errno e g).
  clear g e. intros g (Hv & Hd & Hi). apply sx_bind, sx_modify, sx_bind, sx_get.
  cbn [visit set_visit set_dirlist]. rewrite Hv. apply sx_false; [apply Z.leb_gt; lia|]. apply sx_ret.
  repeat split; try done; unfold set_visit, set_dirlist, store; cbn [visit dirlist].
  - rewrite length_app. cbn. lia.
  - by rewrite length_insert.
  - intros i v' Hv'. rewrite Nat2Z.id. unfold NDIRLISTENTS in Hl.
    destruct (decide (i = length l)) as [->|Hne].
    + rewrite lookup_app_r, Nat.sub_diag in Hv' by lia. simplify_eq/=.
      apply list_lookup_insert_eq. lia.
    + rewrite list_lookup_insert_ne by done. apply Hi. apply lookup_lt_Some in Hv' as Hlt.
      rewrite length_app in Hlt. cbn in Hlt. by rewrite lookup_app_l in Hv' by lia.
Qed.

(** After [n] rounds of the first loop, the good names among the first [n] are gone. *)
Definition struck (n : nat) (l : list ftw_call) g : Prop :=
  visit g = Z.of_nat (length l) /\ length (dirlist g) = 100%nat
  /\ forall i v, l !! i = Some v ->
       dirlist g !! i = Some (if bool_decide (i < n)%nat && is_good (name_of v) then None
                              else Some (name_of v)).

Lemma dirlist_at_lookup g i o : dirlist g !! i = Some o -> dirlist_at g (Z.of_nat i) = o.
Proof. intros H. unfold dirlist_at. rewrite Nat2Z.id. by apply nth_lookup_Some. Qed.

Lemma strike_one n l g w log :
  (n < length l)%nat -> (length l < 100)%nat -> struck n l g ->
  sx (strike (Z.of_nat n)) g w log
    (fun g' _ w' log' => w' = w /\ log' = log /\ struck (S n) l g').
Proof.
  intros Hn Hl (Hv & Hd & Hi). unfold strike. apply sx_modify. split_and!; [done..|].
  destruct (lookup_lt_is_Some_2 l n Hn) as [v Hlv].
  rewrite (dirlist_at_lookup g n _ (Hi n v Hlv)), bool_decide_false by lia. cbn [andb].
  fold (is_good (name_of v)). destruct (is_good (name_of v)) eqn:Eg.
  - split_and!; unfold set_dirlist, store; cbn [visit dirlist]; [done | by rewrite length_insert |].
    intros i v' Hv'. rewrite Nat2Z.id. destruct (decide (i = n)) as [->|Hne].
    + rewrite list_lookup_insert_eq by lia. simplify_eq. by rewrite Eg, bool_decide_true by lia.
    + rewrite list_lookup_insert_ne by done. rewrite (Hi i v' Hv').
      by rewrite (bool_decide_ext (i < S n)%nat (i < n)%nat) by lia.
  - split_and!; [done | done |]. intros i v' Hv'. rewrite (Hi i v' Hv').
    destruct (decide (i = n)) as [->|Hne].
    + simplify_eq. by rewrite Eg, !andb_false_r.
    + by rewrite (bool_decide_ext (i < S n)%nat (i < n)%nat) by lia.
Qed.

Lemma strike_all l g w log :
  (length l < 100)%nat -> listed l g ->
  sx (for_from 0 (length l) strike) g w log
    (fun g' _ w' log' => w' = w /\ log' = log /\ struck (length l) l g').
Proof.
  intros Hl (Hv & Hd & Hi).
  pose (I := fun (i : Z) g' w' log' => w' = w /\ log' = log /\ struck (Z.to_nat i) l g').
  assert (sx (for_from 0 (length l) strike) g w log
    (fun g' _ w' log' => I (0 + Z.of_nat (length l)) g' w' log')) as H.
  2: { rewrite Z.add_0_l in H. unfold I in H. by rewrite Nat2Z.id in H. }
  apply (sx_for I).
  - intros i g1 w1 log1 Hr (-> & -> & Hs).
    destruct (Z_of_nat_complete i ltac:(lia)) as [k ->]. rewrite Nat2Z.id in Hs.
    eapply sx_mono; [|apply (strike_one k l); [lia | done | done]].
    intros g' _ w' log' (-> & -> & Hs'). unfold I. by replace (Z.to_nat (Z.of_nat k + 1)) with (S k) by lia.
  - split_and!; [done..|]. split_and!; [done | done |]. intros i v Hv'. rewrite (Hi i v Hv').
    by rewrite bool_decide_false by lia.
Qed.

Lemma report_left_verdict l n g w log :
  struck (length l) l g -> (n <= length l)%nat ->
  let rest := drop (length l - n) l in
  let run := for_from (Z.of_nat (length l - n)) n report_left in
  if forallb (fun v => is_good (name_of v)) rest
  then sx run g w log (fun _ _ w' log' => w' = w /\ log' = log)
  else sx_dies run g w log (failed_log log).
Proof.
  intros (_ & _ & Hi). induction n as [|n IH]; intros Hn rest run.
  { subst rest. rewrite Nat.sub_0_r, drop_all. cbn [forallb]. by apply sx_ret. }
  subst rest run. destruct (lookup_lt_is_Some_2 l (length l - S n)) as [v Hv]; [lia|].
  rewrite (drop_S _ _ _ Hv). replace (S (length l - S n)) with (length l - n)%nat by lia.
  specialize (IH ltac:(lia)). cbn zeta in IH. cbn [forallb for_from].
  replace (Z.of_nat (length l - S n) + 1) with (Z.of_nat (length l - n)) by lia.
  pose proof (dirlist_at_lookup g _ _ (Hi _ v Hv)) as Hat.
  rewrite bool_decide_true in Hat by lia. cbn [andb] in Hat.
  destruct (is_good (name_of v)) eqn:Eg; cbn [andb].
  - destruct (forallb _ _); [apply sx_bind | apply sx_dies_bind];
      unfold report_left at 1; apply sx_bind, sx_get; rewrite Hat; apply sx_ret; exact IH.
  - apply sx_dies_left. unfold report_left. apply sx_dies_bind, sx_get. rewrite Hat.
    apply dies_error.
Qed.

(** What [test1A] accepts. *)
Definition seven_good (vs : list ftw_call) : bool :=
  (Z.of_nat (length vs) =? ngoods) && forallb (fun v => is_good (name_of v)) vs.

Definition test1_ok (vs : list ftw_call) (x : Z) : bool :=
  negb (x =? -1) && negb (x =? 999) && seven_good vs.

Lemma check_dirlist_verdict vs g w log :
  listed vs g -> (length vs < 100)%nat ->
  if seven_good vs
  then sx check_dirlist g w log (fun _ _ w' log' => w' = w /\ log' = log)
  else sx_dies check_dirlist g w log (failed_log log).
Proof.
  intros Hl Hn. unfold seven_good. destruct Hl as (Hv & Hl). pose proof (conj Hv Hl) as Hlist.
  unfold check_dirlist.
  destruct (Z.eqb_spec (Z.of_nat (length vs)) ngoods) as [E|E]; cbn [andb].
  2: { apply sx_dies_bind, sx_get. rewrite Hv, (proj2 (Z.eqb_neq _ _) E). cbn [negb when].
       apply sx_dies_left. do 2 (apply dies_after; [auto with reports | intros _ ? ?]). apply dies_cleanup_and_fail. }
  pose proof (strike_all vs g w log Hn Hlist) as Hs.
  assert (forall g1, struck (length vs) vs g1 ->
    if forallb (fun v => is_good (name_of v)) vs
    then sx (for_from 0 (length vs) report_left) g1 w log (fun _ _ w' log' => w' = w /\ log' = log)
    else sx_dies (for_from 0 (length vs) report_left) g1 w log (failed_log log)) as Hr.
  { intros g1 H1. pose proof (report_left_verdict vs (length vs) g1 w log H1 ltac:(lia)) as H.
    cbn zeta in H. rewrite Nat.sub_diag in H. exact H. }
  destruct (forallb _ vs); [apply sx_bind | apply sx_dies_bind]; apply sx_get;
    rewrite Hv, (proj2 (Z.eqb_eq _ _) E), Nat2Z.id; cbn [negb];
    [apply sx_when_not, sx_bind | apply dies_when_not, sx_dies_bind];
    (eapply sx_mono; [|exact Hs]); intros g1 a w1 log1 (-> & -> & H1); by apply Hr.
Qed.

(** C3: On any system, when nftw(3) calls the function of test1A for the files [vs]
    and returns [x], the test goes on without a report if [x] is neither -1 nor 999,
    there are seven files and the name of each is in [goodlist]; otherwise it reports
    one failure and ends. *)
Theorem test1A_verdict g w log r w1 vs x w2 :
  k_do main_pid (NNftw "./tmp/data/dirh" MAX_FD 0) w = Some (r, w1) ->
  walked with_malloc r w1 vs x w2 ->
  Z.of_nat (length vs) < NDIRLISTENTS ->
  length (dirlist g) = 100%nat ->
  if test1_ok vs x
  then sx (test1A strerror) g w log (fun _ _ w' log' => w' = w2 /\ log' = log)
  else sx_dies (test1A strerror) g w log (fun _ log' => log' = log ++ [test_failed]).
Proof.
  intros Hk Hw Hn Hd.
  assert (sx (nftw "./tmp/data/dirh" (test_func1 strerror) MAX_FD 0) (set_visit 0 g) w log
            (fun g' a w' log' => a = x /\ w' = w2 /\ log' = log /\ listed vs g')) as Hwalk.
  { unfold nftw. apply sx_bind. eapply sx_syscall_any; [exact Hk|]. intros e.
    apply (sx_walked with_malloc _ listed [] vs r w1 x w2); [|by apply listed_errno | done | by destruct g].
    intros pref v rest g1 v1 v2 log1 -> H1 H2. apply test_func1_lists; [|done|done].
    rewrite length_app in Hn. cbn in Hn. cbn [app]. lia. }
  unfold NDIRLISTENTS in Hn. unfold test1_ok.
  assert (forall Φ, (forall g', listed vs g' ->
      sx_dies (perror_when strerror (x =? -1) "ERROR: nftw failed" ;;
               fail_when (x =? 999) ;; check_dirlist) g' w2 log Φ) ->
    sx_dies (test1A strerror) g w log Φ) as Hdies.
  { intros Φ H. apply sx_dies_bind, sx_modify, sx_dies_bind. eapply sx_mono; [|exact Hwalk].
    intros g' a w' log' (-> & -> & -> & Hl). by apply H. }
  destruct (Z.eqb_spec x (-1)) as [->|H1]; cbn [negb andb].
  { apply Hdies. intros g' _. apply dies_when_true, dies_perror. }
  apply Z.eqb_neq in H1. destruct (Z.eqb_spec x 999) as [->|H2]; cbn [negb andb].
  { apply Hdies. intros g' _. apply dies_when_not, dies_when_true, dies_cleanup_and_fail. }
  apply Z.eqb_neq in H2.
  assert (forall g', listed vs g' ->
    if seven_good vs
    then sx check_dirlist g' w2 log (fun _ _ w' log' => w' = w2 /\ log' = log)
    else sx_dies check_dirlist g' w2 log (failed_log log)) as Hc
    by (intros g' Hl; apply check_dirlist_verdict; [done|lia]).
  destruct (seven_good vs).
  - apply sx_bind, sx_modify, sx_bind. eapply sx_mono; [|exact Hwalk].
    intros g' a w' log' (-> & -> & -> & Hl). unfold perror_when, fail_when. rewrite H1, H2.
    by apply sx_when_not, sx_when_not, Hc.
  - apply Hdies. intros g' Hl.
    by apply dies_when_not, dies_when_not, Hc.
Qed.
End Verdicts.

(** A system whose nftw(3) calls the function [n] times for the same file. *)
Definition repeat_do (n : nat) (v : ftw_call) (c : ncall) (k : nat) : option (nreply * nat) :=
  match c with
  | NNftw _ _ _ => Some (NReply (fok 0) (Some v), n)
  | NReturn _ =>
      match k with
      | S (S k) => Some (NReply (fok 0) (Some v), S k)
      | _ => Some (answer (fok 0), O)
      end
  | NMalloc _ => Some (answer (fok 1), k)
  | _ => Some (answer (fok 0), k)
  end.

Definition repeat_kernel n v : Kernel ncall nreply nat := {|
  k_do := fun _ => repeat_do n v;
  k_fork := fun _ _ w => w;
  k_exit := fun _ w => w;
  tst_status := fun _ => 0
|}.

#[export] Instance repeat_total n v : Total (repeat_kernel n v).
Proof. intros pid c k. destruct c; try done. by destruct k as [|[|k]]. Qed.

(** The same file seven times: accepted. *)
Definition dirh_call : ftw_call := FtwCall "./tmp/data/dirh" stat0 FTW_D 11 0.

Lemma test1A_verdict_witness :
  test1_ok (replicate 7 dirh_call) 0 = true /\
  sx (K := repeat_kernel 7 dirh_call) (test1A (fun _ => "")) globals0 O []
    (fun _ _ w' log' => w' = O /\ log' = []).
Proof.
  split; [reflexivity|].
  apply (test1A_verdict (K := repeat_kernel 7 dirh_call) (fun _ => "") globals0 O []
           (NReply (fok 0) (Some dirh_call)) 7%nat (replicate 7 dirh_call) 0 O);
    [reflexivity | | reflexivity | reflexivity].
  do 7 (eapply walked_file;
        [reflexivity | eexists; split; [reflexivity | discriminate] | reflexivity |]).
  apply (walked_end (K := repeat_kernel 7 dirh_call) with_malloc (answer (fok 0)) O). reflexivity.
Defined.
