(* ===== verification/NftwChecks.v ===== *)
(** * The nftw tests: what their functions accept, on any system

    The type checks of test9A to test14A, the descriptors of test22A, the offset of
    test16A, the error of test28A to test30A. *)

From Stdlib Require Import Ascii.
From S2P Require Import Prelude Tst Process Prog Explore Checker Wp Alone FileSys Strings TreeWalk.
From S2P Require Import NftwLib NftwFuncs Nftw NftwPaths NftwVerdicts.

(** ** The offset of a name *)

(** For a path in a directory, [getbase] is the offset of the file name, one more
    than the length of the name of the directory, except in the root directory, where
    it is 0 and test16A would reject the right answer of nftw(3), 1. *)
Theorem getbase_spec d name :
  getlev name = 0 ->
  getbase (d ++ String "/" name) = (if String.eqb d "" then 0 else strlen d + 1).
Proof.
  intros Hn. destruct (String.eqb_spec d "") as [->|Hd].
  - change ("" ++ String "/" name)%string with (String "/" name). unfold getbase. cbn [last_slash].
    rewrite Ascii.eqb_refl. by rewrite last_slash_name.
  - rewrite getbase_app by done. cbn [last_slash]. rewrite Ascii.eqb_refl, last_slash_name by done. lia.
Qed.

Lemma getbase_spec_witness :
  getlev "tmp" = 0 /\ getbase "/tmp" = 0.
Proof. split; [reflexivity | apply (getbase_spec "" "tmp"); reflexivity]. Defined.

Section Checks.
Context {W : Type} {K : Kernel ncall nreply W} `{!Total K}.
Variable strerror : Z -> string.
Variable beyond : Z.
Implicit Types (g : globals) (w : W) (log : list entry).

#[local] Hint Resolve reports_syscall reports_fprintf reports_perror reports_cleanup_function : reports.

Lemma sx_answer c g w log r w' (Φ : globals -> Z -> W -> list entry -> Prop) :
  k_do main_pid c w = Some (r, w') ->
  (forall e, (errno (n_file r) <> 0 -> e = errno (n_file r)) ->
     (errno (n_file r) = 0 -> e = c_errno g) ->
     Φ (set_errno e g) (ret (n_file r)) w' log) ->
  sx (sys c) g w log Φ.
Proof.
  intros Hk HΦ. unfold sys, syscall. apply sx_bind, sx_bind. eapply sx_call; [exact Hk|].
  apply sx_bind, sx_modify. destruct (Z.eqb_spec (errno (n_file r)) 0) as [E|E]; do 2 apply sx_ret.
  - specialize (HΦ (c_errno g)). replace g with (set_errno (c_errno g) g) by by destruct g. by apply HΦ.
  - by apply HΦ.
Qed.

(** ** Types *)

(** The entry of [badlist] for a file gives another type than [t], which nftw(3)
    passed. *)
Definition mislabels (t : Z) (v : ftw_call) (b : list_) : bool :=
  String.eqb (short_name (v_path v)) (l_s b) && (v_flag v =? t) && negb (v_flag v =? l_i b).

Lemma check_entries t bad_arg v n : forall start g w log,
  (forall b, reports 0 (bad_arg v b)) ->
  (start + n = length (badlist g))%nat ->
  sx (for_sum (Z.of_nat start) n (fun i _ => check_entry t bad_arg v i) tt) g w log
    (fun g' r w' log' => log' = log
       /\ if existsb (mislabels t v) (drop start (badlist g)) then r = inr 999
          else r = inl tt /\ g' = g /\ w' = w).
Proof.
  intros start g w log Hb. revert start. induction n as [|n IH]; intros start Hn; cbn [for_sum].
  { rewrite drop_ge by lia. apply sx_ret. done. }
  destruct (lookup_lt_is_Some_2 (badlist g) start) as [b Hlb]; [lia|].
  rewrite (drop_S _ _ _ Hlb). cbn [existsb].
  apply sx_bind. unfold check_entry. apply sx_bind, sx_get.
  rewrite Nat2Z.id, (nth_lookup_Some _ _ _ _ Hlb). fold (mislabels t v b).
  destruct (mislabels t v b); cbn [orb].
  - apply sx_bind, sx_quiet; [apply Hb|]. intros g1 _ w1. by do 2 apply sx_ret.
  - apply sx_ret. replace (Z.of_nat start + 1) with (Z.of_nat (S start)) by lia. apply IH. lia.
Qed.

Lemma reports_bad_arg3 s v b : reports 0 (bad_arg3 s v b).
Proof. unfold bad_arg3. repeat reports_step. Qed.

Lemma reports_bad_arg1 v b : reports 0 (bad_arg1 v b).
Proof. unfold bad_arg1. repeat reports_step. Qed.

Definition type_checks : list (Z * ftw_fn) :=
  [(FTW_F, test_func9); (FTW_D, test_func10); (FTW_DP, test_func11); (FTW_SL, test_func12);
   (FTW_SLN, test_func13); (FTW_DNR, test_func14)].

Lemma check_type_verdict t bad_arg v g w log :
  (forall b, reports 0 (bad_arg v b)) -> length (badlist g) = Z.to_nat nbads ->
  sx (check_type t bad_arg v) g w log (fun g' a w' log' => log' = log
    /\ if existsb (mislabels t v) (badlist g) then a = 999 else a = 0 /\ g' = g /\ w' = w).
Proof.
  intros Hb Hl. unfold check_type, do_info. apply sx_bind, sx_ret, sx_bind.
  eapply sx_mono; [|apply (check_entries t bad_arg v (Z.to_nat nbads) 0 g w log Hb (eq_sym Hl))].
  cbn beta. rewrite drop_0. intros g' r w' log' [-> H].
  destruct (existsb _ _); [subst r | destruct H as (-> & -> & ->)]; by apply sx_ret.
Qed.

(** C28: On any system, each of the functions of test9A to test14A, which look for one
    type, returns 999 for a file that nftw(3) passes with that type and [badlist] lists
    with another, and 0 without a trace for every other: a file of that type that
    nftw(3) passes with a wrong type is accepted. *)
Theorem type_checks_verdict t fn v g w log :
  In (t, fn) type_checks ->
  length (badlist g) = Z.to_nat nbads ->
  sx (fn v) g w log (fun g' a w' log' => log' = log
    /\ if existsb (mislabels t v) (badlist g) then a = 999 else a = 0 /\ g' = g /\ w' = w).
Proof.
  intros Hin Hl. cbn [In type_checks] in Hin.
  repeat destruct Hin as [[= <- <-]|Hin]; try done;
    apply check_type_verdict; auto using reports_bad_arg3, reports_bad_arg1.
Qed.

(** Test14A cannot fail once nftw(3) walks ./tmp/data/d333 and returns: whatever
    types it passes for the files it visits, for a directory that cannot be read or
    for what that directory contains, none of them is in [badlist]. *)
Theorem test14A_accepts g w log r w1 vs w2 :
  map l_s (badlist g) = map l_s badlist0 ->
  k_do main_pid (NNftw "./tmp/data/d333" MAX_FD 0) w = Some (r, w1) ->
  walked (fun _ w w' => w' = w) r w1 vs 0 w2 ->
  Forall (fun v => exists rest, v_path v = ("./tmp/data/d333" ++ rest)%string) vs ->
  sx (test14A strerror) g w log (fun g' _ w' log' => badlist g' = badlist g /\ w' = w2 /\ log' = log).
Proof.
  intros Hg Hk Hw Hv. unfold test14A, walk_ok, nftw. apply sx_bind, sx_bind.
  eapply sx_syscall_any; [exact Hk|]. intros e. eapply sx_mono.
  2: { apply (sx_walked (fun _ w w' => w' = w) _ (fun _ g' => badlist g' = badlist g) [] vs r w1 0 w2);
         [| by intros l e' [] | done | by destruct g].
       intros pref v rest g1 v1 v2 log1 -> H1 ->.
       apply Forall_app in Hv as [_ [[rest' Hp] _]%Forall_cons].
       eapply sx_mono; [|apply check_type_verdict; [apply reports_bad_arg3 |]].
       - cbn beta. intros g' a w' log' [-> H].
         replace (existsb _ (badlist g1)) with false in H; [naive_solver|].
         symmetry. apply not_true_iff_false. rewrite existsb_exists. intros (b & Hb & Hm).
         unfold mislabels in Hm. rewrite Hp in Hm.
         change ("./tmp/data/d333" ++ rest')%string with (NFTW ++ ("/d333" ++ rest'))%string in Hm.
         rewrite short_name_below in Hm. apply andb_true_iff in Hm as [[Hm _]%andb_true_iff _].
         apply String.eqb_eq in Hm. apply (in_map l_s) in Hb. rewrite <- Hm, H1, Hg in Hb.
         cbn in Hb. naive_solver.
       - rewrite H1, <- (length_map l_s), Hg. reflexivity. }
  cbn beta. intros g' a w' log' (-> & -> & -> & H). apply sx_when_not. by apply sx_ret.
Qed.

(** ** Descriptors *)

(** [test_func22] opens and closes the file. *)
Definition opened (v : ftw_call) (fd : Z) w w2 : Prop :=
  exists r1 w1 r2,
    k_do main_pid (NFile (FOpen (Some (v_path v)) O_RDONLY 0)) w = Some (r1, w1)
    /\ ret (n_file r1) = fd /\ fd <> -1
    /\ k_do main_pid (NFile (FClose fd)) w1 = Some (r2, w2) /\ ret (n_file r2) <> -1.

Lemma next_descriptor_opened v fd g w w2 log :
  opened v fd w w2 ->
  sx (next_descriptor strerror (v_path v)) g w log
    (fun g' r w' log' => r = inl fd /\ w' = w2 /\ log' = log /\ next_fd g' = next_fd g).
Proof.
  intros (r1 & w1 & r2 & H1 & Hfd & Hne & H2 & Hr). unfold next_descriptor, fsys.
  apply sx_bind. eapply sx_answer; [exact H1|]. intros e _ _. rewrite Hfd.
  apply sx_false; [by apply Z.eqb_neq|]. apply sx_bind. eapply sx_answer; [exact H2|]. intros e' _ _.
  apply sx_false; [by apply Z.eqb_neq|]. apply sx_ret. by destruct g.
Qed.

(** On any system, test_func22 accepts a file at level [l] exactly when the next
    descriptor is one of the first [l + 2] remembered by test22A.  There are four: for
    a file at level 3, which ./tmp/data/dirh has, it compares with what lies behind
    them. *)
Theorem test_func22_verdict v fd n0 n1 n2 n3 g w w2 log :
  opened v fd w w2 -> next_fd g = [n0; n1; n2; n3] -> 0 <= v_level v <= 3 ->
  sx (test_func22 strerror beyond v) g w log (fun _ a w' log' => log' = log
    /\ if existsb (Z.eqb fd) (take (Z.to_nat (v_level v + 2)) [n0; n1; n2; n3; beyond])
       then a = 0 /\ w' = w2 else a = 999).
Proof.
  intros Ho Hn Hl. unfold test_func22, do_info. apply sx_bind, sx_ret.
  eapply sx_seq; [by apply next_descriptor_opened|]. intros g1 r w1 log1 (-> & -> & -> & Hg).
  apply sx_bind, sx_get. rewrite Hn in Hg.
  replace (existsb _ (seq 0 _))
    with (existsb (Z.eqb fd) (take (Z.to_nat (v_level v + 2)) [n0; n1; n2; n3; beyond])).
  - destruct (existsb _ _); [by apply sx_ret|]. unfold bad.
    apply sx_bind, sx_quiet; [apply reports_fprintf|]. intros g2 _ w3.
    apply sx_bind, sx_quiet; [apply reports_fprintf|]. intros g3 _ w4. by apply sx_ret.
  - unfold next_fd_at. rewrite Hg.
    assert (v_level v = 0 \/ v_level v = 1 \/ v_level v = 2 \/ v_level v = 3) as H by lia.
    by destruct H as [-> | [-> | [-> | ->]]].
Qed.

(** ** Errors *)

(** The answer [r] says that a call failed with [e], without a visit. *)
Definition fails_at_once (e : Z) (r : nreply) : Prop :=
  n_visit r = None /\ ret (n_file r) = -1 /\ errno (n_file r) = e /\ e <> 0.

(** The calls of test29A: the mode of ./tmp/data/d333 is changed, ./tmp/is_a_file is
    created, nftw(3) fails with [e] for a path below it. *)
Definition not_a_dir (mode e : Z) w w4 : Prop :=
  exists r0 w1 r1 w2 r2 w3 r3,
    k_do main_pid (NFile (FChmod (Some "./tmp/data/d333") mode)) w = Some (r0, w1)
    /\ ret (n_file r0) <> -1
    /\ k_do main_pid (NFile (FOpen (Some is_a_file) (Z.lor O_CREAT (Z.lor O_WRONLY O_TRUNC))
                              (modes [S_IRWXU; S_IRWXG; S_IRWXO]))) w1 = Some (r1, w2)
    /\ ret (n_file r1) <> -1
    /\ k_do main_pid (NFile (FClose (ret (n_file r1)))) w2 = Some (r2, w3)
    /\ ret (n_file r2) <> -1
    /\ k_do main_pid (NNftw "./tmp/is_a_file/no_file" 10 FTW_MOUNT) w3 = Some (r3, w4)
    /\ fails_at_once e r3.

Lemma dies_lib_fails fmt args g w log :
  sx_dies (lib_fails fmt args) g w log
    (fun _ log' => log' = log ++ [Entry TFAIL None fmt args; test_failed]).
Proof.
  unfold lib_fails. apply sx_dies_bind, sx_resm.
  eapply sx_dies_mono; [|apply dies_cleanup_and_fail]. intros w' log' ->. by rewrite <- app_assoc.
Qed.

Lemma sx_callback path g w log r w' e :
  k_do main_pid (NNftw path 10 FTW_MOUNT) w = Some (r, w') -> fails_at_once e r ->
  sx (run_callback callback path) g w log
    (exactly (set_s2 (-1) (set_errno e g)) tt w' log).
Proof.
  intros Hk (Hv & Hr & He & Hne). unfold run_callback, callback, nftw.
  apply sx_bind, sx_bind. unfold syscall. apply sx_bind. eapply sx_call; [exact Hk|].
  apply sx_bind, sx_modify, sx_ret. rewrite He, (proj2 (Z.eqb_neq _ _) Hne).
  apply sx_while. unfold nftw_next. rewrite Hv. apply sx_ret, sx_modify. by rewrite Hr.
Qed.

Definition ENOTDIR_failure (e : Z) : entry :=
  Entry TFAIL None "%s failed: errno should be %i but is %i" [Str "nftw"; Num ENOTDIR; Num e].

Definition eacces_tests : list (Z * NM unit) :=
  [(S_IRUSR, test29A strerror); (S_IXUSR, test30A strerror)].

(** On any system, when the other calls of test29A or test30A succeed and nftw(3)
    fails with the error [e], the test is content exactly when [e] is ENOTDIR; it
    rejects EACCES, the error it is meant for. *)
Theorem eacces_tests_verdict mode test e g w w4 log :
  In (mode, test) eacces_tests ->
  not_a_dir mode e w w4 ->
  if e =? ENOTDIR
  then sx test g w log (fun _ _ _ log' => log' = log)
  else sx_dies test g w log (fun _ log' => log' = log ++ [ENOTDIR_failure e; test_failed]).
Proof.
  intros Hin (r0 & w1 & r1 & w2 & r2 & w3 & r3 & H0 & N0 & H1 & N1 & H2 & N2 & H3 & Hf).
  assert (test = (chmod_d333 strerror mode ;; test_ENOTDIR strerror "nftw" callback (-1))) as ->.
  { cbn [In eacces_tests] in Hin. by repeat destruct Hin as [[= <- <-]|Hin]. }
  apply Z.eqb_neq in N0, N1, N2.
  assert (sx (chmod_d333 strerror mode) g w log (fun _ _ w' log' => w' = w1 /\ log' = log)) as Hc.
  { unfold chmod_d333, fsys. apply sx_bind. eapply sx_answer; [exact H0|]. intros e' _ _.
    unfold perror_when. rewrite N0. by apply sx_ret. }
  assert (forall g, sx (create_a_file strerror) g w1 log (fun _ _ w' log' => w' = w3 /\ log' = log)) as Hf1.
  { clear g Hc. intros g. unfold create_a_file, fsys.
    apply sx_bind. eapply sx_answer; [exact H1|]. intros e1 _ _. apply sx_bind, sx_get. rewrite N1.
    apply sx_when_not, sx_bind. eapply sx_answer; [exact H2|]. intros e2 _ _. apply sx_bind, sx_get.
    rewrite N2. by apply sx_ret. }
  pose proof (fun g => sx_callback _ g _ log _ _ _ H3 Hf) as Hcall.
  destruct (Z.eqb_spec e ENOTDIR) as [->|He].
  - apply sx_bind. eapply sx_mono; [|exact Hc]. intros g1 _ w' log' [-> ->].
    apply sx_bind. eapply sx_mono; [|apply Hf1]. intros g2 _ w' log' [-> ->].
    apply sx_bind, sx_modify. eapply sx_step; [apply Hcall|].
    apply sx_bind, sx_get, sx_when_not, sx_bind. unfold check_result. apply sx_bind, sx_get, sx_ret.
    apply sx_quiet; [|done]. unfold remove_test_ENOTDIR_files, sys_. repeat reports_step.
  - apply sx_dies_bind. eapply sx_mono; [|exact Hc]. intros g1 _ w' log' [-> ->].
    apply sx_dies_bind. eapply sx_mono; [|apply Hf1]. intros g2 _ w' log' [-> ->].
    apply sx_dies_bind, sx_modify. eapply sx_dies_step; [apply Hcall|].
    apply sx_dies_bind, sx_get. cbn [s2 set_s2]. apply dies_when_not, sx_dies_left.
    unfold check_result. apply sx_dies_bind, sx_get. cbn [s2 set_s2 c_errno set_errno].
    rewrite (proj2 (Z.eqb_neq _ _) He). apply dies_lib_fails.
Qed.
End Checks.

(** ** Witnesses *)

(** A symbolic link that is passed with type FTW_F. *)
Lemma type_checks_verdict_witness :
  sx (K := repeat_kernel 0 dirh_call)
    (test_func9 (FtwCall "./tmp/data/dirg/symlink" stat0 FTW_F 16 1)) globals0 O []
    (fun g' a w' log' => log' = [] /\ a = 999).
Proof.
  apply (type_checks_verdict (K := repeat_kernel 0 dirh_call) FTW_F test_func9
           (FtwCall "./tmp/data/dirg/symlink" stat0 FTW_F 16 1) globals0 O []);
    [by left | reflexivity].
Defined.

(** Two calls for d333 as a directory that can be read. *)
Definition d333_call : ftw_call := FtwCall "./tmp/data/d333" stat0 FTW_D 11 0.

Lemma test14A_accepts_witness :
  sx (K := repeat_kernel 2 d333_call) (test14A (fun _ => "")) globals0 O []
    (fun g' _ w' log' => badlist g' = badlist0 /\ w' = O /\ log' = []).
Proof.
  apply (test14A_accepts (K := repeat_kernel 2 d333_call) (fun _ => "") globals0 O []
           (NReply (fok 0) (Some d333_call)) 2%nat [d333_call; d333_call] O);
    [reflexivity | reflexivity | |].
  - do 2 (eapply walked_file; [reflexivity | reflexivity | reflexivity |]).
    apply (walked_end (K := repeat_kernel 2 d333_call) _ (answer (fok 0)) O). reflexivity.
  - do 2 (constructor; [by exists ""%string|]). constructor.
Defined.

(** A file at level 3 whose descriptor is the value behind the array: accepted. *)
Lemma test_func22_verdict_witness :
  sx (K := repeat_kernel 0 dirh_call)
    (test_func22 (fun _ => "") 0 (FtwCall "./tmp/data/dirh" stat0 FTW_D 11 3))
    (set_next_fd [3; 4; 5; 6] globals0) O [] (fun _ a w' log' => log' = [] /\ a = 0 /\ w' = O).
Proof.
  apply (test_func22_verdict (K := repeat_kernel 0 dirh_call) (fun _ => "") 0
           (FtwCall "./tmp/data/dirh" stat0 FTW_D 11 3) 0 3 4 5 6
           (set_next_fd [3; 4; 5; 6] globals0) O O []);
    [| reflexivity | cbn [v_level]; lia].
  by exists (answer (fok 0)), O, (answer (fok 0)).
Defined.

(** A system whose nftw(3) fails with EACCES. *)
Definition eacces_kernel : Kernel ncall nreply unit := {|
  k_do := fun _ c w => Some (match c with NNftw _ _ _ => answer (ffails EACCES) | _ => answer (fok 0) end, w);
  k_fork := fun _ _ w => w;
  k_exit := fun _ w => w;
  tst_status := fun _ => 0
|}.

#[export] Instance eacces_total : Total eacces_kernel.
Proof. intros pid c w. done. Qed.

Lemma eacces_tests_verdict_witness :
  sx_dies (K := eacces_kernel) (test29A (fun _ => "")) globals0 tt []
    (fun _ log' => log' = [ENOTDIR_failure EACCES; test_failed]).
Proof.
  apply (eacces_tests_verdict (K := eacces_kernel) (fun _ => "") S_IRUSR (test29A (fun _ => ""))
           EACCES globals0 tt tt []); [by left|].
  by exists (answer (fok 0)), tt, (answer (fok 0)), tt, (answer (fok 0)), tt, (answer (ffails EACCES)).
Defined.
