(* ===== verification/Signals.v ===== *)
(** * Signals that are held: the documented behaviour of sighold(3) and kill(2)

    The calls sigrelse01.c makes and a reference platform [signal_kernel] that
    answers them as signal(7), sighold(3) and kill(2) document.  The theorems about
    the test are stated for every platform that refines it.

    A signal that is sent to a process is pending until the process takes it.  It is
    taken when the process has a handler for it and does not hold it.  Signals
    below 32 do not queue.  A process takes signals at its own calls: the answer
    holds the signals whose handlers run before the call returns ([s_taken]), in the
    order in which they run.  What happens to a signal without a handler is not
    part of the model, and alarms do not expire: a handler for SIGALRM is
    accepted and forgotten.  The clock of time(2) advances by a second at each
    call. *)

From S2P Require Import Prelude Tst Process Explore.

Definition SIGKILL : Z := 9.
Definition SIGALRM : Z := 14.
Definition SIGTERM : Z := 15.
Definition SIGCONT : Z := 18.
Definition SIGSTOP : Z := 19.
Definition SIGTSTP : Z := 20.
Definition SIGTTIN : Z := 21.
Definition SIGTTOU : Z := 22.
Definition SIGRTMIN : Z := 32.
Definition ESRCH : Z := 3.

Inductive scall :=
| SSignal (sig : Z)            (* a handler of the program for [sig] *)
| SSighold (sig : Z)
| SSigrelse (sig : Z)
| SAlarm (n : Z)
| STime
| SKill (pid sig : Z)
| SMisc (name : string).

Record sreply := SReply { s_ret : Z; s_errno : Z; s_taken : list Z }.

#[export] Instance sreply_eq_dec : EqDecision sreply.
Proof. solve_decision. Defined.

(** The signals of a process: those with a handler, those it holds, and those sent
    and not yet taken. *)
Record sigs := Sigs { g_caught : list Z; g_held : list Z; g_pending : list Z }.

#[export] Instance sigs_eq_dec : EqDecision sigs.
Proof. solve_decision. Defined.

Definition no_sigs : sigs := Sigs [] [] [].

Record sstate := SState { ss_procs : gmap Z sigs; ss_clock : Z }.

#[export] Instance sstate_eq_dec : EqDecision sstate.
Proof. solve_decision. Defined.

Definition ss_init : sstate := SState ∅ 0.

Definition memz (x : Z) (l : list Z) : bool := existsb (Z.eqb x) l.

Definition add (x : Z) (l : list Z) : list Z := if memz x l then l else x :: l.

Definition without (x : Z) (l : list Z) : list Z := List.filter (fun y => negb (y =? x)) l.

Definition sigs_of (pid : Z) (w : sstate) : sigs := default no_sigs (ss_procs w !! pid).

Definition set_sigs (pid : Z) (s : sigs) (w : sstate) : sstate :=
  SState (<[pid := s]> (ss_procs w)) (ss_clock w).

Definition catch (sig : Z) (s : sigs) : sigs := Sigs (add sig (g_caught s)) (g_held s) (g_pending s).

Definition hold (sig : Z) (s : sigs) : sigs := Sigs (g_caught s) (add sig (g_held s)) (g_pending s).

Definition release (sig : Z) (s : sigs) : sigs :=
  Sigs (g_caught s) (without sig (g_held s)) (g_pending s).

(** [kill]: one of the signals that do not queue is pending at most once. *)
Definition send (sig : Z) (s : sigs) : sigs :=
  if memz sig (g_pending s) && (sig <? SIGRTMIN) then s
  else Sigs (g_caught s) (g_held s) (g_pending s ++ [sig]).

Definition takes (s : sigs) (sig : Z) : bool := memz sig (g_caught s) && negb (memz sig (g_held s)).

(** The end of a call that answers [r] and leaves [s]: signals are taken. *)
Definition taking (pid r : Z) (s : sigs) (w : sstate) : option (sreply * sstate) :=
  Some (SReply r 0 (List.filter (takes s) (g_pending s)),
        set_sigs pid (Sigs (g_caught s) (g_held s) (List.filter (fun x => negb (takes s x)) (g_pending s))) w).

Definition tick (w : sstate) : sstate := SState (ss_procs w) (ss_clock w + 1).

(** The calls of process [pid]; [hold] is what [sighold] does, [release] what [sigrelse]
    does. *)
Definition s_do (hold release : Z -> sigs -> sigs) (pid : Z) (c : scall) (w : sstate)
  : option (sreply * sstate) :=
  let s := sigs_of pid w in
  match c with
  | SSignal sig =>
      if sig =? SIGALRM then Some (SReply 0 0 [], w) else taking pid 0 (catch sig s) w
  | SSighold sig => taking pid 0 (hold sig s) w
  | SSigrelse sig => taking pid 0 (release sig s) w
  | SAlarm _ | SMisc _ => Some (SReply 0 0 [], w)
  | STime => taking pid (ss_clock w) s (tick w)
  | SKill target sig => Some (SReply 0 0 [], set_sigs target (send sig (sigs_of target w)) w)
  end.

Definition kernel_with (hold release : Z -> sigs -> sigs) (ts : list entry -> Z) : Kernel scall sreply sstate := {|
  k_do := s_do hold release;
  k_fork := fun _ _ w => w;
  k_exit := fun _ w => w;
  tst_status := ts
|}.

Definition signal_kernel : (list entry -> Z) -> Kernel scall sreply sstate := kernel_with hold release.

(** Kernels with a bug: [sighold] holds nothing; [sigrelse] releases nothing. *)
Definition never_holds : (list entry -> Z) -> Kernel scall sreply sstate :=
  kernel_with (fun _ s => s) release.

Definition never_releases : (list entry -> Z) -> Kernel scall sreply sstate :=
  kernel_with hold (fun _ s => s).

(** The calls answered without looking at the world. *)
Definition s_local (c : scall) : option sreply :=
  match c with
  | SSignal sig => if sig =? SIGALRM then Some (SReply 0 0 []) else None
  | SAlarm _ | SMisc _ => Some (SReply 0 0 [])
  | _ => None
  end.

#[export] Instance signal_local hold release ts : LocalCalls (kernel_with hold release ts).
Proof.
  refine {| k_local := s_local : scall -> option sreply |}.
  intros pid c r w H. destruct c; cbn in *; repeat case_match; by simplify_eq.
Defined.

(** [K] behaves as documented; its worlds are whatever it likes. *)
Class SignalPlatform {W} (K : Kernel scall sreply W) (w0 : W) := {
  sp_refines :: Refines K (signal_kernel (@tst_status _ _ _ K));
  sp_init : @rel _ _ _ _ K (signal_kernel (@tst_status _ _ _ K)) sp_refines w0 ss_init
}.

#[export] Instance signal_platform ts : SignalPlatform (signal_kernel ts) ss_init.
Proof. by refine {| sp_refines := refines_refl (signal_kernel ts) |}. Defined.
