(* ===== verification/Sigrelse01.v ===== *)
(** * sigrelse01.c: releasing held signals

    Model of [src/original tests/sigrelse/sigrelse01.c].  The child holds all signals
    under test and says so; the parent sends them all; the child releases them one
    by one, counts in its handler how often each arrives and sends the counts back.

    The pipes are 0 ([pipe_fd], to the parent) and 1 ([pipe_fd2], to the child).  A
    message stands for the 512 bytes of a transfer: its bytes up to the last one
    that means something.  The descriptors do not block and [read_pipe] tries again
    until there is data; here the process waits.  A handler runs at the end of the
    call whose answer names its signal ([s_taken]); the only handler of the parent is
    that of SIGALRM.  [strerror], [perrno] (what [errno] holds after a failed transfer)
    and [big_mesg] (what the array of that name happens to hold) are parameters.  Left
    out: the variants for UCLINUX and VAX, output under DEBUG and to stdout. *)

From Stdlib Require Import Ascii.
From S2P Require Import Prelude Tst Process Explore Prog Checker Wp Signals.

Definition NSIG : Z := 65.
Definition NUMSIGS : Z := NSIG.
Definition SIGCANCEL : Z := 32.
Definition SIGTIMER : Z := 33.
Definition READY : string := "ready".
Definition TIMEOUT : Z := 30.
Definition MAXMESG : Z := 512.

Definition TBROK_ : Z := 2.      (* TBROK of test.h *)
Definition EXIT_OK : Z := 0.
Definition SIG_CAUGHT : Z := 8.
Definition WRITE_BROK : Z := 16.
Definition HANDLE_ERR : Z := 32.

Definition CHILD_EXIT (val : Z) : Z := Z.land (Z.shiftr val 8) 255.
Definition CHILD_SIG (val : Z) : Z := Z.land val 255.

Definition pipe_fd : Z := 0.
Definition pipe_fd2 : Z := 1.

(** [handling] is the static variable [s] of [handler]. *)
Record globals := Globals {
  mesg : string;
  pid : Z;
  phase : Z;
  sig_caught : bool;
  sig_array : list Z;
  handling : Z
}.

#[export] Instance globals_eq_dec : EqDecision globals.
Proof. solve_decision. Defined.

Definition globals0 : globals := Globals "" 0 0 false (replicate (Z.to_nat NUMSIGS) 0) 0.

Definition set_mesg v g := Globals v (pid g) (phase g) (sig_caught g) (sig_array g) (handling g).
Definition set_pid v g := Globals (mesg g) v (phase g) (sig_caught g) (sig_array g) (handling g).
Definition set_phase v g := Globals (mesg g) (pid g) v (sig_caught g) (sig_array g) (handling g).
Definition set_sig_caught v g := Globals (mesg g) (pid g) (phase g) v (sig_array g) (handling g).
Definition set_sig_array v g := Globals (mesg g) (pid g) (phase g) (sig_caught g) v (handling g).
Definition set_handling v g := Globals (mesg g) (pid g) (phase g) (sig_caught g) (sig_array g) v.

Abbreviation P := (M scall sreply globals).

(** ** Bytes *)

(** A C string in memory, and the string that begins at an address. *)
Fixpoint c_string (s : string) : list Z :=
  match s with
  | EmptyString => [0]
  | String c s => Z.of_nat (nat_of_ascii c) :: c_string s
  end.

Fixpoint text_at (l : list Z) : string :=
  match l with
  | [] => EmptyString
  | b :: l => if b =? 0 then EmptyString else String (ascii_of_nat (Z.to_nat b)) (text_at l)
  end.

(** The bytes of an [int], least significant first. *)
Definition int_bytes (z : Z) : list Z :=
  [z mod 256; (z / 256) mod 256; (z / 65536) mod 256; (z / 16777216) mod 256].

Definition array_bytes (l : list Z) : list Z := concat (map int_bytes l).

Fixpoint ints_at (l : list Z) : list Z :=
  match l with
  | a :: b :: c :: d :: l => to_int (a + 256 * (b + 256 * (c + 256 * d))) :: ints_at l
  | _ => []
  end.

Section Sigrelse01.
Variable strerror : Z -> string.
Variable perrno : Z.
Variable big_mesg : string.

(** ** Signals *)

Definition choose_sig (sig : Z) : bool :=
  negb (memz sig [SIGKILL; SIGSTOP; SIGTSTP; SIGCONT; SIGALRM; SIGCANCEL; SIGTIMER; SIGTTIN; SIGTTOU]).

Definition timeout : P unit := mret tt.

(** [++array[sig]]. *)
Definition count (sig : Z) (l : list Z) : list Z := alter (Z.add 1) (Z.to_nat sig) l.

Definition handler (sig : Z) : P unit :=
  g ← get;
  if phase g =? 1 then exit SIG_CAUGHT
  else
    modify (set_handling (handling g + 1)) ;;
    g ← get;
    when (1 <? handling g) (exit HANDLE_ERR) ;;
    modify (fun g => set_sig_array (count sig (sig_array g)) g) ;;
    modify (set_sig_caught true) ;;
    modify (fun g => set_handling (handling g - 1) g).

(** The handlers of the signals that a call takes. *)
Fixpoint handle (l : list Z) : P unit :=
  match l with
  | [] => mret tt
  | sig :: l => (if sig =? SIGALRM then timeout else handler sig) ;; handle l
  end.

Definition sys (c : scall) : P sreply := r ← call c; handle (s_taken r) ;; mret r.

Definition sys_ (c : scall) : P unit := sys c ;; mret tt.

(** [sprintf(mesg, "<what> failed...")]. *)
Definition note_errno (what : string) (errno : Z) : P unit :=
  modify (set_mesg (what ++ " error:" ++ pretty errno ++ " " ++ strerror errno ++ ".")%string).

Definition signal (sig : Z) : P Z :=
  r ← sys (SSignal sig);
  if s_ret r =? -1 then
    note_errno ("signal() failed for signal " ++ pretty sig ++ ".")%string (s_errno r) ;; mret (-1)
  else mret 0.

Definition set_timeout : P Z :=
  r ← signal SIGALRM;
  if r <? 0 then mret (-1) else sys_ (SAlarm TIMEOUT) ;; mret 0.

Definition clear_timeout : P unit := sys_ (SAlarm 0).

Definition setup_sigs : P Z :=
  r ← for_sum 1 (Z.to_nat (NUMSIGS - 1)) (fun sig _ =>
        if choose_sig sig then
          r ← signal sig;
          mret (if r <? 0 then inr (-1) else inl tt)
        else mret (inl tt)) tt;
  mret (match r with inl _ => 0 | inr x => x end).

(** ** Pipes *)

(** What was read, [None] after an error. *)
Definition read_pipe (fd : Z) : P (option (list Z)) :=
  r ← set_timeout;
  if r <? 0 then mret None
  else
    m ← ev (PipeRead fd);
    match m with
    | None => note_errno "read() pipe failed." perrno ;; clear_timeout ;; mret None
    | Some m => clear_timeout ;; mret (Some m)
    end.

Definition write_pipe (fd : Z) (msg : list Z) : P Z :=
  b ← ev (PipeWrite fd msg);
  if negb b then note_errno "write() pipe failed." perrno ;; mret (-1) else mret 0.

(** ** The child *)

(** [while (time(NULL) - btime < TIMEOUT) if (sig_caught == TRUE) break;] *)
Definition wait_a_while : P unit :=
  r ← sys STime;
  let btime := s_ret r in
  while_ (fun _ =>
    r ← sys STime;
    g ← get;
    mret (if s_ret r - btime <? TIMEOUT then (if sig_caught g then inr tt else inl tt) else inr tt)) tt.

(** A loop over the signals under test; [body] returns what ends it. *)
Definition for_sigs {X} (body : Z -> P (option X)) : P (option X) :=
  r ← for_sum 1 (Z.to_nat (NUMSIGS - 1)) (fun sig _ =>
        if choose_sig sig then
          r ← body sig;
          mret (match r with Some x => inr x | None => inl tt end)
        else mret (inl tt)) tt;
  mret (match r with inl _ => None | inr x => Some x end).

Definition hold_all : P (option string) :=
  for_sigs (fun sig =>
    r ← sys (SSighold sig);
    mret (if negb (s_ret r =? 0)
          then Some ("sighold did not return 0. rv:" ++ pretty (s_ret r))%string else None)).

Definition release_all : P (option string) :=
  for_sigs (fun sig =>
    modify (set_sig_caught false) ;;
    r ← sys (SSigrelse sig);
    if negb (s_ret r =? 0)
    then mret (Some ("sigrelse did not return 0. rv:" ++ pretty (s_ret r))%string)
    else wait_a_while ;; mret None).

(** What the child says after its setup. *)
Definition get_ready : P string :=
  r ← set_timeout;
  if r <? 0 then g ← get; mret (mesg g)
  else
    r ← setup_sigs;
    if r <? 0 then g ← get; mret (mesg g)
    else
      r ← hold_all;
      mret (default READY r).

Definition child : P unit :=
  modify (set_phase 1) ;;
  note ← get_ready;
  r ← write_pipe pipe_fd (c_string note);
  when (r <? 0) (clear_timeout ;; exit WRITE_BROK) ;;
  modify (set_phase 2) ;;
  str ← read_pipe pipe_fd2;
  match str with
  | None => exit TBROK_
  | Some str =>
      when (negb (String.eqb (text_at str) READY)) (exit TBROK_) ;;
      r ← release_all;
      g ← get;
      let exit_val := match r with Some _ => TBROK_ | None => EXIT_OK end in
      let note := match r with Some note => c_string note | None => array_bytes (sig_array g) end in
      r ← write_pipe pipe_fd note;
      when (r <? 0) (exit WRITE_BROK) ;;
      exit exit_val
  end.

(** ** The parent *)

Definition cleanup : P unit := sys_ (SMisc "tst_rmdir").

Definition getout : P unit :=
  g ← get;
  (if 0 <? pid g then
     r ← sys (SKill (pid g) SIGKILL);
     when (s_ret r <? 0) (tst_resm TWARN "kill(%d, SIGKILL) failed" [Num (pid g)])
   else mret tt) ;;
  cleanup.

(** [tst_brkm(TBROK | TERRNO, cleanup, ...)]. *)
Definition tst_brkm_errno {A} (cleanup : P unit) (errno : Z) (fmt : string) (args : list arg) : P A :=
  tst_resm_errno TBROK errno fmt args ;; cleanup ;; tst_exit.

Definition send_sig (sig : Z) : P unit :=
  g ← get;
  r ← sys (SKill (pid g) sig);
  when (s_ret r <? 0)
    (if s_errno r =? ESRCH then
       r2 ← sys (SKill (pid g) SIGTERM);
       if s_ret r2 <? 0
       then tst_brkm_errno getout (s_errno r2) "kill(%d, %d) and kill(%d, SIGTERM) failed"
              [Num (pid g); Num sig; Num (pid g)]
       else tst_brkm_errno getout (s_errno r) "kill(%d, %d) failed, but kill(%d, SIGTERM) worked"
              [Num (pid g); Num sig; Num (pid g)]
     else tst_brkm_errno getout (s_errno r) "kill(%d, %d) failed" [Num (pid g); Num sig]).

(** The loop over [array]: [big_mesg] and [caught_sigs] after it, and [fail]. *)
Fixpoint count_sigs (n : nat) (sig : Z) (array : list Z) (big : string) (caught : Z) (fail : bool)
  : string * Z * bool :=
  match n with
  | O => (big, caught, fail)
  | S n =>
      if choose_sig sig then
        let a := nth (Z.to_nat sig) array 0 in
        if negb (a =? 1)
        then count_sigs n (sig + 1) array
               (big ++ String "009" ("signal " ++ pretty sig ++ " caught " ++ pretty a
                  ++ " times (expected 1)." ++ String "010" ""))%string caught true
        else count_sigs n (sig + 1) array big (caught + 1) fail
      else count_sigs n (sig + 1) array big caught fail
  end.

Definition report_array (array : list Z) : P unit :=
  let '(big, caught_sigs, fail) := count_sigs (Z.to_nat (NUMSIGS - 1)) 1 array big_mesg 0 false in
  if fail : bool then tst_resm TFAIL "%s" [Str big]
  else tst_resm TPASS "sigrelse() released all %d signals under test." [Num caught_sigs].

(** [if ((str = read_pipe(...)) == NULL) { tst_resm(TBROK, "%s", mesg); break; }] *)
Definition read_result (k : list Z -> P unit) : P unit :=
  m ← read_pipe pipe_fd;
  match m with
  | None => g ← get; tst_resm TBROK "%s" [Str (mesg g)]
  | Some m => k m
  end.

(** [switch (rv)]. *)
Definition report_exit (rv : Z) : P unit :=
  if rv =? EXIT_OK then read_result (fun m => report_array (ints_at m))
  else if rv =? TBROK_ then read_result (fun m => tst_resm TBROK "%s" [Str (text_at m)])
  else if rv =? SIG_CAUGHT then tst_resm TBROK "A signal was caught before being released." []
  else if rv =? WRITE_BROK then tst_resm TBROK "write() pipe failed for child." []
  else if rv =? HANDLE_ERR then tst_resm TBROK "Error occured in signal handler." []
  else tst_resm TBROK "Unexpected exit code %d from child" [Num rv].

(** [SAFE_WAIT(getout, &term_stat)]. *)
Definition safe_wait : P Z :=
  st ← waitpid (-1);
  if st.1 =? -1 then tst_brkm TBROK getout "wait() failed" [] else mret st.2.

Definition parent : P unit :=
  m ← read_pipe pipe_fd;
  g ← get;
  match m with
  | None => tst_brkm TBROK getout "%s" [Str (mesg g)]
  | Some str =>
      when (negb (String.eqb (text_at str) READY)) (tst_brkm TBROK getout "%s" [Str (text_at str)]) ;;
      for_from 1 (Z.to_nat (NUMSIGS - 1)) (fun sig => when (choose_sig sig) (send_sig sig)) ;;
      r ← write_pipe pipe_fd2 (c_string READY);
      when (r <? 0)
        (tst_brkm_errno getout perrno "Unable to tell child to go, write to pipe failed" []) ;;
      term_stat ← safe_wait;
      let sig := CHILD_SIG term_stat in
      when (negb (sig =? 0)) (tst_brkm TBROK cleanup "Unexpected signal %d killed child" [Num sig]) ;;
      report_exit (CHILD_EXIT term_stat)
  end.

(** ** main *)

Definition nonblocking (fd : Z) : P unit :=
  r ← sys (SMisc "fcntl");
  when (s_ret r =? -1)
    (tst_brkm_errno cleanup (s_errno r) "fcntl(Fds[0], F_SETFL, O_NONBLOCK) failed" []).

Definition safe_pipe : P unit :=
  r ← sys (SMisc "pipe");
  when (s_ret r =? -1) (tst_brkm_errno cleanup (s_errno r) "pipe() failed" []).

Definition setup : P unit :=
  sys_ (SMisc "tst_sig") ;;
  sys_ (SMisc "tst_tmpdir") ;;
  safe_pipe ;;
  nonblocking pipe_fd ;;
  safe_pipe ;;
  nonblocking pipe_fd2.

Definition round : P unit :=
  p ← fork;
  modify (set_pid p) ;;
  if p <? 0 then tst_brkm_errno cleanup perrno "fork() failed" []
  else if 0 <? p then parent
  else child.

Definition main (loops : nat) : P unit :=
  modify (set_sig_caught false) ;;
  setup ;;
  for_from 0 loops (fun _ => round) ;;
  cleanup ;;
  tst_exit.
End Sigrelse01.

(** ** Runs *)

(** The report of a correct run. *)
Definition all_released : entry :=
  Entry TPASS None "sigrelse() released all %d signals under test." [Num 55].

Lemma sigrelse01_explored ts strerror perrno big :
  explore_local (signal_kernel ts) 3000 (fun s => passed main_pid (log_is [all_released]) s)
    (boot main_pid (main strerror perrno big 1) globals0 ss_init) = true.
Proof. vm_compute. reflexivity. Qed.

(** C22: On every documented system, whatever the interleaving of parent and child,
    sigrelse01 ends with both processes gone and one report, that all 55 signals under
    test were released. *)
Theorem sigrelse01_passes {W} (K : Kernel scall sreply W) (w0 : W) `{!SignalPlatform K w0}
    strerror perrno big :
  inevitable (fun s => passed main_pid (log_is [all_released]) s = true)
    (boot main_pid (main strerror perrno big 1) globals0 w0).
Proof.
  apply (refines_run K (signal_kernel tst_status) w0 ss_init); [exact sp_init|].
  exact (explore_local_sound _ _ _ _ (sigrelse01_explored _ strerror perrno big)).
Qed.

Lemma sigrelse01_passes_witness :
  inevitable (H := signal_kernel (fun _ => 0))
    (fun s => passed main_pid (log_is [all_released]) s = true)
    (boot main_pid (main (fun _ => "error"%string) 0 "" 1) globals0 ss_init).
Proof. exact (sigrelse01_passes (signal_kernel (fun _ => 0)) ss_init (fun _ => "error"%string) 0 ""). Defined.

Lemma sigrelse01_unheld ts strerror perrno big :
  explore_local (never_holds ts) 9000 (fun s => passed main_pid (log_is [all_released]) s)
    (boot main_pid (main strerror perrno big 1) globals0 ss_init) = true.
Proof. vm_compute. reflexivity. Qed.

(** On a kernel whose sighold holds nothing, so that there is nothing to release,
    and which takes signals at the calls of the process, sigrelse01 reports that all
    signals were released: the signals only arrive when the child expects them. *)
Theorem sigrelse01_misses ts strerror perrno big :
  inevitable (H := never_holds ts) (fun s => passed main_pid (log_is [all_released]) s = true)
    (boot main_pid (main strerror perrno big 1) globals0 ss_init).
Proof. exact (explore_local_sound _ _ _ _ (sigrelse01_unheld ts strerror perrno big)). Qed.

Lemma sigrelse01_unreleased ts strerror perrno big :
  explore_local (never_releases ts) 9000 (fun s => detected s)
    (boot main_pid (main strerror perrno big 1) globals0 ss_init) = true.
Proof. vm_compute. reflexivity. Qed.

(** On a kernel whose sigrelse releases nothing, every run ends and reports a failure. *)
Theorem sigrelse01_detects ts strerror perrno big :
  inevitable (H := never_releases ts) (fun s => detected s = true)
    (boot main_pid (main strerror perrno big 1) globals0 ss_init).
Proof. exact (explore_local_sound _ _ _ _ (sigrelse01_unreleased ts strerror perrno big)). Qed.
