(* ===== verification/Sigrelse01Verdicts.v ===== *)
(** * sigrelse01: what it reports, on any system

    The transfer of the counts from the child to the parent, the verdict of the
    parent, and what the child counts. *)

From S2P Require Import Prelude Tst Process Explore Prog Checker Wp Signals Sigrelse01.

(** ** Messages *)

Definition int_range (z : Z) : Prop := - 2 ^ 31 <= z < 2 ^ 31.

Lemma int_of_bytes z :
  int_range z ->
  to_int (z mod 256 + 256 * ((z / 256) mod 256
    + 256 * ((z / 65536) mod 256 + 256 * ((z / 16777216) mod 256)))) = z.
Proof.
  intros Hz. unfold int_range in Hz.
  replace (z mod 256 + _) with (z mod 2 ^ 32).
  - unfold to_int, swrap. rewrite Z.mod_mod by lia. fold (swrap 32 z).
    by apply swrap_small.
  - change (2 ^ 32) with (256 * (256 * (256 * 256))).
    rewrite !Z.rem_mul_r by lia. rewrite !Z.div_div by lia. done.
Qed.

Lemma ints_of_array l : Forall int_range l -> ints_at (array_bytes l) = l.
Proof.
  induction 1 as [|z l Hz _ IH]; [done|].
  change (array_bytes (z :: l)) with (int_bytes z ++ array_bytes l). unfold int_bytes.
  cbn [app ints_at]. by rewrite int_of_bytes, IH.
Qed.

(** ** Verdicts *)

(** The signals under test. *)
Definition under_test : list Z := List.filter choose_sig (seqZ 1 64).

Definition all_once (array : list Z) : bool :=
  forallb (fun sig => nth (Z.to_nat sig) array 0 =? 1) under_test.

Lemma count_sigs_spec array n sig big caught fail :
  let sigs := List.filter choose_sig (seqZ sig (Z.of_nat n)) in
  let good := fun s => nth (Z.to_nat s) array 0 =? 1 in
  (count_sigs n sig array big caught fail).1.2 = caught + Z.of_nat (length (List.filter good sigs))
  /\ (count_sigs n sig array big caught fail).2 = fail || negb (forallb good sigs).
Proof.
  revert sig big caught fail. induction n as [|n IH]; intros sig big caught fail; cbn zeta.
  { rewrite seqZ_nil by done. cbn [count_sigs List.filter forallb length fst snd negb].
    split; [lia | by rewrite orb_false_r]. }
  rewrite seqZ_cons by lia. replace (Z.pred (Z.of_nat (S n))) with (Z.of_nat n) by lia.
  replace (Z.succ sig) with (sig + 1) by lia. cbn [count_sigs List.filter].
  destruct (choose_sig sig); [|apply IH]. cbn [List.filter forallb].
  destruct (nth (Z.to_nat sig) array 0 =? 1); cbn [negb andb length].
  - specialize (IH (sig + 1) big (caught + 1) fail). cbn zeta in IH. destruct IH as [-> ->].
    split; [lia | done].
  - edestruct IH as [-> ->]. split; [done | by rewrite orb_true_r].
Qed.

Lemma under_test_count : length under_test = 55%nat.
Proof. reflexivity. Qed.

Lemma all_once_count array :
  all_once array = true ->
  length (List.filter (fun s => nth (Z.to_nat s) array 0 =? 1) under_test) = 55%nat.
Proof.
  unfold all_once. rewrite <- under_test_count. generalize under_test as l. intros l H.
  by rewrite forallb_filter_id.
Qed.

Lemma count_under_test array big :
  let r := count_sigs (Z.to_nat (NUMSIGS - 1)) 1 array big 0 false in
  r.1.2 = Z.of_nat (length (List.filter (fun s => nth (Z.to_nat s) array 0 =? 1) under_test))
  /\ r.2 = negb (all_once array).
Proof.
  cbv zeta. unfold all_once.
  assert (under_test = List.filter choose_sig (seqZ 1 (Z.of_nat (Z.to_nat (NUMSIGS - 1))))) as -> by reflexivity.
  destruct (count_sigs_spec array (Z.to_nat (NUMSIGS - 1)) 1 big 0 false) as [-> ->].
  split; [lia | done].
Qed.

Section Verdict.
Context {W : Type} {K : Kernel scall sreply W}.
Variable self : Z.
Variable strerror : Z -> string.
Variable perrno : Z.
Variable big_mesg : string.
Implicit Types (g : globals) (sh : shape W).

(** A call of the process in world [w]: it answers [r], takes the signals [l] and
    leaves [w']. *)
Definition answers c w r l w' : Prop :=
  exists e, k_do self c w = Some (SReply r e l, w').

Lemma wp_sys c g sh r l w (Φ : globals -> sreply -> shape W -> Prop) :
  answers c (s_world sh) r l w ->
  wp self (handle l) g (with_world w sh)
    (fun g' _ sh' => forall e, Φ g' (SReply r e l) sh') ->
  wp self (sys c) g sh Φ.
Proof.
  intros [e Hk] HΦ. unfold sys. apply wp_bind. eapply wp_call; [exact Hk|].
  apply wp_bind. eapply wp_mono; [|exact HΦ]. intros g' [] sh' H. by apply wp_ret.
Qed.

Lemma wp_sys_quiet c g sh r w (Φ : globals -> sreply -> shape W -> Prop) :
  answers c (s_world sh) r [] w -> (forall e, Φ g (SReply r e []) (with_world w sh)) ->
  wp self (sys c) g sh Φ.
Proof. intros Hk HΦ. eapply wp_sys; [exact Hk|]. by apply wp_ret. Qed.

(** The timer calls succeed and take no signals. *)
Definition timers : Prop :=
  forall c w, c = SSignal SIGALRM \/ c = SAlarm TIMEOUT \/ c = SAlarm 0 ->
    exists w', answers c w 0 [] w'.

Lemma read_pipe_wp fd m ms g sh :
  timers -> s_pipes sh !! fd = Some (m :: ms) ->
  wp self (read_pipe strerror perrno fd) g sh
    (fun g' r sh' => r = Some m /\ g' = g /\ s_logs sh' = s_logs sh).
Proof.
  intros Ht Hp. unfold read_pipe, set_timeout, signal. do 3 apply wp_bind.
  destruct (Ht (SSignal SIGALRM) (s_world sh)) as [w1 H1]; [tauto|].
  eapply wp_sys_quiet; [exact H1|]. intros e1. cbn [s_ret]. apply wp_ret.
  cbn [Z.eqb Z.ltb Z.compare]. apply wp_bind. unfold sys_. apply wp_bind.
  destruct (Ht (SAlarm TIMEOUT) w1) as [w2 H2]; [tauto|].
  eapply wp_sys_quiet; [exact H2|]. intros e2. apply wp_ret, wp_ret. cbn [Z.eqb Z.ltb Z.compare].
  apply wp_bind. eapply wp_pipe_read; [exact Hp|]. apply wp_bind. unfold clear_timeout, sys_. apply wp_bind.
  destruct (Ht (SAlarm 0) w2) as [w3 H3]; [tauto|].
  eapply wp_sys_quiet; [exact H3|]. intros e3. apply wp_ret, wp_ret. done.
Qed.

(** C30: On any system whose timer calls succeed, when the child has exited with EXIT_OK
    and sent the counts [array], the parent gets these counts, whatever their values,
    and makes exactly one report: a pass, of all 55 signals, if each signal under test
    was counted exactly once; a failure otherwise. *)
Theorem counts_verdict array ms g sh :
  timers -> Forall int_range array ->
  s_pipes sh !! pipe_fd = Some (array_bytes array :: ms) ->
  wp self (report_exit strerror perrno big_mesg EXIT_OK) g sh (fun g' _ sh' =>
    exists e, log_of self sh' = log_of self sh ++ [e]
      /\ if all_once array then e = all_released else e_type e = TFAIL).
Proof.
  intros Ht Hr Hp. unfold report_exit. cbn [Z.eqb EXIT_OK]. unfold read_result. apply wp_bind.
  eapply wp_mono; [|by apply (read_pipe_wp _ _ _ _ _ Ht Hp)].
  intros g' r sh' (-> & -> & Hlog). rewrite ints_of_array by done. unfold report_array.
  pose proof (count_under_test array big_mesg) as [Hc Hf].
  destruct (count_sigs _ _ _ _ _ _) as [[big n] fail]. cbn [fst snd] in Hc, Hf.
  pose proof (all_once_count array) as Hn.
  assert (log_of self sh' = log_of self sh) as El by (unfold log_of; by rewrite Hlog).
  destruct (all_once array); cbn [negb] in Hf; subst fail; apply wp_resm;
    eexists; (split; [by rewrite log_of_report, El|]); [|done].
  rewrite Hc, Hn by done. reflexivity.
Qed.

(** ** The child *)

(** Time passes: [clk] is what time(2) answers. *)
Definition clock (clk : W -> Z) : Prop :=
  forall w, exists w', answers STime w (clk w) [] w' /\ clk w < clk w'.

(** On any system whose clock advances from call to call, [wait_a_while] returns,
    whether a signal is caught or not, and changes nothing. *)
Theorem wait_a_while_ends clk g sh :
  clock clk ->
  wp self wait_a_while g sh (fun g' _ sh' => g' = g /\ exists w, sh' = with_world w sh).
Proof.
  intros Hclk. unfold wait_a_while. apply wp_bind. destruct (Hclk (s_world sh)) as (w1 & H1 & _).
  eapply wp_sys_quiet; [exact H1|]. intros e1. cbn [s_ret].
  generalize (clk (s_world sh)) as b. intros b.
  remember (Z.to_nat (b + TIMEOUT - clk w1)) as n eqn:Hn. clear H1.
  revert w1 Hn. induction n as [n IH] using lt_wf_ind. intros w1 Hn.
  apply wp_while. apply wp_bind. destruct (Hclk w1) as (w2 & H2 & Hlt).
  eapply wp_sys_quiet; [exact H2|]. intros e2. apply wp_bind, wp_get, wp_ret. cbn [s_ret].
  change (with_world w2 (with_world w1 sh)) with (with_world w2 sh).
  destruct (Z.ltb_spec (clk w1 - b) TIMEOUT) as [Hb|Hb]; [|by eauto].
  destruct (sig_caught g); [by eauto|].
  apply (IH (Z.to_nat (b + TIMEOUT - clk w2))); [lia | done].
Qed.

(** The counts after the signals [l] have been handled. *)
Definition counts (l array : list Z) : list Z := foldl (fun a sig => count sig a) array l.

Lemma handle_wp l g sh :
  phase g = 2 -> handling g = 0 -> SIGALRM ∉ l ->
  wp self (handle l) g sh (fun g' _ sh' => sh' = sh /\ phase g' = 2 /\ handling g' = 0
    /\ sig_array g' = counts l (sig_array g)).
Proof.
  revert g. induction l as [|sig l IH]; intros g Hp Hh Hl; cbn [handle]; [by apply wp_ret|].
  apply not_elem_of_cons in Hl as [Hs Hl]. apply wp_bind.
  rewrite (proj2 (Z.eqb_neq sig SIGALRM)) by done. unfold handler. apply wp_bind, wp_get.
  rewrite Hp. cbn [Z.eqb]. do 2 (apply wp_bind; first [apply wp_modify | apply wp_get]).
  cbn [handling set_handling]. rewrite Hh. cbn [Z.add Z.ltb Z.compare Pos.compare Pos.compare_cont when].
  apply wp_bind, wp_ret. do 2 apply wp_bind, wp_modify. apply wp_modify.
  eapply wp_mono; [|apply IH; [done | cbn; lia | done]]. cbn. intros g' _ sh' H. exact H.
Qed.

(** The signals that are taken when [sig] is released. *)
Definition releases (taken : Z -> list Z) : Prop :=
  forall sig w, 0 < sig -> choose_sig sig = true ->
    Forall (fun s => 0 <= s /\ s <> SIGALRM) (taken sig)
    /\ exists w', answers (SSigrelse sig) w 0 (taken sig) w'.

Definition ready g : Prop := phase g = 2 /\ handling g = 0.

Lemma release_one taken clk sig g sh :
  releases taken -> clock clk -> 0 < sig -> choose_sig sig = true -> ready g ->
  wp self
    (modify (set_sig_caught false) ;;
     r ← sys (SSigrelse sig);
     if negb (s_ret r =? 0)
     then mret (Some ("sigrelse did not return 0. rv:" ++ pretty (s_ret r))%string)
     else wait_a_while ;; mret None) g sh
    (fun g' r _ => r = None /\ ready g' /\ sig_array g' = counts (taken sig) (sig_array g)).
Proof.
  intros Ht Hclk Hpos Hc [Hp Hh]. apply wp_bind, wp_modify, wp_bind.
  destruct (Ht sig (s_world sh) Hpos Hc) as (Hs & w1 & H1). eapply wp_sys; [exact H1|].
  eapply wp_mono; [|apply (handle_wp (taken sig) (set_sig_caught false g)); [exact Hp | exact Hh |]].
  - cbn beta. intros g1 _ sh1 (_ & Hp1 & Hh1 & Ha) e. cbn [s_ret Z.eqb negb]. apply wp_bind.
    eapply wp_mono; [|exact (wait_a_while_ends clk g1 sh1 Hclk)].
    cbn beta. intros g2 _ sh2 [-> _]. by apply wp_ret.
  - intros Hin. by apply (proj1 (Forall_forall _ _) Hs) in Hin as [_ Hin].
Qed.

Lemma counts_app l1 l2 a : counts (l1 ++ l2) a = counts l2 (counts l1 a).
Proof. apply foldl_app. Qed.

Lemma for_sigs_wp taken (body : Z -> P (option string)) n start g sh :
  (forall sig g sh, 0 < sig -> choose_sig sig = true -> ready g ->
     wp self (body sig) g sh
       (fun g' r _ => r = None /\ ready g' /\ sig_array g' = counts (taken sig) (sig_array g))) ->
  0 < start -> ready g ->
  wp self
    (for_sum start n (fun sig _ =>
        if choose_sig sig then
          r ← body sig;
          mret (match r with Some x => inr x | None => inl tt end)
        else mret (inl tt)) tt) g sh
    (fun g' r _ => r = inl tt
       /\ sig_array g' = counts (concat (map taken (List.filter choose_sig (seqZ start (Z.of_nat n)))))
                           (sig_array g)).
Proof.
  intros Hb. revert start g sh. induction n as [|n IH]; intros start g sh Hs Hg; cbn [for_sum].
  { rewrite seqZ_nil by done. by apply wp_ret. }
  rewrite seqZ_cons by lia. replace (Z.pred (Z.of_nat (S n))) with (Z.of_nat n) by lia.
  replace (Z.succ start) with (start + 1) by lia. cbn [List.filter].
  destruct (choose_sig start) eqn:Ec; apply wp_bind; [|apply wp_ret, IH; [lia | done]].
  apply wp_bind. eapply wp_mono; [|by apply Hb]. cbn beta. intros g1 r sh1 (-> & Hg1 & Ha).
  apply wp_ret. eapply wp_mono; [|apply IH; [lia | done]]. cbn beta. intros g2 r sh2 [-> Ha2].
  split; [done|]. cbn [map concat]. by rewrite counts_app, Ha2, Ha.
Qed.

Lemma release_all_wp taken clk g sh :
  releases taken -> clock clk -> ready g ->
  wp self release_all g sh (fun g' r _ => r = None
    /\ sig_array g' = counts (concat (map taken under_test)) (sig_array g)).
Proof.
  intros Ht Hclk Hg. unfold release_all, for_sigs. apply wp_bind.
  eapply wp_mono; [|apply (for_sigs_wp taken); [| done | done]].
  - cbn beta. intros g' r sh' [-> Ha]. by apply wp_ret.
  - intros sig g1 sh1 Hpos Hc Hg1. by apply (release_one taken clk).
Qed.

(** ** What the counts are *)

Lemma counts_nth l a sig :
  Forall (fun s => 0 <= s) l -> 0 <= sig -> (Z.to_nat sig < length a)%nat ->
  nth (Z.to_nat sig) (counts l a) 0
  = nth (Z.to_nat sig) a 0 + Z.of_nat (count_occ Z.eq_dec l sig).
Proof.
  intros Hl Hs. revert a. induction Hl as [|s l Hs' Hl IH]; intros a Ha.
  { cbn. lia. }
  change (counts (s :: l) a) with (counts l (count s a)). rewrite IH.
  2: { unfold count. by rewrite length_alter. }
  cbn [count_occ]. unfold count. destruct (Z.eq_dec s sig) as [->|Hne].
  - destruct (lookup_lt_is_Some_2 a (Z.to_nat sig) Ha) as [x Hx].
    rewrite (nth_lookup_Some _ _ _ _ Hx).
    rewrite (nth_lookup_Some _ _ _ (1 + x)) by (rewrite list_lookup_alter_eq; by rewrite Hx). lia.
  - f_equal. rewrite !nth_lookup, list_lookup_alter_ne; [done|]. intros E. apply Hne. lia.
Qed.

Lemma under_test_chosen s : In s under_test -> 0 < s /\ choose_sig s = true.
Proof.
  unfold under_test. intros [Hs Hc]%filter_In. split; [|done].
  apply list_elem_of_In, elem_of_seqZ in Hs. lia.
Qed.

Lemma taken_nonneg taken (w : W) :
  releases taken -> Forall (fun s => 0 <= s) (concat (map taken under_test)).
Proof.
  intros Ht. assert (forall s, In s under_test -> 0 < s /\ choose_sig s = true) as H by exact under_test_chosen.
  revert H. generalize under_test as l. intros l. induction l as [|s l IH]; intros H; [constructor|].
  cbn [map concat]. apply Forall_app. split; [|apply IH; intros x Hx; apply H; by right].
  destruct (H s (or_introl eq_refl)) as [Hpos Hc]. destruct (Ht s w Hpos Hc) as [Hf _].
  eapply Forall_impl; [exact Hf|]. by intros x [? _].
Qed.

Lemma counts_from_zero l sig :
  Forall (fun s => 0 <= s) l -> 0 <= sig < NUMSIGS ->
  nth (Z.to_nat sig) (counts l (sig_array globals0)) 0 = Z.of_nat (count_occ Z.eq_dec l sig).
Proof.
  intros Hl Hs. unfold NUMSIGS, NSIG in Hs. rewrite counts_nth; [|done|lia|].
  - cbn [sig_array globals0]. rewrite (nth_lookup_Some _ _ _ 0); [lia|].
    apply lookup_replicate. unfold NUMSIGS, NSIG. lia.
  - cbn [sig_array globals0]. rewrite length_replicate. unfold NUMSIGS, NSIG. lia.
Qed.

(** C31: On any system whose clock advances and where sigrelse succeeds, the child ends
    its loop over the signals under test, and for each signal its array then holds how
    often the signal was taken, if it was taken when the child released some signal. *)
Theorem release_counts taken clk g sh :
  releases taken -> clock clk -> ready g ->
  sig_array g = sig_array globals0 ->
  wp self release_all g sh (fun g' r _ => r = None
    /\ forall sig, 0 <= sig < NUMSIGS ->
         nth (Z.to_nat sig) (sig_array g') 0
         = Z.of_nat (count_occ Z.eq_dec (concat (map taken under_test)) sig)).
Proof.
  intros Ht Hclk Hg H0. eapply wp_mono; [|by apply (release_all_wp taken clk)].
  cbn beta. intros g' r sh' [-> Ha]. split; [done|]. intros sig Hs.
  rewrite Ha, H0. apply counts_from_zero; [|done]. by apply (taken_nonneg taken (s_world sh)).
Qed.
End Verdict.

(** ** Witnesses *)

(** A system on which a signal is taken when it is released, and time(2) counts its
    calls. *)
Definition toy_do (c : scall) (w : Z) : option (sreply * Z) :=
  match c with
  | STime => Some (SReply w 0 [], w + 1)
  | SSigrelse sig => Some (SReply 0 0 [sig], w)
  | _ => Some (SReply 0 0 [], w)
  end.

Definition toy : Kernel scall sreply Z := {|
  k_do := fun _ => toy_do;
  k_fork := fun _ _ w => w;
  k_exit := fun _ w => w;
  tst_status := fun _ => 0
|}.

Definition toy_shape (ms : list (list Z)) : shape Z := Shape ∅ ∅ {[ pipe_fd := ms ]} ∅ false 101 0.

Lemma counts_verdict_witness :
  let array := replicate 65 1 in
  timers (K := toy) 100 /\ Forall int_range array /\
  wp (K := toy) 100 (report_exit (fun _ => ""%string) 0 "" EXIT_OK) globals0
    (toy_shape [array_bytes array])
    (fun g' _ sh' => exists e, log_of 100 sh' = log_of 100 (toy_shape [array_bytes array]) ++ [e]
       /\ (if all_once array then e = all_released else e_type e = TFAIL)).
Proof.
  assert (timers (K := toy) 100) as Ht.
  { intros c w [-> | [-> | ->]]; exists w, 0; reflexivity. }
  assert (Forall int_range (replicate 65 1)) as Hr by (apply Forall_replicate; unfold int_range; lia).
  split; [exact Ht|]. split; [exact Hr|].
  apply (counts_verdict (K := toy) 100 (fun _ => ""%string) 0 "" (replicate 65 1) []);
    [exact Ht | exact Hr | reflexivity].
Defined.

Lemma toy_clock : clock (K := toy) 100 id.
Proof. intros w. exists (w + 1). split; [exists 0; reflexivity | unfold id; lia]. Qed.

Lemma wait_a_while_ends_witness :
  clock (K := toy) 100 id /\
  wp (K := toy) 100 wait_a_while globals0 (toy_shape [])
    (fun g' _ sh' => g' = globals0 /\ exists w, sh' = with_world w (toy_shape [])).
Proof.
  split; [exact toy_clock|].
  exact (wait_a_while_ends (K := toy) 100 id globals0 (toy_shape []) toy_clock).
Defined.

Lemma toy_releases : releases (K := toy) 100 (fun sig => [sig]).
Proof.
  intros sig w Hpos Hc. split; [|exists w, 0; reflexivity].
  constructor; [|constructor]. split; [lia | by intros ->].
Qed.

Lemma release_counts_witness :
  releases (K := toy) 100 (fun sig => [sig]) /\
  wp (K := toy) 100 release_all (set_phase 2 globals0) (toy_shape []) (fun g' r _ => r = None
    /\ forall sig, 0 <= sig < NUMSIGS ->
         nth (Z.to_nat sig) (sig_array g') 0
         = Z.of_nat (count_occ Z.eq_dec (concat (map (fun sig => [sig]) under_test)) sig)).
Proof.
  split; [exact toy_releases|].
  apply (release_counts (K := toy) 100 (fun sig => [sig]) id (set_phase 2 globals0) (toy_shape []));
    [exact toy_releases | exact toy_clock | split; reflexivity | reflexivity].
Defined.
