(* ===== verification/MemFd.v ===== *)
(** * Anonymous files: the documented behaviour of memfd_create(2)

    The calls the memfd_create tests make and a reference platform [memfd_kernel] that
    answers them as memfd_create(2), fcntl(2) (seals), ftruncate(2), fallocate(2),
    mmap(2), mprotect(2) and write(2) document.  The theorems about the tests are
    stated for every platform that refines it.

    A file has a size, seals and bytes; an open file (shared by the descriptors that
    [dup] makes) has an access mode and a position; a mapping of a shared file that
    was open for writing and not sealed can be, or become, writable.  The parameters
    [mparams] are the huge pages of the system.  Descriptors begin at 3 and the lowest
    free one is used; mappings are placed one after the other; [munmap] removes
    whole mappings; a mapping of huge pages takes its pages at once.  The only paths
    are those of [/proc/self/fd] and of the huge page sizes. *)

From Stdlib Require Import Ascii.
From S2P Require Import Prelude Tst Process FileSys.

(** ** Constants *)

Definition ENODEV : Z := 19.
Definition EOPNOTSUPP : Z := 95.

Definition MFD_CLOEXEC : Z := 1.
Definition MFD_ALLOW_SEALING : Z := 2.
Definition MFD_HUGETLB : Z := 4.
Definition MFD_HUGE_SHIFT : Z := 26.
Definition MFD_HUGE_MASK : Z := 63.
Definition MFD_NAME_MAX : nat := 249.

Definition F_ADD_SEALS : Z := 1033.
Definition F_GET_SEALS : Z := 1034.
Definition F_SEAL_SEAL : Z := 1.
Definition F_SEAL_SHRINK : Z := 2.
Definition F_SEAL_GROW : Z := 4.
Definition F_SEAL_WRITE : Z := 8.
Definition ALL_SEALS : Z := 15.

Definition PROT_READ : Z := 1.
Definition PROT_WRITE : Z := 2.
Definition MAP_SHARED : Z := 1.
Definition MAP_PRIVATE : Z := 2.
Definition MAP_FAILED : Z := -1.
Definition PAGE_SIZE : Z := 4096.

Definition FALLOC_FL_KEEP_SIZE : Z := 1.
Definition FALLOC_FL_PUNCH_HOLE : Z := 2.

(** Some bit of [x] is set in [y]. *)
Definition has (x y : Z) : bool := negb (Z.land x y =? 0).

(** ** Calls and answers *)

Inductive mcall :=
| MCreate (name : option string) (flags : Z)
| MFcntl (fd cmd arg : Z)
| MFtruncate (fd len : Z)
| MFallocate (fd mode off len : Z)
| MMmap (addr len prot flags fd off : Z)
| MMunmap (addr len : Z)
| MMprotect (addr len prot : Z)
| MStore (addr byte : Z)              (* [*(char * )addr = byte] *)
| MRead (fd n : Z)
| MWrite (fd : Z) (data : string) (n : Z)
| MPwrite (fd : Z) (data : string) (n off : Z)
| MFstat (fd : Z)
| MDup (fd : Z)
| MOpen (path : string) (flags mode : Z)
| MClose (fd : Z)
| MAccess (path : string)
| MMeminfo (item : string).           (* a line of /proc/meminfo *)

(** Return value, [errno] (0 after a call that succeeds), the number written back
    ([st_size]) and the bytes read. *)
Record mreply := MReply { ret : Z; errno : Z; out : Z; text : string }.

#[export] Instance mreply_eq_dec : EqDecision mreply.
Proof. solve_decision. Defined.

Definition mok (r : Z) : mreply := MReply r 0 0 "".
Definition mfails (e : Z) : mreply := MReply (-1) e 0 "".

(** ** State *)

(** What a system is free to choose: the sizes of huge pages it has ([None]: it has
    none), as powers of two, the default one, and how many of these are free. *)
Record mparams := MParams {
  mp_huge : option (Z -> bool);
  mp_shift : Z;
  mp_pages : Z
}.

Definition huge_size (p : mparams) : Z := Z.shiftl 1 (mp_shift p).

(** The rules about names, flags and seals that a kernel enforces. *)
Record rules := Rules {
  r_flags : bool;      (* memfd_create: unknown flags are EINVAL *)
  r_fault : bool;      (* a null name is EFAULT *)
  r_name : bool;       (* a long name is EINVAL *)
  r_noseal : bool;     (* a file created without MFD_ALLOW_SEALING is sealed against sealing *)
  r_seal : bool;       (* F_SEAL_SEAL forbids further seals *)
  r_reader : bool;     (* a descriptor for reading cannot add seals *)
  r_busy : bool;       (* F_SEAL_WRITE is EBUSY while there are writable shared mappings *)
  r_shrink : bool;     (* F_SEAL_SHRINK forbids truncating to a smaller size *)
  r_grow : bool;       (* F_SEAL_GROW forbids truncating to a larger size, *)
  r_alloc : bool;      (* ... fallocate beyond the end, *)
  r_append : bool;     (* ... writing beyond the end *)
  r_write : bool;      (* F_SEAL_WRITE forbids writing, *)
  r_punch : bool;      (* ... punching holes, *)
  r_map : bool;        (* ... new writable shared mappings, *)
  r_protect : bool     (* ... making shared mappings writable *)
}.

Definition all_rules : rules :=
  Rules true true true true true true true true true true true true true true true.

Record mfile := MFile {
  mf_size : Z; mf_seals : Z; mf_huge : bool;
  mf_data : list (Z * Z)     (* the bytes that were written; the others are 0 *)
}.

Record mopen := MOpened { mo_file : Z; mo_mode : Z; mo_pos : Z }.

Record mapping := Mapping {
  mm_file : Z; mm_len : Z; mm_prot : Z; mm_shared : bool; mm_maywrite : bool; mm_huge : bool
}.

Record mstate := MState {
  m_files : list (Z * mfile);
  m_opens : list (Z * mopen);
  m_fds : list (Z * Z);          (* descriptor, open file *)
  m_maps : list (Z * mapping);   (* by address *)
  m_next : Z;                    (* number of the next file or open file *)
  m_top : Z;                     (* address of the next mapping *)
  m_free : Z                     (* free huge pages *)
}.

#[export] Instance mfile_eq_dec : EqDecision mfile.
Proof. solve_decision. Defined.
#[export] Instance mopen_eq_dec : EqDecision mopen.
Proof. solve_decision. Defined.
#[export] Instance mapping_eq_dec : EqDecision mapping.
Proof. solve_decision. Defined.
#[export] Instance mstate_eq_dec : EqDecision mstate.
Proof. solve_decision. Defined.

Definition m_init (p : mparams) : mstate := MState [] [] [] [] 1 65536 (mp_pages p).

Definition set_mfiles l w := MState l (m_opens w) (m_fds w) (m_maps w) (m_next w) (m_top w) (m_free w).
Definition set_mopens l w := MState (m_files w) l (m_fds w) (m_maps w) (m_next w) (m_top w) (m_free w).
Definition set_mfds l w := MState (m_files w) (m_opens w) l (m_maps w) (m_next w) (m_top w) (m_free w).
Definition set_mmaps l w := MState (m_files w) (m_opens w) (m_fds w) l (m_next w) (m_top w) (m_free w).
Definition set_mnext n w := MState (m_files w) (m_opens w) (m_fds w) (m_maps w) n (m_top w) (m_free w).
Definition set_mtop n w := MState (m_files w) (m_opens w) (m_fds w) (m_maps w) (m_next w) n (m_free w).
Definition set_mfree n w := MState (m_files w) (m_opens w) (m_fds w) (m_maps w) (m_next w) (m_top w) n.

Definition update_file (i : Z) (f : mfile) (w : mstate) : mstate := set_mfiles (tset i f (m_files w)) w.

Definition set_size n f := MFile n (mf_seals f) (mf_huge f) (List.filter (fun b => b.1 <? n) (mf_data f)).
Definition set_seals s f := MFile (mf_size f) s (mf_huge f) (mf_data f).
Definition set_data d f := MFile (mf_size f) (mf_seals f) (mf_huge f) d.

Definition sealed (f : mfile) (seal : Z) : bool := has (mf_seals f) seal.

(** ** Descriptors *)

Definition readable (o : mopen) : bool := negb (mo_mode o =? O_WRONLY).
Definition writable (o : mopen) : bool := negb (mo_mode o =? O_RDONLY).

Fixpoint lowest_from (fuel : nat) (fd : Z) (fds : list (Z * Z)) : Z :=
  match fuel with
  | O => fd
  | S fuel => match tget fd fds with None => fd | Some _ => lowest_from fuel (fd + 1) fds end
  end.

(** The lowest free descriptor. *)
Definition lowest (fds : list (Z * Z)) : Z := lowest_from (S (length fds)) 3 fds.

(** The file behind a descriptor: the numbers and contents of the open file and of
    the file. *)
Definition lookup_fd (fd : Z) (w : mstate) : option (Z * mopen * Z * mfile) :=
  match tget fd (m_fds w) with
  | None => None
  | Some o =>
      match tget o (m_opens w) with
      | None => None
      | Some op =>
          match tget (mo_file op) (m_files w) with
          | None => None
          | Some f => Some (o, op, mo_file op, f)
          end
      end
  end.

(** A new descriptor for file [i], opened with [mode]. *)
Definition open_file (i mode : Z) (w : mstate) : mreply * mstate :=
  let fd := lowest (m_fds w) in
  let o := m_next w in
  (mok fd, set_mnext (o + 1) (set_mfds (tset fd o (m_fds w)) (set_mopens (tset o (MOpened i mode 0) (m_opens w)) w))).

(** ** Calls *)

Definition answer := (mreply * mstate)%type.

Definition failing (e : Z) (w : mstate) : answer := (mfails e, w).

(** A call on a descriptor. *)
Definition on_fd (fd : Z) (w : mstate) (k : Z -> mopen -> Z -> mfile -> answer) : answer :=
  match lookup_fd fd w with
  | None => failing EBADF w
  | Some (o, op, i, f) => k o op i f
  end.

(** [s] has more than [n] characters. *)
Fixpoint longer (n : nat) (s : string) : bool :=
  match n, s with
  | _, EmptyString => false
  | O, String _ _ => true
  | S n, String _ s => longer n s
  end.

Definition known_flags (flags : Z) : Z :=
  let plain := Z.lor (Z.lor MFD_CLOEXEC MFD_ALLOW_SEALING) MFD_HUGETLB in
  if has flags MFD_HUGETLB then Z.lor plain (Z.shiftl MFD_HUGE_MASK MFD_HUGE_SHIFT) else plain.

(** The page size that the flags ask for: 0 is the default one. *)
Definition huge_shift (flags : Z) : Z := Z.land (Z.shiftr flags MFD_HUGE_SHIFT) MFD_HUGE_MASK.

Definition has_size (p : mparams) (shift : Z) : bool :=
  match mp_huge p with
  | None => false
  | Some f => (shift =? 0) || f shift
  end.

(** A kernel that does not refuse unknown flags ignores all but the two plain ones. *)
Definition m_create (p : mparams) (e : rules) (name : option string) (flags : Z) (w : mstate) : answer :=
  let unknown := negb (Z.land flags (Z.lnot (known_flags flags)) =? 0) in
  if unknown && r_flags e then failing EINVAL w
  else
    match name, r_fault e with
    | None, true => failing EFAULT w
    | _, _ =>
        let huge := has flags MFD_HUGETLB && negb unknown in
        if longer MFD_NAME_MAX (default "" name) && r_name e then failing EINVAL w
        else if huge && negb (has_size p (huge_shift flags)) then failing ENODEV w
        else
          let seals := if has flags MFD_ALLOW_SEALING then 0 else if r_noseal e then F_SEAL_SEAL else 0 in
          let i := m_next w in
          open_file i O_RDWR (set_mnext (i + 1) (update_file i (MFile 0 seals huge []) w))
    end.

(** Some mapping of file [i] can be, or become, writable and shared. *)
Definition shared_writable (i : Z) (w : mstate) : bool :=
  existsb (fun m => (mm_file m.2 =? i) && mm_maywrite m.2) (m_maps w).

Definition add_seals (e : rules) (fd seals : Z) (w : mstate) : answer :=
  on_fd fd w (fun _ op i f =>
    if negb (writable op) && r_reader e then failing EPERM w
    else if negb (Z.land seals (Z.lnot ALL_SEALS) =? 0) then failing EINVAL w
    else if sealed f F_SEAL_SEAL && r_seal e then failing EPERM w
    else if has seals F_SEAL_WRITE && negb (sealed f F_SEAL_WRITE) && shared_writable i w && r_busy e
    then failing EBUSY w
    else (mok 0, update_file i (set_seals (Z.lor (mf_seals f) seals) f) w)).

Definition m_fcntl (e : rules) (fd cmd arg : Z) (w : mstate) : answer :=
  if cmd =? F_ADD_SEALS then add_seals e fd arg w
  else if cmd =? F_GET_SEALS then on_fd fd w (fun _ _ _ f => (mok (mf_seals f), w))
  else failing EINVAL w.

(** What truncating file [f] to [len] is answered. *)
Definition truncate (e : rules) (i len : Z) (f : mfile) (w : mstate) : answer :=
  if (len <? mf_size f) && sealed f F_SEAL_SHRINK && r_shrink e then failing EPERM w
  else if (mf_size f <? len) && sealed f F_SEAL_GROW && r_grow e then failing EPERM w
  else (mok 0, update_file i (set_size len f) w).

Definition m_ftruncate (e : rules) (fd len : Z) (w : mstate) : answer :=
  on_fd fd w (fun _ op i f =>
    if negb (writable op) || (len <? 0) then failing EINVAL w else truncate e i len f w).

Definition m_fallocate (e : rules) (fd mode off len : Z) (w : mstate) : answer :=
  on_fd fd w (fun _ op i f =>
    if (off <? 0) || (len <=? 0) then failing EINVAL w
    else if negb (writable op) then failing EBADF w
    else if mode =? Z.lor FALLOC_FL_PUNCH_HOLE FALLOC_FL_KEEP_SIZE then
      if sealed f F_SEAL_WRITE && r_punch e then failing EPERM w
      else (mok 0, update_file i
              (set_data (List.filter (fun b => negb ((off <=? b.1) && (b.1 <? off + len))) (mf_data f)) f) w)
    else if mode =? 0 then
      if off + len <=? mf_size f then (mok 0, w)
      else if sealed f F_SEAL_GROW && r_alloc e then failing EPERM w
      else (mok 0, update_file i (set_size (off + len) f) w)
    else failing EOPNOTSUPP w).

(** *** Memory *)

Definition round_up (n len : Z) : Z := (len + n - 1) / n * n.

Definition add_mapping (m : mapping) (w : mstate) : answer :=
  (mok (m_top w), set_mtop (m_top w + mm_len m) (set_mmaps (tset (m_top w) m (m_maps w)) w)).

Definition m_mmap (p : mparams) (e : rules) (len prot flags fd off : Z) (w : mstate) : answer :=
  on_fd fd w (fun _ op i f =>
    let shared := flags =? MAP_SHARED in
    let page := if mf_huge f then huge_size p else PAGE_SIZE in
    let len := round_up page len in
    if (len <=? 0) || negb (off mod page =? 0) then failing EINVAL w
    else if negb (readable op) then failing EACCES w
    else if shared && has prot PROT_WRITE && negb (writable op) then failing EACCES w
    else if shared && has prot PROT_WRITE && sealed f F_SEAL_WRITE && r_map e then failing EPERM w
    else
      let m := Mapping i len prot shared (shared && writable op && negb (sealed f F_SEAL_WRITE && r_protect e)) (mf_huge f) in
      if mf_huge f then
        if m_free w <? len / page then failing ENOMEM w
        else add_mapping m (set_mfree (m_free w - len / page) w)
      else add_mapping m w).

(** [munmap] of whole mappings. *)
Definition m_munmap (p : mparams) (addr len : Z) (w : mstate) : answer :=
  let inside (m : Z * mapping) := (addr <=? m.1) && (m.1 + mm_len m.2 <=? addr + round_up PAGE_SIZE len) in
  let cuts_page (m : Z * mapping) :=
    mm_huge m.2 && (m.1 <? addr + len) && (addr <? m.1 + mm_len m.2)
    && negb (((addr - m.1) mod huge_size p =? 0) && (len mod huge_size p =? 0)) in
  if negb (addr mod PAGE_SIZE =? 0) || (len <=? 0) || existsb cuts_page (m_maps w) then failing EINVAL w
  else
    let freed := foldr (fun m n => (if mm_huge m.2 then mm_len m.2 / huge_size p else 0) + n) 0
                   (List.filter inside (m_maps w)) in
    (mok 0, set_mfree (m_free w + freed) (set_mmaps (List.filter (fun m => negb (inside m)) (m_maps w)) w)).

Definition m_mprotect (addr prot : Z) (w : mstate) : answer :=
  match tget addr (m_maps w) with
  | None => failing ENOMEM w
  | Some m =>
      if has prot PROT_WRITE && mm_shared m && negb (mm_maywrite m) then failing EACCES w
      else (mok 0, set_mmaps (tset addr (Mapping (mm_file m) (mm_len m) prot (mm_shared m) (mm_maywrite m) (mm_huge m))
                                (m_maps w)) w)
  end.

(** A store through the beginning of a mapping; one that faults has no answer. *)
Definition m_store (addr byte : Z) (w : mstate) : option answer :=
  match tget addr (m_maps w) with
  | None => None
  | Some m =>
      if negb (has (mm_prot m) PROT_WRITE) then None
      else if negb (mm_shared m) then Some (mok 0, w)
      else
        match tget (mm_file m) (m_files w) with
        | None => None
        | Some f =>
            if mf_size f <=? 0 then None
            else Some (mok 0, update_file (mm_file m) (set_data (tset 0 byte (mf_data f)) f) w)
        end
  end.

(** *** Reading and writing *)

Definition byte_at (data : list (Z * Z)) (off : Z) : ascii :=
  ascii_of_nat (Z.to_nat (default 0 (tget off data))).

Fixpoint bytes_at (n : nat) (off : Z) (data : list (Z * Z)) : string :=
  match n with
  | O => ""
  | S n => String (byte_at data off) (bytes_at n (off + 1) data)
  end.

Definition seek (o : Z) (op : mopen) (pos : Z) (w : mstate) : mstate :=
  set_mopens (tset o (MOpened (mo_file op) (mo_mode op) pos) (m_opens w)) w.

Definition m_read (fd n : Z) (w : mstate) : answer :=
  on_fd fd w (fun o op i f =>
    if negb (readable op) then failing EBADF w
    else
      let n := Z.max 0 (Z.min n (mf_size f - mo_pos op)) in
      (MReply n 0 0 (bytes_at (Z.to_nat n) (mo_pos op) (mf_data f)), seek o op (mo_pos op + n) w)).

(** The first [n] bytes of [s] at [off]. *)
Fixpoint put_bytes (s : string) (n : nat) (off : Z) (data : list (Z * Z)) : list (Z * Z) :=
  match n, s with
  | S n, String c s => put_bytes s n (off + 1) (tset off (Z.of_nat (nat_of_ascii c)) data)
  | _, _ => data
  end.

(** What writing [n] bytes at [off] is answered, and the file then. *)
Definition write_at (e : rules) (op : mopen) (f : mfile) (data : string) (n off : Z) : mreply * option mfile :=
  if negb (writable op) then (mfails EBADF, None)
  else if mf_huge f then (mfails EINVAL, None)
  else if sealed f F_SEAL_WRITE && r_write e then (mfails EPERM, None)
  else if (mf_size f <? off + n) && sealed f F_SEAL_GROW && r_append e then (mfails EPERM, None)
  else (mok n, Some (MFile (Z.max (mf_size f) (off + n)) (mf_seals f) (mf_huge f)
                       (put_bytes data (Z.to_nat n) off (mf_data f)))).

Definition m_write (e : rules) (fd : Z) (data : string) (n : Z) (w : mstate) : answer :=
  on_fd fd w (fun o op i f =>
    match write_at e op f data n (mo_pos op) with
    | (r, None) => (r, w)
    | (r, Some f) => (r, seek o op (mo_pos op + n) (update_file i f w))
    end).

Definition m_pwrite (e : rules) (fd : Z) (data : string) (n off : Z) (w : mstate) : answer :=
  on_fd fd w (fun o op i f =>
    match write_at e op f data n off with
    | (r, None) => (r, w)
    | (r, Some f) => (r, update_file i f w)
    end).

(** *** Paths *)

Definition proc_fd (fd : Z) : string := ("/proc/self/fd/" ++ pretty fd)%string.

(** [open]: only files that some descriptor names can be opened again. *)
Definition m_open (e : rules) (path : string) (flags : Z) (w : mstate) : answer :=
  match List.find (fun d => String.eqb path (proc_fd d.1)) (m_fds w) with
  | None => failing ENOENT w
  | Some d =>
      on_fd d.1 w (fun _ _ i f =>
        let r := if has flags O_TRUNC then truncate e i 0 f w else (mok 0, w) in
        if ret r.1 <? 0 then r else open_file i (Z.land flags 3) r.2)
  end.

Definition hugepages : string := "/sys/kernel/mm/hugepages".

(** Powers of two that are sizes of huge pages on some machine. *)
Definition huge_shifts : list Z := [16; 19; 21; 23; 24; 28; 30; 31; 34].

Definition m_access (p : mparams) (path : string) (w : mstate) : answer :=
  match mp_huge p with
  | None => failing ENOENT w
  | Some f =>
      let dir s := (hugepages ++ "/hugepages-" ++ pretty (Z.shiftl 1 (s - 10)) ++ "kB")%string in
      match List.find (fun s => String.eqb path (dir s)) huge_shifts with
      | Some s => if f s then (mok 0, w) else failing ENOENT w
      | None => if String.eqb path hugepages then (mok 0, w) else failing ENOENT w
      end
  end.

Definition m_meminfo (p : mparams) (item : string) (w : mstate) : answer :=
  if String.eqb item "Hugepagesize:" then (mok (Z.shiftr (huge_size p) 10), w)
  else if String.eqb item "HugePages_Free:" then (mok (m_free w), w)
  else failing ENOENT w.

Definition m_do (p : mparams) (e : rules) (pid : Z) (c : mcall) (w : mstate) : option answer :=
  match c with
  | MCreate name flags => Some (m_create p e name flags w)
  | MFcntl fd cmd a => Some (m_fcntl e fd cmd a w)
  | MFtruncate fd len => Some (m_ftruncate e fd len w)
  | MFallocate fd mode off len => Some (m_fallocate e fd mode off len w)
  | MMmap _ len prot flags fd off => Some (m_mmap p e len prot flags fd off w)
  | MMunmap addr len => Some (m_munmap p addr len w)
  | MMprotect addr _ prot => Some (m_mprotect addr prot w)
  | MStore addr byte => m_store addr byte w
  | MRead fd n => Some (m_read fd n w)
  | MWrite fd data n => Some (m_write e fd data n w)
  | MPwrite fd data n off => Some (m_pwrite e fd data n off w)
  | MFstat fd => Some (on_fd fd w (fun _ _ _ f => (MReply 0 0 (mf_size f) "", w)))
  | MDup fd =>
      Some (match tget fd (m_fds w) with
            | None => failing EBADF w
            | Some o => let fd2 := lowest (m_fds w) in (mok fd2, set_mfds (tset fd2 o (m_fds w)) w)
            end)
  | MOpen path flags _ => Some (m_open e path flags w)
  | MClose fd =>
      Some (match tget fd (m_fds w) with
            | None => failing EBADF w
            | Some _ => (mok 0, set_mfds (tdel fd (m_fds w)) w)
            end)
  | MAccess path => Some (m_access p path w)
  | MMeminfo item => Some (m_meminfo p item w)
  end.

(** A kernel that enforces the rules [e]; the documented one enforces all. *)
Definition memfd_kernel_with (p : mparams) (e : rules) (ts : list entry -> Z)
  : Kernel mcall mreply mstate := {|
  k_do := m_do p e;
  k_fork := fun _ _ w => w;
  k_exit := fun _ w => w;
  tst_status := ts
|}.

Definition memfd_kernel (p : mparams) : (list entry -> Z) -> Kernel mcall mreply mstate :=
  memfd_kernel_with p all_rules.

(** [K] behaves as documented, with some choice of huge pages; its worlds are whatever
    it likes. *)
Class MemfdPlatform {W} (K : Kernel mcall mreply W) (w0 : W) := {
  mp_params : mparams;
  mp_refines :: Refines K (memfd_kernel mp_params (@tst_status _ _ _ K));
  mp_init : @rel _ _ _ _ K (memfd_kernel mp_params (@tst_status _ _ _ K)) mp_refines w0 (m_init mp_params)
}.

#[export] Instance memfd_platform p ts : MemfdPlatform (memfd_kernel p ts) (m_init p).
Proof. by refine {| mp_params := p; mp_refines := refines_refl (memfd_kernel p ts) |}. Defined.

(** The same kernel when stores that fault are skipped: every call is answered. *)
Definition forgiving_kernel (p : mparams) (ts : list entry -> Z) : Kernel mcall mreply mstate := {|
  k_do pid c w := Some (default (failing EFAULT w) (m_do p all_rules pid c w));
  k_fork := fun _ _ w => w;
  k_exit := fun _ w => w;
  tst_status := ts
|}.

(** A system with four free huge pages of 2 MiB. *)
Definition some_pages : mparams := MParams (Some (fun s => s =? 21)) 21 4.
