(* ===== verification/MemfdCommon.v ===== *)
(** * memfd_create_common.c: checks on anonymous files

    Model of [src/original tests/memfd_create/memfd_create_common.c] and its header: the
    functions that make a call, compare its answer with what the seals of the file
    allow, and report.  The file name and line passed to every function are left out:
    they are where the library prints a report.

    [tst_res] reports; [tst_brk] reports and ends the process; the [safe_] functions of
    the library end it with TBROK when their call fails, and [tst_syscall] with TCONF
    when there is no such call.  [errno] keeps its value while calls succeed.  [junk] is
    what the uninitialised array of the two [by_write] functions holds, which they
    write and print. *)

From Stdlib Require Import Ascii.
From S2P Require Import Prelude Tst Process Explore Prog Checker Wp Alone Ends FileSys MemFd.

(** [available_flags] is a variable of memfd_create02.c. *)
Record globals := Globals { TST_RET : Z; TST_ERR : Z; g_errno : Z; available_flags : Z }.

Definition globals0 : globals := Globals 0 0 0 0.

Definition set_errno e g := Globals (TST_RET g) (TST_ERR g) e (available_flags g).
Definition set_TST r e g := Globals r e (g_errno g) (available_flags g).
Definition set_available_flags v g := Globals (TST_RET g) (TST_ERR g) (g_errno g) v.

Abbreviation P := (M mcall mreply globals).

(** ** The library *)

Definition tst_res : ttype -> string -> list arg -> P unit := tst_resm.

(** [tst_res(t | TERRNO, ...)] *)
Definition tst_res_errno (t : ttype) (fmt : string) (args : list arg) : P unit :=
  g ← get; tst_resm_errno t (g_errno g) fmt args.

(** [tst_res(t | TTERRNO, ...)] *)
Definition tst_res_tterrno (t : ttype) (fmt : string) (args : list arg) : P unit :=
  g ← get; tst_resm_errno t (TST_ERR g) fmt args.

Definition tst_brk {A} (t : ttype) (fmt : string) (args : list arg) : P A :=
  tst_res t fmt args ;; tst_exit.

Definition tst_brk_errno {A} (t : ttype) (fmt : string) (args : list arg) : P A :=
  tst_res_errno t fmt args ;; tst_exit.

Definition tst_brk_tterrno {A} (t : ttype) (fmt : string) (args : list arg) : P A :=
  tst_res_tterrno t fmt args ;; tst_exit.

(** A call of the C library: when it fails it sets [errno]. *)
Definition libc (c : mcall) : P mreply :=
  r ← call c;
  when (ret r =? -1) (modify (set_errno (errno r))) ;;
  mret r.

(** A call of a [safe_] function; [name] stands for the library's message. *)
Definition safe (name : string) (c : mcall) : P mreply :=
  r ← libc c;
  if ret r =? -1 then tst_brk_errno TBROK (name ++ "() failed") [] else mret r.

Definition safe_close (fd : Z) : P unit := safe "close" (MClose fd) ;; mret tt.

Definition safe_munmap (p len : Z) : P unit := safe "munmap" (MMunmap p len) ;; mret tt.

Definition safe_mmap (addr len prot flags fd off : Z) : P Z :=
  r ← safe "mmap" (MMmap addr len prot flags fd off); mret (ret r).

(** [safe_read] and [safe_write] with [len_strict]: a short transfer is a failure. *)
Definition safe_strict (name : string) (c : mcall) (n : Z) : P mreply :=
  r ← safe name c;
  if negb (ret r =? n) then tst_brk_errno TBROK (name ++ "() failed") [] else mret r.

(** [TEST(...)] around a call that sets [errno] when it returns -1. *)
Definition TEST (m : P Z) : P unit :=
  modify (set_errno 0) ;;
  r ← m;
  modify (fun g => set_TST r (g_errno g) g).

Definition ENOSYS : Z := 38.

Definition tst_syscall (c : mcall) : P Z :=
  r ← libc c;
  g ← get;
  if (ret r =? -1) && (g_errno g =? ENOSYS)
  then tst_brk TCONF "syscall(%d) __NR_memfd_create not supported" [Num 319]
  else mret (ret r).

(** The characters before the first null one. *)
Fixpoint before_null (s : string) : string :=
  match s with
  | EmptyString => EmptyString
  | String c s => if Ascii.eqb c zero then EmptyString else String c (before_null s)
  end.

(** The library runs [setup] and then the test function for every number below [tcnt]. *)
Definition run_tests (setup : P unit) (test : Z -> P unit) (tcnt : nat) : P unit :=
  (setup ;; for_from 0 tcnt test) ;; tst_exit.

(** ** Flags *)

Definition FLAGS_ALL_ARRAY : list Z := [MFD_CLOEXEC; MFD_ALLOW_SEALING].
Definition FLAGS_ALL_MASK : Z := Z.lor MFD_CLOEXEC MFD_ALLOW_SEALING.
Definition MFD_DEF_SIZE : Z := 8192.

(** [flags] is an [unsigned int]. *)
Definition sys_memfd_create (name : option string) (flags : Z) : P Z :=
  tst_syscall (MCreate name (uwrap 32 flags)).

Definition mfd_flags_available (flags : Z) : P bool :=
  TEST (sys_memfd_create (Some "dummy_call"%string) flags) ;;
  g ← get;
  if TST_RET g <? 0 then
    when (negb (TST_ERR g =? EINVAL)) (tst_brk_tterrno TBROK "memfd_create() failed" []) ;;
    mret false
  else
    safe_close (TST_RET g) ;;
    modify (fun g => set_TST (-1) (TST_ERR g) g) ;;
    mret true.

Fixpoint flags_among (flags2test : list Z) (flags_available : Z) : P Z :=
  match flags2test with
  | [] => mret flags_available
  | flag :: rest =>
      b ← mfd_flags_available flag;
      flags_among rest (if b : bool then Z.lor flags_available flag else flags_available)
  end.

Definition get_mfd_all_available_flags : P Z :=
  b ← mfd_flags_available 0;
  when (negb b) (tst_brk TCONF "memfd_create(0) not implemented" []) ;;
  flags_among FLAGS_ALL_ARRAY 0.

(** ** Size *)

Definition check_fallocate (fd mode offset len : Z) : P Z :=
  r ← libc (MFallocate fd mode offset len);
  let args := [Num fd; Num mode; Num offset; Num len] in
  when (ret r <? 0) (tst_brk_errno TFAIL "fallocate(%d, %d, %ld, %ld) failed" args) ;;
  tst_res TPASS "fallocate(%d, %d, %ld, %ld) succeeded" args ;;
  mret (ret r).

Definition check_fallocate_fail (fd mode offset len : Z) : P Z :=
  r ← libc (MFallocate fd mode offset len);
  let args := [Num fd; Num mode; Num offset; Num len] in
  (if 0 <=? ret r then tst_res TFAIL "fallocate(%d, %d, %ld, %ld) succeeded unexpectedly" args
   else tst_res_errno TPASS "fallocate(%d, %d, %ld, %ld) failed as expected" args) ;;
  mret (ret r).

Definition check_ftruncate (fd length : Z) : P unit :=
  safe "ftruncate" (MFtruncate fd length) ;;
  tst_res TPASS "ftruncate(%d, %ld) succeeded" [Num fd; Num length].

Definition check_ftruncate_fail (fd length : Z) : P unit :=
  r ← libc (MFtruncate fd length);
  if 0 <=? ret r then tst_res TFAIL "ftruncate(%d, %ld) succeeded unexpectedly" [Num fd; Num length]
  else tst_res_errno TPASS "ftruncate(%d, %ld) failed as expected" [Num fd; Num length].

Definition check_mfd_size (fd size : Z) : P unit :=
  r ← safe "fstat" (MFstat fd);
  when (negb (out r =? size)) (tst_brk TFAIL "fstat(%d, &st): unexpected file size" [Num fd]) ;;
  tst_res TPASS "fstat(%d, &st): file size is correct" [Num fd].

(** ** Creation *)

Definition check_mfd_new (name : string) (sz flags : Z) : P Z :=
  fd ← sys_memfd_create (Some name) flags;
  when (fd <? 0) (tst_brk_errno TBROK "memfd_create(%s, %d) failed" [Str name; Num flags]) ;;
  tst_res TPASS "memfd_create(%s, %d) succeeded" [Str name; Num flags] ;;
  check_ftruncate fd sz ;;
  mret fd.

Definition check_mfd_fail_new (name : string) (flags : Z) : P unit :=
  fd ← sys_memfd_create (Some name) flags;
  when (0 <=? fd)
    (safe_close fd ;;
     tst_brk TFAIL "memfd_create(%s, %d) succeeded unexpectedly" [Str name; Num flags]) ;;
  tst_res_errno TPASS "memfd_create(%s, %d) failed as expected" [Str name; Num flags].

(** ** Memory *)

Definition mmap_args (addr length prot flags fd offset : Z) : list arg :=
  [Num addr; Num length; Num prot; Num flags; Num fd; Num offset].

Definition check_mmap (addr length prot flags fd offset : Z) : P Z :=
  p ← safe_mmap addr length prot flags fd offset;
  tst_res TPASS "mmap(%p, %zu, %i, %i, %i, %li) succeeded" (mmap_args addr length prot flags fd offset) ;;
  mret p.

(** The mapping that was not expected stays: [addr] is unmapped. *)
Definition check_mmap_fail (addr length prot flags fd offset : Z) : P unit :=
  r ← libc (MMmap addr length prot flags fd offset);
  let args := mmap_args addr length prot flags fd offset in
  if negb (ret r =? MAP_FAILED) then
    safe_munmap addr length ;;
    tst_res TFAIL "mmap(%p, %zu, %i, %i, %i, %li) succeeded unexpectedly" args
  else tst_res_errno TPASS "mmap(%p, %zu, %i, %i, %i, %li) failed as expected" args.

Definition check_munmap (p length : Z) : P unit :=
  safe_munmap p length ;;
  tst_res TPASS "munmap(%p, %zu) succeeded" [Num p; Num length].

Definition check_mprotect (addr length prot : Z) : P unit :=
  r ← libc (MMprotect addr length prot);
  let args := [Num addr; Num length; Num prot] in
  when (ret r <? 0) (tst_brk_errno TFAIL "mprotect(%p, %zu, %d) failed" args) ;;
  tst_res TPASS "mprotect(%p, %zu, %d) succeeded" args.

(** ** Seals *)

Definition check_mfd_has_seals (fd seals : Z) : P unit :=
  r ← safe "fcntl" (MFcntl fd F_GET_SEALS 0);
  when (negb (ret r =? seals))
    (tst_brk TFAIL "fd %d doesn't have expected seals (%d expected %d)" [Num fd; Num (ret r); Num seals]) ;;
  tst_res TPASS "fd %d has expected seals (%d)" [Num fd; Num seals].

Definition CHECK_MFD_ADD_SEALS (fd seals : Z) : P Z :=
  r ← safe "fcntl" (MFcntl fd F_ADD_SEALS seals);
  tst_res TPASS "fcntl(%d, F_ADD_SEALS, %d) succeeded" [Num fd; Num seals] ;;
  mret (ret r).

Definition check_mfd_fail_add_seals (fd seals : Z) : P unit :=
  r ← libc (MFcntl fd F_ADD_SEALS seals);
  when (0 <=? ret r) (tst_brk TFAIL "fcntl(%d, F_ADD_SEALS) succeeded unexpectedly" [Num fd]) ;;
  tst_res_errno TPASS "fcntl(%d, F_ADD_SEALS, %d) failed as expected" [Num fd; Num seals].

(** ** Opening again *)

Definition check_mfd_open (fd flags mode : Z) : P Z :=
  let buf := proc_fd fd in
  r ← safe "open" (MOpen buf flags mode);
  tst_res TPASS "open(%s, %d, %d) succeeded" [Str buf; Num flags; Num mode] ;;
  mret (ret r).

Definition check_mfd_fail_open (fd flags mode : Z) : P unit :=
  let buf := proc_fd fd in
  r ← libc (MOpen buf flags mode);
  let args := [Str buf; Num flags; Num mode] in
  if 0 <? ret r then
    safe_close (ret r) ;;
    tst_res TFAIL "open(%s, %d, %d) succeeded unexpectedly" args
  else tst_res_errno TPASS "open(%s, %d, %d) failed as expected" args.

(** ** What a file allows *)

Definition PROT_RW : Z := Z.lor PROT_READ PROT_WRITE.
Definition PUNCH : Z := Z.lor FALLOC_FL_PUNCH_HOLE FALLOC_FL_KEEP_SIZE.
Definition O_RECREATE : Z := Z.lor O_RDWR (Z.lor O_CREAT O_TRUNC).

Definition map_unmap (fd prot flags : Z) : P unit :=
  p ← check_mmap 0 MFD_DEF_SIZE prot flags fd 0;
  check_munmap p MFD_DEF_SIZE.

Definition check_mfd_readable (fd : Z) : P unit :=
  r ← safe_strict "read" (MRead fd 16) 16;
  tst_res TPASS "read(%d, %s, %zu) succeeded" [Num fd; Str (before_null (text r)); Num 16] ;;
  map_unmap fd PROT_READ MAP_PRIVATE ;;
  map_unmap fd PROT_RW MAP_PRIVATE.

(** [*(char * )p = 0;] *)
Definition store (p : Z) : P unit := call_ (MStore p 0).

Definition zeros : string := String zero (String zero (String zero (String zero ""))).

Definition check_mfd_writeable (fd : Z) : P unit :=
  safe_strict "write" (MWrite fd zeros 4) 4 ;;
  tst_res TPASS "write(%d, %s, %d) succeeded" [Num fd; Str "\0\0\0\0"; Num 4] ;;
  p ← check_mmap 0 MFD_DEF_SIZE PROT_RW MAP_SHARED fd 0;
  store p ;;
  check_munmap p MFD_DEF_SIZE ;;
  p ← check_mmap 0 MFD_DEF_SIZE PROT_WRITE MAP_SHARED fd 0;
  store p ;;
  check_munmap p MFD_DEF_SIZE ;;
  p ← check_mmap 0 MFD_DEF_SIZE PROT_READ MAP_SHARED fd 0;
  check_mprotect p MFD_DEF_SIZE PROT_RW ;;
  store p ;;
  check_munmap p MFD_DEF_SIZE ;;
  check_fallocate fd PUNCH 0 MFD_DEF_SIZE ;; mret tt.

Definition check_mfd_non_writeable (fd : Z) : P unit :=
  TEST (r ← libc (MWrite fd "data" 4); mret (ret r)) ;;
  g ← get;
  (if TST_RET g <? 0 then
     when (negb (TST_ERR g =? EPERM)) (tst_brk_tterrno TFAIL "write() didn't fail as expected" [])
   else tst_brk TFAIL "write() succeeded unexpectedly" []) ;;
  tst_res_tterrno TPASS "write failed as expected" [] ;;
  check_mmap_fail 0 MFD_DEF_SIZE PROT_RW MAP_SHARED fd 0 ;;
  check_mmap_fail 0 MFD_DEF_SIZE PROT_WRITE MAP_SHARED fd 0 ;;
  r ← libc (MMmap 0 MFD_DEF_SIZE PROT_READ MAP_SHARED fd 0);
  let p := ret r in
  when (negb (p =? MAP_FAILED))
    (r ← libc (MMprotect p MFD_DEF_SIZE PROT_RW);
     when (0 <=? ret r) (tst_brk_errno TFAIL "mmap()+mprotect() succeeded unexpectedly" [])) ;;
  check_fallocate_fail fd PUNCH 0 MFD_DEF_SIZE ;; mret tt.

Definition check_mfd_shrinkable (fd : Z) : P unit :=
  check_ftruncate fd (MFD_DEF_SIZE / 2) ;;
  check_mfd_size fd (MFD_DEF_SIZE / 2) ;;
  fd2 ← check_mfd_open fd O_RECREATE 384;
  safe_close fd2 ;;
  check_mfd_size fd 0.

Definition check_mfd_non_shrinkable (fd : Z) : P unit :=
  check_ftruncate_fail fd (MFD_DEF_SIZE / 2) ;;
  check_mfd_fail_open fd O_RECREATE 384.

Definition check_mfd_growable (fd : Z) : P unit :=
  check_ftruncate fd (MFD_DEF_SIZE * 2) ;;
  check_mfd_size fd (MFD_DEF_SIZE * 2) ;;
  check_fallocate fd 0 0 (MFD_DEF_SIZE * 4) ;;
  check_mfd_size fd (MFD_DEF_SIZE * 4).

Definition check_mfd_non_growable (fd : Z) : P unit :=
  check_ftruncate_fail fd (MFD_DEF_SIZE * 2) ;;
  check_fallocate_fail fd 0 0 (MFD_DEF_SIZE * 4) ;; mret tt.

Section ByWrite.
Variable junk : string.

Definition big : Z := MFD_DEF_SIZE * 8.

Definition pwrite_args (fd : Z) : list arg := [Num fd; Str (before_null junk); Num big; Num 0].

Definition check_mfd_growable_by_write (fd : Z) : P unit :=
  r ← libc (MPwrite fd junk big 0);
  if negb (ret r =? big) then tst_res_errno TFAIL "pwrite(%d, %s, %zu, %d) failed" (pwrite_args fd)
  else
    tst_res TPASS "pwrite(%d, %s, %zu, %d) succeeded" (pwrite_args fd) ;;
    check_mfd_size fd big.

Definition check_mfd_non_growable_by_write (fd : Z) : P unit :=
  r ← libc (MPwrite fd junk big 0);
  if ret r =? big then
    tst_res TFAIL "pwrite(%d, %s, %zu, %d) didn't fail as expected" (pwrite_args fd)
  else tst_res TPASS "pwrite(%d, %s, %zu, %d) succeeded" (pwrite_args fd).
End ByWrite.

#[export] Instance forgiving_total p ts : Total (forgiving_kernel p ts).
Proof. by intros pid c w; eexists. Qed.

(** ** Calls, on any kernel *)

(** The [errno] of an answer after [errno = 0]. *)
Definition err_of (r : mreply) : Z := if ret r =? -1 then errno r else 0.

Section OneCall.
Context {W : Type} {K : Kernel mcall mreply W}.
Implicit Types (g : globals) (w : W) (log : list entry).

Lemma sx_libc c g w log r w' (Φ : globals -> mreply -> W -> list entry -> Prop) :
  k_do main_pid c w = Some (r, w') ->
  Φ (if ret r =? -1 then set_errno (errno r) g else g) r w' log -> sx (libc c) g w log Φ.
Proof.
  intros E H. unfold libc. apply sx_bind. eapply sx_call; [exact E|].
  apply sx_bind, sx_when; intros Hr; rewrite Hr in H.
  - by apply sx_modify, sx_ret.
  - by apply sx_ret.
Qed.

(** [sys_memfd_create] returns the answer, if there is such a call. *)
Lemma sx_sys_create name flags g w log r w' (Φ : globals -> Z -> W -> list entry -> Prop) :
  k_do main_pid (MCreate name (uwrap 32 flags)) w = Some (r, w') ->
  ~ (ret r = -1 /\ errno r = ENOSYS) ->
  Φ (if ret r =? -1 then set_errno (errno r) g else g) (ret r) w' log ->
  sx (sys_memfd_create name flags) g w log Φ.
Proof.
  intros E Hn H. unfold sys_memfd_create, tst_syscall.
  apply sx_bind. eapply sx_libc; [exact E|]. apply sx_bind, sx_get.
  destruct (Z.eqb_spec (ret r) (-1)) as [Hr|Hr]; cbn [g_errno set_errno andb] in *.
  - destruct (Z.eqb_spec (errno r) ENOSYS); [by destruct Hn|]. by apply sx_ret.
  - by apply sx_ret.
Qed.

(** [TEST(sys_memfd_create(...))] stores it. *)
Lemma sx_test_create name flags g w log r w' (Φ : globals -> unit -> W -> list entry -> Prop) :
  k_do main_pid (MCreate name (uwrap 32 flags)) w = Some (r, w') -> err_of r <> ENOSYS ->
  Φ (set_TST (ret r) (err_of r) (set_errno (err_of r) g)) tt w' log ->
  sx (TEST (sys_memfd_create name flags)) g w log Φ.
Proof.
  intros E Hn H. unfold TEST. apply sx_bind, sx_modify, sx_bind.
  unfold err_of in *. eapply sx_sys_create; [exact E | |].
  - intros [Hr He]. by rewrite Hr in Hn.
  - apply sx_modify. by destruct (ret r =? -1).
Qed.
End OneCall.

(** ** What the checks yield, on any kernel *)

#[export] Hint Extern 1 (good_type _ = _) => reflexivity : yields.

(** One more function of the library: unfold it and follow its structure. *)
Ltac yields_def f := unfold f; cbv zeta; yields_auto.

Section Library.
Context {W : Type} {K : Kernel mcall mreply W}.

Lemma yields_res t fmt args : good_type t = true -> yields [t] (tst_res t fmt args).
Proof. apply yields_resm. Qed.

Lemma yields_res_errno t fmt args : good_type t = true -> yields [t] (tst_res_errno t fmt args).
Proof. intros Ht. yields_def tst_res_errno. Qed.

Lemma yields_res_tterrno t fmt args : good_type t = true -> yields [t] (tst_res_tterrno t fmt args).
Proof. intros Ht. yields_def tst_res_tterrno. Qed.

Lemma spoils_res t fmt args : good_type t = false -> spoils (tst_res t fmt args).
Proof. apply spoils_resm. Qed.

Lemma spoils_res_errno t fmt args : good_type t = false -> spoils (tst_res_errno t fmt args).
Proof. intros Ht. unfold tst_res_errno. spoils_auto. Qed.

Lemma spoils_brk {A} t fmt args : good_type t = false -> spoils (tst_brk t fmt args : P A).
Proof. intros Ht. by apply spoils_exit, spoils_res. Qed.

Lemma spoils_brk_errno {A} t fmt args : good_type t = false -> spoils (tst_brk_errno t fmt args : P A).
Proof. intros Ht. by apply spoils_exit, spoils_res_errno. Qed.

Lemma spoils_brk_tterrno {A} t fmt args : good_type t = false -> spoils (tst_brk_tterrno t fmt args : P A).
Proof. intros Ht. unfold tst_brk_tterrno, tst_res_tterrno. spoils_auto. Qed.
End Library.

#[export] Hint Resolve yields_res yields_res_errno yields_res_tterrno spoils_res spoils_res_errno
  spoils_brk spoils_brk_errno spoils_brk_tterrno : yields.

Section Calls.
Context {W : Type} {K : Kernel mcall mreply W} `{!Total K}.

Lemma yields_libc c : yields [] (libc c).
Proof. yields_def libc. Qed.
#[local] Hint Resolve yields_libc : yields.

Lemma yields_libc_ret c : yields [] (r ← libc c; mret (ret r)).
Proof. yields_auto. Qed.

Lemma yields_safe name c : yields [] (safe name c).
Proof. yields_def safe. Qed.
#[local] Hint Resolve yields_safe : yields.

Lemma yields_safe_strict name c n : yields [] (safe_strict name c n).
Proof. yields_def safe_strict. Qed.

Lemma yields_safe_close fd : yields [] (safe_close fd).
Proof. yields_def safe_close. Qed.

Lemma yields_safe_munmap p len : yields [] (safe_munmap p len).
Proof. yields_def safe_munmap. Qed.

Lemma yields_safe_mmap addr len prot flags fd off : yields [] (safe_mmap addr len prot flags fd off).
Proof. yields_def safe_mmap. Qed.

Lemma yields_TEST m : yields [] m -> yields [] (TEST m).
Proof. intros Hm. yields_def TEST. Qed.

Lemma yields_tst_syscall c : yields [] (tst_syscall c).
Proof. yields_def tst_syscall. Qed.

Lemma yields_create name flags : yields [] (sys_memfd_create name flags).
Proof. apply yields_tst_syscall. Qed.
End Calls.

#[export] Hint Resolve yields_libc yields_libc_ret yields_safe yields_safe_strict yields_safe_close yields_safe_munmap
  yields_safe_mmap yields_TEST yields_create : yields.

Section Checks.
Context {W : Type} {K : Kernel mcall mreply W} `{!Total K}.

Lemma yields_flags_available flags : yields [] (mfd_flags_available flags).
Proof. yields_def mfd_flags_available. Qed.

Lemma yields_fallocate fd mode off len : yields [TPASS] (check_fallocate fd mode off len).
Proof. yields_def check_fallocate. Qed.

Lemma yields_fallocate_fail fd mode off len : yields [TPASS] (check_fallocate_fail fd mode off len).
Proof. yields_def check_fallocate_fail. Qed.

Lemma yields_ftruncate fd len : yields [TPASS] (check_ftruncate fd len).
Proof. yields_def check_ftruncate. Qed.

Lemma yields_ftruncate_fail fd len : yields [TPASS] (check_ftruncate_fail fd len).
Proof. yields_def check_ftruncate_fail. Qed.

Lemma yields_size fd size : yields [TPASS] (check_mfd_size fd size).
Proof. yields_def check_mfd_size. Qed.

Lemma yields_mmap addr len prot flags fd off : yields [TPASS] (check_mmap addr len prot flags fd off).
Proof. yields_def check_mmap. Qed.

Lemma yields_mmap_fail addr len prot flags fd off : yields [TPASS] (check_mmap_fail addr len prot flags fd off).
Proof. yields_def check_mmap_fail. Qed.

Lemma yields_munmap p len : yields [TPASS] (check_munmap p len).
Proof. yields_def check_munmap. Qed.

Lemma yields_mprotect addr len prot : yields [TPASS] (check_mprotect addr len prot).
Proof. yields_def check_mprotect. Qed.

Lemma yields_has_seals fd seals : yields [TPASS] (check_mfd_has_seals fd seals).
Proof. yields_def check_mfd_has_seals. Qed.

Lemma yields_add_seals fd seals : yields [TPASS] (CHECK_MFD_ADD_SEALS fd seals).
Proof. yields_def CHECK_MFD_ADD_SEALS. Qed.

Lemma yields_fail_add_seals fd seals : yields [TPASS] (check_mfd_fail_add_seals fd seals).
Proof. yields_def check_mfd_fail_add_seals. Qed.

Lemma yields_open fd flags mode : yields [TPASS] (check_mfd_open fd flags mode).
Proof. yields_def check_mfd_open. Qed.

Lemma yields_fail_open fd flags mode : yields [TPASS] (check_mfd_fail_open fd flags mode).
Proof. yields_def check_mfd_fail_open. Qed.
End Checks.

#[export] Hint Resolve yields_flags_available yields_fallocate yields_fallocate_fail yields_ftruncate
  yields_ftruncate_fail yields_size yields_mmap yields_mmap_fail yields_munmap yields_mprotect
  yields_has_seals yields_add_seals yields_fail_add_seals yields_open yields_fail_open : yields.

Section Allows.
Context {W : Type} {K : Kernel mcall mreply W} `{!Total K}.

Lemma yields_new name sz flags : yields (passes 2) (check_mfd_new name sz flags).
Proof. yields_def check_mfd_new. Qed.

Lemma yields_map_unmap fd prot flags : yields (passes 2) (map_unmap fd prot flags).
Proof. yields_def map_unmap. Qed.
#[local] Hint Resolve yields_map_unmap : yields.

Lemma yields_readable fd : yields (passes 5) (check_mfd_readable fd).
Proof. yields_def check_mfd_readable. Qed.

Lemma yields_store p : yields [] (store p).
Proof. unfold store, call_. yields_auto. Qed.
#[local] Hint Resolve yields_store : yields.

Lemma yields_writeable fd : yields (passes 9) (check_mfd_writeable fd).
Proof. yields_def check_mfd_writeable. Qed.

Lemma yields_non_writeable fd : yields (passes 4) (check_mfd_non_writeable fd).
Proof. yields_def check_mfd_non_writeable. Qed.

Lemma yields_shrinkable fd : yields (passes 4) (check_mfd_shrinkable fd).
Proof. yields_def check_mfd_shrinkable. Qed.

Lemma yields_non_shrinkable fd : yields (passes 2) (check_mfd_non_shrinkable fd).
Proof. yields_def check_mfd_non_shrinkable. Qed.

Lemma yields_growable fd : yields (passes 4) (check_mfd_growable fd).
Proof. yields_def check_mfd_growable. Qed.

Lemma yields_non_growable fd : yields (passes 2) (check_mfd_non_growable fd).
Proof. yields_def check_mfd_non_growable. Qed.

Lemma yields_growable_by_write junk fd : yields (passes 2) (check_mfd_growable_by_write junk fd).
Proof. yields_def check_mfd_growable_by_write. Qed.

Lemma yields_non_growable_by_write junk fd : yields (passes 1) (check_mfd_non_growable_by_write junk fd).
Proof. yields_def check_mfd_non_growable_by_write. Qed.
End Allows.

#[export] Hint Resolve yields_new yields_readable yields_writeable yields_non_writeable
  yields_shrinkable yields_non_shrinkable yields_growable yields_non_growable
  yields_growable_by_write yields_non_growable_by_write : yields.

(** ** The results of the checks *)

Section Results.
Context {W : Type} {K : Kernel mcall mreply W} `{!Total K}.

(** What [m] returns, if it does, satisfies [Q]. *)
Definition returns {A} (Q : A -> Prop) (m : P A) : Prop := forall g w log,
  ex m g w log (fun _ a _ _ => Q a) (fun _ _ => True).

Lemma returns_ret {A} (Q : A -> Prop) x : Q x -> returns Q (mret x).
Proof. intros H g w log. by apply ex_sx, sx_ret. Qed.

Lemma returns_bind {A B} (R : A -> Prop) (Q : B -> Prop) (m : P A) f :
  returns R m -> (forall x, R x -> returns Q (f x)) -> returns Q (m ≫= f).
Proof.
  intros Hm Hf g w log. apply ex_bind. eapply ex_mono; [| |apply Hm]; [|done].
  intros g' a w' log' Ha. by apply Hf.
Qed.

Lemma returns_any {A} l (m : P A) : yields l m -> returns (fun _ => True) m.
Proof. intros H g w log. eapply ex_mono; [| |apply H]; done. Qed.

(** What follows [m] is only about its own result. *)
Lemma returns_then {A B} l (Q : B -> Prop) (m : P A) f :
  yields l m -> (forall x, returns Q (f x)) -> returns Q (m ≫= f).
Proof. intros Hm Hf. eapply returns_bind; [by eapply returns_any | auto]. Qed.

Lemma returns_brk {A} (Q : A -> Prop) (m : P unit) l : yields l m -> returns Q (m ;; tst_exit).
Proof. intros Hm. eapply returns_then; [exact Hm|]. intros _ g w log. by apply ex_exit. Qed.

(** A check that ends the process. *)
Lemma returns_check (b : bool) (m : P unit) l : yields l m -> returns (fun _ => b = false) (when b (m ;; tst_exit)).
Proof. intros Hm. destruct b; [by eapply returns_brk | by apply returns_ret]. Qed.

Lemma returns_safe name c : returns (fun r => ret r <> -1) (safe name c).
Proof.
  unfold safe. eapply returns_then; [apply yields_libc|]. intros r.
  destruct (Z.eqb_spec (ret r) (-1)); [|by apply returns_ret].
  eapply (returns_brk _ _ [TBROK]). apply yields_spoils. eauto with yields.
Qed.

Lemma land_or_flag v flag :
  Z.land v FLAGS_ALL_MASK = v -> flag ∈ FLAGS_ALL_ARRAY -> Z.land (Z.lor v flag) FLAGS_ALL_MASK = Z.lor v flag.
Proof.
  intros Hv Hf. rewrite Z.land_lor_distr_l, Hv. f_equal.
  unfold FLAGS_ALL_ARRAY in Hf. set_solver.
Qed.

Lemma returns_flags_among flags v :
  (forall f, f ∈ flags -> f ∈ FLAGS_ALL_ARRAY) -> Z.land v FLAGS_ALL_MASK = v ->
  returns (fun v => Z.land v FLAGS_ALL_MASK = v) (flags_among flags v).
Proof.
  revert v. induction flags as [|f flags IH]; intros v Hf Hv; cbn [flags_among]; [by apply returns_ret|].
  eapply returns_then; [apply yields_flags_available|]. intros b.
  apply IH; [intros f' H; apply Hf; by right|]. destruct b; [|done]. apply land_or_flag; [done|apply Hf; by left].
Qed.

(** C40: On any kernel that answers every call: when they return, check_mfd_new gives a
    descriptor that is not negative, check_mfd_open one that is not -1, check_mmap an
    address that is not MAP_FAILED, and get_mfd_all_available_flags a set of flags
    of FLAGS_ALL_MASK. *)
Theorem results_valid name sz flags fd mode addr len prot mflags off :
  returns (fun v => 0 <= v) (check_mfd_new name sz flags)
  /\ returns (fun v => v <> -1) (check_mfd_open fd flags mode)
  /\ returns (fun v => v <> MAP_FAILED) (check_mmap addr len prot mflags fd off)
  /\ returns (fun v => Z.land v FLAGS_ALL_MASK = v) get_mfd_all_available_flags.
Proof.
  repeat split.
  - unfold check_mfd_new. eapply returns_then; [apply yields_create|]. intros v.
    eapply returns_bind; [apply (returns_check _ _ [TBROK]), yields_spoils; eauto with yields|].
    intros u Hv. apply Z.ltb_ge in Hv.
    do 2 (eapply returns_then; [eauto with yields | intros _]). by apply returns_ret.
  - unfold check_mfd_open. eapply returns_bind; [apply returns_safe|]. intros r Hr.
    eapply returns_then; [eauto with yields | intros _]. by apply returns_ret.
  - unfold check_mmap, safe_mmap. eapply returns_bind.
    { eapply returns_bind; [apply returns_safe|]. intros r Hr. exact (returns_ret (fun v => v <> MAP_FAILED) _ Hr). }
    intros v Hv. eapply returns_then; [eauto with yields | intros _]. by apply returns_ret.
  - unfold get_mfd_all_available_flags. eapply returns_then; [apply yields_flags_available|]. intros b.
    eapply returns_then; [apply (yields_if []); [apply yields_spoils|]; eauto with yields|]. intros _.
    by apply returns_flags_among.
Qed.
End Results.

Lemma results_valid_witness :
  let K := forgiving_kernel some_pages (fun _ => 0) in
  returns (K := K) (fun v => 0 <= v) (check_mfd_new "a" 1 0)
  /\ returns (K := K) (fun v => v <> -1) (check_mfd_open 3 0 0)
  /\ returns (K := K) (fun v => v <> MAP_FAILED) (check_mmap 0 1 1 1 3 0)
  /\ returns (K := K) (fun v => Z.land v FLAGS_ALL_MASK = v) get_mfd_all_available_flags.
Proof. exact (results_valid (K := forgiving_kernel some_pages (fun _ => 0)) "a" 1 0 3 0 0 1 1 1 0). Defined.
