(* ===== verification/Memfd01.v ===== *)
(** * memfd_create01.c: sealing

    Model of [src/original tests/memfd_create/memfd_create01.c]: nine tests, each on a
    new file, of what the seals of a file forbid and of who shares them. *)

From S2P Require Import Prelude Tst Process Explore Prog Checker Wp Alone Ends FileSys MemFd MemfdCommon.

Definition SHRINK_WRITE : Z := Z.lor F_SEAL_SHRINK F_SEAL_WRITE.
Definition SHRINK_GROW : Z := Z.lor F_SEAL_SHRINK F_SEAL_GROW.

Definition add (fd seals : Z) : P unit := CHECK_MFD_ADD_SEALS fd seals ;; mret tt.

Definition test_basic (fd : Z) : P unit :=
  check_mfd_has_seals fd 0 ;;
  add fd SHRINK_WRITE ;;
  check_mfd_has_seals fd SHRINK_WRITE ;;
  add fd SHRINK_WRITE ;;
  check_mfd_has_seals fd SHRINK_WRITE ;;
  add fd (Z.lor F_SEAL_GROW F_SEAL_SEAL) ;;
  check_mfd_has_seals fd (Z.lor SHRINK_GROW (Z.lor F_SEAL_WRITE F_SEAL_SEAL)) ;;
  check_mfd_fail_add_seals fd F_SEAL_GROW ;;
  check_mfd_fail_add_seals fd 0.

Definition test_no_sealing_without_flag (fd : Z) : P unit :=
  check_mfd_has_seals fd F_SEAL_SEAL ;;
  check_mfd_fail_add_seals fd (Z.lor SHRINK_GROW F_SEAL_WRITE) ;;
  check_mfd_has_seals fd F_SEAL_SEAL.

Section Memfd01.
Variable junk : string.

Definition test_seal_write (fd : Z) : P unit :=
  check_mfd_has_seals fd 0 ;;
  add fd F_SEAL_WRITE ;;
  check_mfd_has_seals fd F_SEAL_WRITE ;;
  check_mfd_readable fd ;;
  check_mfd_non_writeable fd ;;
  check_mfd_shrinkable fd ;;
  check_mfd_growable fd ;;
  check_mfd_non_growable_by_write junk fd.

Definition test_seal_shrink (fd : Z) : P unit :=
  check_mfd_has_seals fd 0 ;;
  add fd F_SEAL_SHRINK ;;
  check_mfd_has_seals fd F_SEAL_SHRINK ;;
  check_mfd_readable fd ;;
  check_mfd_writeable fd ;;
  check_mfd_non_shrinkable fd ;;
  check_mfd_growable fd ;;
  check_mfd_growable_by_write junk fd.

Definition test_seal_grow (fd : Z) : P unit :=
  check_mfd_has_seals fd 0 ;;
  add fd F_SEAL_GROW ;;
  check_mfd_has_seals fd F_SEAL_GROW ;;
  check_mfd_readable fd ;;
  check_mfd_writeable fd ;;
  check_mfd_shrinkable fd ;;
  check_mfd_non_growable fd ;;
  check_mfd_non_growable_by_write junk fd.

Definition test_seal_resize (fd : Z) : P unit :=
  check_mfd_has_seals fd 0 ;;
  add fd SHRINK_GROW ;;
  check_mfd_has_seals fd SHRINK_GROW ;;
  check_mfd_readable fd ;;
  check_mfd_writeable fd ;;
  check_mfd_non_shrinkable fd ;;
  check_mfd_non_growable fd ;;
  check_mfd_non_growable_by_write junk fd.

Definition SAFE_DUP (fd : Z) : P Z := r ← safe "dup" (MDup fd); mret (ret r).

Definition test_share_dup (fd : Z) : P unit :=
  check_mfd_has_seals fd 0 ;;
  fd2 ← SAFE_DUP fd;
  check_mfd_has_seals fd2 0 ;;
  add fd F_SEAL_WRITE ;;
  check_mfd_has_seals fd F_SEAL_WRITE ;;
  check_mfd_has_seals fd2 F_SEAL_WRITE ;;
  add fd2 F_SEAL_SHRINK ;;
  check_mfd_has_seals fd SHRINK_WRITE ;;
  check_mfd_has_seals fd2 SHRINK_WRITE ;;
  add fd F_SEAL_SEAL ;;
  check_mfd_has_seals fd (Z.lor SHRINK_WRITE F_SEAL_SEAL) ;;
  check_mfd_has_seals fd2 (Z.lor SHRINK_WRITE F_SEAL_SEAL) ;;
  check_mfd_fail_add_seals fd F_SEAL_GROW ;;
  check_mfd_fail_add_seals fd2 F_SEAL_GROW ;;
  check_mfd_fail_add_seals fd F_SEAL_SEAL ;;
  check_mfd_fail_add_seals fd2 F_SEAL_SEAL ;;
  safe_close fd2 ;;
  check_mfd_fail_add_seals fd F_SEAL_GROW.

Definition test_share_mmap (fd : Z) : P unit :=
  check_mfd_has_seals fd 0 ;;
  p ← safe_mmap 0 MFD_DEF_SIZE PROT_RW MAP_SHARED fd 0;
  check_mfd_fail_add_seals fd F_SEAL_WRITE ;;
  check_mfd_has_seals fd 0 ;;
  add fd F_SEAL_SHRINK ;;
  check_mfd_has_seals fd F_SEAL_SHRINK ;;
  safe_munmap p MFD_DEF_SIZE ;;
  p ← safe_mmap 0 MFD_DEF_SIZE PROT_READ MAP_PRIVATE fd 0;
  add fd F_SEAL_WRITE ;;
  check_mfd_has_seals fd SHRINK_WRITE ;;
  safe_munmap p MFD_DEF_SIZE.

(** The last descriptor is left open in the local variable [fd]. *)
Definition test_share_open (fd : Z) : P unit :=
  check_mfd_has_seals fd 0 ;;
  fd2 ← check_mfd_open fd O_RDWR 0;
  add fd F_SEAL_WRITE ;;
  check_mfd_has_seals fd F_SEAL_WRITE ;;
  check_mfd_has_seals fd2 F_SEAL_WRITE ;;
  add fd2 F_SEAL_SHRINK ;;
  check_mfd_has_seals fd SHRINK_WRITE ;;
  check_mfd_has_seals fd2 SHRINK_WRITE ;;
  safe_close fd ;;
  fd ← check_mfd_open fd2 O_RDONLY 0;
  check_mfd_fail_add_seals fd F_SEAL_SEAL ;;
  check_mfd_has_seals fd SHRINK_WRITE ;;
  check_mfd_has_seals fd2 SHRINK_WRITE ;;
  safe_close fd2.

Record tcase := TCase { flags : Z; func : Z -> P unit; desc : string }.

Definition tcases : list tcase := [
  TCase MFD_ALLOW_SEALING test_basic "Basic tests + set/get seals";
  TCase 0 test_no_sealing_without_flag "Disabled sealing";
  TCase MFD_ALLOW_SEALING test_seal_write "Write seal";
  TCase MFD_ALLOW_SEALING test_seal_shrink "Shrink seal";
  TCase MFD_ALLOW_SEALING test_seal_grow "Grow seal";
  TCase MFD_ALLOW_SEALING test_seal_resize "Resize seal";
  TCase MFD_ALLOW_SEALING test_share_dup "Seals shared for dup";
  TCase MFD_ALLOW_SEALING test_share_mmap "Seals shared for mmap";
  TCase MFD_ALLOW_SEALING test_share_open "Seals shared for open"
].

Definition run_case (tc : tcase) : P unit :=
  tst_res TINFO "%s" [Str (desc tc)] ;;
  fd ← check_mfd_new "ltp_memfd_create01" MFD_DEF_SIZE (flags tc);
  func tc fd ;;
  safe_close fd.

(** [tcases[n]]; the library calls it with [n] inside of the table. *)
Definition verify_memfd_create (n : Z) : P unit :=
  match tcases !! Z.to_nat n with
  | Some tc => run_case tc
  | None => mret tt
  end.

Definition setup : P unit :=
  b ← mfd_flags_available MFD_ALLOW_SEALING;
  when (negb b) (tst_brk_errno TCONF "memfd_create(%u) not implemented" [Num MFD_ALLOW_SEALING]).

Definition main : P unit := run_tests setup verify_memfd_create (length tcases).
End Memfd01.

(** ** What it reports, on any kernel *)

(** The number of checks of each test; there are two more for the new file. *)
Definition checks : list nat := [9; 3; 21; 25; 24; 22; 16; 7; 12]%nat.

Definition block (n : nat) : list ttype := TINFO :: passes (2 + n).

Definition expected : list ttype := concat (map block checks).

Section Yields.
Context {W : Type} {K : Kernel mcall mreply W} `{!Total K}.
Variable junk : string.

Lemma yields_add fd seals : yields [TPASS] (add fd seals).
Proof. yields_def add. Qed.
#[local] Hint Resolve yields_add : yields.

Lemma yields_dup fd : yields [] (SAFE_DUP fd).
Proof. yields_def SAFE_DUP. Qed.
#[local] Hint Resolve yields_dup : yields.

Lemma yields_case tc n :
  (forall fd, yields (passes n) (func tc fd)) -> yields (block n) (run_case tc).
Proof.
  intros H. unfold run_case, block. eapply yields_bind; [by apply yields_res | reflexivity |]. intros _.
  eapply yields_bind; [apply yields_new | reflexivity |]. intros fd.
  eapply yields_bind; [apply H | by rewrite app_nil_r |]. intros _. apply yields_safe_close.
Qed.

Lemma yields_tests :
  Forall2 (fun n tc => yields (block n) (run_case tc)) checks (tcases junk).
Proof.
  repeat apply Forall2_cons_2; [..|apply Forall2_nil_2];
    apply yields_case; intros fd; cbn [func];
    [ yields_def test_basic | yields_def test_no_sealing_without_flag
    | yields_def test_seal_write | yields_def test_seal_shrink | yields_def test_seal_grow
    | yields_def test_seal_resize | yields_def test_share_dup | yields_def test_share_mmap
    | yields_def test_share_open ].
Qed.

Lemma yields_setup : yields [] setup.
Proof. yields_def setup. Qed.

Lemma yields_verify i :
  0 <= i < 0 + Z.of_nat 9 ->
  yields (from_option block [] (checks !! Z.to_nat i)) (verify_memfd_create junk i).
Proof.
  intros Hi. unfold verify_memfd_create.
  destruct (lookup_lt_is_Some_2 (tcases junk) (Z.to_nat i)) as [tc Htc]; [cbn; lia|].
  destruct (Forall2_lookup_r _ _ _ _ _ yields_tests Htc) as (n & -> & Hn). by rewrite Htc.
Qed.

(** C10: On any kernel, as long as every call returns, memfd_create01 ends; then some report
    is a failure, or says that the test cannot run, or the reports are those of all
    checks of the nine tests, in order, each of them passed. *)
Theorem memfd01_verdict (g : globals) (w : W) :
  inevitable (fun s => s_info (shp s) = ∅
      /\ (fine (log_of main_pid (shp s)) = true <-> types (log_of main_pid (shp s)) = expected))
    (boot main_pid (main junk) g w).
Proof.
  assert (yields expected (setup ;; for_from 0 9 (verify_memfd_create junk))) as H.
  { eapply yields_bind; [apply yields_setup | reflexivity |]. intros _.
    exact (yields_for (fun i => from_option block [] (checks !! Z.to_nat i)) _ 9 0 yields_verify). }
  assert (He : forallb good_type expected = true) by reflexivity.
  eapply inevitable_mono; [|exact (yields_run expected _ g w H)].
  intros s [H1 H2]. split; [done|]. split; [done|]. intros E. by rewrite <- fine_types, E.
Qed.
End Yields.

Lemma memfd01_verdict_witness :
  inevitable (H := forgiving_kernel some_pages (fun _ => 0)) (fun s => s_info (shp s) = ∅
      /\ (fine (log_of main_pid (shp s)) = true <-> types (log_of main_pid (shp s)) = expected))
    (boot main_pid (main "") globals0 (m_init some_pages)).
Proof. exact (memfd01_verdict (K := forgiving_kernel some_pages (fun _ => 0)) "" globals0 (m_init some_pages)). Defined.

(** ** What it detects *)

(** The rules about seals. *)
Definition seal_rules (e : rules) : bool :=
  r_noseal e && r_seal e && r_reader e && r_busy e && r_shrink e && r_grow e && r_alloc e
  && r_append e && r_write e && r_punch e && r_map e && r_protect e.

Section Rules.
Variable p : mparams.
Variable ts : list entry -> Z.
Variable junk : string.

(** The log is clean if and only if all rules about seals are enforced. *)
#[local] Abbreviation judged e :=
  (judged_by (seal_rules e)
    (run_end (K := memfd_kernel_with p e ts) 2000 (observe (main junk globals0)) (m_init p))).

Lemma all_judged b1 b2 b3 :
  both (fun b4 => both (fun b5 => both (fun b6 => both (fun b7 => both (fun b8 => both (fun b9 =>
  both (fun b10 => both (fun b11 => both (fun b12 => both (fun b13 => both (fun b14 =>
  both (fun b15 => judged (Rules b1 b2 b3 b4 b5 b6 b7 b8 b9 b10 b11 b12 b13 b14 b15))))))))))))) = true.
Proof. vm_compute. reflexivity. Qed.

Lemma judged_all e : judged e = true.
Proof.
  destruct e as [b1 b2 b3 b4 b5 b6 b7 b8 b9 b10 b11 b12 b13 b14 b15].
  pose proof (all_judged b1 b2 b3) as H.
  apply (both_spec _ b4), (both_spec _ b5), (both_spec _ b6), (both_spec _ b7), (both_spec _ b8),
    (both_spec _ b9), (both_spec _ b10), (both_spec _ b11), (both_spec _ b12), (both_spec _ b13),
    (both_spec _ b14), (both_spec _ b15) in H.
  exact H.
Qed.

(** C9: On a kernel that enforces any subset of the fifteen rules about names, flags and
    seals and otherwise behaves as documented, memfd_create01 ends, and its reports
    hold no failure if and only if all twelve rules about seals are among them: no
    combination of missing rules hides another. *)
Theorem memfd01_exact (e : rules) :
  inevitable (H := memfd_kernel_with p e ts)
    (fun s => s_info (shp s) = ∅ /\ clean (log_of main_pid (shp s)) = seal_rules e)
    (boot main_pid (main junk) globals0 (m_init p)).
Proof.
  destruct (judged_by_spec _ _ (judged_all e)) as (w & l & E & Hl).
  eapply inevitable_mono; [|exact (run_end_ends _ _ _ _ _ _ E)].
  intros s [H1 ->]. split; [exact H1 | exact Hl].
Qed.
End Rules.

(** ** A correct run *)

Lemma run_types p ts junk :
  types <$> (snd <$> run_end (K := memfd_kernel p ts) 2000 (observe (main junk globals0)) (m_init p))
  = Some expected.
Proof. vm_compute. reflexivity. Qed.

(** On every documented system memfd_create01 ends, and its reports are exactly the
    descriptions of the nine tests, each followed by one pass for each of its checks. *)
Theorem memfd01_passes {W} (K : Kernel mcall mreply W) (w0 : W) `{!MemfdPlatform K w0} junk :
  inevitable (fun s => passed main_pid (fun l => bool_decide (types l = expected)) s = true)
    (boot main_pid (main junk) globals0 w0).
Proof.
  apply (refines_run K (memfd_kernel mp_params tst_status) w0 (m_init mp_params)); [exact mp_init|].
  pose proof (run_types mp_params tst_status junk) as Ht.
  destruct (run_end 2000 _ _) as [[w l]|] eqn:E; [|discriminate Ht]. injection Ht as Ht.
  apply (run_end_passed _ _ _ _ _ _ _ E); [|by apply bool_decide_eq_true_2].
  exact (fine_clean _ (types_fine _ _ Ht eq_refl)).
Qed.

Lemma memfd01_passes_witness :
  inevitable (H := memfd_kernel some_pages (fun _ => 0))
    (fun s => passed main_pid (fun l => bool_decide (types l = expected)) s = true)
    (boot main_pid (main "") globals0 (m_init some_pages)).
Proof. exact (memfd01_passes (memfd_kernel some_pages (fun _ => 0)) (m_init some_pages) ""). Defined.
