(* ===== verification/Memfd02.v ===== *)
(** * memfd_create02.c: names and flags

    Model of [src/original tests/memfd_create/memfd_create02.c]: fourteen calls of
    memfd_create with valid and invalid names and flags.  [beyond] is what follows
    the array [buf] in memory, which has no final null character. *)

From Stdlib Require Import Ascii.
From S2P Require Import Prelude Tst Process Explore Prog Checker Wp Alone Ends FileSys MemFd MemfdCommon.

(** [memset(s, 0xff, n)], and what follows. *)
Fixpoint filled (n : nat) (rest : string) : string :=
  match n with O => rest | S n => String "255" (filled n rest) end.

Section Memfd02.
Variable beyond : string.

(** The arrays as [setup] leaves them. *)
Definition buf : string := filled 2048 beyond.
Definition term_buf : string := filled 2047 "".

Record tcase := TCase { descr : string; memfd_name : option string; flags : Z; exp_err : Z }.

(** [flags] is an [int]. *)
Definition tcases : list tcase := [
  TCase "invalid name fail 1" None 0 EFAULT;
  TCase "invalid name fail 2" (Some buf) 0 EINVAL;
  TCase "invalid name fail 3" (Some term_buf) 0 EINVAL;
  TCase "invalid flags fail 1" (Some "test") (-500) EINVAL;
  TCase "invalid flags fail 2" (Some "test") 256 EINVAL;
  TCase "invalid flags fail 3" (Some "test") (Z.lnot MFD_CLOEXEC) EINVAL;
  TCase "invalid flags fail 4" (Some "test") (Z.lnot MFD_ALLOW_SEALING) EINVAL;
  TCase "invalid flags fail 5" (Some "test") (Z.lnot 0) EINVAL;
  TCase "invalid flags fail 6" (Some "test") (to_int 2147483648) EINVAL;
  TCase "valid flags 1 pass" (Some "test") MFD_CLOEXEC 0;
  TCase "valid flags 2 pass" (Some "test") MFD_ALLOW_SEALING 0;
  TCase "valid flags 3 pass" (Some "test") (Z.lor MFD_CLOEXEC MFD_ALLOW_SEALING) 0;
  TCase "valid flags 4 pass" (Some "test") 0 0;
  TCase "valid flags 5 pass" (Some "") 0 0
]%string.

Definition setup : P unit :=
  flags ← get_mfd_all_available_flags;
  modify (set_available_flags flags).

Definition run_case (tc : tcase) : P unit :=
  let needed_flags := Z.land (flags tc) FLAGS_ALL_MASK in
  g ← get;
  if negb (Z.land (available_flags g) needed_flags =? needed_flags) then
    tst_res TCONF "test '%s' skipped, flag not implemented" [Str (descr tc)]
  else
    TEST (sys_memfd_create (memfd_name tc) (flags tc)) ;;
    g ← get;
    (if negb (TST_ERR g =? exp_err tc) then tst_brk TFAIL "test '%s'" [Str (descr tc)]
     else tst_res TPASS "test '%s'" [Str (descr tc)]) ;;
    when (0 <? TST_RET g)
      (safe_close (TST_RET g) ;; modify (fun g => set_TST (-1) (TST_ERR g) g)).

Definition verify_memfd_create_errno (n : Z) : P unit :=
  match tcases !! Z.to_nat n with
  | Some tc => run_case tc
  | None => mret tt
  end.

Definition main : P unit := run_tests setup verify_memfd_create_errno (length tcases).
End Memfd02.

(** ** One call, on any kernel *)

Section Verdict.
Context {W : Type} {K : Kernel mcall mreply W} `{!Total K}.
Implicit Types (g : globals) (w : W) (log : list entry).

(** On any kernel that has memfd_create and answers every call, a case of memfd_create02
    whose flags are available first reports a pass if the call leaves exactly the errno of
    the table (0 for a success) and a failure otherwise; whether the call returned a
    descriptor does not count. *)
Theorem errno_verdict (tc : tcase) g w log r w' :
  Z.land (available_flags g) (Z.land (flags tc) FLAGS_ALL_MASK) = Z.land (flags tc) FLAGS_ALL_MASK ->
  k_do main_pid (MCreate (memfd_name tc) (uwrap 32 (flags tc))) w = Some (r, w') ->
  err_of r <> ENOSYS ->
  let t := if err_of r =? exp_err tc then TPASS else TFAIL in
  let reported log' := exists l, log' = log ++ Entry t None "test '%s'" [Str (descr tc)] :: l in
  ex (run_case tc) g w log (fun _ _ _ => reported) (fun _ => reported).
Proof.
  intros Hf E Hn. cbv zeta. unfold run_case. apply ex_bind, ex_sx, sx_get.
  rewrite Hf, Z.eqb_refl. cbn [negb]. apply ex_bind, ex_sx.
  eapply sx_test_create; [exact E | done |]. apply ex_bind, ex_sx, sx_get.
  cbn [TST_ERR TST_RET set_TST]. apply ex_bind. destruct (err_of r =? exp_err tc); cbn [negb].
  - apply ex_sx, sx_resm, ex_when; intros _; [|by exists []].
    apply ex_bind. eapply ex_mono; [| |apply yields_safe_close].
    + intros g1 x w1 log1 (l & -> & _). apply ex_sx, sx_modify. exists l. by rewrite <- app_assoc.
    + intros w1 log1 (l & -> & _). exists l. by rewrite <- app_assoc.
  - apply ex_bind, ex_sx, sx_resm, ex_exit. by exists [].
Qed.
End Verdict.

Definition null_case : tcase := TCase "invalid name fail 1" None 0 EFAULT.

Lemma errno_verdict_witness :
  let K := forgiving_kernel some_pages (fun _ => 0) in
  let reported log' := exists l, log' = [] ++ Entry TPASS None "test '%s'" [Str "invalid name fail 1"] :: l in
  ex (K := K) (run_case null_case) globals0 (m_init some_pages) [] (fun _ _ _ => reported) (fun _ => reported).
Proof.
  exact (errno_verdict (K := forgiving_kernel some_pages (fun _ => 0)) null_case globals0
    (m_init some_pages) [] (mfails EFAULT) (m_init some_pages) eq_refl eq_refl ltac:(discriminate)).
Defined.

(** ** Runs *)

Section Rules.
Variable p : mparams.
Variable ts : list entry -> Z.
Variable beyond : string.

#[local] Abbreviation judged e :=
  (judged_by (r_flags e && r_fault e && r_name e)
    (run_end (K := memfd_kernel_with p e ts) 1000 (observe (main beyond globals0)) (m_init p))).

Lemma all_judged4 b4 b5 b6 b7 b8 b9 b10 b11 b12 b13 b14 b15 :
  both (fun b1 => both (fun b2 => both (fun b3 =>
    judged (Rules b1 b2 b3 b4 b5 b6 b7 b8 b9 b10 b11 b12 b13 b14 b15)))) = true.
Proof. vm_compute. reflexivity. Qed.

(** C39: on a kernel that enforces any subset of the fifteen rules, memfd_create02 ends, and
    its reports hold no failure if and only if unknown flags, null names and long
    names are all refused with the documented errors. *)
Theorem memfd02_exact (e : rules) :
  inevitable (H := memfd_kernel_with p e ts)
    (fun s => s_info (shp s) = ∅ /\ clean (log_of main_pid (shp s)) = r_flags e && r_fault e && r_name e)
    (boot main_pid (main beyond) globals0 (m_init p)).
Proof.
  assert (judged e = true) as Hj.
  { destruct e as [b1 b2 b3 b4 b5 b6 b7 b8 b9 b10 b11 b12 b13 b14 b15].
    pose proof (all_judged4 b4 b5 b6 b7 b8 b9 b10 b11 b12 b13 b14 b15) as H.
    apply (both_spec _ b1), (both_spec _ b2), (both_spec _ b3) in H. exact H. }
  destruct (judged_by_spec _ _ Hj) as (w & l & E & Hl).
  eapply inevitable_mono; [|exact (run_end_ends _ _ _ _ _ _ E)].
  intros s [H1 ->]. split; [exact H1 | exact Hl].
Qed.
End Rules.
