(* ===== verification/Memfd03.v ===== *)
(** * memfd_create03.c: files of huge pages

    Model of [src/original tests/memfd_create/memfd_create03.c]: writing to such a file,
    unmapping less than a page of it, and mapping more pages than there are.  The
    variables have the types of the code: [hps] is a [long], [unmap_size] an [int],
    [i] an [unsigned int]; a number of pages times their size, in bytes of memory that
    exists, does not overflow.  The quotation marks and final newlines of messages are
    left out. *)

From S2P Require Import Prelude Tst Process Explore Prog Checker Wp Alone Ends FileSys MemFd MemfdCommon.

(** SAFE_READ_MEMINFO *)
Definition read_meminfo (item : string) : P Z := r ← safe "meminfo" (MMeminfo item); mret (ret r).

Definition check_huge_mmapable (fd size : Z) : P Z :=
  mem ← safe_mmap 0 size PROT_WRITE MAP_PRIVATE fd 0;
  store mem ;;
  tst_res TINFO "mmap(%p, %lu, %d, %d, %d, %d) succeeded" (mmap_args 0 size PROT_WRITE MAP_PRIVATE fd 0) ;;
  mret mem.

Definition test_str : string := "LTP".

Definition test_write_protect (fd : Z) : P unit :=
  let n := strlen test_str in
  let args := [Num fd; Str test_str; Num n] in
  r ← libc (MWrite fd test_str n);
  if ret r <? 0 then
    g ← get;
    if negb (g_errno g =? EINVAL)
    then tst_res_errno TFAIL "write(%d, %s, %zu) didn't fail as expected" args
    else tst_res TPASS "write(%d, %s, %zu) failed as expected" args
  else tst_res TFAIL "write(%d, %s, %zu) succeeded unexpectedly" args.

(** One round of the loop over [i]; [inr false] is the return after a failure. *)
Definition try_unmap (mem unmap_size hps i : Z) : P (Z + bool) :=
  if i <? hps then
    r ← libc (MMunmap mem i);
    let args := [Num mem; Num (i / 1024)] in
    if ret r =? -1 then
      g ← get;
      if g_errno g =? EINVAL then
        tst_res TINFO "munmap(%p, %dkB) failed as expected" args ;;
        mret (inl (uwrap 32 (i + unmap_size)))
      else tst_res_errno TFAIL "munmap(%p, %dkB) failed unexpectedly" args ;; mret (inr false)
    else tst_res TFAIL "munmap(%p, %dkB) suceeded unexpectedly" args ;; mret (inr false)
  else mret (inr true).

Definition unmap_size_of (hps : Z) : Z := to_int (Z.quot hps 4).

Definition unmap_loop (mem hps : Z) : P bool :=
  let unmap_size := unmap_size_of hps in
  while_ (try_unmap mem unmap_size hps) (uwrap 32 unmap_size).

Definition test_def_pagesize (fd : Z) : P unit :=
  k ← read_meminfo "Hugepagesize:";
  let hps := Z.shiftl k 10 in
  mem ← check_huge_mmapable fd hps;
  b ← unmap_loop mem hps;
  when b
    (safe_munmap mem hps ;;
     tst_res TPASS "munmap() fails for page sizes less than %ldkB" [Num (Z.quot hps 1024)]).

Definition test_max_hugepages (fd : Z) : P unit :=
  free_pages ← read_meminfo "HugePages_Free:";
  k ← read_meminfo "Hugepagesize:";
  let hps := Z.shiftl k 10 in
  mem ← check_huge_mmapable fd (free_pages * hps);
  new_fd ← sys_memfd_create (Some "new_file"%string) MFD_HUGETLB;
  when (new_fd <? 0) (tst_brk_errno TFAIL "memfd_create() failed" []) ;;
  tst_res TINFO "memfd_create() succeeded" [] ;;
  r ← libc (MMmap 0 hps 0 MAP_PRIVATE new_fd 0);
  let args := mmap_args 0 hps 0 MAP_PRIVATE new_fd 0 in
  (if ret r =? MAP_FAILED then
     g ← get;
     if g_errno g =? ENOMEM
     then tst_res TPASS "mmap(%p, %lu, %d, %d, %d, %d) failed as expected" args
     else tst_res_errno TFAIL "mmap(%p, %lu, %d, %d, %d, %d) failed unexpectedly" args
   else
     tst_res TFAIL "mmap(%p, %lu, %d, %d, %d, %d) succeeded" args ;;
     safe_munmap (ret r) hps) ;;
  safe_close new_fd ;;
  safe_munmap mem (free_pages * hps).

Record tcase := TCase { func : Z -> P unit; desc : string }.

Definition tcases : list tcase := [
  TCase test_write_protect "--TESTING WRITE CALL IN HUGEPAGES--";
  TCase test_def_pagesize "--TESTING PAGE SIZE OF CREATED FILE--";
  TCase test_max_hugepages "--TESTING HUGEPAGE ALLOCATION LIMIT--"
].

Definition run_case (tc : tcase) : P unit :=
  tst_res TINFO "%s" [Str (desc tc)] ;;
  fd ← sys_memfd_create (Some "test_file"%string) MFD_HUGETLB;
  when (fd <? 0) (tst_brk_errno TFAIL "memfd_create() failed" []) ;;
  tst_res TINFO "memfd_create() succeeded" [] ;;
  func tc fd ;;
  safe_close fd.

Definition memfd_huge_controller (n : Z) : P unit :=
  match tcases !! Z.to_nat n with
  | Some tc => run_case tc
  | None => mret tt
  end.

Definition main : P unit := run_tests (mret tt) memfd_huge_controller (length tcases).

(** ** The loop *)

Section Loop.
Context {W : Type} {K : Kernel mcall mreply W}.
Implicit Types (g : globals) (w : W) (log : list entry).

(** [munmap] of part of a page always fails with [EINVAL] in worlds in [I]. *)
Definition refuses (I : W -> Prop) (mem hps : Z) : Prop := forall i w, I w -> 0 <= i < hps ->
  exists r w', k_do main_pid (MMunmap mem i) w = Some (r, w') /\ ret r = -1 /\ errno r = EINVAL /\ I w'.

Lemma refused_round I mem unmap_size hps i g w log (Φ : globals -> Z + bool -> W -> list entry -> Prop) :
  refuses I mem hps -> I w -> 0 <= i < hps ->
  (forall g' w' e, I w' -> e_type e = TINFO -> Φ g' (inl (uwrap 32 (i + unmap_size))) w' (log ++ [e])) ->
  sx (try_unmap mem unmap_size hps i) g w log Φ.
Proof.
  intros Hr Hw Hi H. destruct (Hr i w Hw Hi) as (r & w' & E & Hret & He & Hw').
  unfold try_unmap. rewrite (proj2 (Z.ltb_lt i hps)) by lia.
  apply sx_bind. eapply sx_libc; [exact E|]. rewrite Hret. cbn [Z.eqb Pos.eqb]. cbv iota.
  change (-1 =? -1) with true. cbv iota.
  apply sx_bind, sx_get. cbn [g_errno set_errno]. rewrite He. change (EINVAL =? EINVAL) with true.
  apply sx_bind, sx_resm, sx_ret. by apply H.
Qed.

Lemma unmap_size_small hps : 0 <= hps < 2 ^ 32 -> unmap_size_of hps = hps / 4.
Proof.
  intros H. unfold unmap_size_of. rewrite Z.quot_div_nonneg by lia.
  apply swrap_small; [done|]. change (2 ^ (32 - 1)) with 2147483648. change (2 ^ 32) with 4294967296 in H.
  pose proof (Z.div_lt_upper_bound hps 4 2147483648). pose proof (Z.div_pos hps 4). lia.
Qed.

Lemma unmap_rounds (I : W -> Prop) mem n g w log :
  0 < n < 2 ^ 30 -> refuses I mem (4 * n) -> I w ->
  sx (unmap_loop mem (4 * n)) g w log (fun _ b w' log' =>
    b = true /\ I w' /\ types log' = types log ++ replicate 3 TINFO).
Proof.
  intros Hn Hr Hw. change (2 ^ 30) with 1073741824 in Hn. unfold unmap_loop.
  rewrite unmap_size_small by (change (2 ^ 32) with 4294967296; lia).
  assert (4 * n / 4 = n) as -> by (rewrite Z.mul_comm; by apply Z.div_mul).
  assert (Hu : forall k, 0 <= k < 4294967296 -> uwrap 32 k = k) by (intros k Hk; by apply uwrap_small).
  rewrite Hu by lia.
  do 3 (apply sx_while; apply (refused_round I); [done | done | lia |]; clear w Hw;
        intros ? w ? Hw ?; rewrite Hu by lia).
  apply sx_while. unfold try_unmap. rewrite (proj2 (Z.ltb_ge _ _)) by lia.
  apply sx_ret. split; [done|]. split; [done|]. unfold types. rewrite !map_app, <- !app_assoc. cbn.
  by repeat f_equal.
Qed.
(** Where huge pages have a size [4 n] below 4 GiB, the loop of test_def_pagesize makes
    three rounds, with [n], [2 n] and [3 n] bytes, and ends, when every munmap of part
    of a page fails with EINVAL. *)
Theorem unmap_loop_ends (I : W -> Prop) mem n g w log :
  0 < n < 2 ^ 30 -> refuses I mem (4 * n) -> I w ->
  sx (unmap_loop mem (4 * n)) g w log (fun _ b w' log' =>
    b = true /\ I w' /\ types log' = types log ++ replicate 3 TINFO).
Proof. apply unmap_rounds. Qed.
End Loop.

Section Diverges.
Context {W : Type} {K : Kernel mcall mreply W}.

(** C24: Where huge pages have 16 GiB, [unmap_size] is 0 as an [int], and the loop of
    test_def_pagesize never ends when every munmap of part of a page fails with EINVAL. *)
Theorem unmap_loop_never_ends (I : W -> Prop) mem (g : globals) w log P :
  refuses I mem (2 ^ 34) -> I w ->
  ~ inevitable P (at_ main_pid (unmap_loop mem (2 ^ 34)) g (shape_at w log)).
Proof.
  intros Hr Hw. unfold unmap_loop. change (unmap_size_of (2 ^ 34)) with 0. change (uwrap 32 0) with 0.
  apply (while_never_ends _ (fun i _ sh => i = 0 /\ exists w log, sh = shape_at w log /\ I w)); [|by eauto].
  intros i g1 sh1 [-> (w1 & log1 & -> & H1)].
  eapply wp_mono; [|apply (refused_round I mem 0 (2 ^ 34) 0 g1 w1 log1
    (fun _ r w' _ => r = inl 0 /\ I w')); [done | done | done | done]].
  intros g2 r sh2 (w2 & log2 & -> & -> & H2). exists 0. split; [done|]. split; [done|]. eauto.
Qed.
End Diverges.

(** ** Huge pages of the documented system *)

Section Documented.
Variable p : mparams.
Hypothesis shift_ok : 12 <= mp_shift p <= 31.
Notation size := (huge_size p).
Implicit Types (w : mstate).

Lemma size_page : exists k, 0 < k /\ size = k * PAGE_SIZE.
Proof.
  exists (2 ^ (mp_shift p - 12)). split; [by apply Z.pow_pos_nonneg; lia|].
  unfold huge_size, PAGE_SIZE. rewrite Z.shiftl_1_l. change 4096 with (2 ^ 12).
  rewrite <- Z.pow_add_r by lia. f_equal. lia.
Qed.

Lemma size_range : 4096 <= size <= 2 ^ 31.
Proof.
  unfold huge_size. rewrite Z.shiftl_1_l. change 4096 with (2 ^ 12).
  split; apply Z.pow_le_mono_r; lia.
Qed.

Lemma round_up_mul n k : 0 < n -> round_up n (k * n) = k * n.
Proof.
  intros Hn. unfold round_up. replace (k * n + n - 1) with (k * n + (n - 1)) by lia.
  rewrite Z.div_add_l by lia. rewrite (Z.div_small (n - 1)) by lia. by rewrite Z.add_0_r.
Qed.

(** Nothing is open or mapped, and [n] pages are free. *)
Record idle (n : Z) w : Prop := Idle {
  id_fds : m_fds w = [];
  id_maps : m_maps w = [];
  id_free : m_free w = n;
  id_top : m_top w mod PAGE_SIZE = 0 /\ 0 < m_top w
}.

(** [k] huge pages are mapped at [mem], and [n] are free. *)
Record mapped (mem k n : Z) w : Prop := Mapped {
  mp_maps : exists i, m_maps w = [(mem, Mapping i (k * size) PROT_WRITE false false true)];
  mp_free : m_free w = n;
  mp_mem : mem mod PAGE_SIZE = 0 /\ 0 < mem
}.

Lemma unmap_part mem n w i :
  mapped mem 1 n w -> 0 <= i < size -> m_munmap p mem i w = failing EINVAL w.
Proof.
  intros [[j Hm] _ [Hmem Hpos]] Hi. pose proof size_range as Hs. unfold m_munmap.
  rewrite Hmem, Hm. cbn [existsb mm_huge mm_len fst snd Z.eqb negb orb andb].
  destruct (Z.leb_spec i 0) as [Hz|Hz]; [done|]. cbn [orb].
  rewrite (proj2 (Z.ltb_lt mem (mem + i))) by lia. rewrite (proj2 (Z.ltb_lt mem _)) by lia.
  rewrite (Z.mod_small i) by lia. rewrite (proj2 (Z.eqb_neq i 0)) by lia.
  by rewrite andb_false_r.
Qed.

Lemma unmap_all mem k n w :
  0 < k -> mapped mem k n w ->
  m_munmap p mem (k * size) w = (mok 0, set_mfree (n + k) (set_mmaps [] w)).
Proof.
  intros Hk [[j Hm] Hf [Hmem Hpos]]. pose proof size_range as Hs.
  destruct size_page as (q & Hq & Eq). unfold m_munmap.
  rewrite Hmem, Hm. cbn [existsb List.filter foldr mm_huge mm_len fst snd Z.eqb negb orb andb].
  rewrite (proj2 (Z.leb_gt (k * size) 0)) by nia.
  replace (mem - mem) with 0 by lia. rewrite Zmod_0_l, Z.mod_mul by lia. cbn [Z.eqb andb negb orb].
  rewrite !andb_false_r. cbn [orb].
  assert (round_up PAGE_SIZE (k * size) = k * size) as ->.
  { rewrite Eq, Z.mul_assoc. by apply round_up_mul. }
  rewrite !Z.leb_refl. cbn [andb negb foldr mm_huge mm_len fst snd].
  rewrite Z.div_mul by lia. rewrite Hf. do 2 f_equal. lia.
Qed.

Lemma map_pages fd k prot w o i f :
  lookup_fd fd w = Some (o, MOpened i O_RDWR 0, i, f) -> mf_huge f = true -> 0 < k ->
  m_mmap p all_rules (k * size) prot MAP_PRIVATE fd 0 w
  = if m_free w <? k then failing ENOMEM w
    else add_mapping (Mapping i (k * size) prot false false true) (set_mfree (m_free w - k) w).
Proof.
  intros Hl Hf Hk. pose proof size_range as Hs. unfold m_mmap, on_fd. rewrite Hl, Hf.
  rewrite round_up_mul by lia. rewrite (proj2 (Z.leb_gt (k * size) 0)) by nia.
  rewrite Zmod_0_l. cbn [orb negb Z.eqb readable writable mo_mode andb].
  change (MAP_PRIVATE =? MAP_SHARED) with false. change (O_RDWR =? O_WRONLY) with false.
  cbn [negb andb]. by rewrite Z.div_mul by lia.
Qed.
(** ** A correct run *)

Variable f0 : Z -> bool.
Hypothesis sizes : mp_huge p = Some f0.
Variable ts : list entry -> Z.
Notation K := (memfd_kernel p ts).

(** The world after the creation of a file of huge pages. *)
Definition created w : mstate :=
  (open_file (m_next w) O_RDWR
     (set_mnext (m_next w + 1) (update_file (m_next w) (MFile 0 F_SEAL_SEAL true []) w))).2.

Lemma create_huge name w :
  longer MFD_NAME_MAX name = false ->
  m_create p all_rules (Some name) (uwrap 32 MFD_HUGETLB) w = (mok (lowest (m_fds w)), created w).
Proof.
  intros Hn. unfold m_create. change (uwrap 32 MFD_HUGETLB) with MFD_HUGETLB.
  change (default ""%string (Some name)) with name. rewrite Hn. unfold has_size. by rewrite sizes.
Qed.

Lemma created_fds w : m_fds (created w) = tset (lowest (m_fds w)) (m_next w + 1) (m_fds w).
Proof. done. Qed.

Lemma created_lookup w :
  lookup_fd (lowest (m_fds w)) (created w)
  = Some (m_next w + 1, MOpened (m_next w) O_RDWR 0, m_next w, MFile 0 F_SEAL_SEAL true []).
Proof.
  unfold lookup_fd. rewrite created_fds. unfold tset at 1. cbn [tget]. rewrite Z.eqb_refl.
  unfold created, open_file; cbn [m_opens set_mnext set_mfds set_mopens snd update_file set_mfiles m_next m_files].
  unfold tset. cbn [tget]. rewrite Z.eqb_refl. cbn [mo_file tget]. by rewrite Z.eqb_refl.
Qed.

(** Only descriptor 3 is open. *)
Definition one_open (n : Z) w : Prop := exists o, idle n (set_mfds [] w) /\ m_fds w = [(3, o)].

Lemma types_snoc log e : types (log ++ [e]) = types log ++ [e_type e].
Proof. apply types_app. Qed.

Lemma sx_close fd g w log (Φ : globals -> unit -> mstate -> list entry -> Prop) o :
  tget fd (m_fds w) = Some o -> Φ g tt (set_mfds (tdel fd (m_fds w)) w) log ->
  sx (K := K) (safe_close fd) g w log Φ.
Proof.
  intros Ho H. unfold safe_close, safe. apply sx_bind, sx_bind.
  eapply sx_libc; [cbn [k_do memfd_kernel memfd_kernel_with m_do]; rewrite Ho; reflexivity|].
  cbn. apply sx_ret. by apply sx_ret.
Qed.

(** A case whose function adds the reports [l]. *)
Lemma case_spec tc l n g w log :
  idle n w ->
  (forall g' log', sx (K := K) (func tc 3) g' (created w) log' (fun _ _ w2 log2 =>
     one_open n w2 /\ types log2 = types log' ++ l)) ->
  sx (K := K) (run_case tc) g w log (fun _ _ w' log' =>
    idle n w' /\ types log' = types log ++ [TINFO; TINFO] ++ l).
Proof.
  intros Hi Hf. unfold run_case. apply sx_bind, sx_resm, sx_bind.
  eapply sx_sys_create; [cbn [k_do memfd_kernel memfd_kernel_with m_do]; by rewrite create_huge
                        | by intros [_ [=]] |].
  rewrite (id_fds _ _ Hi). cbn [ret mok]. change (lowest []) with 3.
  apply sx_bind, sx_when; [done|]. intros _. apply sx_bind, sx_resm, sx_bind.
  eapply sx_mono; [|apply Hf]. intros g1 [] w1 log1 [(o & Ho & E) Hl].
  eapply sx_close; [rewrite E; reflexivity|]. rewrite E.
  split; [exact Ho|]. rewrite Hl, !types_snoc, <- !app_assoc. done.
Qed.
Lemma created_open n w : idle n w -> one_open n (created w).
Proof. intros [H1 H2 H3 H4]. exists (m_next w + 1). split; [by split|]. by rewrite created_fds, H1. Qed.

Lemma created_3 n w :
  idle n w -> lookup_fd 3 (created w)
    = Some (m_next w + 1, MOpened (m_next w) O_RDWR 0, m_next w, MFile 0 F_SEAL_SEAL true []).
Proof. intros H. pose proof (created_lookup w) as E. by rewrite (id_fds _ _ H) in E. Qed.

Ltac doc_call := cbn [k_do memfd_kernel memfd_kernel_with m_do].

Lemma write_protect_ok n g w log :
  idle n w ->
  sx (K := K) (test_write_protect 3) g (created w) log (fun _ _ w2 log2 =>
    one_open n w2 /\ types log2 = types log ++ [TPASS]).
Proof.
  intros Hi. unfold test_write_protect. apply sx_bind. eapply sx_libc.
  { doc_call. unfold m_write, on_fd. rewrite (created_3 _ _ Hi). reflexivity. }
  cbn [fst snd ret mfails]. change (-1 <? 0) with true. apply sx_bind, sx_get. cbn. apply sx_resm.
  split; [by apply created_open | by rewrite types_snoc].
Qed.

(** Mapping [k] pages of the file behind [fd]. *)
Lemma mmapable_ok fd k n o i f g w log (Φ : globals -> Z -> mstate -> list entry -> Prop) :
  lookup_fd fd w = Some (o, MOpened i O_RDWR 0, i, f) -> mf_huge f = true -> 0 < k ->
  m_maps w = [] -> m_free w = n -> k <= n -> m_top w mod PAGE_SIZE = 0 /\ 0 < m_top w ->
  (forall w' e, e_type e = TINFO -> mapped (m_top w) k (n - k) w' -> m_fds w' = m_fds w ->
     m_opens w' = m_opens w -> m_files w' = m_files w -> m_next w' = m_next w ->
     m_top w' mod PAGE_SIZE = 0 /\ 0 < m_top w' -> Φ g (m_top w) w' (log ++ [e])) ->
  sx (K := K) (check_huge_mmapable fd (k * huge_size p)) g w log Φ.
Proof.
  intros Hl Hf Hk Hm Hn Hle Ht H. pose proof (size_range) as Hs. destruct size_page as (q & Hq & Eq).
  unfold check_huge_mmapable, safe_mmap, safe. apply sx_bind, sx_bind, sx_bind. eapply sx_libc.
  { doc_call. rewrite (map_pages fd k PROT_WRITE w o i f Hl Hf Hk), Hn.
    rewrite (proj2 (Z.ltb_ge n k)) by done. reflexivity. }
  cbn [ret mok m_top set_mfree]. rewrite (proj2 (Z.eqb_neq (m_top w) (-1))) by lia.
  apply sx_ret, sx_ret. unfold store, call_. apply sx_bind, sx_bind. eapply sx_call.
  { doc_call. unfold m_store. cbn [m_maps set_mtop set_mmaps set_mfree m_top]. unfold tset. cbn [tget].
    rewrite Z.eqb_refl. reflexivity. }
  apply sx_ret, sx_bind, sx_resm, sx_ret. apply H; try done.
  - split; [|done|done]. exists i. cbn [m_maps set_mtop set_mmaps set_mfree m_top].
    by rewrite Hm.
  - cbn [m_top set_mtop set_mmaps set_mfree mm_len]. rewrite Eq, Z.mul_assoc, Z.mod_add by done.
    split; [tauto | nia].
Qed.
Lemma meminfo_size g w log (Φ : globals -> Z -> mstate -> list entry -> Prop) :
  Φ g (Z.shiftr (huge_size p) 10) w log -> sx (K := K) (read_meminfo "Hugepagesize:") g w log Φ.
Proof.
  intros H. pose proof size_range as Hs. unfold read_meminfo, safe. apply sx_bind, sx_bind.
  eapply sx_libc; [doc_call; reflexivity|]. cbn [m_meminfo String.eqb fst ret mok].
  change (ret (m_meminfo p "Hugepagesize:" w).1) with (Z.shiftr (huge_size p) 10).
  rewrite (proj2 (Z.eqb_neq _ (-1))) by (rewrite Z.shiftr_div_pow2 by done; pose proof (Z.div_pos (huge_size p) (2 ^ 10)); lia).
  apply sx_ret. by apply sx_ret.
Qed.

Lemma size_kb : Z.shiftl (Z.shiftr (huge_size p) 10) 10 = huge_size p.
Proof.
  unfold huge_size. rewrite Z.shiftr_shiftl_l by lia. rewrite Z.shiftl_shiftl by lia. f_equal. lia.
Qed.

Lemma size_quarters : huge_size p = 4 * 2 ^ (mp_shift p - 2) /\ 0 < 2 ^ (mp_shift p - 2) < 2 ^ 30.
Proof.
  split.
  - unfold huge_size. rewrite Z.shiftl_1_l. change 4 with (2 ^ 2). rewrite <- Z.pow_add_r by lia. f_equal. lia.
  - split; [by apply Z.pow_pos_nonneg; lia | apply Z.pow_lt_mono_r; lia].
Qed.

Lemma refuses_part mem n w :
  mapped mem 1 n w -> refuses (K := K) (eq w) mem (huge_size p).
Proof.
  intros Hm i w' <- Hi. exists (mfails EINVAL), w. split; [|done].
  doc_call. by rewrite (unmap_part mem n w i Hm Hi).
Qed.

Lemma def_pagesize_ok n g w log :
  idle n w -> 1 <= n ->
  sx (K := K) (test_def_pagesize 3) g (created w) log (fun _ _ w2 log2 =>
    one_open n w2 /\ types log2 = types log ++ replicate 4 TINFO ++ [TPASS]).
Proof.
  intros Hi Hn. destruct (created_open _ _ Hi) as (o & [_ Hm Hf Ht] & Hfd).
  unfold test_def_pagesize. apply sx_bind, meminfo_size. rewrite size_kb. cbv zeta.
  apply sx_bind. rewrite <- (Z.mul_1_l (huge_size p)) at 1.
  eapply mmapable_ok; [by apply (created_3 n) | done | done | exact Hm | exact Hf | done | exact Ht |].
  intros w1 e He Hmap Hfd1 _ _ _ Ht1. apply sx_bind.
  destruct size_quarters as [Eq Hq].
  rewrite Eq at 1. eapply sx_mono; [|apply (unmap_rounds (eq w1)); [exact Hq | | done]].
  - intros g2 b w2 log2 (-> & <- & Hl). cbn [when]. rewrite <- (Z.mul_1_l (huge_size p)) at 1.
    unfold safe_munmap, safe. apply sx_bind, sx_bind, sx_bind. eapply sx_libc.
    { doc_call. rewrite (unmap_all _ 1 (n - 1) w1) by done. reflexivity. }
    cbn. apply sx_ret, sx_ret, sx_resm. split.
    + exists o. split; [|by rewrite <- Hfd, <- Hfd1]. split; try done. cbn. lia.
    + rewrite types_snoc, Hl, types_snoc, He, <- !app_assoc. done.
  - rewrite <- Eq. by eapply refuses_part.
Qed.
Lemma meminfo_free n g w log (Φ : globals -> Z -> mstate -> list entry -> Prop) :
  m_free w = n -> 0 <= n -> Φ g n w log -> sx (K := K) (read_meminfo "HugePages_Free:") g w log Φ.
Proof.
  intros Hf Hn H. unfold read_meminfo, safe. apply sx_bind, sx_bind.
  eapply sx_libc; [doc_call; reflexivity|].
  cbn [ret mok]. rewrite Hf. rewrite (proj2 (Z.eqb_neq n (-1))) by lia.
  apply sx_ret, sx_ret. exact H.
Qed.

Lemma max_hugepages_ok n g w log :
  idle n w -> 1 <= n ->
  sx (K := K) (test_max_hugepages 3) g (created w) log (fun _ _ w2 log2 =>
    one_open n w2 /\ types log2 = types log ++ [TINFO; TINFO; TPASS]).
Proof.
  intros Hi Hn. destruct (created_open _ _ Hi) as (o & [_ Hm Hf Ht] & Hfd).
  unfold test_max_hugepages. apply sx_bind. eapply (meminfo_free n); [exact Hf | lia |].
  apply sx_bind, meminfo_size. rewrite size_kb. cbv zeta. apply sx_bind.
  eapply mmapable_ok; [by apply (created_3 n) | done | lia | exact Hm | exact Hf | lia | exact Ht |].
  intros w1 e He [[j Hmaps] Hfree Hmem] Hfd1 _ _ _ Ht1. rewrite Hfd in Hfd1.
  apply sx_bind. eapply sx_sys_create; [doc_call; by rewrite create_huge | by intros [_ [=]] |].
  rewrite Hfd1. cbn [ret mok]. change (lowest [(3, o)]) with 4. change (4 <? 0) with false. cbn [when].
  apply sx_bind, sx_ret, sx_bind, sx_resm, sx_bind. eapply sx_libc.
  { doc_call. rewrite <- (Z.mul_1_l (huge_size p)).
    pose proof (created_lookup w1) as E. rewrite Hfd1 in E. change (lowest [(3, o)]) with 4 in E.
    rewrite (map_pages 4 1 0 _ _ _ _ E) by done.
    change (m_free (created w1)) with (m_free w1). rewrite Hfree, Z.sub_diag. reflexivity. }
  cbn [ret mfails fst snd]. change (-1 =? MAP_FAILED) with true. change (-1 =? -1) with true. cbv iota.
  apply sx_bind, sx_bind, sx_get. cbn [g_errno set_errno errno]. change (ENOMEM =? ENOMEM) with true.
  apply sx_resm, sx_bind. eapply sx_close.
  { rewrite created_fds, Hfd1. reflexivity. }
  unfold safe_munmap, safe. apply sx_bind, sx_bind. eapply sx_libc.
  { doc_call. rewrite (unmap_all (m_top (created w)) n 0); [reflexivity | lia |].
    split; [by exists j | by rewrite <- (Z.sub_diag n) | exact Hmem]. }
  cbn. apply sx_ret, sx_ret. split.
  - exists o. split; [by split; try done; cbn; lia|]. cbn. by rewrite Hfd1.
  - by rewrite !types_snoc, He, <- !app_assoc.
Qed.
Definition reports_of (l : list ttype) : list ttype := [TINFO; TINFO] ++ l.

Definition expected : list ttype :=
  reports_of [TPASS] ++ reports_of (replicate 4 TINFO ++ [TPASS]) ++ reports_of [TINFO; TINFO; TPASS].

Lemma memfd03_runs :
  1 <= mp_pages p ->
  sx_dies (K := K) main globals0 (m_init p) [] (fun _ log => types log = expected).
Proof.
  intros Hn. assert (H0 : idle (mp_pages p) (m_init p)) by by split.
  unfold main, run_tests. apply sx_dies_bind, sx_bind, sx_ret, sx_bind.
  eapply sx_mono; [|apply (case_spec (TCase test_write_protect _)); [exact H0 | intros g log; by apply (write_protect_ok (mp_pages p))]].
  intros g1 x1 w1 log1 [H1 L1]. apply sx_bind.
  eapply sx_mono; [|apply (case_spec (TCase test_def_pagesize _)); [exact H1 | intros g log; by apply def_pagesize_ok]].
  intros g2 x2 w2 log2 [H2 L2]. apply sx_bind.
  eapply sx_mono; [|apply (case_spec (TCase test_max_hugepages _)); [exact H2 | intros g log; by apply max_hugepages_ok]].
  intros g3 x3 w3 log3 [H3 L3]. apply sx_ret, sx_dies_exit. by rewrite L3, L2, L1.
Qed.
End Documented.

(** C23: On every documented system with at least one free huge page of a size between 4 KiB
    and 2 GiB, memfd_create03 ends, and its reports are exactly the informations and the
    single pass of each of its three tests. *)
Theorem memfd03_passes {W} (K : Kernel mcall mreply W) (w0 : W) `{!MemfdPlatform K w0} :
  mp_huge mp_params <> None -> 12 <= mp_shift mp_params <= 31 -> 1 <= mp_pages mp_params ->
  inevitable (fun s => passed main_pid (fun l => bool_decide (types l = expected)) s = true)
    (boot main_pid main globals0 w0).
Proof.
  intros Hh Hs Hn. destruct (mp_huge mp_params) as [f|] eqn:E; [|done].
  apply (refines_run K (memfd_kernel mp_params tst_status) w0 (m_init mp_params)); [exact mp_init|].
  eapply sx_run; [exact (memfd03_runs mp_params Hs f E tst_status Hn)|].
  intros w log H. split; [|by apply bool_decide_eq_true_2].
  apply clean_types. by rewrite H.
Qed.

Lemma memfd03_passes_witness :
  inevitable (H := memfd_kernel some_pages (fun _ => 0))
    (fun s => passed main_pid (fun l => bool_decide (types l = expected)) s = true)
    (boot main_pid main globals0 (m_init some_pages)).
Proof.
  apply (memfd03_passes (memfd_kernel some_pages (fun _ => 0)) (m_init some_pages));
    [discriminate | vm_compute; split; discriminate | vm_compute; discriminate].
Defined.

(** Two documented systems: pages of 2 MiB, and of 16 GiB, mapped at 65536. *)
Definition with_mapping (shift : Z) : mstate :=
  set_mmaps [(65536, Mapping 1 (Z.shiftl 1 shift) PROT_WRITE false false true)] (m_init some_pages).

Lemma with_mapping_refuses shift : 12 <= shift ->
  refuses (K := memfd_kernel (MParams None shift 4) (fun _ => 0)) (eq (with_mapping shift)) 65536 (Z.shiftl 1 shift).
Proof.
  intros Hs i w <- Hi. exists (mfails EINVAL), (with_mapping shift). split; [|done].
  cbn [k_do memfd_kernel memfd_kernel_with m_do]. unfold m_munmap, with_mapping.
  cbn [m_maps set_mmaps existsb mm_huge mm_len fst snd]. change (negb (65536 mod PAGE_SIZE =? 0)) with false.
  destruct (Z.leb_spec i 0) as [Hz|Hz]; [done|]. cbn [orb andb].
  change (huge_size (MParams None shift 4)) with (Z.shiftl 1 shift).
  rewrite (proj2 (Z.ltb_lt 65536 (65536 + i))) by lia. rewrite (proj2 (Z.ltb_lt 65536 _)) by lia.
  rewrite (Z.mod_small i) by lia. rewrite (proj2 (Z.eqb_neq i 0)) by lia. by rewrite andb_false_r.
Qed.

Lemma unmap_loop_ends_witness :
  sx (K := memfd_kernel (MParams None 21 4) (fun _ => 0)) (unmap_loop 65536 (4 * 524288)) globals0
    (with_mapping 21) [] (fun _ b w' log' =>
      b = true /\ with_mapping 21 = w' /\ types log' = types [] ++ replicate 3 TINFO).
Proof.
  apply (unmap_loop_ends (K := memfd_kernel (MParams None 21 4) (fun _ => 0)) (eq (with_mapping 21)));
    [split; reflexivity | exact (with_mapping_refuses 21 ltac:(discriminate)) | reflexivity].
Defined.

Lemma unmap_loop_never_ends_witness :
  let K := memfd_kernel (MParams None 34 4) (fun _ => 0) in
  ~ inevitable (H := K) (fun _ => True)
      (at_ main_pid (unmap_loop 65536 (2 ^ 34)) globals0 (shape_at (with_mapping 34) [])).
Proof.
  apply (unmap_loop_never_ends (K := memfd_kernel (MParams None 34 4) (fun _ => 0)) (eq (with_mapping 34)));
    [exact (with_mapping_refuses 34 ltac:(discriminate)) | reflexivity].
Defined.
