(* ===== verification/Memfd04.v ===== *)
(** * memfd_create04.c: sizes of huge pages

    Model of [src/original tests/memfd_create/memfd_create04.c]: nine sizes of huge pages
    are asked for, of which the system has those with a directory in /sys. *)

From S2P Require Import Prelude Tst Process Explore Prog Checker Wp Alone Ends FileSys MemFd MemfdCommon.

Record test_flag := TestFlag { flag : Z; h_size : string; exp_err : Z }.

(** MFD_HUGE_64KB and the like: the size as a power of two, in an [int]. *)
Definition MFD_HUGE (shift : Z) : Z := to_int (Z.shiftl shift MFD_HUGE_SHIFT).

Definition test_flags : list test_flag := [
  TestFlag (MFD_HUGE 16) "64kB" 0;
  TestFlag (MFD_HUGE 19) "512kB" 0;
  TestFlag (MFD_HUGE 21) "2048kB" 0;
  TestFlag (MFD_HUGE 23) "8192kB" 0;
  TestFlag (MFD_HUGE 24) "16384kB" 0;
  TestFlag (MFD_HUGE 28) "262144kB" 0;
  TestFlag (MFD_HUGE 30) "1048576kB" 0;
  TestFlag (MFD_HUGE 31) "2097152kB" 0;
  TestFlag (MFD_HUGE 34) "16777216kB" 0
].

Definition PATH_HUGEPAGES : string := "/sys/kernel/mm/hugepages".

(** The case with its [exp_err]. *)
Definition check_hugepage_support (t : test_flag) : P test_flag :=
  let pattern := (PATH_HUGEPAGES ++ "/hugepages-" ++ h_size t)%string in
  r ← libc (MAccess pattern);
  mret (if negb (ret r =? 0) then TestFlag (flag t) (h_size t) ENODEV else t).

Definition run_case (t : test_flag) : P unit :=
  tflag ← check_hugepage_support t;
  tst_res TINFO "Attempt to create file using %s huge page size" [Str (h_size tflag)] ;;
  fd ← sys_memfd_create (Some "tfile"%string) (Z.lor MFD_HUGETLB (flag tflag));
  if fd <? 0 then
    g ← get;
    if g_errno g =? exp_err tflag then tst_res TPASS "Test failed as expected" []
    else tst_brk_errno TFAIL "memfd_create() failed unexpectedly" []
  else
    tst_res TPASS "memfd_create succeeded for %s page size" [Str (h_size tflag)] ;;
    safe_close fd.

Definition memfd_huge_x_controller (n : Z) : P unit :=
  match test_flags !! Z.to_nat n with
  | Some t => run_case t
  | None => mret tt
  end.

Definition setup : P unit :=
  r ← libc (MAccess PATH_HUGEPAGES);
  when (negb (ret r =? 0)) (tst_brk TCONF "Huge page is not supported" []).

Definition main : P unit := run_tests setup memfd_huge_x_controller (length test_flags).

(** ** One size, on any kernel *)

Section Verdict.
Context {W : Type} {K : Kernel mcall mreply W} `{!Total K}.
Implicit Types (g : globals) (w : W) (log : list entry).

(** What is reported of a size: whether the directory was found, and the answer to the
    call. *)
Definition accepted (found : bool) (r : mreply) : bool :=
  (0 <=? ret r) || (errno r =? (if found then 0 else ENODEV)).

(** On any kernel that has memfd_create and answers every call, a case of
    memfd_create04 reports, after its description, a pass if a descriptor is returned,
    whether or not the system has the size, or if the call fails with ENODEV and the
    system does not have it, and otherwise a failure. *)
Theorem huge_size_verdict (t : test_flag) g w log ra wa r w' :
  exp_err t = 0 ->
  k_do main_pid (MAccess (PATH_HUGEPAGES ++ "/hugepages-" ++ h_size t)%string) w = Some (ra, wa) ->
  k_do main_pid (MCreate (Some "tfile"%string) (uwrap 32 (Z.lor MFD_HUGETLB (flag t)))) wa = Some (r, w') ->
  -1 <= ret r -> (ret r = -1 -> errno r <> ENOSYS) ->
  let verdict := if accepted (ret ra =? 0) r then TPASS else TFAIL in
  let reported log' := exists l, types log' = types log ++ TINFO :: verdict :: types l in
  ex (run_case t) g w log (fun _ _ _ => reported) (fun _ => reported).
Proof.
  intros He Ea Ec Hr Hn. cbv zeta. unfold run_case, check_hugepage_support.
  apply ex_bind, ex_bind, ex_sx. eapply sx_libc; [exact Ea|]. apply ex_sx, sx_ret.
  set (tflag := if negb (ret ra =? 0) then _ else t).
  assert (flag tflag = flag t /\ exp_err tflag = if ret ra =? 0 then 0 else ENODEV) as [Hf Hx].
  { unfold tflag. by destruct (ret ra =? 0). }
  apply ex_bind, ex_sx, sx_resm, ex_bind, ex_sx. rewrite Hf.
  eapply sx_sys_create; [exact Ec | intros [H1 H2]; by apply Hn |].
  unfold accepted. destruct (Z.ltb_spec (ret r) 0) as [Hneg|Hpos].
  - assert (ret r = -1) as -> by lia. change (0 <=? -1) with false. change (-1 =? -1) with true.
    cbn [orb]. rewrite <- Hx. apply ex_bind, ex_sx, sx_get. cbn [g_errno set_errno]. destruct (errno r =? exp_err tflag).
    + apply ex_sx, sx_resm. exists []. unfold types. by rewrite !map_app, <- app_assoc.
    + apply ex_bind, ex_bind, ex_sx, sx_get, ex_sx, sx_resm_errno, ex_exit.
      exists []. unfold types. by rewrite !map_app, <- app_assoc.
  - rewrite (proj2 (Z.leb_le 0 (ret r))) by done. cbn [orb].
    apply ex_bind, ex_sx, sx_resm. eapply ex_mono; [| |apply yields_safe_close].
    + intros g1 x w1 log1 (l & -> & _). exists l. unfold types. by rewrite !map_app, <- !app_assoc.
    + intros w1 log1 (l & -> & _). exists l. unfold types. by rewrite !map_app, <- !app_assoc.
Qed.
End Verdict.

(** Creation succeeds although the directory of the size does not exist. *)
Definition generous : Kernel mcall mreply unit := {|
  k_do _ c w := Some (match c with MAccess _ => mfails ENOENT | _ => mok 3 end, w);
  k_fork _ _ w := w;
  k_exit _ w := w;
  tst_status _ := 0
|}.

#[export] Instance generous_total : Total generous.
Proof. by intros pid c w; eexists. Qed.

Lemma huge_size_verdict_witness :
  let reported log' := exists l, types log' = types [] ++ TINFO :: TPASS :: types l in
  ex (K := generous) (run_case (TestFlag (MFD_HUGE 16) "64kB" 0)) globals0 tt []
    (fun _ _ _ => reported) (fun _ => reported).
Proof.
  exact (huge_size_verdict (K := generous) (TestFlag (MFD_HUGE 16) "64kB" 0) globals0 tt [] (mfails ENOENT)
    tt (mok 3) tt eq_refl eq_refl eq_refl ltac:(discriminate) ltac:(discriminate)).
Defined.

(** ** A correct run *)

Section Passes.
Variable f : Z -> bool.
Variables shift pages : Z.
Variable ts : list entry -> Z.
Notation p := (MParams (Some f) shift pages).
Notation K := (memfd_kernel p ts).

(** The answers about the size of case [t], which is 2 to the power [s]. *)
Definition answered (t : test_flag) (s : Z) : Prop := forall w,
  m_access p (PATH_HUGEPAGES ++ "/hugepages-" ++ h_size t)%string w
    = (if f s then (mok 0, w) else failing ENOENT w)
  /\ m_create p all_rules (Some "tfile"%string) (uwrap 32 (Z.lor MFD_HUGETLB (flag t))) w
    = (if f s
       then open_file (m_next w) O_RDWR
              (set_mnext (m_next w + 1) (update_file (m_next w) (MFile 0 F_SEAL_SEAL true []) w))
       else failing ENODEV w).

Lemma all_answered : Forall2 answered test_flags huge_shifts.
Proof.
  repeat apply Forall2_cons_2; [..|apply Forall2_nil_2]; intros w;
    (split; vm_compute; by destruct (f _)).
Qed.

Lemma case_passes t s g w log :
  answered t s -> exp_err t = 0 -> m_fds w = [] ->
  sx (K := K) (run_case t) g w log (fun _ _ w' log' =>
    m_fds w' = [] /\ types log' = types log ++ [TINFO; TPASS]).
Proof.
  intros Ha He Hw. destruct (Ha w) as [H1 H2]. unfold run_case, check_hugepage_support.
  apply sx_bind, sx_bind. destruct (f s);
    (eapply sx_libc; [cbn [k_do memfd_kernel memfd_kernel_with m_do]; rewrite H1; reflexivity|]).
  - apply sx_ret, sx_bind, sx_resm, sx_bind. change (negb (ret (mok 0) =? 0)) with false. cbv iota.
    eapply sx_sys_create; [cbn [k_do memfd_kernel memfd_kernel_with m_do]; rewrite H2; reflexivity | by intros [_ [=]] |].
    unfold open_file. cbn [ret mok m_fds set_mnext update_file set_mfiles]. rewrite Hw.
    change (lowest [] <? 0) with false. apply sx_bind, sx_resm. cbv iota.
    apply sx_bind, sx_bind. eapply sx_libc; [reflexivity|]. cbn. apply sx_ret, sx_ret. split; [done|].
    unfold types. by rewrite !map_app, <- app_assoc.
  - apply sx_ret, sx_bind, sx_resm, sx_bind. change (negb (ret (mfails ENOENT) =? 0)) with true.
    cbn [flag h_size exp_err].
    eapply sx_sys_create; [cbn [k_do memfd_kernel memfd_kernel_with m_do]; rewrite H2; reflexivity | by intros [_ [=]] |].
    change (ret (mfails ENODEV) <? 0) with true. apply sx_bind, sx_get, sx_resm. split; [done|].
    unfold types. by rewrite !map_app, <- app_assoc.
Qed.

Lemma controller_passes i g w log :
  0 <= i < 9 -> m_fds w = [] ->
  sx (K := K) (memfd_huge_x_controller i) g w log (fun _ _ w' log' =>
    m_fds w' = [] /\ types log' = types log ++ [TINFO; TPASS]).
Proof.
  intros Hi Hw. unfold memfd_huge_x_controller.
  destruct (lookup_lt_is_Some_2 test_flags (Z.to_nat i)) as [t Ht]; [cbn; lia|]. rewrite Ht.
  destruct (Forall2_lookup_l _ _ _ _ _ all_answered Ht) as (s & _ & Hs).
  apply (case_passes t s); [done | | done].
  assert (Forall (fun t => exp_err t = 0) test_flags) as H by by repeat constructor.
  exact (Forall_lookup_1 _ _ _ _ H Ht).
Qed.
End Passes.

Definition expected (p : mparams) : list ttype :=
  match mp_huge p with
  | None => [TCONF]
  | Some _ => concat (replicate 9 [TINFO; TPASS])
  end.

Lemma memfd04_runs p ts :
  sx_dies (K := memfd_kernel p ts) main globals0 (m_init p) [] (fun _ log => types log = expected p).
Proof.
  destruct p as [[f|] shift pages].
  - unfold main, run_tests. apply sx_dies_bind, sx_bind.
    eapply sx_mono; [|apply (sx_run_alone 4); vm_compute; reflexivity].
    intros g0 a0 w0 log0 (-> & -> & -> & ->).
    eapply sx_mono; [|apply (sx_for (fun i _ w log =>
      m_fds w = [] /\ types log = concat (replicate (Z.to_nat i) [TINFO; TPASS])))].
    + intros g w x log [_ H]. by apply sx_dies_exit.
    + intros i g w log Hi [Hw Hl]. change (length test_flags) with 9%nat in Hi.
      eapply sx_mono; [|by apply controller_passes; [lia|]].
      intros g1 x1 w1 log1 [H1 H2]. split; [done|]. rewrite H2, Hl.
      replace (Z.to_nat (i + 1)) with (Z.to_nat i + 1)%nat by lia.
      by rewrite replicate_add, concat_app.
    + done.
  - eapply sx_dies_mono; [|apply (sx_dies_run_end 9); vm_compute; reflexivity].
    by intros w log [-> ->].
Qed.

(** On every documented system, whichever sizes of huge pages it has, memfd_create04
    ends, and its reports are the description of each of the nine sizes followed by a
    pass; on a system without huge pages there is one, that the test cannot run. *)
Theorem memfd04_passes {W} (K : Kernel mcall mreply W) (w0 : W) `{!MemfdPlatform K w0} :
  inevitable (fun s => passed main_pid (fun l => bool_decide (types l = expected mp_params)) s = true)
    (boot main_pid main globals0 w0).
Proof.
  apply (refines_run K (memfd_kernel mp_params tst_status) w0 (m_init mp_params)); [exact mp_init|].
  eapply sx_run; [exact (memfd04_runs mp_params tst_status)|].
  intros w log H. split; [|by apply bool_decide_eq_true_2].
  apply clean_types. rewrite H. unfold expected. by destruct (mp_huge mp_params).
Qed.

Lemma memfd04_passes_witness :
  inevitable (H := memfd_kernel some_pages (fun _ => 0))
    (fun s => passed main_pid (fun l => bool_decide (types l = expected some_pages)) s = true)
    (boot main_pid main globals0 (m_init some_pages)).
Proof. exact (memfd04_passes (memfd_kernel some_pages (fun _ => 0)) (m_init some_pages)). Defined.
