(* ===== verification/Ltp.v ===== *)
(** * The two test libraries, over any set of calls

    The programs under [src/original tests] that use the newer LTP library
    ([tst_test.h]), and the programs under [src/independent tests], which use none: they
    print what they find, and the automation script of the suite
    ([src/independent tests/dockerfile_data/brain.py]) takes a program for passed if its
    output contains the words "test succeeded".  [Reply] is what a report needs to know
    of the answer to a call.

    A report of the library is an entry of the log; a line printed by an independent
    program is an entry of type TINFO. *)

From S2P Require Import Prelude Tst Process Prog.

(** The answer of a call of the C library: the value it returns, and [errno] when that
    is -1. *)
Class Reply (R : Type) := { ret : R -> Z; errno : R -> Z }.

Section Ltp.
Context {C R : Type} `{!Reply R}.

(** The programs keep nothing else from call to call: what a static variable holds is
    passed to the functions that read it. *)
Abbreviation P := (M C R unit).

Definition failed (r : R) : bool := ret r =? -1.

(** A call that has to fail with the error [e]. *)
Definition fails_with (e : Z) (r : R) : bool := failed r && (errno r =? e).

(** ** LTP *)

Definition tst_res : ttype -> string -> list arg -> P unit := tst_resm.

(** [tst_res(t | TTERRNO, ...)] after the call that was answered [r]. *)
Definition tst_res_err (t : ttype) (r : R) : string -> list arg -> P unit := tst_resm_errno t (errno r).

(** [tst_brk]: report, run the cleanup function, end the process. *)
Definition tst_brk {A} (cleanup : P unit) (t : ttype) (fmt : string) (args : list arg) : P A :=
  tst_res t fmt args ;; cleanup ;; tst_exit.

(** [SAFE_XXX(...)]; [name] stands for the message of the library. *)
Definition safe (cleanup : P unit) (name : string) (c : C) : P R :=
  r ← call c;
  if failed r then tst_res_err TBROK r (name ++ "() failed") [] ;; cleanup ;; tst_exit
  else mret r.

(** [SAFE_WRITE] and [SAFE_READ] with their strict flag: all [n] bytes. *)
Definition safe_all (cleanup : P unit) (name : string) (c : C) (n : Z) : P R :=
  r ← call c;
  if negb (ret r =? n) then tst_res_err TBROK r (name ++ "() failed") [] ;; cleanup ;; tst_exit
  else mret r.

(** In a cleanup function the library only warns. *)
Definition safe_warn (name : string) (c : C) : P unit :=
  r ← call c;
  when (failed r) (tst_res_err TWARN r (name ++ "() failed") []).

(** [TST_EXP_PASS] and [TST_EXP_FAIL]; [what] and [args] are the message of the caller. *)
Definition TST_EXP_PASS (c : C) (what : string) (args : list arg) : P R :=
  r ← call c;
  (if failed r then tst_res_err TFAIL r (what ++ " failed") args
   else if negb (ret r =? 0) then
     tst_res_err TFAIL r (what ++ " invalid retval %ld") (args ++ [Num (ret r)])
   else tst_res TPASS (what ++ " passed") args) ;;
  mret r.

Definition TST_EXP_FAIL (c : C) (err : Z) (what : string) (args : list arg) : P R :=
  r ← call c;
  (if ret r =? 0 then tst_res TFAIL (what ++ " succeeded") args
   else if negb (failed r) then
     tst_res_err TFAIL r (what ++ " invalid retval %ld") (args ++ [Num (ret r)])
   else if errno r =? err then tst_res_err TPASS r what args
   else tst_res_err TFAIL r (what ++ " expected %s") (args ++ [Num err])) ;;
  mret r.

(** [TST_EXP_EQ_LI(a, b)] *)
Definition TST_EXP_EQ_LI (a b : Z) : P unit :=
  if a =? b then tst_res TPASS "%s == %s (%ld)" [Num a] else tst_res TFAIL "%s (%ld) != %s (%ld)" [Num a; Num b].

Definition TST_EXP_EQ_LU (a b : Z) : P unit :=
  if a =? b then tst_res TPASS "%s == %s (%lu)" [Num a] else tst_res TFAIL "%s (%lu) != %s (%lu)" [Num a; Num b].

(** [TST_EXP_FAIL2]: any result that is not negative is a success. *)
Definition TST_EXP_FAIL2 (c : C) (err : Z) (what : string) (args : list arg) : P R :=
  r ← call c;
  (if 0 <=? ret r then tst_res TFAIL (what ++ " succeeded") args
   else if negb (failed r) then
     tst_res_err TFAIL r (what ++ " invalid retval %ld") (args ++ [Num (ret r)])
   else if errno r =? err then tst_res_err TPASS r what args
   else tst_res_err TFAIL r (what ++ " expected %s") (args ++ [Num err])) ;;
  mret r.

Definition TST_EXP_VAL (c : C) (val : Z) (what : string) (args : list arg) : P R :=
  r ← call c;
  (if negb (ret r =? val) then tst_res_err TFAIL r (what ++ " retval %ld != %ld") (args ++ [Num (ret r); Num val])
   else tst_res TPASS (what ++ " passed") args) ;;
  mret r.

Definition TST_EXP_FD_SILENT (c : C) (what : string) (args : list arg) : P R :=
  r ← call c;
  (if failed r then tst_res_err TFAIL r (what ++ " failed") args
   else when (ret r <? 0) (tst_res_err TFAIL r (what ++ " invalid retval %ld") (args ++ [Num (ret r)]))) ;;
  mret r.

(** The library runs [setup], the test function for every number below [tcnt], and
    [cleanup]. [X] is what [setup] leaves in the static variables. *)
Definition run_tests {X} (setup : P X) (test : X -> Z -> P unit) (tcnt : nat) (cleanup : X -> P unit) : P unit :=
  (x ← setup; for_from 0 tcnt (test x) ;; cleanup x) ;; tst_exit.

Definition no_cleanup : P unit := mret tt.

(** ** Independent programs *)

Definition printf (fmt : string) (args : list arg) : P unit := tst_resm TINFO fmt args.

(** A program ends when [main] returns. *)
Definition program (main : P unit) : P unit := main ;; exit 0.

(** [for (i = 0; i < n; i++) ok *= verify(i)] *)
Fixpoint verify_all (start : Z) (n : nat) (verify : Z -> P Z) (ok : Z) : P Z :=
  match n with
  | O => mret ok
  | S n => v ← verify start; verify_all (start + 1) n verify (ok * v)
  end.
End Ltp.

(** ** Verdicts *)

(** Some part of [s] is [w]. *)
Definition contains (w s : string) : bool := match String.index 0 w s with Some _ => true | None => false end.

Definition success : string := "test succeeded".

(** The verdict of brain.py on the output of a program. *)
Definition succeeded (out : list entry) : bool := existsb (fun e => contains success (e_fmt e)) out.

Lemma succeeded_app l1 l2 : succeeded (l1 ++ l2) = succeeded l1 || succeeded l2.
Proof. apply existsb_app. Qed.
