(* ===== verification/Transcript.v ===== *)
(** * What a test makes of the answers it gets

    The verdict of a test that is one process depends on the answers to its calls only.
    [asked st o] is the system that answers by the oracle [o], a function of the calls made
    so far and their answers; its world is the transcript of the run.  Every
    deterministic system on which no call blocks is such a system ([asked_universal]).
    [judges m verdict spec]: whatever is answered, the program [m] ends, and the verdict on
    its reports is what [spec] says of the answers ([judges_on] brings that to any
    system).  [dx] is the program logic behind it, in which an answer is any answer;
    [dx_steps] runs a program. *)

From S2P Require Import Prelude Tst Process Explore Prog Checker Wp Alone Ends Ltp.

Section Oracle.
Context {C R : Type}.

(** A line of a transcript: the answer to a call of a process, a fork, or an end. *)
Inductive note := Answered (pid : Z) (c : C) (r : R) | Forked (pid child : Z) | Gone (pid : Z).

Definition transcript := list note.

Definition oracle : Type := transcript -> Z -> C -> R.

(** [st]: the status with which the library ends a process. *)
Definition asked (st : list entry -> Z) (o : oracle) : Kernel C R transcript := {|
  k_do pid c h := let r := o h pid c in Some (r, h ++ [Answered pid c r]);
  k_fork pid child h := h ++ [Forked pid child];
  k_exit pid h := h ++ [Gone pid];
  tst_status := st
|}.

#[export] Instance asked_total st o : Total (asked st o).
Proof. intros pid c w. by eexists. Qed.

(** The calls of a transcript with their answers. *)
Definition answers (h : transcript) : list (C * R) :=
  omap (fun n => match n with Answered _ c r => Some (c, r) | _ => None end) h.

Definition notes (d : list (C * R)) : transcript := map (fun e => Answered main_pid e.1 e.2) d.

Lemma notes_app d1 d2 : notes (d1 ++ d2) = notes d1 ++ notes d2.
Proof. apply map_app. Qed.

Lemma answers_notes d p : answers (notes d ++ [Gone p]) = d.
Proof.
  induction d as [|[c r] d IH]; [done|].
  change (answers (notes ((c, r) :: d) ++ [Gone p])) with ((c, r) :: answers (notes d ++ [Gone p])).
  by rewrite IH.
Qed.

(** ** Every system *)

Section Universal.
Context {W : Type} (K : Kernel C R W) `{!Total K}.

(** The world of [K] after a transcript; it does not exist if [K] answers otherwise. *)
Fixpoint replay (w : W) (h : transcript) : option W :=
  match h with
  | [] => Some w
  | Answered pid c r :: h => match k_do pid c w with Some (_, w') => replay w' h | None => None end
  | Forked pid child :: h => replay (k_fork pid child w) h
  | Gone pid :: h => replay (k_exit pid w) h
  end.

Lemma replay_app w h1 h2 : replay w (h1 ++ h2) = (replay w h1 ≫= fun w' => replay w' h2).
Proof.
  revert w. induction h1 as [|[pid c r|pid child|pid] h1 IH]; intros w; cbn [replay app]; [done| |apply IH|apply IH].
  destruct (k_do pid c w) as [[r' w']|]; [apply IH | done].
Qed.

(** The answers of a transcript are those [K] gives. *)
Fixpoint authentic (w : W) (h : transcript) : Prop :=
  match h with
  | [] => True
  | Answered pid c r :: h => exists w', k_do pid c w = Some (r, w') /\ authentic w' h
  | Forked pid child :: h => authentic (k_fork pid child w) h
  | Gone pid :: h => authentic (k_exit pid w) h
  end.

Lemma authentic_snoc w h n w1 :
  authentic w h -> replay w h = Some w1 -> authentic w1 [n] -> authentic w (h ++ [n]).
Proof.
  revert w. induction h as [|[pid c r|pid child|pid] h IH]; intros w; cbn [replay app authentic].
  - by intros _ [= ->].
  - intros (w' & E & Ha) Hr Hn. rewrite E in Hr. exists w'. split; [done | by apply IH].
  - intros Ha Hr Hn. by apply IH.
  - intros Ha Hr Hn. by apply IH.
Qed.

(** The oracle that answers as [K] does; what it says after a transcript that is not of
    [K] does not matter. *)
Definition oracle_of (w0 : W) : oracle := fun h pid c =>
  let w := default w0 (replay w0 h) in
  match k_do pid c w as x return is_Some x -> R with
  | Some (r, _) => fun _ => r
  | None => fun H => match is_Some_None H with end
  end (total_do pid c w).

Lemma oracle_of_spec w0 h pid c w r w' :
  replay w0 h = Some w -> k_do pid c w = Some (r, w') -> oracle_of w0 h pid c = r.
Proof.
  intros Hr Hk. unfold oracle_of. rewrite Hr. cbn [default from_option id].
  generalize (total_do pid c w). rewrite Hk. done.
Qed.

(** In related worlds the transcript is one of [K] and leads there. *)
#[export] Instance asked_universal (w0 : W) : Refines K (asked tst_status (oracle_of w0)).
Proof.
  refine {| rel w h := replay w0 h = Some w /\ authentic w0 h |}; [| | |done].
  - intros pid c w h [Hr Ha]. cbn. destruct (total_do pid c w) as [[r w'] E]. rewrite E.
    pose proof (oracle_of_spec w0 h pid c w r w' Hr E) as ->. repeat split.
    + rewrite replay_app, Hr. cbn. by rewrite E.
    + eapply authentic_snoc; [done | done |]. by exists w'.
  - intros pid child w h [Hr Ha]. cbn. split; [by rewrite replay_app, Hr|].
    by eapply authentic_snoc.
  - intros pid w h [Hr Ha]. cbn. split; [by rewrite replay_app, Hr|].
    by eapply authentic_snoc.
Defined.
End Universal.
End Oracle.

Arguments note : clear implicits.
Arguments transcript : clear implicits.
Arguments oracle : clear implicits.

(** ** Programs *)

Section Programs.
Context {C R : Type}.
Abbreviation P := (M C R unit).
Implicit Types (d : list (C * R)) (l : list entry) (st : list entry -> Z).

(** [m], run after the answers [d] and the reports [l], returns in a state that satisfies
    [Φ] or ends the process in one that satisfies [Ψ]. *)
Definition dx {A} (m : P A) d l (Φ : A -> list (C * R) -> list entry -> Prop)
    (Ψ : list (C * R) -> list entry -> Prop) : Prop :=
  forall st o, ex (K := asked st o) m tt (notes d) l
    (fun _ a h' l' => exists d', h' = notes d' /\ Φ a d' l')
    (fun h' l' => exists d', h' = notes d' /\ Ψ d' l').

Definition judges {A} (m : P A) (verdict : list entry -> bool) (spec : list (C * R) -> bool) : Prop :=
  forall st o, inevitable (H := asked st o) (fun s => s_info (shp s) = ∅
      /\ verdict (log_of main_pid (shp s)) = spec (answers (s_world (shp s))))
    (boot main_pid m tt []).

Lemma dx_ret {A} (x : A) d l (Φ : A -> list (C * R) -> list entry -> Prop) Ψ :
  Φ x d l -> dx (mret x) d l Φ Ψ.
Proof. intros H st o. apply ex_sx, sx_ret. eauto. Qed.

Lemma dx_mono {A} (m : P A) d l (Φ Φ' : A -> list (C * R) -> list entry -> Prop)
    (Ψ Ψ' : list (C * R) -> list entry -> Prop) :
  (forall a d' l', Φ a d' l' -> Φ' a d' l') -> (forall d' l', Ψ d' l' -> Ψ' d' l') ->
  dx m d l Φ Ψ -> dx m d l Φ' Ψ'.
Proof.
  intros H1 H2 H st o. eapply ex_mono; [| |apply H].
  - intros _ a h' l' (d' & -> & HΦ). eauto.
  - intros h' l' (d' & -> & HΨ). eauto.
Qed.

Lemma dx_bind {A B} (m : P A) (f : A -> P B) d l Φ Ψ :
  dx m d l (fun a d' l' => dx (f a) d' l' Φ Ψ) Ψ -> dx (m ≫= f) d l Φ Ψ.
Proof.
  intros H st o. apply ex_bind. eapply ex_mono; [| |apply H].
  - intros [] a h' l' (d' & -> & HΦ). apply HΦ.
  - done.
Qed.

(** The rule for a part that is known by a specification. *)
Lemma dx_seq {A B} (m : P A) (f : A -> P B) d l Φ Ψ Φ1 Ψ1 :
  dx m d l Φ1 Ψ1 -> (forall a d' l', Φ1 a d' l' -> dx (f a) d' l' Φ Ψ) ->
  (forall d' l', Ψ1 d' l' -> Ψ d' l') -> dx (m ≫= f) d l Φ Ψ.
Proof. intros H1 H2 H3. apply dx_bind. by eapply dx_mono. Qed.

Lemma dx_call c d l (Φ : R -> list (C * R) -> list entry -> Prop) Ψ :
  (forall r, Φ r (d ++ [(c, r)]) l) -> dx (call c) d l Φ Ψ.
Proof.
  intros H st o. apply ex_sx. eapply sx_call; [reflexivity|].
  exists (d ++ [(c, o (notes d) main_pid c)]). by rewrite notes_app.
Qed.

Lemma dx_resm t fmt args d l (Φ : unit -> list (C * R) -> list entry -> Prop) Ψ :
  Φ tt d (l ++ [Entry t None fmt args]) -> dx (tst_resm t fmt args) d l Φ Ψ.
Proof. intros H st o. apply ex_sx, sx_resm. eauto. Qed.

Lemma dx_resm_errno t e fmt args d l (Φ : unit -> list (C * R) -> list entry -> Prop) Ψ :
  Φ tt d (l ++ [Entry t (Some e) fmt args]) -> dx (tst_resm_errno t e fmt args) d l Φ Ψ.
Proof. intros H st o. apply ex_sx, sx_resm_errno. eauto. Qed.

Lemma dx_getpid d l (Φ : Z -> list (C * R) -> list entry -> Prop) Ψ :
  Φ main_pid d l -> dx getpid d l Φ Ψ.
Proof.
  intros H st o. apply ex_sx, wp_getpid. exists (notes d), l. split; [done | eauto].
Qed.

Lemma dx_tst_exit {A} d l (Φ : A -> list (C * R) -> list entry -> Prop) (Ψ : list (C * R) -> list entry -> Prop) :
  Ψ d l -> dx tst_exit d l Φ Ψ.
Proof. intros H st o. apply ex_exit. eauto. Qed.

Lemma dx_exit {A} n d l (Φ : A -> list (C * R) -> list entry -> Prop) (Ψ : list (C * R) -> list entry -> Prop) :
  Ψ d l -> dx (exit n) d l Φ Ψ.
Proof.
  intros H st o. apply ex_dies, dies_exit. exists (notes d), l, (exit_status n). split; [done | eauto].
Qed.

Lemma dx_if {A} (b : bool) (m1 m2 : P A) d l Φ Ψ :
  (b = true -> dx m1 d l Φ Ψ) -> (b = false -> dx m2 d l Φ Ψ) -> dx (if b then m1 else m2) d l Φ Ψ.
Proof. destruct b; auto. Qed.

Lemma dx_when (b : bool) (m : P unit) d l (Φ : unit -> list (C * R) -> list entry -> Prop) Ψ :
  (b = true -> dx m d l Φ Ψ) -> (b = false -> Φ tt d l) -> dx (when b m) d l Φ Ψ.
Proof. destruct b; intros H1 H2; [by apply H1 | apply dx_ret; by apply H2]. Qed.

(** A loop with an invariant. *)
Lemma dx_for (I : Z -> list (C * R) -> list entry -> Prop) (body : Z -> P unit) start n d l Φ
    (Ψ : list (C * R) -> list entry -> Prop) :
  (forall i d l, start <= i < start + Z.of_nat n -> I i d l ->
     dx (body i) d l (fun _ d' l' => I (i + 1) d' l') Ψ) ->
  I start d l -> (forall d' l', I (start + Z.of_nat n) d' l' -> Φ tt d' l') ->
  dx (for_from start n body) d l Φ Ψ.
Proof.
  revert start d l. induction n as [|n IH]; intros start d l Hb HI HΦ; cbn [for_from].
  - apply dx_ret, HΦ. by rewrite Z.add_0_r.
  - eapply dx_seq; [apply Hb; [lia|exact HI] | | done].
    intros [] d1 l1 H1. apply IH; [|exact H1|].
    + intros i d2 l2 Hi. apply Hb. lia.
    + intros d2 l2. replace (start + 1 + Z.of_nat n) with (start + Z.of_nat (S n)) by lia. apply HΦ.
Qed.

(** One round of a loop. *)
Lemma dx_while {X Y} (body : X -> P (X + Y)) x d l (Φ : Y -> list (C * R) -> list entry -> Prop)
    (Ψ : list (C * R) -> list entry -> Prop) :
  dx (body x) d l (fun r d' l' => match r with inl x' => dx (while_ body x') d' l' Φ Ψ | inr y => Φ y d' l' end) Ψ ->
  dx (while_ body x) d l Φ Ψ.
Proof.
  intros H st o. apply ex_while. eapply ex_mono; [| |apply H]; [|done].
  intros [] [x'|y] h' l' (d' & -> & HΦ); [apply HΦ | eauto].
Qed.

(** From the beginning to the end. *)
Lemma dx_judges {A} (m : P A) verdict spec :
  dx m [] [] (fun _ _ _ => False) (fun d l => verdict l = spec d) -> judges m verdict spec.
Proof.
  intros H st o. eapply inevitable_mono; [|apply (H st o)].
  intros s [(g' & a & w' & l' & _ & d' & _ & [])|(w' & l' & [_ [x ->]] & d' & -> & HΨ)].
  destruct (ended_shape (K := asked st o) x (notes d') l') as (H1 & _ & _ & H2). rewrite H2. split; [done|].
  rewrite HΨ. f_equal. symmetry. exact (answers_notes d' main_pid).
Qed.

(** The same of the runs that stay within what C defines, which is a matter of the answers:
    those that satisfy [defined]. *)
Definition judges_where {A} (defined : list (C * R) -> bool) (m : P A) (verdict : list entry -> bool)
    (spec : list (C * R) -> bool) : Prop :=
  forall st o, inevitable (H := asked st o) (fun s => s_info (shp s) = ∅
      /\ (defined (answers (s_world (shp s))) = true ->
          verdict (log_of main_pid (shp s)) = spec (answers (s_world (shp s)))))
    (boot main_pid m tt []).

Lemma judges_anywhere {A} defined (m : P A) verdict spec : judges m verdict spec -> judges_where defined m verdict spec.
Proof. intros H st o. eapply inevitable_mono; [|apply H]. intros s [H1 H2]. split; [exact H1|]. by intros _. Qed.

Lemma dx_judges_where {A} defined (m : P A) verdict spec :
  dx m [] [] (fun _ _ _ => False) (fun d l => defined d = true -> verdict l = spec d) ->
  judges_where defined m verdict spec.
Proof.
  intros H st o. eapply inevitable_mono; [|apply (H st o)].
  intros s [(g' & a & w' & l' & _ & d' & _ & [])|(w' & l' & [_ [x ->]] & d' & -> & HΨ)].
  destruct (ended_shape (K := asked st o) x (notes d') l') as (H1 & _ & _ & H2). rewrite H2. split; [done|].
  replace (answers _) with d' by (symmetry; exact (answers_notes d' main_pid)). exact HΨ.
Qed.

(** On any system: the verdict is that of the specification on the answers it gave. *)
Lemma judges_on {A W} (K : Kernel C R W) `{!Total K} (m : P A) verdict spec (w0 : W) :
  judges m verdict spec ->
  inevitable (H := K) (fun s => s_info (shp s) = ∅ /\ exists h,
      replay K w0 h = Some (s_world (shp s)) /\ authentic K w0 h
      /\ verdict (log_of main_pid (shp s)) = spec (answers h))
    (boot main_pid m tt w0).
Proof.
  intros H. eapply inevitable_mono;
    [|apply (inevitable_refines K (asked (@tst_status C R W K) (oracle_of K w0))
               (F := asked_universal K w0) _ _ (H (@tst_status C R W K) (oracle_of K w0)));
      by repeat split].
  intros s (t & (Ht & Hs & [Hr Ha]) & Hi & Hv). rewrite <- Hs in *.
  split; [exact Hi|]. exists (s_world (shp t)). split; [exact Hr|]. split; [exact Ha|]. exact Hv.
Qed.
End Programs.

(** ** Running a program *)

Section Library.
Context {C R : Type} `{!Reply R}.
Abbreviation P := (M C R unit).
Implicit Types (d : list (C * R)) (l : list entry).

Lemma dx_safe cleanup name (c : C) d l (Φ : R -> list (C * R) -> list entry -> Prop) Ψ :
  (forall r, failed r = false -> Φ r (d ++ [(c, r)]) l) ->
  (forall r, failed r = true ->
     dx cleanup (d ++ [(c, r)]) (l ++ [Entry TBROK (Some (errno r)) (name ++ "() failed") []])
       (fun _ => Ψ) Ψ) ->
  dx (safe cleanup name c) d l Φ Ψ.
Proof.
  intros H1 H2. apply dx_bind, dx_call. intros r. apply dx_if; intros Hr.
  - apply dx_bind, dx_resm_errno, dx_bind. eapply dx_mono; [| |by apply H2]; [|done].
    intros [] d' l' H. by apply dx_tst_exit.
  - by apply dx_ret, H1.
Qed.

Lemma dx_safe_all cleanup name (c : C) n d l (Φ : R -> list (C * R) -> list entry -> Prop) Ψ :
  (forall r, (ret r =? n) = true -> Φ r (d ++ [(c, r)]) l) ->
  (forall r, (ret r =? n) = false ->
     dx cleanup (d ++ [(c, r)]) (l ++ [Entry TBROK (Some (errno r)) (name ++ "() failed") []])
       (fun _ => Ψ) Ψ) ->
  dx (safe_all cleanup name c n) d l Φ Ψ.
Proof.
  intros H1 H2. apply dx_bind, dx_call. intros r. apply dx_if; intros Hr.
  - apply negb_true_iff in Hr. apply dx_bind, dx_resm_errno, dx_bind. eapply dx_mono; [| |by apply H2]; [|done].
    intros [] d' l' H. by apply dx_tst_exit.
  - apply negb_false_iff in Hr. by apply dx_ret, H1.
Qed.

Lemma dx_safe_warn name (c : C) d l (Φ : unit -> list (C * R) -> list entry -> Prop) Ψ :
  (forall r, failed r = false -> Φ tt (d ++ [(c, r)]) l) ->
  (forall r, failed r = true ->
     Φ tt (d ++ [(c, r)]) (l ++ [Entry TWARN (Some (errno r)) (name ++ "() failed") []])) ->
  dx (safe_warn name c) d l Φ Ψ.
Proof.
  intros H1 H2. apply dx_bind, dx_call. intros r. apply dx_when; intros Hr; [|by apply H1].
  by apply dx_resm_errno, H2.
Qed.
End Library.

Ltac dx_step :=
  lazymatch goal with
  | |- dx (mbind _ _) _ _ _ _ => apply dx_bind
  | |- dx (mret _) _ _ _ _ => apply dx_ret
  | |- dx (call _) _ _ _ _ => apply dx_call; intros ?
  | |- dx (call_ _) _ _ _ _ => unfold call_
  | |- dx no_cleanup _ _ _ _ => apply dx_ret
  | |- dx (tst_res _ _ _) _ _ _ _ => apply dx_resm
  | |- dx (tst_resm _ _ _) _ _ _ _ => apply dx_resm
  | |- dx (printf _ _) _ _ _ _ => apply dx_resm
  | |- dx (tst_res_err _ _ _ _) _ _ _ _ => apply dx_resm_errno
  | |- dx (tst_resm_errno _ _ _ _) _ _ _ _ => apply dx_resm_errno
  | |- dx (safe _ _ _) _ _ _ _ => apply dx_safe; intros ? ?
  | |- dx (safe_all _ _ _ _) _ _ _ _ => apply dx_safe_all; intros ? ?
  | |- dx (safe_warn _ _) _ _ _ _ => apply dx_safe_warn; intros ? ?
  | |- dx (if _ then _ else _) _ _ _ _ => apply dx_if; intros ?
  | |- dx (when _ _) _ _ _ _ => apply dx_when; intros ?
  | |- dx getpid _ _ _ _ => apply dx_getpid
  | |- dx tst_exit _ _ _ _ => apply dx_tst_exit
  | |- dx (exit _) _ _ _ _ => apply dx_exit
  | |- dx (let _ := _ in _) _ _ _ _ => cbv zeta
  | |- dx (for_from _ O _) _ _ _ _ => cbn [for_from]
  | |- dx (for_from _ (S _) _) _ _ _ _ => cbn [for_from]
  end.

Ltac dx_steps := repeat (dx_step; cbv beta).
