(* ===== verification/Judge.v ===== *)
(** * Verdicts that are put together from those of the parts

    Most tests judge every answer by itself: [ok (c, r)] says whether the answer [r] to
    the call [c] is acceptable.  [clean_when ok m]: the reports of [m] are clean if and only
    if all the answers it got are acceptable; if it ends the process, they are not.
    [value_when ok Q m]: a function of an independent program that returns [v] with
    [Q v] if and only if the answers it got are acceptable, and never says itself that the test succeeded. *)

From S2P Require Import Prelude Tst Process Explore Prog Checker Wp Alone Ends Ltp Transcript.

Section Judge.
Context {C R : Type}.
Abbreviation P := (M C R unit).
Implicit Types (ok : C * R -> bool) (d : list (C * R)) (l : list entry).

(** What is added to [d] and [l] satisfies [Q]. *)
Definition adds (Q : list (C * R) -> list entry -> Prop) d l d' l' : Prop :=
  exists d1 l1, d' = d ++ d1 /\ l' = l ++ l1 /\ Q d1 l1.

Lemma adds_trans (Q Q1 Q2 : list (C * R) -> list entry -> Prop) d l d1 l1 d2 l2 :
  (forall a1 b1 a2 b2, Q1 a1 b1 -> Q2 a2 b2 -> Q (a1 ++ a2) (b1 ++ b2)) ->
  adds Q1 d l d1 l1 -> adds Q2 d1 l1 d2 l2 -> adds Q d l d2 l2.
Proof.
  intros H (a1 & b1 & -> & -> & H1) (a2 & b2 & -> & -> & H2).
  exists (a1 ++ a2), (b1 ++ b2). rewrite !app_assoc. by auto.
Qed.

Definition clean_when ok {A} (m : P A) : Prop := forall d l,
  dx m d l (fun _ => adds (fun d1 l1 => clean l1 = forallb ok d1) d l)
    (adds (fun d1 l1 => clean l1 = false /\ forallb ok d1 = false) d l).

(** See above; it may also end the process after an answer that is not acceptable. *)
Definition value_when ok {A} (Q : A -> bool) (m : P A) : Prop := forall d l,
  dx m d l (fun v => adds (fun d1 l1 => succeeded l1 = false /\ Q v = forallb ok d1) d l)
    (adds (fun d1 l1 => succeeded l1 = false /\ forallb ok d1 = false) d l).

Definition nonzero (v : Z) : bool := negb (v =? 0).

Lemma clean_ret ok {A} (x : A) : clean_when ok (mret x : P A).
Proof. intros d l. apply dx_ret. exists [], []. by rewrite !app_nil_r. Qed.

Lemma clean_bind ok {A B} (m : P A) (f : A -> P B) :
  clean_when ok m -> (forall x, clean_when ok (f x)) -> clean_when ok (m ≫= f).
Proof.
  intros Hm Hf d l. eapply dx_seq; [apply Hm | |].
  - intros x d1 l1 H1. eapply dx_mono; [| |apply Hf].
    + intros ? d2 l2. eapply adds_trans; [|exact H1]. intros a1 b1 a2 b2 E1 E2.
      by rewrite clean_app, forallb_app, E1, E2.
    + intros d2 l2. eapply adds_trans; [|exact H1]. intros a1 b1 a2 b2 E1 [E2 E3].
      by rewrite clean_app, forallb_app, E2, E3, !andb_false_r.
  - done.
Qed.

Lemma clean_for ok start n (body : Z -> P unit) :
  (forall i, start <= i < start + Z.of_nat n -> clean_when ok (body i)) ->
  clean_when ok (for_from start n body).
Proof.
  revert start. induction n as [|n IH]; intros start Hb; cbn [for_from]; [apply clean_ret|].
  apply clean_bind; [apply Hb; lia | intros _; apply IH]. intros i Hi. apply Hb. lia.
Qed.

(** The test functions may rely on what [setup] leaves. *)
Lemma clean_run_tests_with ok {X} (I : X -> Prop) (setup : P X) test n cleanup :
  (forall d l, dx setup d l (fun x d' l' => I x /\ adds (fun d1 l1 => clean l1 = forallb ok d1) d l d' l')
     (adds (fun d1 l1 => clean l1 = false /\ forallb ok d1 = false) d l)) ->
  (forall x i, I x -> 0 <= i < Z.of_nat n -> clean_when ok (test x i)) ->
  (forall x, clean_when ok (cleanup x)) ->
  judges (run_tests setup test n cleanup) clean (forallb ok).
Proof.
  intros Hs Ht Hc. apply dx_judges, dx_bind, dx_bind.
  assert (Hend : forall d l, adds (fun d1 l1 => clean l1 = false /\ forallb ok d1 = false) [] [] d l ->
    clean l = forallb ok d).
  { intros d l (d1 & l1 & -> & -> & H1 & H2). cbn [app]. congruence. }
  eapply dx_mono; [|by apply Hend|apply Hs]. intros x d1 l1 [Hx H1].
  pose proof (clean_bind ok _ _ (clean_for ok 0 n (test x) (fun i => Ht x i Hx)) (fun _ => Hc x)) as Hm.
  eapply dx_mono; [| |apply Hm].
  - intros ? d l H2. apply dx_tst_exit. destruct H1 as (a1 & b1 & -> & -> & E1), H2 as (a2 & b2 & -> & -> & E2).
    cbn [app]. by rewrite clean_app, forallb_app, E1, E2.
  - intros d l H2. apply Hend. eapply adds_trans; [|exact H1|exact H2].
    intros a1 b1 a2 b2 E1 [E2 E3]. by rewrite clean_app, forallb_app, E2, E3, !andb_false_r.
Qed.

Lemma clean_run_tests ok {X} (setup : P X) test n cleanup :
  clean_when ok setup -> (forall x i, 0 <= i < Z.of_nat n -> clean_when ok (test x i)) ->
  (forall x, clean_when ok (cleanup x)) ->
  judges (run_tests setup test n cleanup) clean (forallb ok).
Proof.
  intros Hs Ht Hc. apply (clean_run_tests_with ok (fun _ => True)); [|by intros x i _; apply Ht|done].
  intros d l. eapply dx_mono; [| |apply Hs]; [|done]. intros x d' l' H. by split.
Qed.

(** A program of the older library. *)
Lemma clean_seq ok {A B} (m : P A) (f : A -> P B) d l :
  clean_when ok m -> clean l = forallb ok d ->
  (forall x d' l', clean l' = forallb ok d' ->
     dx (f x) d' l' (fun _ _ _ => False) (fun d l => clean l = forallb ok d)) ->
  dx (m ≫= f) d l (fun _ _ _ => False) (fun d l => clean l = forallb ok d).
Proof.
  intros Hm H0 Hf. eapply dx_seq; [apply Hm | |].
  - intros x d' l' (d1 & l1 & -> & -> & H1). apply Hf. by rewrite clean_app, forallb_app, H0, H1.
  - intros d' l' (d1 & l1 & -> & -> & H1 & H2). by rewrite clean_app, forallb_app, H1, H2, !andb_false_r.
Qed.

Lemma clean_tests ok {X A} (setup : P X) (test cleanup : X -> P unit) :
  clean_when ok setup -> (forall x, clean_when ok (test x)) -> (forall x, clean_when ok (cleanup x)) ->
  judges (x ← setup; test x ;; cleanup x ;; (tst_exit : P A)) clean (forallb ok).
Proof.
  intros Hs Ht Hc. apply dx_judges, (clean_seq ok); [done|done|]. intros x d1 l1 H1.
  apply (clean_seq ok); [done|done|]. intros ? d2 l2 H2.
  apply (clean_seq ok); [done|done|]. intros ? d3 l3 H3. by apply dx_tst_exit.
Qed.

(** A check that reports: one case for both outcomes. *)
Lemma dx_check {B} (b : bool) (m : P unit) (f : unit -> P B) d l Φ Ψ :
  (forall d l, dx m d l (fun _ d' l' => d' = d /\ exists l1, l' = l ++ l1 /\ clean l1 = false) (fun _ _ => False)) ->
  (forall l1, clean l1 = negb b -> dx (f tt) d (l ++ l1) Φ Ψ) ->
  dx (when b m ≫= f) d l Φ Ψ.
Proof.
  intros Hm Hf. apply dx_bind, dx_when; intros Hb.
  - eapply dx_mono; [| |apply Hm]; [|done]. intros [] d' l' (-> & l1 & -> & Hl). apply Hf. by rewrite Hb.
  - rewrite <- (app_nil_r l). apply Hf. by rewrite Hb.
Qed.

(** ** Verdicts that look at several answers *)

Section Values.
Context `{!Reply R}.

Definition values d : list Z := map (fun e => ret e.2) d.

(** What [m] does with the values its calls return and its reports: it returns with [Φ], or
    ends the process with [Ψ]. *)
Definition gives {A} (m : P A) (Φ : A -> list Z -> list entry -> Prop)
    (Ψ : list Z -> list entry -> Prop) : Prop := forall d l,
  dx m d l (fun a => adds (fun d1 l1 => Φ a (values d1) l1) d l) (adds (fun d1 l1 => Ψ (values d1) l1) d l).

Lemma gives_mono {A} (m : P A) (Φ Φ' : A -> list Z -> list entry -> Prop) (Ψ Ψ' : list Z -> list entry -> Prop) :
  (forall a v l, Φ a v l -> Φ' a v l) -> (forall v l, Ψ v l -> Ψ' v l) -> gives m Φ Ψ -> gives m Φ' Ψ'.
Proof.
  intros H1 H2 H d l. eapply dx_mono; [| |apply H].
  - intros a d' l' (d1 & l1 & -> & -> & HΦ). exists d1, l1. auto.
  - intros d' l' (d1 & l1 & -> & -> & HΨ). exists d1, l1. auto.
Qed.

Lemma gives_ret {A} (x : A) (Φ : A -> list Z -> list entry -> Prop) Ψ : Φ x [] [] -> gives (mret x) Φ Ψ.
Proof. intros H d l. apply dx_ret. exists [], []. by rewrite !app_nil_r. Qed.

Lemma gives_bind {A B} (m : P A) (f : A -> P B) Φ Ψ Φ1 (Ψ1 : list Z -> list entry -> Prop) :
  gives m Φ1 Ψ1 ->
  (forall a v l, Φ1 a v l -> gives (f a) (fun b v' l' => Φ b (v ++ v') (l ++ l')) (fun v' l' => Ψ (v ++ v') (l ++ l'))) ->
  (forall v l, Ψ1 v l -> Ψ v l) -> gives (m ≫= f) Φ Ψ.
Proof.
  intros Hm Hf HΨ d l. eapply dx_seq; [apply Hm | |].
  - intros a d1 l1 (a1 & b1 & -> & -> & H1). eapply dx_mono; [| |by apply (Hf a _ _ H1)].
    + intros b d2 l2 (a2 & b2 & -> & -> & H2). exists (a1 ++ a2), (b1 ++ b2).
      rewrite !app_assoc. unfold values in *. rewrite map_app. auto.
    + intros d2 l2 (a2 & b2 & -> & -> & H2). exists (a1 ++ a2), (b1 ++ b2).
      rewrite !app_assoc. unfold values in *. rewrite map_app. auto.
  - intros d1 l1 (a1 & b1 & -> & -> & H1). exists a1, b1. auto.
Qed.

Lemma gives_call c (Φ : R -> list Z -> list entry -> Prop) Ψ :
  (forall r, Φ r [ret r] []) -> gives (call c) Φ Ψ.
Proof. intros H d l. apply dx_call. intros r. exists [(c, r)], []. by rewrite app_nil_r. Qed.

Lemma gives_getpid_bind {B} (f : Z -> P B) Φ Ψ : gives (f main_pid) Φ Ψ -> gives (getpid ≫= f) Φ Ψ.
Proof. intros H d l. apply dx_bind, dx_getpid. apply H. Qed.

Lemma gives_call_bind {B} c (f : R -> P B) Φ Ψ :
  (forall r, gives (f r) (fun b v l => Φ b (ret r :: v) l) (fun v l => Ψ (ret r :: v) l)) ->
  gives (call c ≫= f) Φ Ψ.
Proof.
  intros H. eapply (gives_bind _ _ _ _ (fun r v l => v = [ret r] /\ l = []) (fun _ _ => False)).
  - by apply gives_call.
  - by intros r v l [-> ->].
  - done.
Qed.

Lemma gives_call__bind {B} c (f : unit -> P B) Φ Ψ :
  (forall x, gives (f tt) (fun b v l => Φ b (x :: v) l) (fun v l => Ψ (x :: v) l)) ->
  gives (call_ c ≫= f) Φ Ψ.
Proof.
  intros H. eapply (gives_bind _ _ _ _ (fun _ v l => exists x, v = [x] /\ l = []) (fun _ _ => False)).
  - apply gives_call_bind. intros r. apply gives_ret. by exists (ret r).
  - intros [] v l (x & -> & ->). apply H.
  - done.
Qed.

(** A check that reports. *)
Lemma gives_check {B} (b : bool) t fmt args e (f : unit -> P B) Φ Ψ :
  bad_entry (Entry t e fmt args) = true ->
  (forall l1, clean l1 = negb b ->
     gives (f tt) (fun x v l => Φ x v (l1 ++ l)) (fun v l => Ψ v (l1 ++ l))) ->
  gives (when b (ev (Report (Entry t e fmt args))) ≫= f) Φ Ψ.
Proof.
  intros Ht H. eapply (gives_bind _ _ _ _ (fun _ v l => v = [] /\ clean l = negb b) (fun _ _ => False)).
  - intros d l. apply dx_when; intros ->.
    + intros st o. apply ex_sx, sx_report. exists d. split; [done|]. exists [], [Entry t e fmt args].
      rewrite app_nil_r. repeat split. cbn. by rewrite Ht.
    + exists [], []. by rewrite !app_nil_r.
  - intros [] v l [-> Hl]. by apply H.
  - done.
Qed.

(** A program whose [main] returns. *)
Lemma gives_program (m : P unit) (Ψ : list Z -> list entry -> Prop) :
  gives m (fun _ => Ψ) Ψ -> gives (program m) (fun _ _ _ => False) Ψ.
Proof.
  intros H. eapply gives_bind; [exact H| |done]. intros [] v l HΨ d0 l0. apply dx_exit.
  exists [], []. rewrite !app_nil_r. by repeat split; rewrite ?app_nil_r.
Qed.

Lemma gives_judges {A} (m : P A) verdict spec :
  gives m (fun _ _ _ => False) (fun v l => verdict l = spec v) -> judges m verdict (fun d => spec (values d)).
Proof.
  intros H. apply dx_judges. eapply dx_mono; [| |apply H].
  - by intros a d l (d1 & l1 & _ & _ & []).
  - by intros d l (d1 & l1 & -> & -> & E).
Qed.
End Values.

(** ** Independent programs *)

Lemma value_ret ok : value_when ok nonzero (mret 1 : P Z).
Proof. intros d l. apply dx_ret. exists [], []. by rewrite !app_nil_r. Qed.

Lemma value_all ok start n (verify : Z -> P Z) v0 :
  (forall i, start <= i < start + Z.of_nat n -> value_when ok nonzero (verify i)) ->
  forall d l, dx (verify_all start n verify v0) d l
    (fun v => adds (fun d1 l1 => succeeded l1 = false /\ nonzero v = nonzero v0 && forallb ok d1) d l)
    (adds (fun d1 l1 => succeeded l1 = false /\ forallb ok d1 = false) d l).
Proof.
  revert start v0. induction n as [|n IH]; intros start v0 Hv d l; cbn [verify_all].
  - apply dx_ret. exists [], []. by rewrite !app_nil_r, andb_true_r.
  - eapply dx_seq; [apply Hv; lia | | done]. intros v d1 l1 H1.
    eapply dx_mono; [| |apply IH; intros i Hi; apply Hv; lia].
    + intros v2 d2 l2. eapply adds_trans; [|exact H1]. intros a1 b1 a2 b2 [E1 Q1] [E2 Q2].
      rewrite succeeded_app, forallb_app, E1, E2, Q2, <- Q1. split; [done|].
      unfold nonzero. rewrite andb_assoc. f_equal.
      destruct (Z.eqb_spec v0 0), (Z.eqb_spec v 0), (Z.eqb_spec (v0 * v) 0); cbn; lia.
    + intros d2 l2. eapply adds_trans; [|exact H1]. intros a1 b1 a2 b2 [E1 Q1] [E2 Q2].
      by rewrite succeeded_app, forallb_app, E1, E2, Q2, andb_false_r.
Qed.

Lemma value_loop ok start n (verify : Z -> P Z) :
  (forall i, start <= i < start + Z.of_nat n -> value_when ok nonzero (verify i)) ->
  value_when ok nonzero (verify_all start n verify 1).
Proof.
  intros Hv d l. eapply dx_mono; [| |by apply (value_all ok _ _ _ 1)]; [|done].
  intros v d' l' (d1 & l1 & -> & -> & H1 & H2). by exists d1, l1.
Qed.
End Judge.

(** An original test, an independent version of it, and what each of them demands of the
    answers it gets. *)
Record contract C R := Contract {
  c_original : M C R unit unit; c_demands : list (C * R) -> bool;
  c_port : M C R unit unit; c_port_demands : list (C * R) -> bool
}.
Arguments Contract {C R}.
Arguments c_original {C R}.
Arguments c_demands {C R}.
Arguments c_port {C R}.
Arguments c_port_demands {C R}.

Definition kept {C R} (c : contract C R) : Prop :=
  judges (c_original c) clean (c_demands c) /\ judges (c_port c) succeeded (c_port_demands c).

(** The structure of a program of this kind. *)
Ltac give_steps :=
  repeat lazymatch goal with
  | |- gives (mbind _ (call _)) _ _ => apply gives_call_bind; intros ?
  | |- gives (mbind _ (call_ _)) _ _ => apply gives_call__bind; intros ?
  | |- gives (mbind _ getpid) _ _ => apply gives_getpid_bind
  | |- gives (mbind _ (when _ _)) _ _ => apply gives_check; [done|]; intros ? ?
  | |- gives (mret _) _ _ => apply gives_ret
  | |- gives (let _ := _ in _) _ _ => cbv zeta
  end.

(** A program that prepares, verifies, and prints whether it is satisfied. *)
Lemma success_judges {C R X A} ok (Q : A -> bool) (setup : M C R unit X) verify finish :
  value_when ok (fun _ => true) setup -> (forall x, value_when ok Q (verify x)) ->
  (forall x v d l, dx (finish x v) d l
     (fun _ => adds (fun d1 l1 => succeeded l1 = Q v /\ forallb ok d1 = true) d l) (fun _ _ => False)) ->
  judges (program (x ← setup; v ← verify x; finish x v)) succeeded (forallb ok).
Proof.
  intros Hs Hv Hf. apply dx_judges, dx_bind.
  assert (Hbad : forall d1 l1 d l, adds (fun a b => succeeded b = false /\ true = forallb ok a) [] [] d1 l1 ->
    adds (fun a b => succeeded b = false /\ forallb ok a = false) d1 l1 d l ->
    succeeded l = forallb ok d).
  { intros d1 l1 d l (a1 & b1 & -> & -> & E1 & Q1) (a2 & b2 & -> & -> & E2 & Q2).
    by rewrite !succeeded_app, !forallb_app, E1, E2, Q2, andb_false_r. }
  eapply dx_seq; [apply Hs | | by intros d l (a & b & -> & -> & E & F); cbn [app]; congruence].
  intros x d1 l1 H1. eapply dx_seq; [apply Hv | | by intros d l; apply Hbad].
  intros v d2 l2 H2. eapply dx_mono; [| |apply Hf]; [|done].
  intros ? d3 l3 (a3 & b3 & -> & -> & E3 & Q3). apply dx_exit.
  destruct H2 as (a2 & b2 & -> & -> & E2 & Q2), H1 as (a1 & b1 & -> & -> & E1 & Q1).
  rewrite !succeeded_app, !forallb_app, E1, E2, E3, Q3, <- Q1, <- Q2. by rewrite andb_true_r.
Qed.

(** Ends a path of a program: what was added, and the verdict by the tests on the way. *)
Ltac path_added :=
  eexists _, _; split; [rewrite <- ?app_assoc; first [reflexivity | symmetry; apply app_nil_r]|];
  split; [rewrite <- ?app_assoc; first [reflexivity | symmetry; apply app_nil_r]|].

(** What is unfolded in a verdict; a family of tests adds its own. *)
Ltac unfold_verdict := unfold failed, nonzero in *.

(** The values that are known on a path. *)
Ltac use_known :=
  rewrite ?negb_true_iff, ?negb_false_iff in *;
  repeat match goal with
  | H : ?b = false |- context [?b] => rewrite H
  | H : ?b = true |- context [?b] => rewrite H
  end;
  repeat match goal with H : (?x =? ?v) = true |- _ => apply Z.eqb_eq in H; try rewrite H in * end.

(** The cases of a loop with a constant bound. *)
Ltac number_cases :=
  cbn [for_from length];
  repeat match goal with
  | |- context [Z.to_nat ?i] => let n := eval vm_compute in (Z.to_nat i) in change (Z.to_nat i) with n
  end.

(** What is printed is known. *)
Ltac compute_output :=
  repeat match goal with
  | |- context [contains ?w ?s] => let b := eval vm_compute in (contains w s) in change (contains w s) with b
  end.

(** Conditions that are decided on the path, and others. *)
Ltac decide_ifs :=
  repeat match goal with
  | H : (?x =? ?v) = ?b, H' : context [if ?x =? ?v then _ else _] |- _ => rewrite H in H'; cbn in H'
  end;
  repeat match goal with
  | |- context [if ?b then _ else _] => destruct b eqn:?; cbn in *
  | H : context [if ?b then _ else _] |- _ => destruct b eqn:?; cbn in *
  end.

Ltac path_ends :=
  path_added; cbn in *; compute_output; unfold_verdict; cbn in *; unfold_verdict; decide_ifs;
  try split; try done; try lia; use_known; done.

(** The same when the whole run is known. *)
Ltac path_judged :=
  cbn in *; compute_output; unfold_verdict; cbn in *; unfold_verdict; decide_ifs; try done; try lia; use_known; done.

Ltac judge_path := intros ? ?; dx_steps; path_ends.
