(* ===== verification/Grammar.v ===== *)
(** * The answers a test accepts, as a grammar

    A test that compares several answers, or whose calls depend on the answers before, judges a
    transcript of calls and answers, not each answer by itself.  A [grammar] reads such a
    transcript: it gives a value and what is left, or nothing.  [follows m p]: whatever the system
    answers, [m] returns with the value and the rest that [p] gives if its reports are clean;
    if they are not, or if it ends the process, [p] accepts no continuation of the answers it got.
    [grammar_judges]: a program passes exactly on the transcripts its grammar accepts. *)

From Stdlib Require Import Ascii.
From S2P Require Import Prelude Tst Process Explore Prog Checker Wp Alone Ends Ltp Transcript Judge.

(** ** Grammars *)

Section Grammar.
Context {C R : Type}.

Definition grammar (A : Type) : Type := list (C * R) -> option (A * list (C * R)).

#[export] Instance grammar_ret : MRet grammar := fun A x d => Some (x, d).

#[export] Instance grammar_bind : MBind grammar := fun A B f p d =>
  match p d with Some (x, d) => f x d | None => None end.

(** The next answer, if it is acceptable. *)
Definition answer (ok : R -> bool) : grammar R := fun d =>
  match d with (_, r) :: d => if ok r then Some (r, d) else None | [] => None end.

Definition guard (b : bool) : grammar unit := fun d => if b then Some (tt, d) else None.

Fixpoint repeated {X} (start : Z) (n : nat) (p : Z -> X -> grammar X) (x : X) : grammar X :=
  match n with O => mret x | S n => x ← p start x; repeated (start + 1) n p x end.

Definition accepts {A} (p : grammar A) (d : list (C * R)) : bool :=
  match p d with Some _ => true | None => false end.

(** ** Programs *)

Abbreviation P := (M C R unit).

Definition follows {A} (m : P A) (p : grammar A) : Prop := forall d l,
  dx m d l
    (fun x => adds (fun d1 l1 => forall d2, p (d1 ++ d2) = if clean l1 then Some (x, d2) else None) d l)
    (adds (fun d1 l1 => clean l1 = false /\ forall d2, p (d1 ++ d2) = None) d l).

Lemma follows_ret {A} (x : A) : follows (mret x) (mret x).
Proof. intros d l. apply dx_ret. exists [], []. by rewrite !app_nil_r. Qed.

Lemma follows_bind {A B} (m : P A) (f : A -> P B) p q :
  follows m p -> (forall x, follows (f x) (q x)) -> follows (m ≫= f) (p ≫= q).
Proof.
  intros Hm Hf d l. eapply dx_seq; [apply Hm| |].
  - intros x d1 l1 (a1 & b1 & -> & -> & H1). eapply dx_mono; [| |apply (Hf x)].
    + intros y d2 l2 (a2 & b2 & -> & -> & H2). exists (a1 ++ a2), (b1 ++ b2). rewrite !app_assoc.
      split; [done|]. split; [done|]. intros d3. rewrite clean_app, <- app_assoc.
      unfold mbind, grammar_bind. rewrite H1. destruct (clean b1); [apply H2 | done].
    + intros d2 l2 (a2 & b2 & -> & -> & E & H2). exists (a1 ++ a2), (b1 ++ b2). rewrite !app_assoc.
      split; [done|]. split; [done|]. split; [by rewrite clean_app, E, andb_false_r|].
      intros d3. rewrite <- app_assoc. unfold mbind, grammar_bind. rewrite H1. by destruct (clean b1).
  - intros d' l' (a1 & b1 & -> & -> & E & H1). exists a1, b1. split; [done|]. split; [done|].
    split; [done|]. intros d2. unfold mbind, grammar_bind. by rewrite H1.
Qed.

(** The grammar may be another one that accepts the same. *)
Lemma follows_eq {A} (m : P A) p q : (forall d, p d = q d) -> follows m p -> follows m q.
Proof.
  intros E H d l. eapply dx_mono; [| |apply H].
  - intros x d' l' (a & b & -> & -> & H1). exists a, b. split; [done|]. split; [done|]. intros d2. by rewrite <- E.
  - intros d' l' (a & b & -> & -> & H0 & H1). exists a, b. split; [done|]. split; [done|].
    split; [done|]. intros d2. by rewrite <- E.
Qed.

(** A loop whose body passes on the static variables. *)
Fixpoint for_state {X} (start : Z) (n : nat) (body : Z -> X -> P X) (x : X) : P X :=
  match n with O => mret x | S n => x ← body start x; for_state (start + 1) n body x end.

Lemma follows_for_state {X} start n (body : Z -> X -> P X) p x :
  (forall i x, start <= i < start + Z.of_nat n -> follows (body i x) (p i x)) ->
  follows (for_state start n body x) (repeated start n p x).
Proof.
  revert start x. induction n as [|n IH]; intros start x H; cbn [for_state repeated]; [apply follows_ret|].
  apply follows_bind; [apply H; lia|]. intros y. apply IH. intros i z Hi. apply H. lia.
Qed.

(** A library call with a cleanup function that gives an account of its own answers. *)
Lemma follows_safe `{!Reply R} cleanup name (c : C) q :
  follows cleanup q -> follows (safe cleanup name c) (answer (fun r => negb (failed r))).
Proof.
  intros Hq d l. apply dx_safe; intros r Hr.
  - exists [(c, r)], []. rewrite app_nil_r. split; [done|]. split; [done|]. intros d2. cbn. by rewrite Hr.
  - eapply dx_mono; [| |apply Hq].
    + intros ? d' l' (a & b & -> & -> & _). rewrite <- !app_assoc. eexists _, _.
      split; [done|]. split; [done|]. split; [done|]. intros d2. cbn. by rewrite Hr.
    + intros d' l' (a & b & -> & -> & _). rewrite <- !app_assoc. eexists _, _.
      split; [done|]. split; [done|]. split; [done|]. intros d2. cbn. by rewrite Hr.
Qed.

Lemma follows_safe_all `{!Reply R} cleanup name (c : C) n q :
  follows cleanup q -> follows (safe_all cleanup name c n) (answer (fun r => ret r =? n)).
Proof.
  intros Hq d l. apply dx_safe_all; intros r Hr.
  - exists [(c, r)], []. rewrite app_nil_r. split; [done|]. split; [done|]. intros d2. cbn. by rewrite Hr.
  - eapply dx_mono; [| |apply Hq].
    + intros ? d' l' (a & b & -> & -> & _). rewrite <- !app_assoc. eexists _, _.
      split; [done|]. split; [done|]. split; [done|]. intros d2. cbn. by rewrite Hr.
    + intros d' l' (a & b & -> & -> & _). rewrite <- !app_assoc. eexists _, _.
      split; [done|]. split; [done|]. split; [done|]. intros d2. cbn. by rewrite Hr.
Qed.

Lemma follows_when (b : bool) (m : P unit) p :
  follows m p -> follows (when b m) (if b then p else mret tt).
Proof. destruct b; [done|]. intros _. apply follows_ret. Qed.

(** A report that is no failure. *)
Lemma follows_info t fmt args : bad_entry (Entry t None fmt args) = false -> follows (tst_res t fmt args) (mret tt).
Proof.
  intros Ht d l. apply dx_resm. exists [], [Entry t None fmt args]. rewrite app_nil_r.
  split; [done|]. split; [done|]. intros d2. cbn. unfold clean. cbn. by rewrite Ht.
Qed.

Lemma follows_call (c : C) : follows (call c) (answer (fun _ => true)).
Proof. intros d l. apply dx_call. intros r. exists [(c, r)], []. by rewrite app_nil_r. Qed.

Lemma follows_brk (b : bool) cleanup t fmt args q :
  bad_entry (Entry t None fmt args) = true -> follows cleanup q ->
  follows (when b (tst_brk cleanup t fmt args)) (guard (negb b)).
Proof.
  intros Ht Hq d l. apply dx_when; intros ->; [|by exists [], []; rewrite !app_nil_r].
  apply dx_bind, dx_resm, dx_bind.
  assert (Hc : forall b, clean ([Entry t None fmt args] ++ b) = false) by (intros b; unfold clean; cbn; by rewrite Ht).
  eapply dx_mono; [| |apply Hq].
  - intros ? d' l' (a & b & -> & -> & _). apply dx_tst_exit. rewrite <- app_assoc.
    eexists _, _. split; [reflexivity|]. split; [reflexivity|]. by split.
  - intros d' l' (a & b & -> & -> & _). rewrite <- app_assoc.
    eexists _, _. split; [reflexivity|]. split; [reflexivity|]. by split.
Qed.

Lemma follows_defined (b : bool) : follows (defined_if b) (guard b).
Proof.
  intros d l. unfold defined_if, undefined. destruct b.
  - apply dx_ret. exists [], []. by rewrite !app_nil_r.
  - apply dx_bind, dx_resm, dx_exit. eexists [], _. rewrite app_nil_r. by repeat split.
Qed.

(** A call whose answer is judged at once. *)
Definition none {A} : grammar A := fun _ => None.

Lemma follows_judged {A} (c : C) ok (f : R -> P A) q :
  (forall r, ok r = true -> follows (f r) (q r)) -> (forall r, ok r = false -> follows (f r) none) ->
  follows (call c ≫= f) (answer ok ≫= q).
Proof.
  intros H1 H2. apply (follows_eq _ (answer (fun _ => true) ≫= fun r => if ok r then q r else none)).
  - intros [|[c' r] d]; [done|]. unfold mbind, grammar_bind, answer. by destruct (ok r).
  - apply follows_bind; [apply follows_call|]. intros r. destruct (ok r) eqn:E; auto.
Qed.

Lemma follows_info_bind {A} t fmt args (m : P A) p :
  bad_entry (Entry t None fmt args) = false -> follows m p -> follows (tst_res t fmt args ;; m) p.
Proof.
  intros Ht Hm. apply (follows_eq _ (mret tt ≫= fun _ => p)); [done|].
  apply follows_bind; [by apply follows_info | by intros _].
Qed.

Fixpoint each (start : Z) (n : nat) (p : Z -> grammar unit) : grammar unit :=
  match n with O => mret tt | S n => p start ;; each (start + 1) n p end.

Lemma follows_for start n (body : Z -> P unit) p :
  (forall i, start <= i < start + Z.of_nat n -> follows (body i) (p i)) ->
  follows (for_from start n body) (each start n p).
Proof.
  revert start. induction n as [|n IH]; intros start H; cbn [for_from each]; [apply follows_ret|].
  apply follows_bind; [apply H; lia|]. intros ?. apply IH. intros i Hi. apply H. lia.
Qed.

(** A program of the older library, which calls [tst_exit] itself. *)
Definition finishes {A B} (m : P A) (p : grammar B) : Prop := forall d l,
  dx m d l (fun _ _ _ => False) (adds (fun d1 l1 => accepts p d1 = clean l1) d l).

Lemma finishes_bind {A B X} (m : P X) (f : X -> P A) p (q : X -> grammar B) :
  follows m p -> (forall x, finishes (f x) (q x)) -> finishes (m ≫= f) (p ≫= q).
Proof.
  intros Hm Hf d l. eapply dx_seq; [apply Hm| |].
  - intros x d1 l1 (a1 & b1 & -> & -> & H1). eapply dx_mono; [| |apply (Hf x)]; [done|].
    intros d2 l2 (a2 & b2 & -> & -> & H2). exists (a1 ++ a2), (b1 ++ b2). rewrite !app_assoc.
    split; [done|]. split; [done|]. rewrite clean_app. unfold accepts, mbind, grammar_bind in *. rewrite H1.
    by destruct (clean b1).
  - intros d' l' (a1 & b1 & -> & -> & E & H1). exists a1, b1. split; [done|]. split; [done|].
    unfold accepts, mbind, grammar_bind. by rewrite <- (app_nil_r a1), H1, E.
Qed.

Lemma finishes_exit {A} : finishes (tst_exit : P A) (mret tt).
Proof. intros d l. apply dx_tst_exit. exists [], []. by rewrite !app_nil_r. Qed.

Lemma finishes_judges {A B} (m : P A) (p : grammar B) : finishes m p -> judges m clean (accepts p).
Proof.
  intros H. apply dx_judges. eapply dx_mono; [| |apply H]; [done|]. by intros d l (a & b & -> & -> & E).
Qed.

Lemma follows_any (c : C) : follows (call_ c) (answer (fun _ => true) ;; mret tt).
Proof. intros d l. apply dx_bind, dx_call. intros r. apply dx_ret. exists [(c, r)], []. by rewrite app_nil_r. Qed.

Lemma grammar_judges {A B} (m : P A) (p : grammar A) :
  follows m p -> judges (m ;; (tst_exit : P B)) clean (accepts p).
Proof.
  intros H. apply dx_judges. eapply dx_mono; [| |apply (finishes_bind _ _ p (fun _ => mret tt) H)]; [done| |].
  - intros d l (a & b & -> & -> & E). cbn [app]. rewrite <- E. unfold accepts, mbind, grammar_bind.
    by destruct (p a) as [[? ?]|].
  - intros ?. apply finishes_exit.
Qed.
End Grammar.

Arguments grammar : clear implicits.

Definition test_grammar {C R X} (p : grammar C R X) (q : X -> Z -> grammar C R unit) (n : nat)
    (c : X -> grammar C R unit) : grammar C R unit :=
  x ← p; each 0 n (q x) ;; c x.

Lemma run_tests_follow {C R X} (setup : M C R unit X) test n cleanup p q c :
  follows setup p -> (forall x i, 0 <= i < Z.of_nat n -> follows (test x i) (q x i)) ->
  (forall x, follows (cleanup x) (c x)) ->
  judges (run_tests setup test n cleanup) clean (accepts (test_grammar p q n c)).
Proof.
  intros Hp Hq Hc. apply grammar_judges, follows_bind; [done|]. intros x.
  apply follows_bind; [apply follows_for; intros i Hi; by apply Hq|]. intros ?. apply Hc.
Qed.

(** [run_tests] of programs whose test functions change the static variables. *)
Definition run_tests_state {C R X} (setup : M C R unit X) (test : Z -> X -> M C R unit X) (tcnt : nat)
    (cleanup : X -> M C R unit unit) : M C R unit unit :=
  (x ← setup; x ← for_state 0 tcnt test x; cleanup x) ;; tst_exit.

Definition tests_grammar {C R X} (p : grammar C R X) (q : Z -> X -> grammar C R X) (n : nat)
    (c : X -> grammar C R unit) : grammar C R unit :=
  x ← p; x ← repeated 0 n q x; c x.

Lemma run_tests_judges {C R X} (setup : M C R unit X) test n cleanup p q c :
  follows setup p -> (forall i x, 0 <= i < Z.of_nat n -> follows (test i x) (q i x)) ->
  (forall x, follows (cleanup x) (c x)) ->
  judges (run_tests_state setup test n cleanup) clean (accepts (tests_grammar p q n c)).
Proof.
  intros Hp Hq Hc. apply grammar_judges, follows_bind; [done|]. intros x.
  apply follows_bind; [by apply follows_for_state|]. done.
Qed.

(** The string in an array of nulls into which [s] was read. *)
Fixpoint c_string (s : string) : string :=
  match s with
  | EmptyString => EmptyString
  | String c s => if Ascii.eqb c Ascii.zero then EmptyString else String c (c_string s)
  end.

(** A part of a program, path by path. *)
Ltac read_grammar :=
  cbn in *; unfold mbind, grammar_bind, mret, grammar_ret, answer, guard; unfold_verdict; cbn in *; unfold_verdict.

(** A condition that is decided on the path by the parts of it. *)
Ltac combine_known :=
  rewrite ?negb_true_iff, ?negb_false_iff in *;
  repeat match goal with
  | H : ?b = true, H' : context [?b] |- _ => lazymatch H with H' => fail | _ => rewrite H in H' end
  | H : ?b = false, H' : context [?b] |- _ => lazymatch H with H' => fail | _ => rewrite H in H' end
  end; cbn in *.

Ltac path_followed :=
  path_added; read_grammar; try (split; [done|]); intros ?; read_grammar; decide_ifs;
  try done; try lia; first [combine_known; done | use_known; done].

Ltac follow_path := intros ? ?; dx_steps; path_followed.

(** The same where a cleanup function is known by what it follows ([cleans]). *)
Ltac follow_path_with cleans :=
  intros ? ?; dx_steps;
  first [ path_followed
        | eapply dx_mono; [| |cleans]; [intros ?|]; intros ? ? (? & ? & -> & -> & _); path_followed ].

(** A part of a program, call by call; [cleans] proves what a cleanup function follows. *)
Ltac follow_steps cleans :=
  repeat lazymatch goal with
  | |- follows (mbind _ (safe _ _ _)) _ => apply follows_bind; [eapply follows_safe; cleans | intros ?]
  | |- follows (mbind _ (safe_all _ _ _ _)) _ => apply follows_bind; [eapply follows_safe_all; cleans | intros ?]
  | |- follows (mbind _ (call _)) _ => apply follows_bind; [apply follows_call | intros ?]
  | |- follows (mbind _ (when _ (tst_brk _ _ _ _))) _ =>
      apply follows_bind; [eapply follows_brk; [reflexivity | cleans] | intros ?]
  | |- follows (mbind _ (when _ _)) _ => apply follows_bind; [apply follows_when | intros ?]
  | |- follows (mbind _ (call_ _)) _ => apply follows_bind; [apply follows_any | intros ?]
  | |- follows (mbind _ (tst_res TINFO _ _)) _ => apply follows_info_bind; [reflexivity|]
  | |- follows (mret _) _ => apply follows_ret
  end.
