(* ===== verification/Descriptors.v ===== *)
(** * Descriptors: the documented behaviour of open, read, write, fcntl, close, ...

    The calls of the basic tests of open files, and a reference platform [desc_kernel]
    that answers them as open(2), read(2), write(2), lseek(2), fcntl(2), dup(2), close(2), pipe(7)
    and fifo(7) document, for one process.

    A descriptor refers to an open file, which descriptors made by F_DUPFD share: it has
    an object, the flags and the position.  The bytes of a regular file are a function
    of the offset; of a pipe or FIFO only the number of bytes in it is kept, and read
    from it are nulls.  Descriptors 0, 1 and 2 are a terminal.  A process has at most
    [OPEN_MAX] descriptors.  A single process is never kept from a record lock.

    There is one such system for each value of [choices]: the inode numbers, the addresses
    that mmap gives, and the size of a pipe. *)

From Stdlib Require Import Ascii.
From S2P Require Import Prelude Tst Process Prog FileSys RecordLocks Ltp Judge.

(** ** Constants *)

Definition O_ACCMODE : Z := 3.
Definition O_APPEND : Z := 1024.
Definition O_NONBLOCK : Z := 2048.
Definition O_NDELAY : Z := O_NONBLOCK.
Definition O_SYNC : Z := 1052672.
Definition FD_CLOEXEC : Z := 1.
Definition S_IFIFO : Z := 4096.
Definition BUFSIZ : Z := 8192.
Definition SIGPIPE : Z := 13.
Definition ENXIO : Z := 6.
Definition ESPIPE : Z := 29.
Definition EPIPE : Z := 32.
Definition OPEN_MAX : Z := 1024.
Definition PIPE_BUF : Z := 4096.
Definition PAGE : Z := 4096.

(** ** Calls and answers *)

(** What a pointer leads to: [n] bytes that are all the same, a text, or the memory at an
    address that the program got from [mmap], or null. *)
Inductive buffer := Fill (b : Z) | Text (s : string) | At_ (addr : Z).

Definition null : buffer := At_ 0.

Definition string_byte (s : string) (i : Z) : Z :=
  match String.get (Z.to_nat i) s with Some a => Z.of_nat (nat_of_ascii a) | None => 0 end.

Definition buffer_byte (b : buffer) (i : Z) : Z :=
  match b with Fill c => c | Text s => string_byte s i | At_ _ => 0 end.

Inductive fcntl_cmd :=
| F_DUPFD (min : Z)
| F_GETFD
| F_SETFD (flags : Z)
| F_GETFL
| F_SETFL (flags : Z)
| F_LOCK (cmd : Z) (lk : flock).   (* F_GETLK, F_SETLK, F_SETLKW *)

Inductive dcall :=
| DOpen (p : string) (flags mode : Z)
| DCreat (p : string) (mode : Z)
| DClose (fd : Z)
| DRead (fd n : Z)
| DWrite (fd : Z) (b : buffer) (n : Z)
| DLseek (fd off whence : Z)
| DFcntl (fd : Z) (c : fcntl_cmd)
| DDup (fd : Z)
| DDup2 (fd fd2 : Z)
| DGetdtablesize
| DSysconf_OPEN_MAX
| DFstat (fd : Z)
| DStat (p : string)
| DUnlink (p : string)
| DPipe
| DSocket (domain type protocol : Z)
| DMknod (p : string) (mode : Z)
| DMkfifo (p : string) (mode : Z)
| DChmod (p : string) (mode : Z)
| DMkstemp (template : string)
| DMmap (len prot flags : Z)
| DMunmap (addr len : Z)
| DMalloc (size : Z)     (* the answer 0 is the null pointer *)
| DSignal (sig : Z)      (* with the handler of the test *)
| DMisc (name : string). (* umask, tst_sig, tst_tmpdir, tst_rmdir *)

(** The value returned and [errno]; the bytes read; the lock written back; size, mode and
    (last) inode number of a file; the descriptors of a pipe; how often the handler of
    SIGPIPE has run. *)
Record dreply := DReply {
  d_ret : Z; d_errno : Z; d_text : string; d_flock : flock; d_size : Z; d_mode : Z;
  d_pipe : Z * Z; d_signals : Z; d_ino : Z
}.

#[export] Instance dreply_reply : Reply dreply := {| ret := d_ret; errno := d_errno |}.

Abbreviation P := (M dcall dreply unit).

Definition dok (r : Z) : dreply := DReply r 0 "" no_flock 0 0 (0, 0) 0 0.
Definition dfails (e : Z) : dreply := DReply (-1) e "" no_flock 0 0 (0, 0) 0 0.

(** What a test demands that also stops when a call fails which it only needs; what the
    functions of the library return is not looked at. *)
Definition strict (ok : dcall * dreply -> bool) (e : dcall * dreply) : bool :=
  match e.1 with DMisc _ => true | _ => negb (failed e.2) && ok e end.

Definition anything (e : dcall * dreply) : bool := true.

Ltac unfold_verdict ::= unfold strict, anything, failed, nonzero in *.

(** ** State *)

Inductive object := Regular (i : Z) | PipeIn (i : Z) | PipeOut (i : Z) | Fifo (i : Z) | Socket_ | Terminal.

Record open_file := OpenFile { o_object : object; o_flags : Z; o_pos : Z }.

(** A regular file, or the number of bytes in a pipe or FIFO. *)
Inductive contents := Bytes (size : Z) (byte : Z -> Z) | Queue (n : Z).

Record world := World {
  w_fds : list (Z * (Z * bool));           (* open file, close-on-exec *)
  w_opens : list (Z * open_file);
  w_names : list (string * Z);
  w_contents : list (Z * contents);
  w_modes : list (Z * Z);
  w_catches : bool;                        (* SIGPIPE has a handler *)
  w_next : Z
}.

Definition with_fds f w := World f (w_opens w) (w_names w) (w_contents w) (w_modes w) (w_catches w) (w_next w).
Definition with_opens f w := World (w_fds w) f (w_names w) (w_contents w) (w_modes w) (w_catches w) (w_next w).
Definition with_names f w := World (w_fds w) (w_opens w) f (w_contents w) (w_modes w) (w_catches w) (w_next w).
Definition with_contents f w := World (w_fds w) (w_opens w) (w_names w) f (w_modes w) (w_catches w) (w_next w).
Definition with_modes f w := World (w_fds w) (w_opens w) (w_names w) (w_contents w) f (w_catches w) (w_next w).
Definition with_catches b w := World (w_fds w) (w_opens w) (w_names w) (w_contents w) (w_modes w) b (w_next w).

(** The terminal is open file 0. *)
Definition world0 : world :=
  World [(0, (0, false)); (1, (0, false)); (2, (0, false))] [(0, OpenFile Terminal O_RDWR 0)] [] [] [] false 1.

Definition open_of (w : world) (fd : Z) : option (Z * open_file) :=
  match tget fd (w_fds w) with
  | Some (i, _) => (fun f => (i, f)) <$> tget i (w_opens w)
  | None => None
  end.

(** The lowest free descriptor from [min] on. *)
Fixpoint lowest (n : nat) (min : Z) (fds : list (Z * (Z * bool))) : option Z :=
  match n with
  | O => None
  | S n => match tget min fds with None => Some min | Some _ => lowest n (min + 1) fds end
  end.

Definition free_fd (min : Z) (w : world) : option Z := lowest (Z.to_nat (OPEN_MAX - min)) min (w_fds w).

(** A new object with a name, if it has one. *)
Definition create (name : option string) (c : contents) (mode : Z) (w : world) : world :=
  World (w_fds w) (w_opens w)
    (match name with Some p => (p, w_next w) :: w_names w | None => w_names w end)
    (tset (w_next w) c (w_contents w)) (tset (w_next w) mode (w_modes w)) (w_catches w) (w_next w + 1).

(** A new open file of an object, with the lowest descriptor. *)
Definition open_object (o : object) (flags : Z) (w : world) : option (Z * world) :=
  match free_fd 0 w with
  | None => None
  | Some fd =>
      Some (fd, World (tset fd (w_next w, false) (w_fds w))
                  (tset (w_next w) (OpenFile o flags 0) (w_opens w)) (w_names w) (w_contents w)
                  (w_modes w) (w_catches w) (w_next w + 1))
  end.

Definition EMFILE : Z := 24.

Definition opened (r : option (Z * world)) (w : world) : dreply * world :=
  match r with Some (fd, w') => (dok fd, w') | None => (dfails EMFILE, w) end.

(** The flags that stay with an open file. *)
Definition status_flags (flags : Z) : Z :=
  Z.land flags (Z.lor O_ACCMODE (Z.lor O_APPEND O_NONBLOCK)).

Definition can_read (f : open_file) : bool := negb (Z.land (o_flags f) O_ACCMODE =? O_WRONLY).
Definition can_write (f : open_file) : bool := negb (Z.land (o_flags f) O_ACCMODE =? O_RDONLY).
Definition flagged (x : Z) (f : open_file) : bool := negb (Z.land (o_flags f) x =? 0).

(** ** What a system is free to choose *)

(** The inode number of a file, the addresses that mmap and malloc give (in the units of a page),
    and the pages a pipe can hold. *)
Record choices := Choices { ch_ino : Z -> Z; ch_addr : Z -> positive; ch_pages : Z }.

(** A write of 17 pages fills a pipe. *)
Class Lawful (ch : choices) := pipe_pages : 1 <= ch_pages ch <= 17.

(** ** The calls *)

Section Calls.
Context (ch : choices).

Definition PIPE_CAPACITY : Z := PAGE * ch_pages ch.

Definition address (w : world) : Z := Zpos (4096 * ch_addr ch (w_next w)).

(** Some open file of the pipe or FIFO [i] reads from it, or writes to it. *)
Definition is_queue (i : Z) (o : object) : bool :=
  match o with PipeIn j | PipeOut j | Fifo j => i =? j | _ => false end.

Definition in_use (w : world) (i : Z) (p : open_file -> bool) : bool :=
  existsb (fun e => is_queue i (o_object e.2) && p e.2
                    && existsb (fun d => e.1 =? d.2.1) (w_fds w)) (w_opens w).

Definition has_readers (w : world) (i : Z) : bool := in_use w i can_read.
Definition has_writers (w : world) (i : Z) : bool := in_use w i can_write.

Definition sys_open (p : string) (flags mode : Z) (w : world) : dreply * world :=
  match assoc p (w_names w) with
  | None =>
      if Z.land flags O_CREAT =? 0 then (dfails ENOENT, w)
      else opened (open_object (Regular (w_next w)) (status_flags flags)
                     (create (Some p) (Bytes 0 (fun _ => 0)) (Z.lor S_IFREG mode) w)) w
  | Some i =>
      if (Z.land flags (Z.lor O_CREAT O_EXCL) =? Z.lor O_CREAT O_EXCL) then (dfails EEXIST, w)
      else
        match tget i (w_contents w) with
        | Some (Queue _) =>
            if (Z.land flags O_ACCMODE =? O_WRONLY) && negb (Z.land flags O_NONBLOCK =? 0)
               && negb (has_readers w i) then (dfails ENXIO, w)
            else opened (open_object (Fifo i) (status_flags flags) w) w
        | _ =>
            let w' := if Z.land flags O_TRUNC =? 0 then w
                      else with_contents (tset i (Bytes 0 (fun _ => 0)) (w_contents w)) w in
            opened (open_object (Regular i) (status_flags flags) w') w
        end
  end.

Definition sys_close (fd : Z) (w : world) : dreply * world :=
  match open_of w fd with
  | None => (dfails EBADF, w)
  | Some _ => (dok 0, with_fds (tdel fd (w_fds w)) w)
  end.

Definition set_pos (i : Z) (f : open_file) (pos : Z) (w : world) : world :=
  with_opens (tset i (OpenFile (o_object f) (o_flags f) pos) (w_opens w)) w.

Definition queue_of (o : object) : option Z :=
  match o with PipeIn i | PipeOut i | Fifo i => Some i | _ => None end.

Definition queued (w : world) (i : Z) : Z :=
  match tget i (w_contents w) with Some (Queue n) => n | _ => 0 end.

Definition add_queue (i n : Z) (w : world) : world :=
  with_contents (tset i (Queue (queued w i + n)) (w_contents w)) w.

(** The bytes of a file from [pos] on. *)
Fixpoint text_at (byte : Z -> Z) (pos : Z) (n : nat) : string :=
  match n with
  | O => ""
  | S n => String (ascii_of_nat (Z.to_nat (byte pos))) (text_at byte (pos + 1) n)
  end.

Definition read_text (r : Z) (s : string) : dreply := DReply r 0 s no_flock 0 0 (0, 0) 0 0.

(** [None]: the call blocks. *)
Definition sys_read (fd n : Z) (w : world) : option (dreply * world) :=
  match open_of w fd with
  | None => Some (dfails EBADF, w)
  | Some (i, f) =>
      if negb (can_read f) then Some (dfails EBADF, w)
      else
        match o_object f, queue_of (o_object f) with
        | Regular j, _ =>
            match tget j (w_contents w) with
            | Some (Bytes size byte) =>
                let k := Z.max 0 (Z.min n (size - o_pos f)) in
                Some (read_text k (text_at byte (o_pos f) (Z.to_nat k)), set_pos i f (o_pos f + k) w)
            | _ => None
            end
        | _, Some q =>
            let k := Z.min n (queued w q) in
            if 0 <? k then Some (read_text k (text_at (fun _ => 0) 0 (Z.to_nat k)), add_queue q (- k) w)
            else if negb (has_writers w q) then Some (dok 0, w)
            else if flagged O_NONBLOCK f then Some (dfails EAGAIN, w)
            else None
        | _, None => None
        end
  end.

(** A program without a handler dies of SIGPIPE: the call does not return. *)
Definition write_queue (q n : Z) (f : open_file) (w : world) : option (dreply * world) :=
  let room := PIPE_CAPACITY - queued w q in
  if negb (has_readers w q) then
    if w_catches w then Some (DReply (-1) EPIPE "" no_flock 0 0 (0, 0) 1 0, w) else None
  else if n <=? room then Some (dok n, add_queue q n w)
  else if negb (flagged O_NONBLOCK f) then None
  else if (n <=? PIPE_BUF) || (room =? 0) then Some (dfails EAGAIN, w)
  else Some (dok room, add_queue q room w).

Definition readable_buffer (b : buffer) : bool := match b with At_ _ => false | _ => true end.

Definition write_bytes (b : buffer) (pos n : Z) (byte : Z -> Z) : Z -> Z :=
  fun x => if (pos <=? x) && (x <? pos + n) then buffer_byte b (x - pos) else byte x.

Definition sys_write (fd : Z) (b : buffer) (n : Z) (w : world) : option (dreply * world) :=
  match open_of w fd with
  | None => Some (dfails EBADF, w)
  | Some (i, f) =>
      if negb (can_write f) then Some (dfails EBADF, w)
      else if n =? 0 then Some (dok 0, w)
      else if negb (readable_buffer b) then Some (dfails EFAULT, w)
      else
        match o_object f, queue_of (o_object f) with
        | Regular j, _ =>
            match tget j (w_contents w) with
            | Some (Bytes size byte) =>
                let pos := if flagged O_APPEND f then size else o_pos f in
                let c := Bytes (Z.max size (pos + n)) (write_bytes b pos n byte) in
                Some (dok n, set_pos i f (pos + n) (with_contents (tset j c (w_contents w)) w))
            | _ => None
            end
        | _, Some q => write_queue q n f w
        | _, None => Some (dok n, w)
        end
  end.

Definition size_of (w : world) (o : object) : Z :=
  match o with
  | Regular i => match tget i (w_contents w) with Some (Bytes size _) => size | _ => 0 end
  | _ => 0
  end.

Definition sys_lseek (fd off whence : Z) (w : world) : dreply * world :=
  match open_of w fd with
  | None => (dfails EBADF, w)
  | Some (i, f) =>
      match o_object f with
      | Regular _ =>
          let base := if whence =? SEEK_SET then 0 else if whence =? SEEK_CUR then o_pos f
                      else size_of w (o_object f) in
          if (whence <? 0) || (SEEK_END <? whence) then (dfails EINVAL, w)
          else if base + off <? 0 then (dfails EINVAL, w) else (dok (base + off), set_pos i f (base + off) w)
      | _ => (dfails ESPIPE, w)
      end
  end.

Definition settable : Z := Z.lor O_APPEND O_NONBLOCK.

Definition sys_fcntl (fd : Z) (c : fcntl_cmd) (w : world) : dreply * world :=
  match tget fd (w_fds w), open_of w fd with
  | Some (i, cloexec), Some (_, f) =>
      match c with
      | F_DUPFD min =>
          if (min <? 0) || (OPEN_MAX <=? min) then (dfails EINVAL, w)
          else
            match free_fd min w with
            | Some fd' => (dok fd', with_fds (tset fd' (i, false) (w_fds w)) w)
            | None => (dfails EMFILE, w)
            end
      | F_GETFD => (dok (if cloexec then FD_CLOEXEC else 0), w)
      | F_SETFD flags =>
          (dok 0, with_fds (tset fd (i, negb (Z.land flags FD_CLOEXEC =? 0)) (w_fds w)) w)
      | F_GETFL => (dok (o_flags f), w)
      | F_SETFL flags =>
          (dok 0, with_opens (tset i (OpenFile (o_object f)
             (Z.lor (Z.land (o_flags f) O_ACCMODE) (Z.land flags settable)) (o_pos f)) (w_opens w)) w)
      | F_LOCK cmd lk =>
          if cmd =? F_GETLK then
            (DReply 0 0 "" (Flock F_UNLCK (l_whence lk) (l_start lk) (l_len lk) (l_pid lk)) 0 0 (0, 0) 0 0, w)
          else if ((l_type lk =? F_RDLCK) && negb (can_read f))
               || ((l_type lk =? F_WRLCK) && negb (can_write f)) then (dfails EBADF, w)
          else (dok 0, w)
      end
  | _, _ => (dfails EBADF, w)
  end.

Definition mode_of (w : world) (i : Z) : Z := default 0 (tget i (w_modes w)).

(** The number of an object; a terminal and sockets have number 0 here. *)
Definition number_of (o : object) : Z :=
  match o with Regular i | PipeIn i | PipeOut i | Fifo i => i | Socket_ | Terminal => 0 end.

Definition stat_reply (w : world) (o : object) : dreply :=
  DReply 0 0 "" no_flock (size_of w o) (mode_of w (number_of o)) (0, 0) 0 (ch_ino ch (number_of o)).

(** dup2: an open descriptor [fd2] is closed first. *)
Definition sys_dup2 (fd fd2 : Z) (w : world) : dreply * world :=
  match tget fd (w_fds w) with
  | None => (dfails EBADF, w)
  | Some (i, _) =>
      if (fd2 <? 0) || (OPEN_MAX <=? fd2) then (dfails EBADF, w)
      else if fd2 =? fd then (dok fd, w)
      else (dok fd2, with_fds (tset fd2 (i, false) (w_fds w)) w)
  end.

Definition sys_pipe (w : world) : dreply * world :=
  let i := w_next w in
  match open_object (PipeIn i) O_RDONLY (create None (Queue 0) (Z.lor S_IFIFO 384) w) with
  | Some (r, w1) =>
      match open_object (PipeOut i) O_WRONLY w1 with
      | Some (wr, w2) => (DReply 0 0 "" no_flock 0 0 (r, wr) 0 0, w2)
      | None => (dfails EMFILE, w)
      end
  | None => (dfails EMFILE, w)
  end.

Definition sys_mknod (p : string) (mode : Z) (w : world) : dreply * world :=
  match assoc p (w_names w) with
  | Some _ => (dfails EEXIST, w)
  | None =>
      (dok 0, create (Some p) (if Z.land mode S_IFMT =? S_IFIFO then Queue 0 else Bytes 0 (fun _ => 0)) mode w)
  end.

Definition desc_do (c : dcall) (w : world) : option (dreply * world) :=
  match c with
  | DOpen p flags mode => Some (sys_open p flags mode w)
  | DCreat p mode => Some (sys_open p (Z.lor O_WRONLY (Z.lor O_CREAT O_TRUNC)) mode w)
  | DClose fd => Some (sys_close fd w)
  | DRead fd n => sys_read fd n w
  | DWrite fd b n => sys_write fd b n w
  | DLseek fd off whence => Some (sys_lseek fd off whence w)
  | DFcntl fd c => Some (sys_fcntl fd c w)
  | DDup fd => Some (sys_fcntl fd (F_DUPFD 0) w)
  | DDup2 fd fd2 => Some (sys_dup2 fd fd2 w)
  | DGetdtablesize | DSysconf_OPEN_MAX => Some (dok OPEN_MAX, w)
  | DFstat fd =>
      Some (match open_of w fd with
            | Some (_, f) => (stat_reply w (o_object f), w)
            | None => (dfails EBADF, w)
            end)
  | DStat p =>
      Some (match assoc p (w_names w) with
            | Some i => (stat_reply w (Regular i), w)
            | None => (dfails ENOENT, w)
            end)
  | DUnlink p =>
      Some (match assoc p (w_names w) with
            | Some _ => (dok 0, with_names (filter (fun e => e.1 <> p) (w_names w)) w)
            | None => (dfails ENOENT, w)
            end)
  | DPipe => Some (sys_pipe w)
  | DSocket _ _ _ => Some (opened (open_object Socket_ O_RDWR w) w)
  | DMknod p mode => Some (sys_mknod p mode w)
  | DMkfifo p mode => Some (sys_mknod p (Z.lor S_IFIFO mode) w)
  | DChmod p mode =>
      Some (match assoc p (w_names w) with
            | Some i => (dok 0, with_modes (tset i (Z.lor (Z.land (mode_of w i) S_IFMT) mode) (w_modes w)) w)
            | None => (dfails ENOENT, w)
            end)
  | DMkstemp template => Some (sys_open template (Z.lor O_RDWR (Z.lor O_CREAT O_EXCL)) 384 w)
  | DMmap len _ _ => Some (dok (address w), w)
  | DMunmap _ _ => Some (dok 0, w)
  | DMalloc _ => Some (dok (address w), w)
  | DSignal _ => Some (dok 0, with_catches true w)
  | DMisc _ => Some (dok 0, w)
  end.

Definition desc_kernel (status : list entry -> Z) : Kernel dcall dreply world :=
  {| k_do _ := desc_do; k_fork _ _ w := w; k_exit _ w := w; tst_status := status |}.

End Calls.

(** A platform that behaves like one of the reference systems. *)
Class DescriptorPlatform {V : Type} (K : Kernel dcall dreply V) (w0 : V) := {
  desc_choices : choices;
  desc_lawful :: Lawful desc_choices;
  desc_refines :: Refines K (desc_kernel desc_choices (@tst_status _ _ _ K));
  desc_start : @rel _ _ _ _ K (desc_kernel desc_choices (@tst_status _ _ _ K)) desc_refines w0 world0
}.

(** The choices of Linux for pipes, and some others. *)
Definition plain_choices : choices := Choices id (fun _ => 16%positive) 16.

#[export] Instance plain_lawful : Lawful plain_choices.
Proof. done. Defined.

#[export] Instance desc_platform st : DescriptorPlatform (desc_kernel plain_choices st) world0.
Proof. by refine {| desc_refines := refines_refl (desc_kernel plain_choices st) |}. Defined.
