(* ===== verification/FcntlBasic.v ===== *)
(** * fcntl02.c to fcntl10.c and their independent versions

    Models of [src/original tests/fcntl/fcntl0*.c], fcntl10.c (modules [Fcntl0n]) and of
    [src/independent tests/syscalls/fcntl/fcntl0*.c], fcntl10.c (modules [Port0n]), and what
    both make of the answers of the system.  [Fcntl01.v] has the first of them; fcntl07.c,
    which executes itself, is not modelled.

    The static variables of a program are the result of its [setup]. Final newlines of
    messages are left out.  [loops] is the number of iterations of TEST_LOOPING. *)

From Stdlib Require Import Ascii.
From S2P Require Import Prelude Tst Process Explore Prog Checker Wp Alone Ends FileSys RecordLocks.
From S2P Require Import Ltp Transcript Judge Descriptors.

(** ** fcntl02.c: F_DUPFD *)

Module Fcntl02.
Definition min_fds : list Z := [0; 1; 2; 3; 10; 100].

(** [fd] and [fname] *)
Definition setup : P (Z * string) :=
  pid ← getpid;
  let fname := ("fcntl02_" ++ pretty pid)%string in
  r ← safe no_cleanup "open" (DOpen fname (Z.lor O_RDWR O_CREAT) 448);
  mret (ret r, fname).

Definition cleanup (x : Z * string) : P unit := when (0 <? x.1) (safe_warn "close" (DClose x.1)).

Definition verify_fcntl (x : Z * string) (n : Z) : P unit :=
  let '(fd, fname) := x in
  let min_fd := nth (Z.to_nat n) min_fds 0 in
  r ← call (DFcntl fd (F_DUPFD min_fd));
  if failed r then
    tst_res_err TFAIL r "fcntl(%s, F_DUPFD, %i) failed" [Str fname; Num min_fd]
  else
    when (ret r <? min_fd)
      (tst_res TFAIL "fcntl(%s, F_DUPFD, %i) returned %ld < %i"
         [Str fname; Num min_fd; Num (ret r); Num min_fd]) ;;
    tst_res TPASS "fcntl(%s, F_DUPFD, %i) returned %ld" [Str fname; Num min_fd; Num (ret r)] ;;
    safe (cleanup x) "close" (DClose (ret r)) ;;
    mret tt.

Definition main : P unit := run_tests setup verify_fcntl (length min_fds) cleanup.
End Fcntl02.

Module Port02.
Definition min_fds : list Z := [0; 1; 2; 3; 10; 100].

Definition setup : P (Z * string) :=
  pid ← getpid;
  let fname := ("fcntl02_" ++ pretty pid)%string in
  r ← call (DOpen fname (Z.lor O_RDWR O_CREAT) 448);
  mret (ret r, fname).

Definition cleanup (x : Z * string) : P unit := when (0 <? x.1) (call_ (DClose x.1)).

Definition verify_fcntl (x : Z * string) (n : Z) : P Z :=
  let '(fd, fname) := x in
  let min_fd := nth (Z.to_nat n) min_fds 0 in
  r ← call (DFcntl fd (F_DUPFD min_fd));
  if ret r =? -1 then
    printf "fcntl(%s, F_DUPFD, %i) failed, error number %d" [Str fname; Num min_fd; Num (errno r)] ;;
    mret 0
  else if ret r <? min_fd then
    printf "fcntl(%s, F_DUPFD, %i) returned %ld < %i" [Str fname; Num min_fd; Num (ret r); Num min_fd] ;;
    mret 0
  else
    printf "fcntl(%s, F_DUPFD, %i) returned %ld" [Str fname; Num min_fd; Num (ret r)] ;;
    call_ (DClose (ret r)) ;;
    mret 1.

Definition main : P unit :=
  program (
    x ← setup;
    ok ← verify_all 0 6 (verify_fcntl x) 1;
    when (nonzero ok) (printf "test succeeded" []) ;;
    cleanup x).
End Port02.

(** ** fcntl03.c: F_GETFD *)

Module Fcntl03.
Definition setup : P (Z * string) :=
  pid ← getpid;
  let fname := ("fcntl03_" ++ pretty pid)%string in
  r ← safe no_cleanup "open" (DOpen fname (Z.lor O_RDWR O_CREAT) 448);
  mret (ret r, fname).

Definition cleanup (x : Z * string) : P unit := when (0 <? x.1) (safe_warn "close" (DClose x.1)).

Definition verify_fcntl (x : Z * string) : P unit :=
  let '(fd, fname) := x in
  r ← call (DFcntl fd F_GETFD);
  if failed r then tst_res_err TFAIL r "fcntl(%s, F_GETFD, 0) failed" [Str fname]
  else tst_res TPASS "fcntl(%s, F_GETFD, 0) returned %ld" [Str fname; Num (ret r)].

Definition main : P unit := run_tests setup (fun x _ => verify_fcntl x) 1 cleanup.
End Fcntl03.

Module Port03.
Definition setup : P (Z * string) :=
  pid ← getpid;
  let fname := ("fcntl03_" ++ pretty pid)%string in
  r ← call (DOpen fname (Z.lor O_RDWR O_CREAT) 448);
  mret (ret r, fname).

Definition cleanup (x : Z * string) : P unit := when (0 <? x.1) (call_ (DClose x.1)).

Definition verify_fcntl (x : Z * string) : P Z :=
  let '(fd, fname) := x in
  r ← call (DFcntl fd F_GETFD);
  if ret r =? -1 then
    printf "fcntl(%s, F_GETFD, 0) failed, error number %d" [Str fname; Num (errno r)] ;;
    mret 0
  else
    printf "fcntl(%s, F_GETFD, 0) returned %d" [Str fname; Num (ret r)] ;;
    mret 1.

Definition main : P unit :=
  program (
    x ← setup;
    v ← verify_fcntl x;
    when (nonzero v) (printf "test succeeded" []) ;;
    cleanup x).
End Port03.

(** ** fcntl04.c: F_GETFL *)

Module Fcntl04.
Definition setup : P (Z * string) :=
  pid ← getpid;
  let fname := ("fcntl04_" ++ pretty pid)%string in
  r ← safe no_cleanup "open" (DOpen fname (Z.lor O_RDWR O_CREAT) 448);
  mret (ret r, fname).

Definition cleanup (x : Z * string) : P unit := when (0 <? x.1) (safe_warn "close" (DClose x.1)).

Definition verify_fcntl (x : Z * string) : P unit :=
  let '(fd, fname) := x in
  r ← call (DFcntl fd F_GETFL);
  if failed r then tst_res_err TFAIL r "fcntl(%s, F_GETFL, 0) failed" [Str fname]
  else if negb (Z.land (ret r) O_ACCMODE =? O_RDWR) then
    tst_res TFAIL "fcntl(%s, F_GETFL, 0) returned wrong access mode %li, expected %i"
      [Str fname; Num (Z.land (ret r) O_ACCMODE); Num O_RDWR]
  else tst_res TPASS "fcntl(%s, F_GETFL, 0) returned %lx" [Str fname; Num (ret r)].

Definition main : P unit := run_tests setup (fun x _ => verify_fcntl x) 1 cleanup.
End Fcntl04.

Module Port04.
Definition setup : P (Z * string) :=
  pid ← getpid;
  let fname := ("fcntl04_" ++ pretty pid)%string in
  r ← call (DOpen fname (Z.lor O_RDWR O_CREAT) 448);
  mret (ret r, fname).

Definition cleanup (x : Z * string) : P unit := when (0 <? x.1) (call_ (DClose x.1)).

Definition verify_fcntl (x : Z * string) : P Z :=
  let '(fd, fname) := x in
  r ← call (DFcntl fd F_GETFL);
  if ret r =? -1 then
    printf "fcntl(%s, F_GETFL, 0) failed, error number %d" [Str fname; Num (errno r)] ;;
    mret 0
  else if negb (Z.land (ret r) O_ACCMODE =? O_RDWR) then
    printf "fcntl(%s, F_GETFL, 0) returned wrong access mode %li, expected %i"
      [Str fname; Num (Z.land (ret r) O_ACCMODE); Num O_RDWR] ;;
    mret 0
  else
    printf "fcntl(%s, F_GETFL, 0) returned %lx" [Str fname; Num (ret r)] ;;
    mret 1.

Definition main : P unit :=
  program (
    x ← setup;
    v ← verify_fcntl x;
    when (nonzero v) (printf "test succeeded" []) ;;
    cleanup x).
End Port04.

(** ** fcntl05.c: F_GETLK *)

Module Fcntl05.
(** [fd], [pid] and [flocks] *)
Record statics := Statics { fd : Z; pid : Z; flocks : flock }.

Definition setup : P statics :=
  pid ← getpid;
  r ← safe no_cleanup "open" (DOpen "filename" (Z.lor O_RDWR O_CREAT) 448);
  mret (Statics (ret r) pid (Flock 0 SEEK_CUR 0 0 pid)).

Definition cleanup (x : statics) : P unit := when (-1 <? fd x) (safe_warn "close" (DClose (fd x))).

(** The lock after the call: what the system wrote back, if it did not fail. *)
Definition written (lk : flock) (r : dreply) : flock := if failed r then lk else d_flock r.

Definition verify_fcntl (x : statics) : P unit :=
  let lk := Flock F_RDLCK (l_whence (flocks x)) (l_start (flocks x)) (l_len (flocks x)) (l_pid (flocks x)) in
  r ← TST_EXP_PASS (DFcntl (fd x) (F_LOCK F_GETLK lk)) "fcntl(%d, F_GETLK, &flocks)" [Num (fd x)];
  let w := written lk r in
  TST_EXP_EQ_LI (l_type w) F_UNLCK ;;
  TST_EXP_EQ_LI (l_whence w) SEEK_CUR ;;
  TST_EXP_EQ_LI (l_start w) 0 ;;
  TST_EXP_EQ_LI (l_len w) 0 ;;
  TST_EXP_EQ_LI (l_pid w) (pid x).

Definition main : P unit := run_tests setup (fun x _ => verify_fcntl x) 1 cleanup.
End Fcntl05.

Module Port05.
Import Fcntl05(statics, Statics, fd, pid, flocks).

Definition setup : P statics :=
  pid ← getpid;
  r ← call (DOpen "filename" (Z.lor O_RDWR O_CREAT) 448);
  mret (Statics (ret r) pid (Flock 0 SEEK_CUR 0 0 pid)).

Definition cleanup (x : statics) : P unit := when (-1 <? fd x) (call_ (DClose (fd x))).

Definition verify_fcntl (x : statics) : P Z :=
  let lk := Flock F_RDLCK (l_whence (flocks x)) (l_start (flocks x)) (l_len (flocks x)) (l_pid (flocks x)) in
  r ← call (DFcntl (fd x) (F_LOCK F_GETLK lk));
  let ok := 1 * (if negb (ret r =? -1) then 1 else 0) in
  when (nonzero ok) (printf "fcntl(%d, F_GETLK, &flocks)" [Num (fd x)]) ;;
  mret ok.

Definition main : P unit :=
  program (
    x ← setup;
    v ← verify_fcntl x;
    when (nonzero v) (printf "test succeeded" []) ;;
    cleanup x).
End Port05.

(** ** fcntl06.c: remote locks

    LINUX_FILE_REGION_LOCK is defined nowhere, so that only the other branch of [main]
    exists, and [do_lock] and [unlock_file] are not called. *)

Module Fcntl06.
Definition F_RSETLK : Z := 11.
Definition STRINGSIZE : Z := 27.
Definition nl : string := String "010"%char "".
Definition STRING : string := "abcdefghijklmnopqrstuvwxyz" ++ nl.

Definition setup : P Z :=
  call_ (DMisc "tst_sig") ;;
  call_ (DMisc "umask") ;;
  call_ (DMisc "tst_tmpdir") ;;
  r ← call (DMkstemp "fcntl06XXXXXX");
  when (failed r) (tst_resm_errno TBROK (errno r) "mkstemp failed" []) ;;
  w ← call (DWrite (ret r) (Text STRING) STRINGSIZE);
  when (failed w) (tst_resm_errno TBROK (errno w) "write failed" []) ;;
  mret (ret r).

Definition do_lock (fd cmd type whence start len : Z) : P dreply :=
  call (DFcntl fd (F_LOCK cmd (Flock type whence start len 0))).

Definition unlock_file (fd : Z) : P unit :=
  r ← do_lock fd F_RSETLK F_UNLCK 0 0 0;
  when (failed r) (tst_resm_errno TPASS (errno r) "fcntl on file failed" []).

Definition cleanup (fd : Z) : P unit :=
  r ← call (DClose fd);
  when (failed r) (tst_resm_errno TWARN (errno r) "close failed" []) ;;
  call_ (DMisc "tst_rmdir").

Definition main : P unit :=
  fd ← setup;
  tst_resm TCONF "system doesn't have LINUX_LOCK_FILE_REGION support" [] ;;
  cleanup fd ;;
  tst_exit.
End Fcntl06.

Module Port06.
Import Fcntl06(F_RSETLK, STRINGSIZE, STRING).

Definition setup : P Z :=
  call_ (DMisc "umask") ;;
  r ← call (DMkstemp "fcntl06XXXXXX");
  if failed r then printf "mkstemp failed, error number %d" [Num (errno r)] ;; exit 0
  else
    w ← call (DWrite (ret r) (Text STRING) STRINGSIZE);
    if failed w then printf "write failed, error number %d" [Num (errno w)] ;; exit 0
    else mret (ret r).

Definition do_lock (fd cmd type whence start len : Z) : P dreply :=
  call (DFcntl fd (F_LOCK cmd (Flock type whence start len 0))).

Definition unlock_file (fd : Z) : P unit :=
  r ← do_lock fd F_RSETLK F_UNLCK 0 0 0;
  when (failed r) (printf ("fcntl on file failed" ++ Fcntl06.nl ++ "test succeeded") []).

Definition cleanup (fd : Z) : P unit :=
  r ← call (DClose fd);
  when (failed r) (printf "close failed" []).

Definition main : P unit :=
  program (
    fd ← setup;
    printf "system doesn't have LINUX_LOCK_FILE_REGION support" [] ;;
    cleanup fd).
End Port06.

(** ** fcntl08.c: F_SETFL *)

Module Fcntl08.
Definition cleanup (fd : Z) : P unit :=
  r ← call (DClose fd);
  when (failed r) (tst_resm_errno TWARN (errno r) "close failed" []) ;;
  call_ (DMisc "tst_rmdir").

(** If [open] fails [fd] has its initial value. *)
Definition setup : P Z :=
  call_ (DMisc "tst_sig") ;;
  call_ (DMisc "tst_tmpdir") ;;
  r ← safe (cleanup 0) "open" (DOpen "test_file" (Z.lor O_RDWR O_CREAT) 448);
  mret (ret r).

Definition round (fd : Z) : P unit :=
  r ← call (DFcntl fd (F_SETFL (Z.lor (Z.lor O_NDELAY O_APPEND) O_NONBLOCK)));
  if failed r then tst_resm_errno TFAIL (errno r) "fcntl failed" []
  else tst_resm TPASS "fcntl returned %ld" [Num (ret r)].

Definition main (loops : nat) : P unit :=
  fd ← setup;
  for_from 0 loops (fun _ => round fd) ;;
  cleanup fd ;;
  tst_exit.
End Fcntl08.

Module Port08.
Definition setup : P Z := r ← call (DOpen "test_file" (Z.lor O_RDWR O_CREAT) 448); mret (ret r).

Definition cleanup (fd : Z) : P unit :=
  r ← call (DClose fd);
  when (failed r) (printf "close failed" []).

Definition main : P unit :=
  program (
    fd ← setup;
    r ← call (DFcntl fd (F_SETFL (Z.lor (Z.lor O_NDELAY O_APPEND) O_NONBLOCK)));
    (if ret r =? -1 then printf "fcntl failed, error number %d" [Num (errno r)]
     else printf ("fcntl returned %d" ++ Fcntl06.nl ++ "test succeeded") [Num (ret r)]) ;;
    cleanup fd).
End Port08.

(** ** fcntl09.c and fcntl10.c: F_SETLK and F_SETLKW

    The two programs differ in the command and the name of the file. *)

Module Fcntl09.
Record statics := Statics { fname : string; fd : Z; flocks : flock }.

Definition prefix (cmd : Z) : string := if cmd =? F_SETLK then "./file_" else "tfile_".
Definition name (cmd : Z) : string := if cmd =? F_SETLK then "F_SETLK" else "F_SETLKW".
Definition type_name (type : Z) : string := if negb (type =? 0) then "F_RDLCK" else "F_WRLCK".

Definition cleanup (fname : string) (fd : Z) : P unit :=
  r ← call (DClose fd);
  (if failed r then tst_resm TWARN "close(%s) Failed, errno=%d : %s" [Str fname; Num (errno r)]
   else
     u ← call (DUnlink fname);
     when (failed u) (tst_resm TWARN "unlink(%s) Failed, errno=%d : %s" [Str fname; Num (errno u)])) ;;
  call_ (DMisc "tst_rmdir").

Definition setup (cmd : Z) : P statics :=
  call_ (DMisc "tst_sig") ;;
  call_ (DMisc "tst_tmpdir") ;;
  pid ← getpid;
  let fname := (prefix cmd ++ pretty pid)%string in
  r ← call (DCreat fname 420);
  if failed r then
    tst_brkm TBROK (cleanup fname (-1)) "creat(%s, 0644) Failed, errno=%d : %s" [Str fname; Num (errno r)]
  else
    c ← call (DClose (ret r));
    if failed c then
      tst_brkm TBROK (cleanup fname (ret r)) "close(%s) Failed, errno=%d : %s" [Str fname; Num (errno c)]
    else
      o ← call (DOpen fname O_RDWR 448);
      if failed o then
        tst_brkm TBROK (cleanup fname (-1)) "open(%s, O_RDWR,0700) Failed, errno=%d : %s"
          [Str fname; Num (errno o)]
      else mret (Statics fname (ret o) (Flock 0 1 0 0 pid)).

(** The lock with another type. *)
Definition set_type (type : Z) (lk : flock) : flock := Flock type (l_whence lk) (l_start lk) (l_len lk) (l_pid lk).

Definition lock (cmd type : Z) (x : statics) : P unit :=
  let lk := set_type (if negb (type =? 0) then F_RDLCK else F_WRLCK) (flocks x) in
  r ← call (DFcntl (fd x) (F_LOCK cmd lk));
  (if failed r then
     tst_resm TFAIL "fcntl(%s, %s, &flocks) flocks.l_type = %s Failed, errno=%d : %s"
       [Str (fname x); Str (name cmd); Str (type_name type); Num (errno r)]
   else
     tst_resm TPASS "fcntl(%s, %s, &flocks) flocks.l_type = %s returned %ld"
       [Str (fname x); Str (name cmd); Str (type_name type); Num (ret r)]) ;;
  u ← call (DFcntl (fd x) (F_LOCK cmd (set_type F_UNLCK (flocks x))));
  if failed u then
    tst_resm TFAIL "fcntl(%s, %s, &flocks) flocks.l_type = F_UNLCK Failed, errno=%d : %s"
      [Str (fname x); Str (name cmd); Num (errno u)]
  else
    tst_resm TPASS "fcntl(%s, %s, &flocks) flocks.l_type = F_UNLCK returned %ld"
      [Str (fname x); Str (name cmd); Num (ret u)].

Definition main (cmd : Z) (loops : nat) : P unit :=
  x ← setup cmd;
  for_from 0 loops (fun _ => for_from 0 2 (fun type => lock cmd type x)) ;;
  cleanup (fname x) (fd x) ;;
  tst_exit.
End Fcntl09.

Module Port09.
Import Fcntl09(statics, Statics, fname, fd, flocks, prefix, name, type_name, set_type).

Definition cleanup (fname : string) (fd : Z) : P unit :=
  r ← call (DClose fd);
  if failed r then printf "close(%s) Failed, errno=%d" [Str fname; Num (errno r)]
  else
    u ← call (DUnlink fname);
    when (failed u) (printf "unlink(%s) Failed, errno=%d" [Str fname; Num (errno u)]).

Definition setup (cmd : Z) : P statics :=
  pid ← getpid;
  let fname := (prefix cmd ++ pretty pid)%string in
  r ← call (DCreat fname 420);
  if failed r then
    printf "creat(%s, 0644) Failed, errno=%d" [Str fname; Num (errno r)] ;;
    cleanup fname (-1) ;; exit 0
  else
    c ← call (DClose (ret r));
    if failed c then
      printf "close(%s) Failed, errno=%d" [Str fname; Num (errno c)] ;;
      cleanup fname (ret r) ;; exit 0
    else
      o ← call (DOpen fname O_RDWR 448);
      if failed o then
        printf "open(%s, O_RDWR,0700) Failed, errno=%d" [Str fname; Num (errno o)] ;;
        cleanup fname (-1) ;; exit 0
      else mret (Statics fname (ret o) (Flock 0 1 0 0 pid)).

(** A round of the loop of [main]; [ok] is its variable. *)
Definition lock (cmd type : Z) (x : statics) (ok : Z) : P Z :=
  let lk := set_type (if negb (type =? 0) then F_RDLCK else F_WRLCK) (flocks x) in
  r ← call (DFcntl (fd x) (F_LOCK cmd lk));
  (if failed r then
     printf "fcntl(%s, %s, &flocks) flocks.l_type = %s Failed, errno=%d"
       [Str (fname x); Str (name cmd); Str (type_name type); Num (errno r)]
   else
     printf "fcntl(%s, %s, &flocks) flocks.l_type = %s returned %ld"
       [Str (fname x); Str (name cmd); Str (type_name type); Num (ret r)]) ;;
  let ok := if failed r then 0 else ok in
  u ← call (DFcntl (fd x) (F_LOCK cmd (set_type F_UNLCK (flocks x))));
  (if failed u then
     printf "fcntl(%s, %s, &flocks) flocks.l_type = F_UNLCK Failed, errno=%d"
       [Str (fname x); Str (name cmd); Num (errno u)]
   else
     printf "fcntl(%s, %s, &flocks) flocks.l_type = F_UNLCK returned %ld"
       [Str (fname x); Str (name cmd); Num (ret u)]) ;;
  mret (if failed u then 0 else ok).

Definition main (cmd : Z) : P unit :=
  program (
    x ← setup cmd;
    ok ← lock cmd 0 x 1;
    ok ← lock cmd 1 x ok;
    when (nonzero ok) (printf "test succeeded" []) ;;
    cleanup (fname x) (fd x)).
End Port09.

(** ** What is acceptable *)

(** A descriptor from [min] on. *)
Definition dup_ok (e : dcall * dreply) : bool :=
  match e.1 with DFcntl _ (F_DUPFD min) => min <=? ret e.2 | _ => true end.

Definition getfd_ok (e : dcall * dreply) : bool :=
  match e.1 with DFcntl _ F_GETFD => negb (failed e.2) | _ => true end.

(** The access mode is O_RDWR. *)
Definition getfl_ok (e : dcall * dreply) : bool :=
  match e.1 with DFcntl _ F_GETFL => Z.land (ret e.2) O_ACCMODE =? O_RDWR | _ => true end.

Definition setfl_ok (e : dcall * dreply) : bool :=
  match e.1 with DFcntl _ (F_SETFL _) => negb (failed e.2) | _ => true end.

(** No lock is in the way, and the rest of the structure is as it was. *)
Definition getlk_ok (e : dcall * dreply) : bool :=
  match e.1 with
  | DFcntl _ (F_LOCK _ lk) =>
      let w := d_flock e.2 in
      (ret e.2 =? 0) && (l_type w =? F_UNLCK) && (l_whence w =? l_whence lk) && (l_start w =? l_start lk)
      && (l_len w =? l_len lk) && (l_pid w =? l_pid lk)
  | _ => true
  end.

Definition answered (e : dcall * dreply) : bool :=
  match e.1 with DFcntl _ _ => negb (failed e.2) | _ => true end.

(** ** The verdicts *)

Lemma min_fds_pos i : 0 <= nth (Z.to_nat i) Fcntl02.min_fds 0.
Proof. generalize (Z.to_nat i). intros k. do 7 (destruct k as [|k]; [done|]). done. Qed.

Lemma fcntl02_judges :
  judges Fcntl02.main clean (forallb (strict dup_ok)) /\ judges Port02.main succeeded (forallb dup_ok).
Proof.
  split.
  - apply clean_run_tests.
    + unfold Fcntl02.setup. judge_path.
    + intros [fd fname] i _. pose proof (min_fds_pos i).
      unfold Fcntl02.verify_fcntl, Fcntl02.cleanup. judge_path.
    + intros [fd fname]. unfold Fcntl02.cleanup. judge_path.
  - apply (success_judges _ nonzero).
    + unfold Port02.setup. judge_path.
    + intros [fd fname]. apply value_loop. intros i _. pose proof (min_fds_pos i).
      unfold Port02.verify_fcntl. judge_path.
    + intros [fd fname] v. unfold Port02.cleanup. judge_path.
Qed.

Lemma fcntl03_judges :
  judges Fcntl03.main clean (forallb (strict getfd_ok)) /\ judges Port03.main succeeded (forallb getfd_ok).
Proof.
  split.
  - apply clean_run_tests.
    + unfold Fcntl03.setup. judge_path.
    + intros [fd fname] i _. unfold Fcntl03.verify_fcntl. judge_path.
    + intros [fd fname]. unfold Fcntl03.cleanup. judge_path.
  - apply (success_judges _ nonzero).
    + unfold Port03.setup. judge_path.
    + intros [fd fname]. unfold Port03.verify_fcntl. judge_path.
    + intros [fd fname] v. unfold Port03.cleanup. judge_path.
Qed.

Lemma fcntl04_judges :
  judges Fcntl04.main clean (forallb (strict getfl_ok)) /\ judges Port04.main succeeded (forallb getfl_ok).
Proof.
  split.
  - apply clean_run_tests.
    + unfold Fcntl04.setup. judge_path.
    + intros [fd fname] i _. unfold Fcntl04.verify_fcntl. judge_path.
    + intros [fd fname]. unfold Fcntl04.cleanup. judge_path.
  - apply (success_judges _ nonzero).
    + unfold Port04.setup. judge_path.
    + intros [fd fname]. unfold Port04.verify_fcntl. judge_path.
    + intros [fd fname] v. unfold Port04.cleanup. judge_path.
Qed.

Lemma fcntl05_judges :
  judges Fcntl05.main clean (forallb (strict getlk_ok)) /\ judges Port05.main succeeded (forallb answered).
Proof.
  split.
  - apply (clean_run_tests_with _ (fun x => exists fd pid, x = Fcntl05.Statics fd pid (Flock 0 SEEK_CUR 0 0 pid))).
    + unfold Fcntl05.setup. intros d l. dx_steps; [|path_ends]. split; [eauto|path_ends].
    + intros x i (fd & pid & ->) _. 
      unfold Fcntl05.verify_fcntl, Fcntl05.written, TST_EXP_PASS, TST_EXP_EQ_LI. judge_path.
    + intros [fd fname]. unfold Fcntl05.cleanup. judge_path.
  - apply (success_judges _ nonzero).
    + unfold Port05.setup. judge_path.
    + intros [fd fname]. unfold Port05.verify_fcntl. judge_path.
    + intros [fd fname] v. unfold Port05.cleanup. judge_path.
Qed.

(** The independent program cannot pass: the only words it prints after [setup] are
    others. *)
Theorem port06_never_succeeds : judges Port06.main succeeded (fun _ => false).
Proof.
  apply dx_judges. unfold Port06.main, program, Port06.setup, Port06.cleanup. dx_steps; reflexivity.
Qed.

Lemma fcntl08_judges loops :
  judges (Fcntl08.main loops) clean (forallb (strict setfl_ok)) /\ judges Port08.main succeeded (forallb setfl_ok).
Proof.
  split.
  - apply (clean_tests _ Fcntl08.setup _ Fcntl08.cleanup).
    + unfold Fcntl08.setup, Fcntl08.cleanup. judge_path.
    + intros fd. apply clean_for. intros i _. unfold Fcntl08.round. judge_path.
    + intros fd. unfold Fcntl08.cleanup. judge_path.
  - apply dx_judges. unfold Port08.main, program, Port08.setup, Port08.cleanup. dx_steps; path_judged.
Qed.

Lemma fcntl09_judges cmd loops :
  judges (Fcntl09.main cmd loops) clean (forallb (strict anything))
  /\ judges (Port09.main cmd) succeeded (fun d => forallb (strict anything) (take 7 d)).
Proof.
  split.
  - apply (clean_tests _ (Fcntl09.setup cmd) _ (fun x => Fcntl09.cleanup (Fcntl09.fname x) (Fcntl09.fd x))).
    + unfold Fcntl09.setup, Fcntl09.cleanup, tst_brkm. judge_path.
    + intros x. apply clean_for. intros i _. apply clean_for. intros type _. unfold Fcntl09.lock. judge_path.
    + intros x. unfold Fcntl09.cleanup. judge_path.
  - apply dx_judges. unfold Port09.main, program, Port09.setup, Port09.lock, Port09.cleanup. dx_steps; path_judged.
Qed.

(** [loops]: the iterations of the originals that have a loop. *)
Definition fcntl_contracts (loops : nat) : list (contract dcall dreply) :=
  [Contract Fcntl02.main (forallb (strict dup_ok)) Port02.main (forallb dup_ok);
   Contract Fcntl03.main (forallb (strict getfd_ok)) Port03.main (forallb getfd_ok);
   Contract Fcntl04.main (forallb (strict getfl_ok)) Port04.main (forallb getfl_ok);
   Contract Fcntl05.main (forallb (strict getlk_ok)) Port05.main (forallb answered);
   Contract (Fcntl08.main loops) (forallb (strict setfl_ok)) Port08.main (forallb setfl_ok);
   Contract (Fcntl09.main F_SETLK loops) (forallb (strict anything))
     (Port09.main F_SETLK) (fun d => forallb (strict anything) (take 7 d));
   Contract (Fcntl09.main F_SETLKW loops) (forallb (strict anything))
     (Port09.main F_SETLKW) (fun d => forallb (strict anything) (take 7 d))].

(** C13: on any system, whatever it answers, each of fcntl02.c, 03, 04, 05, 08, 09 and 10
    and its independent version end, and their verdicts are those of [fcntl_contracts] on
    the answers: both want descriptors from the minimum on, access mode O_RDWR and calls
    that do not fail, the originals also that everything else they call succeeds, and only
    the original fcntl05.c looks at the lock that is written back. *)
Theorem fcntl_contracts_kept loops : Forall kept (fcntl_contracts loops).
Proof.
  repeat apply List.Forall_cons; try apply List.Forall_nil; unfold kept; cbn [c_original c_demands c_port c_port_demands].
  - apply fcntl02_judges.
  - apply fcntl03_judges.
  - apply fcntl04_judges.
  - apply fcntl05_judges.
  - apply fcntl08_judges.
  - apply fcntl09_judges.
  - apply fcntl09_judges.
Qed.
