(* ===== verification/Fcntl01.v ===== *)
(** * fcntl01.c and its independent version

    Models of [src/original tests/fcntl/fcntl01.c] and
    [src/independent tests/syscalls/fcntl/fcntl01.c]: descriptors are made with F_DUPFD in
    the gaps that [close] leaves, and the flags of one of them are set and read.

    The elements of the arrays are passed to the functions which read them; [junk] is
    [fd[9]], which no statement assigns.  Messages are as in [FcntlBasic.v]. *)

From S2P Require Import Prelude Tst Process Explore Prog Checker Wp Alone Ends FileSys RecordLocks.
From S2P Require Import Ltp Transcript Judge Descriptors.

Definition file_name (i mypid : Z) : string := ("./fcntl" ++ pretty i ++ "." ++ pretty mypid)%string.

Module Fcntl01.
Definition setup : P unit :=
  call_ (DMisc "tst_sig") ;; call_ (DMisc "umask") ;; call_ (DMisc "tst_tmpdir").

Definition cleanup : P unit := call_ (DMisc "tst_rmdir").

(** The loop that opens the files: elements [i] on of the array. *)
Fixpoint open_files (i : Z) (n : nat) (mypid : Z) : P (list Z) :=
  match n with
  | O => mret []
  | S n =>
      r ← call (DOpen (file_name i mypid) (Z.lor O_WRONLY O_CREAT) 438);
      when (failed r) (tst_resm_errno TBROK (errno r) "open failed" []) ;;
      fds ← open_files (i + 1) n mypid;
      mret (ret r :: fds)
  end.

Fixpoint close_all (fds : list Z) : P unit :=
  match fds with
  | [] => mret tt
  | fd :: fds => call_ (DClose fd) ;; close_all fds
  end.

Definition unlink_files (mypid : Z) : P unit :=
  for_from 0 8 (fun i =>
    r ← call (DUnlink (file_name i mypid));
    when (failed r) (tst_resm_errno TFAIL (errno r) "unlinking %s failed" [Str (file_name i mypid)])).

(** The calls on the flags of [fd[2]]. *)
Definition check_flags (fd2 : Z) : P unit :=
  let getfl := DFcntl fd2 F_GETFL in
  let setfl x := DFcntl fd2 (F_SETFL x) in
  let unexpected (flags expected : Z) : P unit :=
    tst_resm TFAIL "unexpected flag 0x%x, expected 0x%x" [Num flags; Num expected] in
  g ← call getfl;
  when (Z.land (ret g) O_WRONLY =? 0) (unexpected (ret g) O_WRONLY) ;;
  r ← call (setfl O_NDELAY);
  when (failed r) (tst_resm_errno TBROK (errno r) "fcntl(.., O_NDELAY) failed" []) ;;
  g ← call getfl;
  when (Z.land (ret g) (Z.lor O_NDELAY O_WRONLY) =? 0) (unexpected (ret g) (Z.lor O_NDELAY O_WRONLY)) ;;
  r ← call (setfl O_APPEND);
  when (failed r) (tst_resm_errno TFAIL (errno r) "fcntl(.., O_APPEND) failed" []) ;;
  g ← call getfl;
  when (Z.land (ret g) (Z.lor O_APPEND O_WRONLY) =? 0) (unexpected (ret g) (Z.lor O_APPEND O_WRONLY)) ;;
  r ← call (setfl (Z.lor O_NDELAY O_APPEND));
  when (ret r <? 0) (tst_resm TFAIL "fcntl(.., O_NDELAY|O_APPEND) failed" []) ;;
  g ← call getfl;
  when (Z.land (ret g) (Z.lor (Z.lor O_NDELAY O_APPEND) O_WRONLY) =? 0)
    (unexpected (ret g) (Z.lor (Z.lor (Z.lor O_NDELAY O_APPEND) O_SYNC) O_WRONLY)) ;;
  r ← call (setfl 0);
  when (failed r) (tst_resm TFAIL "fcntl(.., 0) failed" []) ;;
  g ← call getfl;
  when (Z.land (ret g) O_WRONLY =? 0) (unexpected (ret g) O_WRONLY).

(** The calls on the close-on-exec flag of [fd[2]]. *)
Definition check_cloexec (fd2 : Z) : P unit :=
  g ← call (DFcntl fd2 F_GETFD);
  when (ret g <? 0) (tst_resm_errno TFAIL (errno g) "fcntl(.., F_GETFD, ..) #1 failed" []) ;;
  when (negb (ret g =? 0)) (tst_resm TFAIL "unexpected flags got 0x%x expected 0x%x" [Num (ret g); Num 0]) ;;
  s ← call (DFcntl fd2 (F_SETFD 1));
  when (failed s) (tst_resm TFAIL "fcntl(.., F_SETFD, ..) failed" []) ;;
  g ← call (DFcntl fd2 F_GETFD);
  when (failed g) (tst_resm_errno TFAIL (errno g) "fcntl(.., F_GETFD, ..) #2 failed" []) ;;
  when (negb (ret g =? 1)) (tst_resm TFAIL "unexpected flags, got 0x%x, expected 0x%x" [Num (ret g); Num 1]).

(** The body of the loop over TEST_LOOPING. *)
Definition round (junk : Z) : P unit :=
  mypid ← getpid;
  fd2 ← open_files 0 8 mypid;
  let was i := nth i fd2 0 in
  close_all [was 2%nat; was 3%nat; was 4%nat; was 5%nat] ;;
  a ← call (DFcntl (was 1%nat) (F_DUPFD 1));
  when (failed a) (tst_resm_errno TFAIL (errno a) "fcntl(.., 1) failed" []) ;;
  when (ret a <? was 2%nat)
    (tst_resm TFAIL "new fd has unexpected value: got %d, expected greater than %d" [Num (ret a); Num 5]) ;;
  b ← call (DFcntl (was 1%nat) (F_DUPFD (was 3%nat)));
  when (ret b <? 0) (tst_resm_errno TFAIL (errno b) "fcntl(.., fd2[3]) failed" []) ;;
  when (ret b <? was 3%nat)
    (tst_resm TFAIL "new fd has unexpected value, got %d, expect greater than %d" [Num (ret b); Num (was 3%nat)]) ;;
  c ← call (DFcntl (was 1%nat) (F_DUPFD (was 5%nat)));
  when (ret c <? 0) (tst_resm_errno TFAIL (errno c) "fcntl(.., fd2[5]) failed" []) ;;
  when (negb (ret c =? was 5%nat))
    (tst_resm TFAIL "new fd has unexpected value: got %d, expected %d" [Num (ret c); Num (was 5%nat)]) ;;
  check_flags (ret a) ;;
  check_cloexec (ret a) ;;
  close_all [was 0%nat; was 1%nat; ret a; was 3%nat; ret b; was 5%nat; was 6%nat; was 7%nat; ret c; junk] ;;
  unlink_files mypid.

Definition main (junk : Z) (loops : nat) : P unit :=
  setup ;;
  for_from 0 loops (fun _ => round junk) ;;
  cleanup ;;
  tst_exit.
End Fcntl01.

Module Port01.
(** [printf(...); return 0;] in [main]. *)
Definition quit (fmt : string) (args : list arg) : P unit := printf fmt args ;; exit 0.

Fixpoint open_files (i : Z) (n : nat) (mypid : Z) : P (list Z) :=
  match n with
  | O => mret []
  | S n =>
      r ← call (DOpen (file_name i mypid) (Z.lor O_WRONLY O_CREAT) 438);
      when (failed r) (quit "open failed" []) ;;
      fds ← open_files (i + 1) n mypid;
      mret (ret r :: fds)
  end.

Fixpoint close_all (fds : list Z) : P unit :=
  match fds with
  | [] => mret tt
  | fd :: fds => call_ (DClose fd) ;; close_all fds
  end.

Definition unlink_files (mypid : Z) : P unit :=
  for_from 0 8 (fun i =>
    r ← call (DUnlink (file_name i mypid));
    when (failed r) (quit "unlinking %s failed, error number %d" [Str (file_name i mypid); Num (errno r)])).

Definition check_flags (fd2 : Z) : P unit :=
  let getfl := DFcntl fd2 F_GETFL in
  let setfl x := DFcntl fd2 (F_SETFL x) in
  let unexpected (flags expected : Z) : P unit :=
    quit "unexpected flag 0x%x, expected 0x%x" [Num flags; Num expected] in
  g ← call getfl;
  when (Z.land (ret g) O_WRONLY =? 0) (unexpected (ret g) O_WRONLY) ;;
  r ← call (setfl O_NDELAY);
  when (failed r) (quit "fcntl(.., O_NDELAY) failed" []) ;;
  g ← call getfl;
  when (Z.land (ret g) (Z.lor O_NDELAY O_WRONLY) =? 0) (unexpected (ret g) (Z.lor O_NDELAY O_WRONLY)) ;;
  r ← call (setfl O_APPEND);
  when (failed r) (quit "fcntl(.., O_APPEND) failed, error number %d" [Num (errno r)]) ;;
  g ← call getfl;
  when (Z.land (ret g) (Z.lor O_APPEND O_WRONLY) =? 0) (unexpected (ret g) (Z.lor O_APPEND O_WRONLY)) ;;
  r ← call (setfl (Z.lor O_NDELAY O_APPEND));
  when (ret r <? 0) (quit "fcntl(.., O_NDELAY|O_APPEND) failed" []) ;;
  g ← call getfl;
  when (Z.land (ret g) (Z.lor (Z.lor O_NDELAY O_APPEND) O_WRONLY) =? 0)
    (unexpected (ret g) (Z.lor (Z.lor (Z.lor O_NDELAY O_APPEND) O_SYNC) O_WRONLY)) ;;
  r ← call (setfl 0);
  when (failed r) (quit "fcntl(.., 0) failed" []) ;;
  g ← call getfl;
  when (Z.land (ret g) O_WRONLY =? 0) (unexpected (ret g) O_WRONLY).

Definition check_cloexec (fd2 : Z) : P unit :=
  g ← call (DFcntl fd2 F_GETFD);
  when (ret g <? 0) (quit "fcntl(.., F_GETFD, ..) #1 failed, error number %d" [Num (errno g)]) ;;
  when (negb (ret g =? 0)) (quit "unexpected flags got 0x%x expected 0x%x" [Num (ret g); Num 0]) ;;
  s ← call (DFcntl fd2 (F_SETFD 1));
  when (failed s) (quit "fcntl(.., F_SETFD, ..) failed" []) ;;
  g ← call (DFcntl fd2 F_GETFD);
  when (failed g) (quit "fcntl(.., F_GETFD, ..) #2 failed, error number %d" [Num (errno g)]) ;;
  when (negb (ret g =? 1)) (quit "unexpected flags, got 0x%x, expected 0x%x" [Num (ret g); Num 1]).

Definition main (junk : Z) : P unit :=
  program (
    mypid ← getpid;
    fd2 ← open_files 0 8 mypid;
    let was i := nth i fd2 0 in
    close_all [was 2%nat; was 3%nat; was 4%nat; was 5%nat] ;;
    a ← call (DFcntl (was 1%nat) (F_DUPFD 1));
    when (failed a) (quit "fcntl(.., 1) failed, error number %d" [Num (errno a)]) ;;
    when (ret a <? was 2%nat)
      (quit "new fd has unexpected value: got %d, expected greater than %d" [Num (ret a); Num 5]) ;;
    b ← call (DFcntl (was 1%nat) (F_DUPFD (was 3%nat)));
    when (ret b <? 0) (quit "fcntl(.., fd2[3]) failed, error number %d" [Num (errno b)]) ;;
    when (ret b <? was 3%nat)
      (quit "new fd has unexpected value, got %d, expect greater than %d" [Num (ret b); Num (was 3%nat)]) ;;
    c ← call (DFcntl (was 1%nat) (F_DUPFD (was 5%nat)));
    when (ret c <? 0) (quit "fcntl(.., fd2[5]) failed, error number %d" [Num (errno c)]) ;;
    when (negb (ret c =? was 5%nat))
      (quit "new fd has unexpected value: got %d, expected %d" [Num (ret c); Num (was 5%nat)]) ;;
    check_flags (ret a) ;;
    check_cloexec (ret a) ;;
    close_all [was 0%nat; was 1%nat; ret a; was 3%nat; ret b; was 5%nat; was 6%nat; was 7%nat; ret c; junk] ;;
    unlink_files mypid ;;
    printf "test succeeded" []).
End Port01.

(** ** The verdict *)

Definition returns (x : Z) : bool := negb (x =? -1).

(** The values of [check_flags] and of [check_cloexec]. *)
Definition flags_ok (v : list Z) : bool :=
  let at_ i := nth i v 0 in
  let has i flags := negb (Z.land (at_ i) flags =? 0) in
  has 0%nat O_WRONLY && returns (at_ 1%nat) && has 2%nat (Z.lor O_NDELAY O_WRONLY)
  && returns (at_ 3%nat) && has 4%nat (Z.lor O_APPEND O_WRONLY)
  && (0 <=? at_ 5%nat) && has 6%nat (Z.lor (Z.lor O_NDELAY O_APPEND) O_WRONLY)
  && returns (at_ 7%nat) && has 8%nat O_WRONLY.

Definition cloexec_ok (v : list Z) : bool :=
  let at_ i := nth i v 0 in (at_ 0%nat =? 0) && returns (at_ 1%nat) && (at_ 2%nat =? 1).

(** A descriptor that is a duplicate: at least the third one opened, at least the fourth,
    exactly the sixth. *)
Definition dups_ok (v : list Z) : bool :=
  let at_ i := nth i v 0 in
  returns (at_ 12%nat) && (at_ 2%nat <=? at_ 12%nat)
  && (0 <=? at_ 13%nat) && (at_ 3%nat <=? at_ 13%nat)
  && (0 <=? at_ 14%nat) && (at_ 14%nat =? at_ 5%nat).

(** All the values of a round. *)
Definition round_ok (v : list Z) : bool :=
  forallb returns (take 8 v) && dups_ok v && flags_ok (take 9 (drop 15 v)) && cloexec_ok (take 3 (drop 24 v))
  && forallb returns (drop 37 v).

(** *** The original *)

(** A part that only returns. *)
Definition adds_values {A} (m : P A) (Q : A -> list Z -> bool -> Prop) : Prop :=
  gives m (fun a v l => Q a v (clean l)) (fun _ _ => False).

Lemma open_files_gives i n mypid :
  adds_values (Fcntl01.open_files i n mypid)
    (fun fds v b => fds = v /\ length v = n /\ b = forallb returns v).
Proof.
  revert i. induction n as [|n IH]; intros i; cbn [Fcntl01.open_files]; [by apply gives_ret|].
  unfold adds_values. give_steps. eapply gives_bind; [apply IH| |done].
  intros fds v l (-> & Hv & Hl). apply gives_ret. rewrite !app_nil_r, clean_app, H, Hl. cbn. by rewrite Hv.
Qed.

Lemma close_all_gives fds :
  adds_values (Fcntl01.close_all fds) (fun _ v b => length v = length fds /\ b = true).
Proof.
  induction fds as [|fd fds IH]; cbn [Fcntl01.close_all]; [by apply gives_ret|].
  unfold adds_values. give_steps. eapply gives_mono; [| |apply IH]; [|done].
  intros [] v l [Hv Hl]. cbn. by rewrite Hv.
Qed.

Lemma unlink_gives mypid :
  adds_values (Fcntl01.unlink_files mypid) (fun _ v b => length v = 8%nat /\ b = forallb returns v).
Proof.
  unfold Fcntl01.unlink_files. change 8%nat with (8 : nat). generalize 0, 8%nat. intros i n. revert i.
  induction n as [|n IH]; intros i; cbn [for_from]; [by apply gives_ret|].
  eapply (gives_bind _ _ _ _ (fun _ v l => exists x, v = [x] /\ clean l = returns x) (fun _ _ => False)); [| |done].
  - intros d l. dx_steps; (eexists [_], _; split; [reflexivity|split; [first [reflexivity|by rewrite app_nil_r]|]]); 
    eexists; (split; [reflexivity|]); unfold returns, failed in *; cbn in *; lia.
  - intros [] v l (x & -> & Hl). eapply gives_mono; [| |apply IH]; [|done].
    intros [] v' l' [Hv' Hl']. cbn. by rewrite clean_app, Hl, Hl', Hv'.
Qed.

(** The equations on the reports of a path. *)
Ltac reports_known :=
  rewrite ?clean_app; repeat match goal with H : clean _ = _ |- _ => rewrite H; clear H end;
  unfold flags_ok, cloexec_ok, dups_ok, returns, failed in *; cbn in *;
  repeat match goal with H : (_ =? _) = _ |- _ => rewrite H; clear H end;
  rewrite ?(Z.ltb_antisym 0), ?negb_involutive, ?andb_true_r, ?andb_false_r, ?andb_assoc; try done; lia.

Lemma check_flags_gives fd2 :
  adds_values (Fcntl01.check_flags fd2) (fun _ v b => length v = 9%nat /\ b = flags_ok v).
Proof.
  unfold adds_values, Fcntl01.check_flags. cbv zeta. give_steps.
  intros d l. apply dx_when; intros Hb; [apply dx_resm|]; path_added; (split; [done|]); reports_known.
Qed.

Lemma check_cloexec_gives fd2 :
  adds_values (Fcntl01.check_cloexec fd2) (fun _ v b => length v = 3%nat /\ b = cloexec_ok v).
Proof.
  unfold adds_values, Fcntl01.check_cloexec. give_steps.
  intros d l. apply dx_when; intros Hb; [apply dx_resm|]; path_added; (split; [done|]); reports_known.
Qed.

(** A list of [n] values, by its elements. *)
Ltac by_length v := repeat (destruct v as [|? v]; cbn [length] in *; try discriminate).

Lemma round_ok_from vo vc w :
  length vo = 8%nat -> length vc = 4%nat ->
  round_ok (vo ++ vc ++ w)
  = forallb returns vo
    && (returns (nth 0 w 0) && (nth 2 vo 0 <=? nth 0 w 0) && (0 <=? nth 1 w 0) && (nth 3 vo 0 <=? nth 1 w 0)
        && (0 <=? nth 2 w 0) && (nth 2 w 0 =? nth 5 vo 0))
    && flags_ok (take 9 (drop 3 w)) && cloexec_ok (take 3 (drop 12 w)) && forallb returns (drop 25 w).
Proof. intros Ho Hc. by_length vo. by_length vc. done. Qed.

Lemma round_ok_parts vo vc a b c vf vx vcl vu :
  length vo = 8%nat -> length vc = 4%nat -> length vf = 9%nat -> length vx = 3%nat -> length vcl = 10%nat ->
  round_ok (vo ++ vc ++ a :: b :: c :: vf ++ vx ++ vcl ++ vu)
  = forallb returns vo
    && (returns a && (nth 2 vo 0 <=? a) && (0 <=? b) && (nth 3 vo 0 <=? b) && (0 <=? c) && (c =? nth 5 vo 0))
    && flags_ok vf && cloexec_ok vx && forallb returns vu.
Proof.
  intros Ho Hc Hf Hx Hl. rewrite round_ok_from by done. by_length vf. by_length vx. by_length vcl.
  cbn [app take drop nth]. by rewrite (drop_0 vu).
Qed.

Lemma round_gives junk : adds_values (Fcntl01.round junk) (fun _ v b => b = round_ok v).
Proof.
  unfold adds_values, Fcntl01.round. give_steps.
  eapply gives_bind; [apply open_files_gives| |done]. intros fds vo lo (-> & Ho & Elo). give_steps.
  eapply gives_bind; [apply close_all_gives| |done]. intros [] vc lc [Hc Elc]. give_steps.
  eapply gives_bind; [apply check_flags_gives| |done]. intros [] vf lf [Hf Elf].
  eapply gives_bind; [apply check_cloexec_gives| |done]. intros [] vx lx [Hx Elx].
  eapply gives_bind; [apply close_all_gives| |done]. intros [] vcl lcl [Hcl Elcl].
  eapply gives_mono; [| |apply unlink_gives]; [|done]. intros [] vu lu [Hu Elu].
  rewrite (round_ok_parts vo vc _ _ _ vf vx vcl vu) by done.
  rewrite !clean_app, Elo, Elc, Elf, Elx, Elcl, Elu by done.
  repeat match goal with H : clean _ = _ |- _ => rewrite H; clear H end.
  unfold returns, failed. by rewrite !Z.ltb_antisym, !negb_involutive, !andb_true_l, !andb_assoc.
Qed.

(** *** The independent program *)

Lemma gives_quit {B} (b : bool) fmt args (f : unit -> P B) Φ (Ψ : list Z -> list entry -> Prop) :
  contains success fmt = false ->
  (b = true -> forall l1, succeeded l1 = false -> Ψ [] l1) -> (b = false -> gives (f tt) Φ Ψ) ->
  gives (when b (Port01.quit fmt args) ≫= f) Φ Ψ.
Proof.
  intros Hf H1 H2 d l. destruct b; cbn [when].
  - apply dx_bind, dx_bind, dx_resm, dx_exit. exists [], [Entry TINFO None fmt args].
    rewrite app_nil_r. repeat split. apply H1; [done|]. unfold succeeded. cbn [existsb e_fmt]. by rewrite Hf.
  - apply dx_bind, dx_ret, H2. done.
Qed.

Ltac quit_steps :=
  repeat first
    [ apply gives_quit; [reflexivity | intros Hq ? ? | intros ?]
    | lazymatch goal with
      | |- gives (mbind _ (call _)) _ _ => apply gives_call_bind; intros ?
      | |- gives (mbind _ (call_ _)) _ _ => apply gives_call__bind; intros ?
      | |- gives (mret _) _ _ => apply gives_ret
      end ].

(** A part: it returns after [n] acceptable values, or ends the program after some that
    are not. *)
Definition tries {A} (n : nat) (Q : list Z -> bool) (m : P A) (Φ : A -> list Z -> Prop) : Prop :=
  gives m (fun a v l => length v = n /\ l = [] /\ Q v = true /\ Φ a v)
    (fun v l => (length v <= n)%nat /\ succeeded l = false /\ Q v = false).

(** What a path of a part has established. *)
Ltac values_known :=
  unfold flags_ok, cloexec_ok, returns, failed in *; cbn in *;
  repeat match goal with H : (_ =? _) = _ |- _ => rewrite H; clear H end;
  rewrite ?andb_false_r; try done; lia.

Lemma port_open_files i n mypid :
  tries n (forallb returns) (Port01.open_files i n mypid) (fun fds v => fds = v).
Proof.
  revert i. induction n as [|n IH]; intros i; cbn [Port01.open_files]; [by apply gives_ret|].
  unfold tries. quit_steps.
  - split; [cbn; lia|]. split; [done|]. values_known.
  - eapply gives_bind; [apply IH| |].
    + intros fds v l (Hv & -> & Hq & ->). apply gives_ret. rewrite !app_nil_r. cbn [length forallb].
      rewrite Hv, Hq. repeat split. values_known.
    + intros v l (Hv & Hl & Hq). cbn [length forallb]. rewrite Hq, andb_false_r. repeat split; [lia|done].
Qed.

Lemma port_close_all fds :
  gives (Port01.close_all fds) (fun _ v l => length v = length fds /\ l = []) (fun _ _ => False).
Proof.
  induction fds as [|fd fds IH]; cbn [Port01.close_all]; [by apply gives_ret|].
  quit_steps. eapply gives_mono; [| |apply IH]; [|done]. intros [] v l [Hv ->]. cbn. by rewrite Hv.
Qed.

Lemma gives_last_quit (b : bool) fmt args Φ (Ψ : list Z -> list entry -> Prop) :
  contains success fmt = false ->
  (b = true -> forall l1, succeeded l1 = false -> Ψ [] l1) -> (b = false -> Φ tt [] []) ->
  gives (when b (Port01.quit fmt args)) Φ Ψ.
Proof.
  intros Hf H1 H2. eapply gives_mono with (Φ := fun a => Φ a); [done | done |].
  assert (H := gives_quit b fmt args (fun x => mret x) Φ Ψ Hf H1 (fun E => gives_ret tt Φ Ψ (H2 E))).
  intros d l. specialize (H d l). destruct b; cbn [when] in *.
  - apply dx_bind, dx_resm, dx_exit. exists [], [Entry TINFO None fmt args].
    rewrite app_nil_r. repeat split. apply H1; [done|]. unfold succeeded. cbn [existsb e_fmt]. by rewrite Hf.
  - apply dx_ret. exists [], []. rewrite !app_nil_r. repeat split. by apply H2.
Qed.

Ltac part_path := split; [cbn; lia|]; split; [done|]; try split; try done; values_known.

Lemma port_check_flags fd2 : tries 9 flags_ok (Port01.check_flags fd2) (fun _ _ => True).
Proof.
  unfold tries, Port01.check_flags. cbv zeta. quit_steps; [part_path..|].
  apply gives_last_quit; [done| |]; intros; part_path.
Qed.

Lemma port_check_cloexec fd2 : tries 3 cloexec_ok (Port01.check_cloexec fd2) (fun _ _ => True).
Proof.
  unfold tries, Port01.check_cloexec. quit_steps; [part_path..|].
  apply gives_last_quit; [done| |]; intros; part_path.
Qed.

Lemma port_unlink mypid : tries 8 (forallb returns) (Port01.unlink_files mypid) (fun _ _ => True).
Proof.
  unfold Port01.unlink_files. generalize 0, 8%nat. intros i n. revert i.
  induction n as [|n IH]; intros i; cbn [for_from]; [by apply gives_ret|].
  eapply (gives_bind _ _ _ _ (fun _ v l => exists x, v = [x] /\ l = [] /\ returns x = true)
            (fun v l => exists x, v = [x] /\ succeeded l = false /\ returns x = false)).
  - quit_steps. apply gives_last_quit; [done| |]; intros H; [intros l1 Hl|]; eexists; (split; [done|]);
      (split; [done|]); values_known.
  - intros [] v l (x & -> & -> & Hx). eapply gives_mono; [| |apply IH].
    + intros [] v l (Hv & -> & Hq & _). cbn. by rewrite Hv, Hx, Hq.
    + intros v l (Hv & Hl & Hq). cbn. rewrite Hx, Hq. repeat split; [lia|done].
  - intros v l (x & -> & Hl & Hx). cbn. rewrite Hx. repeat split; [lia|done].
Qed.

(** The conditions of a path that ends early make a round unacceptable. *)
Ltac round_fails :=
  rewrite ?Z.ltb_antisym, ?negb_true_iff, ?negb_false_iff in *;
  repeat match goal with
  | H : failed _ = true |- _ => apply Z.eqb_eq in H; unfold returns; rewrite H; clear H
  | H : (_ <=? _) = false |- _ => rewrite H; clear H
  | H : (_ =? _) = false |- _ => rewrite H; clear H
  end; by rewrite ?andb_false_r.

Lemma port_judges junk :
  gives (Port01.main junk) (fun _ _ _ => False) (fun v l => succeeded l = round_ok v).
Proof.
  unfold Port01.main, program. apply gives_program. give_steps.
  eapply gives_bind; [apply port_open_files| |].
  2: { intros v l (Hv & -> & Hq). unfold round_ok. by rewrite take_ge, Hq. }
  intros fds vo lo (Ho & -> & Eo & ->). cbv zeta.
  eapply gives_bind; [apply port_close_all| |done]. intros [] vc lc [Hc ->]. cbn [app].
  assert (Hfail : forall w l, succeeded l = false -> round_ok (vo ++ vc ++ w) = false ->
    succeeded l = round_ok (vo ++ vc ++ w)) by by intros w l -> ->.
  quit_steps.
  1-6: apply Hfail; [done|]; rewrite round_ok_from by done; cbn [nth].
  1-6: round_fails.
  eapply gives_bind; [apply port_check_flags| |].
  2: { intros v l (Hv & Hl & Hq). apply (Hfail (_ :: _ :: _ :: v)); [done|].
       rewrite round_ok_from by done. cbn [drop]. by rewrite (take_ge v), Hq, !andb_false_r. }
  intros [] vf lf (Hf & -> & Ef & _). eapply gives_bind; [apply port_check_cloexec| |].
  2: { intros v l (Hv & Hl & Hq). apply (Hfail (_ :: _ :: _ :: vf ++ v)); [done|].
       rewrite round_ok_from by done. by_length vf. cbn [app drop]. by rewrite (take_ge v), Hq, andb_false_r. }
  intros [] vx lx (Hx & -> & Ex & _). eapply gives_bind; [apply port_close_all| |done].
  intros [] vcl lcl [Hcl ->]. eapply gives_bind; [apply port_unlink| |].
  2: { intros v l (Hv & Hl & Hq). apply (Hfail (_ :: _ :: _ :: vf ++ vx ++ vcl ++ v)); [done|].
       rewrite round_ok_parts by done. by rewrite Hq, andb_false_r. }
  intros [] vu lu (Hu & -> & Eu & _) d l. apply dx_resm. eexists [], _. rewrite app_nil_r.
  split; [done|]. split; [done|]. cbn [values map app]. rewrite app_nil_r, round_ok_parts by done.
  rewrite Eo, Ef, Ex, Eu. unfold returns, failed in *. rewrite Z.ltb_antisym, negb_false_iff in *.
  rewrite H. by rewrite H0, H1, H2, H3, H4.
Qed.

(** C12: on any system, whatever it answers, a round of fcntl01.c reports no failure, and its
    independent version prints that the test succeeded, for exactly the same answers:
    the files open, the copies get descriptors not below the third and the fourth and
    exactly the sixth, all flags read back have some bit of their masks, the close-on-exec
    flag is 0 and then 1, and the files are removed. *)
Theorem fcntl01_judges junk :
  (forall d l, dx (Fcntl01.round junk) d l
     (fun _ => adds (fun d1 l1 => clean l1 = round_ok (values d1)) d l) (fun _ _ => False))
  /\ judges (Port01.main junk) succeeded (fun d => round_ok (values d)).
Proof.
  split; [|apply gives_judges, port_judges].
  intros d l. eapply dx_mono; [| |apply (round_gives junk)]; [done|].
  by intros d' l' (d1 & l1 & _ & _ & []).
Qed.
