(* ===== verification/ReadWrite.v ===== *)
(** * The basic tests of close(2) and read(2), and their independent versions

    Models of close01.c, close02.c, read03.c and read04.c under [src/original tests] (modules
    [Close01], ...) and of the programs with the same names and read01.c under
    [src/independent tests/syscalls] (modules [PortClose01], ...), and what both make of the
    answers of the system.  The original read01.c has [O_ RDWR] for [O_RDWR] (line 30) and is
    not accepted by a compiler; it is not modelled.

    The static variables of a program are the result of its [setup]; quotation marks and
    final newlines of messages are left out.  Arrays that are not initialised are a
    parameter [junk]. *)

From S2P Require Import Prelude Tst Process Explore Prog Checker Wp Alone Ends FileSys RecordLocks.
From S2P Require Import Ltp Transcript Judge Descriptors.

Definition AF_INET : Z := 2.
Definition SOCK_STREAM : Z := 1.

(** ** close01.c *)

Module Close01.
Definition FILENAME : string := "close01_testfile".

Definition get_fd_file : P Z :=
  r ← safe no_cleanup "open" (DOpen FILENAME (Z.lor O_RDWR O_CREAT) 448); mret (ret r).

Definition get_fd_pipe : P Z :=
  r ← safe no_cleanup "pipe" DPipe;
  safe no_cleanup "close" (DClose (d_pipe r).2) ;;
  mret (d_pipe r).1.

Definition get_fd_socket : P Z :=
  r ← safe no_cleanup "socket" (DSocket AF_INET SOCK_STREAM 0); mret (ret r).

Definition tc : list (P Z * string) := [(get_fd_file, "file"); (get_fd_pipe, "pipe"); (get_fd_socket, "socket")]%string.

Definition run (i : Z) : P unit :=
  match nth_error tc (Z.to_nat i) with
  | Some (get_fd, type) =>
      fd ← get_fd;
      TST_EXP_PASS (DClose fd) "close a %s fd" [Str type] ;; mret tt
  | None => mret tt
  end.

Definition main : P unit := run_tests (mret tt) (fun _ => run) (length tc) (fun _ => no_cleanup).
End Close01.

Module PortClose01.
Definition FILENAME : string := "close01_testfile".

Definition get_fd_file : P Z := r ← call (DOpen FILENAME (Z.lor O_RDWR O_CREAT) 448); mret (ret r).

(** If [pipe] fails the array is what its answer has. *)
Definition get_fd_pipe : P Z :=
  r ← call DPipe;
  call_ (DClose (d_pipe r).2) ;;
  mret (d_pipe r).1.

Definition get_fd_socket : P Z := r ← call (DSocket AF_INET SOCK_STREAM 0); mret (ret r).

Definition tc : list (P Z * string) := [(get_fd_file, "file"); (get_fd_pipe, "pipe"); (get_fd_socket, "socket")]%string.

Definition run (i : Z) : P Z :=
  match nth_error tc (Z.to_nat i) with
  | Some (get_fd, _) =>
      fd ← get_fd;
      r ← call (DClose fd);
      mret (if ret r =? 0 then 1 else 0)
  | None => mret 0
  end.

Definition main : P unit :=
  program (for_from 0 3 (fun i =>
    res ← run i;
    if res =? 1 then printf "test succeeded" [] else printf "test failed" [])).
End PortClose01.

(** ** close02.c *)

Module Close02.
Definition run : P unit := TST_EXP_FAIL (DClose (-1)) EBADF "close(-1)" [] ;; mret tt.

Definition main : P unit := run_tests (mret tt) (fun _ _ => run) 1 (fun _ => no_cleanup).
End Close02.

Module PortClose02.
Definition run : P Z := r ← call (DClose (-1)); mret (- ret r).

Definition main : P unit :=
  program (
    res ← run;
    if res =? 1 then printf "test succeeded" [] else printf "test failed" []).
End PortClose02.

(** ** read01.c *)

Module PortRead01.
Definition SIZE : Z := 512.

(** [write(1, fd, buf, SIZE)], without a declaration of [write]: the system is asked to
    write to descriptor 1 as many bytes as the address of [buf] says ([buf]), from the
    address [fd]. *)
Definition setup (buf : Z) : P Z :=
  r ← call (DOpen "testfile" (Z.lor O_RDWR O_CREAT) 448);
  call_ (DWrite 1 (At_ (ret r)) buf) ;;
  mret (ret r).

Definition verify_read (fd : Z) : P Z :=
  call_ (DLseek fd 0 SEEK_SET) ;;
  r ← call (DRead fd SIZE);
  let res := to_int (ret r) in
  (if res =? -1 then printf "read(2) failed" []
   else printf "read(2) returned %d" [Num res]) ;;
  mret res.

Definition cleanup (fd : Z) : P unit := when (0 <? fd) (call_ (DClose fd)).

Definition main (buf : Z) : P unit :=
  program (
    fd ← setup buf;
    v ← verify_read fd;
    (if v =? -1 then printf "test failed" [] else printf "test succeeded" []) ;;
    cleanup fd).
End PortRead01.

(** ** read03.c *)

Definition is_fifo (r : dreply) : bool := negb (Z.land (d_mode r) S_IFIFO =? 0).

Module Read03.
(** [fifo], [rfd] and [wfd]; the descriptors are 0 until they are opened. *)
Definition cleanup (fifo : string) (rfd wfd : Z) : P unit :=
  safe_warn "close" (DClose rfd) ;;
  safe_warn "close" (DClose wfd) ;;
  safe_warn "unlink" (DUnlink fifo).

Definition setup : P (string * Z * Z) :=
  pid ← getpid;
  let fifo := ("fifo." ++ pretty pid)%string in
  safe (cleanup fifo 0 0) "mknod" (DMknod fifo (Z.lor S_IFIFO 511)) ;;
  s ← safe (cleanup fifo 0 0) "stat" (DStat fifo);
  when (negb (is_fifo s)) (tst_brk (cleanup fifo 0 0) TBROK "Mode does not indicate fifo file" []) ;;
  r ← safe (cleanup fifo 0 0) "open" (DOpen fifo (Z.lor O_RDONLY O_NONBLOCK) 0);
  w ← safe (cleanup fifo (ret r) 0) "open" (DOpen fifo (Z.lor O_WRONLY O_NONBLOCK) 0);
  mret (fifo, ret r, ret w).

Definition verify_read (rfd : Z) : P unit :=
  TST_EXP_FAIL (DRead rfd 1) EAGAIN "read() when nothing is written to a pipe" [] ;; mret tt.

Definition main : P unit :=
  run_tests setup (fun x _ => verify_read x.1.2) 1 (fun x => cleanup x.1.1 x.1.2 x.2).
End Read03.

Module PortRead03.
Definition cleanup (fifo : string) (rfd wfd : Z) : P unit :=
  call_ (DClose rfd) ;;
  call_ (DClose wfd) ;;
  call_ (DUnlink fifo).

Definition setup : P (string * Z * Z) :=
  pid ← getpid;
  let fifo := ("fifo." ++ pretty pid)%string in
  call_ (DMknod fifo (Z.lor S_IFIFO 511)) ;;
  s ← call (DStat fifo);
  when (negb (is_fifo s)) (printf "Mode does not indicate fifo file" [] ;; exit 0) ;;
  r ← call (DOpen fifo (Z.lor O_RDONLY O_NONBLOCK) 0);
  w ← call (DOpen fifo (Z.lor O_WRONLY O_NONBLOCK) 0);
  mret (fifo, ret r, ret w).

Definition verify_read (rfd : Z) : P Z :=
  r ← call (DRead rfd 1);
  let res := to_int (ret r) in
  mret (if res =? -1 then 1 else -1).

Definition main : P unit :=
  program (
    x ← setup;
    v ← verify_read x.1.2;
    (if v =? 1 then printf "test succeeded" [] else printf "test failed" []) ;;
    cleanup x.1.1 x.1.2 x.2).
End PortRead03.

(** ** read04.c *)

Definition palfa : string := "ABCDEFGHIJKLMNOPQRSTUVWXYZ".
Definition PALFA_LEN : Z := strlen palfa.

(** [memcmp(palfa, prbuf, PALFA_LEN) == 0]: the bytes read are followed by what the array
    held. *)
Definition same_text (junk : string) (r : dreply) : bool := String.prefix palfa (d_text r ++ junk).

Module Read04.
Definition fname : string := "test_file".

Definition setup : P unit :=
  r ← safe no_cleanup "creat" (DCreat fname 511);
  safe_all no_cleanup "write" (DWrite (ret r) (Text palfa) PALFA_LEN) PALFA_LEN ;;
  safe no_cleanup "close" (DClose (ret r)) ;; mret tt.

Definition verify_read (junk : string) : P unit :=
  o ← safe no_cleanup "open" (DOpen fname O_RDONLY 0);
  r ← call (DRead (ret o) BUFSIZ);
  (if negb (ret r =? PALFA_LEN) then
     tst_res TFAIL "Bad read count - got %ld - expected %zu" [Num (ret r); Num PALFA_LEN]
   else if negb (same_text junk r) then tst_res TFAIL "read buffer not equal to write buffer" []
   else tst_res TPASS "read() data correctly" []) ;;
  safe no_cleanup "close" (DClose (ret o)) ;; mret tt.

Definition main (junk : string) : P unit :=
  run_tests setup (fun _ _ => verify_read junk) 1 (fun _ => no_cleanup).
End Read04.

Module PortRead04.
Definition fname : string := "test_file".

Definition setup : P unit :=
  r ← call (DCreat fname 511);
  call_ (DWrite (ret r) (Text palfa) PALFA_LEN) ;;
  call_ (DClose (ret r)).

Definition verify_read (junk : string) : P Z :=
  o ← call (DOpen fname O_RDONLY 0);
  r ← call (DRead (ret o) BUFSIZ);
  let res := to_int (ret r) in
  if negb (res =? PALFA_LEN) then
    printf "Bad read count - got %d - expected %zu" [Num res; Num PALFA_LEN] ;;
    call_ (DClose (ret o)) ;; mret (-1)
  else if negb (same_text junk r) then
    printf "read buffer not equal to write buffer" [] ;;
    call_ (DClose (ret o)) ;; mret (-1)
  else
    printf "read() data correctly" [] ;;
    call_ (DClose (ret o)) ;; mret 1.

Definition main (junk : string) : P unit :=
  program (
    setup ;;
    v ← verify_read junk;
    if v =? 1 then printf "test succeeded" [] else printf "test failed" []).
End PortRead04.

(** ** What the programs look at *)

Definition worked (r : Z) : bool := negb (r =? -1).

(** close01.c: open, close, pipe, close, close, socket, close *)
Definition close01_ok (v : list Z) : bool :=
  match v with
  | [o; c1; p; cw; c2; s; c3] => worked o && (c1 =? 0) && worked p && worked cw && (c2 =? 0) && worked s && (c3 =? 0)
  | _ => false
  end.

Definition port_close01_ok (v : list Z) : bool := (nth 1 v (-1) =? 0) || (nth 4 v (-1) =? 0) || (nth 6 v (-1) =? 0).

Definition close02_ok (d : list (dcall * dreply)) : bool :=
  match d with [(_, r)] => fails_with EBADF r | _ => false end.

Definition port_close02_ok (d : list (dcall * dreply)) : bool :=
  match d with [(_, r)] => failed r | _ => false end.

(** read01.c: the result of read, as an int, is not -1. *)
Definition port_read01_ok (e : dcall * dreply) : bool :=
  match e.1 with DRead _ _ => negb (to_int (ret e.2) =? -1) | _ => true end.

(** read03.c: mknod, stat, open, open, read and the calls that clean up *)
Definition read03_ok (d : list (dcall * dreply)) : bool :=
  match d with
  | [(_, m); (_, s); (_, o1); (_, o2); (_, r); (_, c1); (_, c2); (_, u)] =>
      negb (failed m) && negb (failed s) && is_fifo s && negb (failed o1) && negb (failed o2)
      && fails_with EAGAIN r && negb (failed c1) && negb (failed c2) && negb (failed u)
  | _ => false
  end.

Definition port_read03_ok (d : list (dcall * dreply)) : bool :=
  match d with
  | [_; (_, s); _; _; (_, r); _; _; _] => is_fifo s && (to_int (ret r) =? -1)
  | _ => false
  end.

(** read04.c: all letters arrive; the original also looks at its other calls. *)
Definition read04_ok (junk : string) (e : dcall * dreply) : bool :=
  match e.1 with
  | DRead _ _ => (ret e.2 =? PALFA_LEN) && same_text junk e.2
  | DWrite _ _ n => ret e.2 =? n
  | _ => true
  end.

Definition port_read04_ok (junk : string) (e : dcall * dreply) : bool :=
  match e.1 with DRead _ _ => (to_int (ret e.2) =? PALFA_LEN) && same_text junk e.2 | _ => true end.

#[local] Arguments to_int : simpl never.

(** ** The verdicts *)

Ltac unfold_verdict ::= unfold strict, anything, fails_with, worked, failed, nonzero in *.

Lemma close01_judges :
  judges Close01.main clean (fun d => close01_ok (values d))
  /\ judges PortClose01.main succeeded (fun d => port_close01_ok (values d)).
Proof.
  split; apply dx_judges.
  - unfold Close01.main, run_tests, Close01.run. change (length Close01.tc) with 3%nat. number_cases; cbn [nth_error Close01.tc].
    unfold Close01.get_fd_file, Close01.get_fd_pipe, Close01.get_fd_socket, TST_EXP_PASS.
    dx_steps; unfold close01_ok; path_judged.
  - unfold PortClose01.main, program, PortClose01.run. number_cases; cbn [nth_error PortClose01.tc].
    unfold PortClose01.get_fd_file, PortClose01.get_fd_pipe, PortClose01.get_fd_socket.
    dx_steps; unfold port_close01_ok; path_judged.
Qed.

Lemma close02_judges : judges Close02.main clean close02_ok /\ judges PortClose02.main succeeded port_close02_ok.
Proof.
  split; apply dx_judges.
  - unfold Close02.main, run_tests, Close02.run, TST_EXP_FAIL. number_cases.
    dx_steps; unfold close02_ok; path_judged.
  - unfold PortClose02.main, program, PortClose02.run. dx_steps; unfold port_close02_ok; path_judged.
Qed.

(** The original does not compile. *)
Lemma read01_judges buf : judges (PortRead01.main buf) succeeded (forallb port_read01_ok).
Proof.
  apply dx_judges. unfold PortRead01.main, program, PortRead01.setup, PortRead01.verify_read, PortRead01.cleanup.
  dx_steps; path_judged.
Qed.

Lemma read03_judges :
  judges Read03.main clean read03_ok /\ judges PortRead03.main succeeded port_read03_ok.
Proof.
  split; apply dx_judges.
  - unfold Read03.main, run_tests, Read03.setup, Read03.verify_read, Read03.cleanup, TST_EXP_FAIL, tst_brk.
    number_cases. dx_steps; unfold read03_ok; path_judged.
  - unfold PortRead03.main, program, PortRead03.setup, PortRead03.verify_read, PortRead03.cleanup.
    dx_steps; unfold port_read03_ok; path_judged.
Qed.

Lemma read04_judges junk :
  judges (Read04.main junk) clean (forallb (strict (read04_ok junk)))
  /\ judges (PortRead04.main junk) succeeded (forallb (port_read04_ok junk)).
Proof.
  split.
  - apply clean_run_tests; unfold Read04.setup, Read04.verify_read; intros; judge_path.
  - apply dx_judges. unfold PortRead04.main, program, PortRead04.setup, PortRead04.verify_read.
    dx_steps; unfold port_read04_ok, read04_ok; path_judged.
Qed.

(** [junk]: what the array of read04.c holds. *)
Definition read_contracts (junk : string) : list (contract dcall dreply) :=
  [Contract Close01.main (fun d => close01_ok (values d)) PortClose01.main (fun d => port_close01_ok (values d));
   Contract Close02.main close02_ok PortClose02.main port_close02_ok;
   Contract Read03.main read03_ok PortRead03.main port_read03_ok;
   Contract (Read04.main junk) (forallb (strict (read04_ok junk)))
     (PortRead04.main junk) (forallb (port_read04_ok junk))].

(** C14: on any system, whatever it answers, each of close01.c, close02.c, read03.c and
    read04.c and its independent version end, and their verdicts are those of
    [read_contracts] on the answers; so is that of the independent read01.c, of which the
    original does not compile ([buf]: the address of its array as a number).  The
    independent close01.c is content if any of its three descriptors can be closed,
    close02.c and read03.c with any error, and read01.c with any result of read but -1;
    the independent programs keep the result of read in an int and see its low 32 bits only. *)
Theorem read_contracts_kept buf junk :
  Forall kept (read_contracts junk) /\ judges (PortRead01.main buf) succeeded (forallb port_read01_ok).
Proof.
  split; [|apply read01_judges].
  repeat apply List.Forall_cons; try apply List.Forall_nil; unfold kept; cbn [c_original c_demands c_port c_port_demands].
  - apply close01_judges.
  - apply close02_judges.
  - apply read03_judges.
  - apply read04_judges.
Qed.
