(* ===== verification/WriteTests.v ===== *)
(** * The basic tests of write(2), and their independent versions

    Models of [src/original tests/write/write01.c] to write06.c (modules [Write01], ...) and of
    the programs with the same names under [src/independent tests/syscalls/write] (modules
    [PortWrite01], ...), and what both make of the answers of the system.  The independent
    write03.c calls read(2) with four arguments and is not accepted by a compiler; it is
    not modelled.

    The static variables of a program are the result of its [setup]; quotation marks and
    final newlines of messages are left out.  The arrays of write04.c are written as they
    are on the stack: their bytes are a parameter [junk]. *)

From S2P Require Import Prelude Tst Process Explore Prog Checker Wp Alone Ends FileSys RecordLocks.
From S2P Require Import Ltp Transcript Judge Descriptors.

Definition PROT_NONE : Z := 0.
Definition MAP_PRIVATE : Z := 2.
Definition MAP_ANONYMOUS : Z := 32.

(** ** write01.c *)

Module Write01.
Definition cleanup (fd : Z) : P unit := when (0 <? fd) (safe_warn "close" (DClose fd)).

Definition setup : P Z :=
  r ← safe no_cleanup "open" (DOpen "test_file" (Z.lor O_RDWR O_CREAT) 448); mret (ret r).

(** The bytes of [buf]: the letter w. *)
Definition buf : buffer := Fill 119.

(** The loop from [i] bytes, in [n] rounds, down to one; [None]: a call failed. *)
Fixpoint write_all (fd : Z) (n : nat) (i badcount : Z) : P (option Z) :=
  match n with
  | O => mret (Some badcount)
  | S n =>
      r ← call (DWrite fd buf i);
      if failed r then tst_res_err TFAIL r "write failed" [] ;; mret None
      else if negb (ret r =? i) then
        tst_res TINFO "write() returned %ld, expected %d" [Num (ret r); Num i] ;;
        write_all fd n (i - 1) (badcount + 1)
      else write_all fd n (i - 1) badcount
  end.

Definition verify_write (fd : Z) : P unit :=
  safe (cleanup fd) "lseek" (DLseek fd 0 SEEK_SET) ;;
  bad ← write_all fd (Z.to_nat BUFSIZ) BUFSIZ 0;
  match bad with
  | None => mret tt
  | Some badcount =>
      if negb (badcount =? 0) then tst_res TFAIL "write() failed to return proper count" []
      else tst_res TPASS "write() passed" []
  end.

Definition main : P unit := run_tests setup (fun fd _ => verify_write fd) 1 cleanup.
End Write01.

Module PortWrite01.
Definition buf : buffer := Fill 119.

Definition cleanup (fd : Z) : P unit := when (0 <? fd) (call_ (DClose fd)).

Definition setup : P Z := r ← call (DOpen "test_file" (Z.lor O_RDWR O_CREAT) 448); mret (ret r).

Fixpoint write_all (fd : Z) (n : nat) (i badcount : Z) : P (option Z) :=
  match n with
  | O => mret (Some badcount)
  | S n =>
      r ← call (DWrite fd buf i);
      let res := to_int (ret r) in
      if res =? -1 then printf "write failed, error %d" [Num (errno r)] ;; mret None
      else if negb (res =? i) then
        printf "write() returned %ld, expected %d" [Num res; Num i] ;;
        write_all fd n (i - 1) (badcount + 1)
      else write_all fd n (i - 1) badcount
  end.

Definition verify_write (fd : Z) : P Z :=
  call_ (DLseek fd 0 SEEK_SET) ;;
  bad ← write_all fd (Z.to_nat BUFSIZ) BUFSIZ 0;
  match bad with
  | None => mret (-1)
  | Some badcount =>
      if negb (badcount =? 0) then printf "write() failed to return proper count" [] ;; mret (-1)
      else printf "write() passed" [] ;; mret 1
  end.

Definition main : P unit :=
  program (
    fd ← setup;
    v ← verify_write fd;
    (if v =? 1 then printf "test succeeded" [] else printf "test failed" []) ;;
    cleanup fd).
End PortWrite01.

(** ** write02.c *)

Module Write02.
Definition cleanup (fd : Z) : P unit := when (0 <? fd) (safe_warn "close" (DClose fd)).

Definition setup : P Z :=
  r ← safe no_cleanup "open" (DOpen "test_file" (Z.lor O_RDWR O_CREAT) 448); mret (ret r).

Definition verify_write (fd : Z) : P unit :=
  r ← call (DWrite fd null 0);
  if negb (ret r =? 0) then tst_res_err TFAIL r "write() should have succeeded with ret=0" []
  else tst_res TPASS "write(fd, NULL, 0) == 0" [].

Definition main : P unit := run_tests setup (fun fd _ => verify_write fd) 1 cleanup.
End Write02.

Module PortWrite02.
Definition cleanup (fd : Z) : P unit := when (0 <? fd) (call_ (DClose fd)).

Definition setup : P Z := r ← call (DOpen "test_file" (Z.lor O_RDWR O_CREAT) 448); mret (ret r).

Definition verify_write (fd : Z) : P Z :=
  r ← call (DWrite fd null 0);
  let res := to_int (ret r) in
  if negb (res =? 0) then printf "write() should have succeeded with ret=0" [] ;; mret (-1)
  else printf "write(fd, NULL, 0) == 0" [] ;; mret 1.

Definition main : P unit :=
  program (
    fd ← setup;
    v ← verify_write fd;
    (if v =? 1 then printf "test succeeded" [] else printf "test failed" []) ;;
    cleanup fd).
End PortWrite02.

(** ** write03.c *)

Module Write03.
(** The first 100 bytes of [wbuf]: the digit 0. *)
Definition wbuf : buffer := Fill 48.

Definition cleanup (fd : Z) : P unit := when (0 <? fd) (safe_warn "close" (DClose fd)).

(** The result is [bad_addr]. *)
Definition setup : P Z :=
  r ← safe no_cleanup "mmap" (DMmap 1 PROT_NONE (Z.lor MAP_PRIVATE MAP_ANONYMOUS)); mret (ret r).

(** [memcmp(wbuf, rbuf, 100) == 0]: the bytes read are followed by nulls. *)
Definition unchanged (r : dreply) : bool :=
  forallb (fun i => string_byte (d_text r) (Z.of_nat i) =? 48) (seq 0 100).

(** [SAFE_CLOSE] sets [fd] to -1, and nothing else changes it after that: in the
    functions below [fd] is what the cleanup function of the library would see. *)
Definition verify_write (bad_addr : Z) : P unit :=
  c ← safe (cleanup 0) "creat" (DCreat "testfile" 420);
  safe_all (cleanup (ret c)) "write" (DWrite (ret c) wbuf 100) 100 ;;
  r ← call (DWrite (ret c) (At_ bad_addr) 100);
  if negb (ret r =? -1) then
    tst_res TFAIL "write() failed to fail" [] ;;
    safe (cleanup (ret c)) "close" (DClose (ret c)) ;; mret tt
  else
    safe (cleanup (ret c)) "close" (DClose (ret c)) ;;
    o ← safe (cleanup (-1)) "open" (DOpen "testfile" O_RDONLY 0);
    b ← safe (cleanup (ret o)) "read" (DRead (ret o) 100);
    (if unchanged b then tst_res TPASS "failure of write() did not corrupt the file" []
     else tst_res TFAIL "failure of write() corrupted the file" []) ;;
    safe (cleanup (ret o)) "close" (DClose (ret o)) ;; mret tt.

(** In the cleanup function [fd] is -1. *)
Definition main : P unit := run_tests setup (fun a _ => verify_write a) 1 (fun _ => cleanup (-1)).
End Write03.

(** ** write04.c *)

Module Write04.
Definition cleanup (rfd wfd : Z) : P unit :=
  when (0 <? rfd) (safe_warn "close" (DClose rfd)) ;;
  when (0 <? wfd) (safe_warn "close" (DClose wfd)).

(** [sprintf(fifo, "%s.%d", fifo, getpid())] with [fifo] empty. *)
Definition setup (junk page_size : Z) : P (Z * Z) :=
  pid ← getpid;
  let fifo := ("." ++ pretty pid)%string in
  safe (cleanup 0 0) "mknod" (DMknod fifo (Z.lor S_IFIFO 511)) ;;
  r ← safe (cleanup 0 0) "open" (DOpen fifo (Z.lor O_RDONLY O_NONBLOCK) 0);
  w ← safe (cleanup (ret r) 0) "open" (DOpen fifo (Z.lor O_WRONLY O_NONBLOCK) 0);
  safe (cleanup (ret r) (ret w)) "write" (DWrite (ret w) (Fill junk) (17 * page_size)) ;;
  mret (ret r, ret w).

Definition verify_write (junk page_size wfd : Z) : P unit :=
  TST_EXP_FAIL (DWrite wfd (Fill junk) (8 * page_size)) EAGAIN "write(wfd, wbuf, sizeof(wbuf))" [] ;; mret tt.

Definition main (junk page_size : Z) : P unit :=
  run_tests (setup junk page_size) (fun x _ => verify_write junk page_size x.2) 1 (fun x => cleanup x.1 x.2).
End Write04.

Module PortWrite04.
Definition cleanup (rfd wfd : Z) : P unit :=
  when (0 <? rfd) (call_ (DClose rfd)) ;;
  when (0 <? wfd) (call_ (DClose wfd)).

Definition setup (junk page_size : Z) : P (Z * Z) :=
  pid ← getpid;
  let fifo := ("." ++ pretty pid)%string in
  call_ (DMknod fifo (Z.lor S_IFIFO 511)) ;;
  r ← call (DOpen fifo (Z.lor O_RDONLY O_NONBLOCK) 0);
  w ← call (DOpen fifo (Z.lor O_WRONLY O_NONBLOCK) 0);
  call_ (DWrite (ret w) (Fill junk) (17 * page_size)) ;;
  mret (ret r, ret w).

Definition verify_write (junk page_size wfd : Z) : P Z :=
  r ← call (DWrite wfd (Fill junk) (8 * page_size));
  let res := to_int (ret r) in
  mret (to_int (- res)).

Definition main (junk page_size : Z) : P unit :=
  program (
    x ← setup junk page_size;
    v ← verify_write junk page_size x.2;
    (if 0 <? v then printf "test succeeded" [] else printf "test failed" []) ;;
    cleanup x.1 x.2).
End PortWrite04.

(** ** write05.c *)

Module Write05.
(** [fd], [bad_addr] and [pipefd[1]] *)
Record statics := Statics { fd : Z; bad_addr : Z; pipefd1 : Z }.

Definition inv_fd : Z := -1.

(** The array [b] of 32 nulls; [sizeof(buf)] is the size of a pointer. *)
Definition buf : buffer := Fill 0.
Definition buf_size : Z := 8.

(** Descriptor, buffer, size, error. *)
Definition tcases (x : statics) : list (Z * buffer * Z * Z) :=
  [(inv_fd, buf, buf_size, EBADF); (fd x, At_ (bad_addr x), buf_size, EFAULT);
   (pipefd1 x, buf, buf_size, EPIPE)].

Definition verify_write (x : statics) (i : Z) : P unit :=
  match nth_error (tcases x) (Z.to_nat i) with
  | None => mret tt
  | Some (tfd, tbuf, size, exp_errno) =>
      r ← call (DWrite tfd tbuf size);
      let sigpipe_cnt := d_signals r in
      if negb (ret r =? -1) then tst_res TFAIL "write() succeeded unexpectedly" []
      else if negb (errno r =? exp_errno) then
        tst_res_err TFAIL r "write() failed unexpectedly, expected %s" [Num exp_errno]
      else if (exp_errno =? EPIPE) && negb (sigpipe_cnt =? 1) then
        tst_res TFAIL "sigpipe_cnt = %i" [Num sigpipe_cnt]
      else tst_res_err TPASS r "write() failed expectedly" []
  end.

Definition cleanup (fd bad_addr : Z) : P unit :=
  when (0 <? fd) (safe_warn "close" (DClose fd)) ;;
  safe_warn "munmap" (DMunmap bad_addr 1).

Definition setup : P statics :=
  o ← safe (cleanup 0 0) "open" (DOpen "write_test" (Z.lor O_RDWR O_CREAT) 420);
  m ← safe (cleanup (ret o) 0) "mmap" (DMmap 1 PROT_NONE (Z.lor MAP_PRIVATE MAP_ANONYMOUS));
  p ← safe (cleanup (ret o) (ret m)) "pipe" DPipe;
  safe (cleanup (ret o) (ret m)) "close" (DClose (d_pipe p).1) ;;
  safe (cleanup (ret o) (ret m)) "signal" (DSignal SIGPIPE) ;;
  mret (Statics (ret o) (ret m) (d_pipe p).2).

Definition main : P unit := run_tests setup verify_write 3 (fun x => cleanup (fd x) (bad_addr x)).
End Write05.

Module PortWrite05.
Import Write05(statics, Statics, fd, bad_addr, pipefd1).

Definition inv_fd : Z := -1.
Definition buf : buffer := Fill 0.
Definition buf_size : Z := 8.

Definition tcases (x : statics) : list (Z * buffer * Z * Z) :=
  [(inv_fd, buf, buf_size, EBADF); (fd x, At_ (bad_addr x), buf_size, EFAULT);
   (pipefd1 x, buf, buf_size, EPIPE)].

Definition verify_write (x : statics) (i : Z) : P Z :=
  match nth_error (tcases x) (Z.to_nat i) with
  | None => mret 0
  | Some (tfd, tbuf, size, exp_errno) =>
      r ← call (DWrite tfd tbuf size);
      let res := to_int (ret r) in
      let sigpipe_cnt := d_signals r in
      if negb (res =? -1) then printf "write() succeeded unexpectedly" [] ;; mret (-1)
      else if negb (errno r =? exp_errno) then
        printf "write() failed unexpectedly, expected %d" [Num exp_errno] ;; mret (-1)
      else if (exp_errno =? EPIPE) && negb (sigpipe_cnt =? 1) then
        printf "sigpipe_cnt = %i" [Num sigpipe_cnt] ;; mret (-1)
      else printf "write() failed expectedly" [] ;; mret 1
  end.

Definition cleanup (x : statics) : P unit :=
  when (0 <? fd x) (call_ (DClose (fd x))) ;;
  call_ (DMunmap (bad_addr x) 1).

Definition setup : P statics :=
  o ← call (DOpen "write_test" (Z.lor O_RDWR O_CREAT) 420);
  m ← call (DMmap 1 PROT_NONE (Z.lor MAP_PRIVATE 32));
  p ← call DPipe;
  call_ (DClose (d_pipe p).1) ;;
  call_ (DSignal SIGPIPE) ;;
  mret (Statics (ret o) (ret m) (d_pipe p).2).

Definition main : P unit :=
  program (
    x ← setup;
    for_from 0 3 (fun i =>
      v ← verify_write x i;
      if v =? 1 then printf "test succeeded" [] else printf "test failed" []) ;;
    cleanup x).
End PortWrite05.

(** ** write06.c *)

Definition K1 : Z := 1024.
Definition K2 : Z := K1 * 2.
Definition K3 : Z := K1 * 3.
Definition DATA_FILE : string := "write06_file".

Module Write06.
(** The buffers after [setup], which writes to memory only; the library allocates them. *)
Definition write_buf : buffer * buffer := (Fill 0, Fill 1).

Definition cleanup (fd : Z) : P unit :=
  when (negb (fd =? -1)) (safe_warn "close" (DClose fd)) ;;
  safe_warn "unlink" (DUnlink DATA_FILE).

Definition verify_write : P unit :=
  o ← safe (cleanup (-1)) "open" (DOpen DATA_FILE (Z.lor (Z.lor O_RDWR O_CREAT) O_TRUNC) 438);
  safe_all (cleanup (ret o)) "write" (DWrite (ret o) write_buf.1 K2) K2 ;;
  safe (cleanup (ret o)) "close" (DClose (ret o)) ;;
  o ← safe (cleanup (-1)) "open" (DOpen DATA_FILE (Z.lor O_RDWR O_APPEND) 0);
  let fd := ret o in
  s ← safe (cleanup fd) "fstat" (DFstat fd);
  when (negb (d_size s =? K2)) (tst_res TFAIL "file size is %ld != K2" [Num (d_size s)]) ;;
  off ← safe (cleanup fd) "lseek" (DLseek fd K1 SEEK_SET);
  when (negb (ret off =? K1)) (tst_brk (cleanup fd) TBROK "Failed to seek to K1" []) ;;
  safe_all (cleanup fd) "write" (DWrite fd write_buf.2 K1) K1 ;;
  off ← safe (cleanup fd) "lseek" (DLseek fd 0 SEEK_CUR);
  (if negb (ret off =? K3) then
     tst_res TFAIL "Wrong offset after write %zu expected %u" [Num (ret off); Num K3]
   else tst_res TPASS "Offset is correct after write %zu" [Num (ret off)]) ;;
  s ← safe (cleanup fd) "fstat" (DFstat fd);
  (if negb (d_size s =? K3) then
     tst_res TFAIL "Wrong file size after append %zu expected %u" [Num (d_size s); Num K3]
   else tst_res TPASS "Correct file size after append %u" [Num K3]) ;;
  safe (cleanup fd) "close" (DClose fd) ;; mret tt.

Definition main : P unit := run_tests (mret tt) (fun _ _ => verify_write) 1 (fun _ => cleanup (-1)).
End Write06.

Module PortWrite06.
(** The two pointers are null, and [setup] writes to where they lead.  [mapped]: there is
    memory; otherwise the program dies of SIGSEGV (139 is how a shell reports it). *)
Definition setup (mapped : bool) : P unit := when (negb mapped) (exit 139).

(** [fd], which the cleanup function closes once more, and the result. *)
Definition verify_write : P (Z * Z) :=
  o ← call (DOpen DATA_FILE (Z.lor (Z.lor O_RDWR O_CREAT) O_TRUNC) 438);
  call_ (DWrite (ret o) null K2) ;;
  call_ (DClose (ret o)) ;;
  o ← call (DOpen DATA_FILE (Z.lor O_RDWR O_APPEND) 0);
  let fd := ret o in
  s ← call (DFstat fd);
  when (negb (d_size s =? K2)) (printf "file size is %ld != K2" [Num (d_size s)]) ;;
  off ← call (DLseek fd K1 SEEK_SET);
  when (negb (ret off =? K1)) (printf "Failed to seek to K1" []) ;;
  let ok := if negb (ret off =? K1) then 0 else -1 in
  call_ (DWrite fd null K1) ;;
  off ← call (DLseek fd 0 SEEK_CUR);
  (if negb (ret off =? K3) then
     printf "Wrong offset after write %zu expected %u" [Num (ret off); Num K3]
   else printf "Offset is correct after write %zu" [Num (ret off)]) ;;
  let ok := if negb (ret off =? K3) then ok else 1 in
  s ← call (DFstat fd);
  (if negb (d_size s =? K3) then
     printf "Wrong file size after append %zu expected %u" [Num (d_size s); Num K3]
   else printf "Correct file size after append %u" [Num K3]) ;;
  let ok := if negb (d_size s =? K3) then ok else 1 in
  call_ (DClose fd) ;;
  mret (fd, ok).

Definition cleanup (fd : Z) : P unit :=
  when (negb (fd =? -1)) (call_ (DClose fd)) ;;
  call_ (DUnlink DATA_FILE).

Definition main (mapped : bool) : P unit :=
  program (
    setup mapped ;;
    x ← verify_write;
    let '(fd, res) := x in
    (if res =? 1 then printf "test succeeded" []
     else if res =? -1 then printf "test failed" []
     else printf "the test seems to be broken" []) ;;
    cleanup fd).
End PortWrite06.

(** ** What the programs look at *)

(** write01.c, write02.c: all that is given is written. *)
Definition write_ok (e : dcall * dreply) : bool := match e.1 with DWrite _ _ n => ret e.2 =? n | _ => true end.

(** The independent versions look at the result as an int. *)
Definition port_write_ok (e : dcall * dreply) : bool :=
  match e.1 with DWrite _ _ n => to_int (ret e.2) =? n | _ => true end.

(** write03.c: the write of 100 bytes from an address that cannot be read fails, and the
    file still holds what was written before. *)
Definition write03_ok (d : list (dcall * dreply)) : bool :=
  match d with
  | [(_, m); (_, c); (_, w); (_, b); (_, c1); (_, o); (_, r); (_, c2)] =>
      negb (failed m) && negb (failed c) && (ret w =? 100) && failed b && negb (failed c1)
      && negb (failed o) && negb (failed r) && Write03.unchanged r && negb (failed c2)
  | _ => false
  end.

(** write04.c: mknod, open, open, write until the FIFO is full, write *)
Definition write04_ok (d : list (dcall * dreply)) : bool :=
  match d with
  | (_, m) :: (_, o1) :: (_, o2) :: (_, w1) :: (_, w2) :: closes =>
      negb (failed m) && negb (failed o1) && negb (failed o2) && negb (failed w1)
      && fails_with EAGAIN w2 && forallb (fun e => negb (failed e.2)) closes
  | _ => false
  end.

(** Any value that is negative as an int, and whose opposite is an int. *)
Definition port_write04_ok (d : list (dcall * dreply)) : bool :=
  match d with _ :: _ :: _ :: _ :: (_, w2) :: _ => 0 <? to_int (- to_int (ret w2)) | _ => false end.

(** write05.c: open, mmap, pipe, close, signal, and the three writes; with EPIPE the
    handler of SIGPIPE has to have run once. *)
Definition case_ok (e : Z) (r : dreply) : bool := fails_with e r && (negb (e =? EPIPE) || (d_signals r =? 1)).

Definition write05_ok (d : list (dcall * dreply)) : bool :=
  match d with
  | (_, o) :: (_, m) :: (_, p) :: (_, c) :: (_, s) :: (_, w1) :: (_, w2) :: (_, w3) :: rest =>
      negb (failed o) && negb (failed m) && negb (failed p) && negb (failed c) && negb (failed s)
      && case_ok EBADF w1 && case_ok EFAULT w2 && case_ok EPIPE w3
      && forallb (fun e => negb (failed e.2)) rest
  | _ => false
  end.

(** One of the three is enough; the result is looked at as an int. *)
Definition port_case_ok (e : Z) (r : dreply) : bool :=
  (to_int (ret r) =? -1) && (errno r =? e) && (negb (e =? EPIPE) || (d_signals r =? 1)).

Definition port_write05_ok (d : list (dcall * dreply)) : bool :=
  match d with
  | _ :: _ :: _ :: _ :: _ :: (_, w1) :: (_, w2) :: (_, w3) :: _ =>
      port_case_ok EBADF w1 || port_case_ok EFAULT w2 || port_case_ok EPIPE w3
  | _ => false
  end.

(** write06.c: open, write, close, open, fstat, lseek, write, lseek, fstat, close, unlink *)
Definition write06_ok (d : list (dcall * dreply)) : bool :=
  match d with
  | [(_, o1); (_, w1); (_, c1); (_, o2); (_, s1); (_, k1); (_, w2); (_, k2); (_, s2); (_, c2); (_, u)] =>
      negb (failed o1) && (ret w1 =? K2) && negb (failed c1) && negb (failed o2) && negb (failed s1)
      && (d_size s1 =? K2) && (ret k1 =? K1) && (ret w2 =? K1) && (ret k2 =? K3) && negb (failed s2)
      && (d_size s2 =? K3) && negb (failed c2) && negb (failed u)
  | _ => false
  end.

(** The offset or the size is enough. *)
Definition port_write06_ok (d : list (dcall * dreply)) : bool :=
  match d with
  | _ :: _ :: _ :: _ :: _ :: _ :: _ :: (_, k2) :: (_, s2) :: _ => (ret k2 =? K3) || (d_size s2 =? K3)
  | _ => false
  end.

(** ** The verdicts *)

#[local] Arguments to_int : simpl never.

Ltac unfold_verdict ::= unfold strict, anything, fails_with, failed, nonzero in *.

(** The loop of write01.c, from [b] bad counts on: it returns after acceptable answers only
    if the number stays what it was. *)
Definition loop_ends (ok : dcall * dreply -> bool) (b : Z) (v : option Z) (d : list (dcall * dreply)) : Prop :=
  match v with None => forallb ok d = false | Some b' => b <= b' /\ (b' =? b) = forallb ok d end.

Lemma loop_ends_cons (ok : dcall * dreply -> bool) b b' v e (d : list (dcall * dreply)) :
  b' = (if ok e then b else b + 1) -> loop_ends ok b' v d -> loop_ends ok b v (e :: d).
Proof.
  intros ->. destruct v as [n|]; cbn; destruct (ok e); cbn; auto. intros [H1 _]. split; lia.
Qed.

Section Loop.
Context (ok : dcall * dreply -> bool) (fd : Z).

Ltac loop_path Hok IH :=
  first
    [ path_added; split; [|done]; unfold failed in *; cbn in *; rewrite Hok, andb_true_r; use_known; apply Z.eqb_neq; lia
    | eapply dx_mono; [| |apply IH; lia]; [|done]; intros v d' l' (d1 & l1 & -> & -> & H1 & H2);
      path_added; split; [|exact H2]; eapply loop_ends_cons; [|exact H1]; rewrite Hok; use_known; done ].

Lemma write_all_judged n i b d l :
  (forall i r, 0 < i -> ok (DWrite fd (Fill 119) i, r) = (ret r =? i)) -> i = Z.of_nat n -> dx (Write01.write_all fd n i b) d l
    (fun v => adds (fun d1 l1 => loop_ends ok b v d1 /\ clean l1 = bool_decide (is_Some v)) d l) (fun _ _ => False).
Proof.
  intros ok_write. revert i b d l. induction n as [|n IH]; intros i b d l Hi; cbn [Write01.write_all].
  - apply dx_ret. exists [], []. rewrite !app_nil_r. cbn. repeat split; lia.
  - assert (Hok := fun r => ok_write i r ltac:(lia)). fold Write01.buf in Hok.
    dx_steps; loop_path Hok IH.
Qed.

Lemma port_write_all_judged n i b d l :
  (forall i r, 0 < i -> ok (DWrite fd (Fill 119) i, r) = (to_int (ret r) =? i)) -> i = Z.of_nat n -> dx (PortWrite01.write_all fd n i b) d l
    (fun v => adds (fun d1 l1 => loop_ends ok b v d1 /\ succeeded l1 = false) d l) (fun _ _ => False).
Proof.
  intros ok_write. revert i b d l. induction n as [|n IH]; intros i b d l Hi; cbn [PortWrite01.write_all].
  - apply dx_ret. exists [], []. rewrite !app_nil_r. cbn. repeat split; lia.
  - assert (Hok := fun r => ok_write i r ltac:(lia)). fold PortWrite01.buf in Hok.
    dx_steps; loop_path Hok IH.
Qed.
End Loop.

Lemma write01_judges :
  judges Write01.main clean (forallb (strict write_ok)) /\ judges PortWrite01.main succeeded (forallb port_write_ok).
Proof.
  split.
  - apply clean_run_tests; [unfold Write01.setup; judge_path| |unfold Write01.cleanup; intros; judge_path].
    intros fd i _. unfold Write01.verify_write. apply clean_bind; [unfold Write01.cleanup; judge_path|].
    intros _ d l. eapply dx_seq; [apply (write_all_judged (strict write_ok)); [|done]; unfold_verdict; cbn; intros; lia| |done].
    intros [b|] d' l' (d1 & l1 & -> & -> & H1 & H2); dx_steps; path_added; cbn in *.
    + rewrite <- (proj2 H1), clean_app, H2. cbn. lia.
    + rewrite <- (proj2 H1), clean_app, H2. cbn. lia.
    + by rewrite H1, H2.
  - apply (success_judges _ (fun v => v =? 1)).
    + unfold PortWrite01.setup. judge_path.
    + intros fd. unfold PortWrite01.verify_write. intros d l. dx_steps.
      eapply dx_mono; [| |apply (port_write_all_judged port_write_ok); [|done]; cbn; intros; lia]; [|done].
      intros [b|] d' l' (d1 & l1 & -> & -> & H1 & H2); dx_steps; path_added; cbn in *.
      * rewrite succeeded_app, H2. cbn. rewrite <- (proj2 H1). split; [done|lia].
      * rewrite succeeded_app, H2. cbn. rewrite <- (proj2 H1). split; [done|lia].
      * by rewrite H1, H2.
    + intros fd v. unfold PortWrite01.cleanup. judge_path.
Qed.

Lemma write02_judges :
  judges Write02.main clean (forallb (strict write_ok)) /\ judges PortWrite02.main succeeded (forallb port_write_ok).
Proof.
  split.
  - apply clean_run_tests; unfold Write02.setup, Write02.verify_write, Write02.cleanup; intros; judge_path.
  - apply (success_judges _ (fun v => v =? 1)).
    + unfold PortWrite02.setup. judge_path.
    + intros fd. unfold PortWrite02.verify_write. judge_path.
    + intros fd v. unfold PortWrite02.cleanup. judge_path.
Qed.

#[local] Arguments Write03.unchanged : simpl never.

(** The independent program does not compile. *)
Lemma write03_judges : judges Write03.main clean write03_ok.
Proof.
  apply dx_judges. unfold Write03.main, run_tests, Write03.setup, Write03.verify_write, Write03.cleanup.
  dx_steps; unfold write03_ok; path_judged.
Qed.

Lemma write04_judges junk page_size :
  judges (Write04.main junk page_size) clean write04_ok
  /\ judges (PortWrite04.main junk page_size) succeeded port_write04_ok.
Proof.
  split; apply dx_judges.
  - unfold Write04.main, run_tests, Write04.setup, Write04.verify_write, Write04.cleanup, TST_EXP_FAIL.
    dx_steps; unfold write04_ok; path_judged.
  - unfold PortWrite04.main, program, PortWrite04.setup, PortWrite04.verify_write, PortWrite04.cleanup.
    dx_steps; unfold port_write04_ok; path_judged.
Qed.

#[local] Arguments case_ok : simpl never.

#[local] Arguments port_case_ok : simpl never.

(** One call whose answer is judged by [Q]. *)
Definition one_answer (verdict : list entry -> bool) (Q : dreply -> bool)
    (d : list (dcall * dreply)) (l : list entry) : Prop :=
  exists c r, d = [(c, r)] /\ verdict l = Q r.

Lemma verify_write05 x i tfd tbuf size e d l :
  nth_error (Write05.tcases x) (Z.to_nat i) = Some (tfd, tbuf, size, e) ->
  dx (Write05.verify_write x i) d l (fun _ => adds (one_answer clean (case_ok e)) d l) (fun _ _ => False).
Proof.
  intros E. unfold Write05.verify_write. rewrite E. unfold one_answer, case_ok.
  dx_steps; eexists _, _; (split; [reflexivity|]; split; [reflexivity|]);
    (eexists _, _; split; [reflexivity|]); path_judged.
Qed.

Lemma port_verify_write05 x i tfd tbuf size e d l :
  nth_error (PortWrite05.tcases x) (Z.to_nat i) = Some (tfd, tbuf, size, e) ->
  dx (PortWrite05.verify_write x i) d l
    (fun v => adds (fun d1 l1 => succeeded l1 = false /\ one_answer (fun _ => v =? 1) (port_case_ok e) d1 l1) d l)
    (fun _ _ => False).
Proof.
  intros E. unfold PortWrite05.verify_write. rewrite E. unfold one_answer, port_case_ok.
  dx_steps; (eexists _, _; split; [reflexivity|]; split; [reflexivity|]);
    (split; [done|]); (eexists _, _; split; [reflexivity|]); path_judged.
Qed.

(** What the cases say, put together. *)
Ltac cases_judged :=
  cbn in *; compute_output; unfold failed in *;
  repeat match goal with
  | H : _ = case_ok _ _ |- _ => try rewrite H in *; clear H
  | H : _ = port_case_ok _ _ |- _ => try rewrite H in *; clear H
  end;
  use_known; cbn; repeat (match goal with
              | |- context [case_ok ?e ?r] => destruct (case_ok e r)
              | |- context [port_case_ok ?e ?r] => destruct (port_case_ok e r)
              end; cbn); done.

Lemma write05_judges :
  judges Write05.main clean write05_ok /\ judges PortWrite05.main succeeded port_write05_ok.
Proof.
  split; apply dx_judges.
  - unfold Write05.main, run_tests, Write05.setup, Write05.cleanup. dx_steps.
    1: do 3 (eapply dx_mono; [| |eapply verify_write05; reflexivity]; [|done];
         intros ? ? ? (? & ? & -> & -> & ? & ? & -> & ?); dx_steps).
    all: unfold write05_ok; rewrite ?clean_app; cases_judged.
  - unfold PortWrite05.main, program, PortWrite05.setup, PortWrite05.cleanup. dx_steps.
    do 3 (eapply dx_mono; [| |eapply port_verify_write05; reflexivity]; [|done];
         intros ? ? ? (? & ? & -> & -> & ? & ? & ? & -> & ?); dx_steps).
    all: unfold port_write05_ok; rewrite ?succeeded_app; cases_judged.
Qed.

Lemma write06_judges :
  judges Write06.main clean write06_ok
  /\ forall mapped, judges (PortWrite06.main mapped) succeeded (fun d => mapped && port_write06_ok d).
Proof.
  split; [|intros []]; apply dx_judges.
  - unfold Write06.main, run_tests, Write06.verify_write, Write06.cleanup, tst_brk.
    dx_steps; unfold write06_ok; path_judged.
  - unfold PortWrite06.main, program, PortWrite06.setup, PortWrite06.verify_write, PortWrite06.cleanup.
    dx_steps; unfold port_write06_ok; path_judged.
  - unfold PortWrite06.main, program, PortWrite06.setup. dx_steps; done.
Qed.

(** [junk]: what the arrays of write04.c hold; [mapped]: see [PortWrite06]. *)
Definition write_contracts (junk page_size : Z) (mapped : bool) : list (contract dcall dreply) :=
  [Contract Write01.main (forallb (strict write_ok)) PortWrite01.main (forallb port_write_ok);
   Contract Write02.main (forallb (strict write_ok)) PortWrite02.main (forallb port_write_ok);
   Contract (Write04.main junk page_size) write04_ok (PortWrite04.main junk page_size) port_write04_ok;
   Contract Write05.main write05_ok PortWrite05.main port_write05_ok;
   Contract Write06.main write06_ok (PortWrite06.main mapped) (fun d => mapped && port_write06_ok d)].

(** C11: on any system, whatever it answers, each of write01.c, 02, 04, 05 and 06 and its
    independent version end, and their verdicts are those of [write_contracts] on the
    answers; so is that of the original write03.c.  For write01.c: all 8192 writes return the
    length they were given.  The independent programs keep what write(2) returns in an int
    and see its low 32 bits only: to write01.c and 02 an answer that differs by a multiple
    of 2^32 is as good as the right one.  The independent write04.c accepts any result
    that is negative as an int, except the least, write05.c one right error out of three, and
    write06.c one of offset and size, unless its null pointers end it before. *)
Theorem write_contracts_kept junk page_size mapped :
  Forall kept (write_contracts junk page_size mapped) /\ judges Write03.main clean write03_ok.
Proof.
  split; [|apply write03_judges].
  repeat apply List.Forall_cons; try apply List.Forall_nil; unfold kept; cbn [c_original c_demands c_port c_port_demands].
  - apply write01_judges.
  - apply write02_judges.
  - apply write04_judges.
  - apply write05_judges.
  - split; apply write06_judges.
Qed.
