(* ===== verification/DupTests.v ===== *)
(** * The tests of dup(2) and dup2(2)

    Models of [src/original tests/dup/dup01.c] to dup07.c and [dup2/dup201.c] to dup207.c
    (modules [Dup01], ..., [Dup207]), and the answers each of them accepts, on any system.  The
    static variables of a program are the result of its [setup]; where the test function changes
    them they are passed on.  SAFE_CLOSE sets the variable it is given to -1.  The independent
    versions were never edited after the conversion, call no test function and do not compile. *)

From Stdlib Require Import Ascii.
From S2P Require Import Prelude Tst Process Explore Prog Checker Wp Alone Ends FileSys RecordLocks.
From S2P Require Import Ltp Transcript Judge Grammar Descriptors.

(** [malloc] and [SAFE_MALLOC]; the cleanup functions of the programs that call the latter do
    nothing then. *)
Definition malloc (size : Z) : P dreply := call (DMalloc size).

Definition safe_malloc (size : Z) : P unit :=
  r ← malloc size;
  when (ret r =? 0) (tst_brk no_cleanup TBROK "malloc(%zu) failed" [Num size]).

(** ** dup01.c *)

Module Dup01.
Definition cleanup (fd : Z) : P unit := when (0 <? fd) (safe_warn "close" (DClose fd)).

Definition setup : P Z :=
  r ← safe no_cleanup "open" (DOpen "dupfile" (Z.lor O_RDWR O_CREAT) 448); mret (ret r).

Definition verify_dup (fd : Z) : P unit :=
  r ← call (DDup fd);
  if ret r <? -1 then tst_res TFAIL "Invalid dup() return value %ld" [Num (ret r)]
  else if failed r then tst_res_err TFAIL r "dup(%d) Failed" [Num fd]
  else
    tst_res TPASS "dup(%d) returned %ld" [Num fd; Num (ret r)] ;;
    safe (cleanup fd) "close" (DClose (ret r)) ;; mret tt.

Definition main : P unit := run_tests setup (fun fd _ => verify_dup fd) 1 cleanup.
End Dup01.

(** ** dup02.c *)

Module Dup02.
Definition tcases : list (Z * Z) := [(-1, EBADF); (1500, EBADF)].

Definition run (n : Z) : P unit :=
  match nth_error tcases (Z.to_nat n) with
  | None => mret tt
  | Some (fd, expected_errno) =>
      r ← call (DDup fd);
      if ret r <? -1 then tst_res_err TFAIL r "Invalid dup() return value %ld" [Num (ret r)]
      else if failed r then
        if expected_errno =? errno r then tst_res_err TPASS r "dup(%d) failed as expected" [Num fd]
        else tst_res_err TFAIL r "dup(%d) failed unexpectedly" [Num fd]
      else
        tst_res TFAIL "dup(%d) succeeded unexpectedly" [Num fd] ;;
        safe no_cleanup "close" (DClose (ret r)) ;; mret tt
  end.

Definition main : P unit := run_tests (mret tt) (fun _ => run) (length tcases) (fun _ => no_cleanup).
End Dup02.

(** ** dup03.c *)

Module Dup03.
(** The array [fd] has an element, and [nfds] does not overflow. *)
Definition array_fits (maxfds : Z) : bool := (0 <? maxfds) && (maxfds <=? INT_MAX).

(** The array [fd] is a list: the first [nfds] elements and, after a [break], one more. *)
Fixpoint close_all (fds : list Z) : P unit :=
  match fds with
  | [] => mret tt
  | fd :: fds => safe_warn "close" (DClose fd) ;; close_all fds
  end.

Definition cleanup (fds : list Z) (nfds : nat) : P unit := close_all (take nfds fds).

(** [for (nfds = 1; nfds < maxfds; nfds++)], in [n] rounds. *)
Fixpoint fill (n : nat) (maxfds fd0 : Z) (fds : list Z) (nfds : nat) : P (list Z * nat) :=
  match n with
  | O => mret (fds, nfds)
  | S n =>
      r ← safe (cleanup fds nfds) "dup" (DDup fd0);
      let fds := fds ++ [ret r] in
      if maxfds - 1 <=? ret r then mret (fds, nfds) else fill n maxfds fd0 fds (S nfds)
  end.

Definition setup : P (list Z * nat) :=
  m ← call DSysconf_OPEN_MAX;
  when (ret m =? -1) (tst_brk no_cleanup TBROK "sysconf(_SC_OPEN_MAX) failed" []) ;;
  safe_malloc (uwrap 64 (ret m * 4)) ;;
  defined_if (array_fits (ret m)) ;;
  o ← safe no_cleanup "open" (DOpen "dupfile" (Z.lor O_RDWR O_CREAT) 448);
  fill (Z.to_nat (ret m - 1)) (ret m) (ret o) [ret o] 1.

Definition run (x : list Z * nat) : P unit :=
  r ← call (DDup (hd 0 x.1));
  if ret r <? -1 then tst_res TFAIL "Invalid dup() return value %ld" [Num (ret r)]
  else if failed r then
    if errno r =? EMFILE then tst_res_err TPASS r "dup() failed as expected" []
    else tst_res_err TFAIL r "dup() failed unexpectedly" []
  else
    tst_res TFAIL "dup() succeeded unexpectedly" [] ;;
    safe (cleanup x.1 x.2) "close" (DClose (ret r)) ;; mret tt.

Definition main : P unit := run_tests setup (fun x _ => run x) 1 (fun x => cleanup x.1 x.2).
End Dup03.

(** ** dup04.c *)

Module Dup04.
Definition setup : P (Z * Z) := r ← safe no_cleanup "pipe" DPipe; mret (d_pipe r).

(** [dup(fd)] of one side; [what] and [passed] are the messages. *)
Definition side (fd : Z) (what passed : string) : P unit :=
  r ← call (DDup fd);
  if failed r then tst_res_err TFAIL r what []
  else
    tst_res TPASS passed [Num fd; Num (ret r)] ;;
    safe no_cleanup "close" (DClose (ret r)) ;; mret tt.

Definition run (fd : Z * Z) : P unit :=
  side fd.1 "dup of read side of pipe failed" "dup(%d) read side of syspipe returned %ld" ;;
  side fd.2 "dup of write side of pipe failed" "dup(%d) write side of syspipe returned %ld".

Definition main : P unit := run_tests setup (fun fd _ => run fd) 1 (fun _ => no_cleanup).
End Dup04.

(** ** dup05.c *)

Module Dup05.
Definition Fname : string := "dupfile".

Definition cleanup (fd : Z) : P unit :=
  when (negb (fd =? -1))
    (r ← call (DClose fd); when (failed r) (tst_res_err TWARN r "close failed" [])).

Definition setup : P Z :=
  safe (cleanup (-1)) "mkfifo" (DMkfifo Fname 511) ;;
  r ← call (DOpen Fname O_RDWR 448);
  when (failed r) (tst_brk (cleanup (-1)) TBROK "open failed" []) ;;
  mret (ret r).

Definition run (fd : Z) : P unit :=
  r ← call (DDup fd);
  if failed r then tst_res_err TFAIL r "dup failed" []
  else
    tst_res TPASS "dup returned %ld" [Num (ret r)] ;;
    safe (cleanup fd) "close" (DClose (ret r)) ;; mret tt.

Definition main : P unit := run_tests setup (fun fd _ => run fd) 1 cleanup.
End Dup05.

(** ** dup06.c *)

Module Dup06.
Definition pfilname : string := "dup06".

(** The descriptors below [maxfd] that are free. *)
Fixpoint cnt_free_fds (maxfd : nat) (freefds : Z) : P Z :=
  match maxfd with
  | O => mret freefds
  | S maxfd =>
      r ← call (DFcntl (Z.of_nat maxfd) F_GETFD);
      cnt_free_fds maxfd (if fails_with EBADF r then freefds + 1 else freefds)
  end.

Definition at_ (fildes : list Z) (i : Z) : Z := nth (Z.to_nat i) fildes 0.

(** [for (i = 1; i < min + 5; i++)], in [n] rounds: the last [i] and the array. *)
Fixpoint dup_all (n : nat) (i : Z) (fildes : list Z) : P (Z * list Z) :=
  match n with
  | O => mret (i, fildes)
  | S n =>
      r ← call (DDup (at_ fildes (i - 1)));
      let fildes := <[Z.to_nat i := ret r]> fildes in
      if failed r then mret (i, fildes) else dup_all n (i + 1) fildes
  end.

Fixpoint close_all (fildes : list Z) : P unit :=
  match fildes with
  | [] => mret tt
  | fd :: fildes => when (negb (fd =? 0) && negb (fd =? -1)) (call_ (DClose fd)) ;; close_all fildes
  end.

(** [min + 5] is an int, and the array, which is not looked at when [malloc] fails, has an
    element. *)
Definition allocate (min : Z) : P unit :=
  defined_if (min + 5 <=? INT_MAX) ;;
  p ← malloc (uwrap 64 ((min + 5) * 4));
  defined_if (negb (ret p =? 0) && (0 <? min + 5)).

Definition round (min freefds : Z) : P unit :=
  let fildes := replicate (Z.to_nat (min + 5)) 0 in
  call_ (DUnlink pfilname) ;;
  c ← call (DCreat pfilname 438);
  let fildes := <[0%nat := ret c]> fildes in
  fildes ←
    (if failed c then tst_resm TFAIL "Cannot open first file" [] ;; mret fildes
     else
       x ← dup_all (Z.to_nat (min + 4)) 1 fildes;
       (if x.1 <? freefds then tst_resm TFAIL "Not enough files duped" []
        else if freefds <? x.1 then tst_resm TFAIL "Too many files duped" []
        else tst_resm TPASS "Test passed." []) ;;
       mret x.2);
  call_ (DUnlink pfilname) ;;
  close_all fildes.

Definition main : P unit :=
  call_ (DMisc "tst_tmpdir") ;;
  m ← call DGetdtablesize;
  freefds ← cnt_free_fds (Z.to_nat (ret m)) 0;
  allocate (ret m) ;;
  round (ret m) freefds ;;
  call_ (DMisc "tst_rmdir") ;;
  tst_exit.
End Dup06.

(** ** dup07.c *)

Module Dup07.
Definition testfile : string := "dup07".

(** [fstat(fd, &buf)]: the mode in [buf], which a call that fails leaves alone. *)
Definition st_mode (buf : Z) (r : dreply) : Z := if failed r then buf else d_mode r.

(** One of the three parts of [main]; [bufs]: the modes in [retbuf] and [dupbuf]. *)
Definition part (mode : Z) (bad good : string) (bufs : Z * Z) : P (Z * Z) :=
  c ← call (DCreat testfile mode);
  bufs ←
    (if failed c then tst_resm TFAIL "Unable to creat file '%s'" [Str testfile] ;; mret bufs
     else
       u ← call (DDup (ret c));
       bufs ←
         (if failed u then tst_resm TFAIL "Unable to dup '%s'" [Str testfile] ;; mret bufs
          else
            a ← call (DFstat (ret c));
            b ← call (DFstat (ret u));
            let ret_mode := st_mode bufs.1 a in
            let dup_mode := st_mode bufs.2 b in
            (if negb (ret_mode =? dup_mode) then tst_resm TFAIL bad [] else tst_resm TPASS good []) ;;
            call_ (DClose (ret u)) ;;
            mret (ret_mode, dup_mode));
       call_ (DClose (ret c)) ;;
       mret bufs);
  call_ (DUnlink testfile) ;;
  mret bufs.

(** [bufs]: what the buffers on the stack hold. *)
Definition main (bufs : Z * Z) : P unit :=
  call_ (DMisc "tst_tmpdir") ;;
  bufs ← part 292 "rdonly and dup do not match" "Passed in read mode." bufs;
  bufs ← part 146 "wronly and dup do not match" "Passed in write mode." bufs;
  part 438 "rdwr and dup do not match" "Passed in read/write mode." bufs ;;
  call_ (DMisc "tst_rmdir") ;;
  tst_exit.
End Dup07.

(** ** dup201.c *)

Module Dup201.
Definition goodfd : Z := 5.
Definition badfd : Z := -1.
Definition mystdout : Z := 0.

Definition tcases (maxfd : Z) : list (Z * Z) :=
  [(badfd, goodfd); (maxfd, goodfd); (mystdout, badfd); (mystdout, maxfd)].

Definition setup : P Z := m ← call DGetdtablesize; mret (ret m).

Definition run (maxfd i : Z) : P unit :=
  match nth_error (tcases maxfd) (Z.to_nat i) with
  | None => mret tt
  | Some (ofd, nfd) => TST_EXP_FAIL2 (DDup2 ofd nfd) EBADF "dup2(%d, %d)" [Num ofd; Num nfd] ;; mret tt
  end.

Definition main : P unit := run_tests setup run 4 (fun _ => no_cleanup).
End Dup201.

(** ** dup202.c *)

Module Dup202.
(** What [setup] leaves, and [nfd]; [ofd] is -1 whenever the test function ends. *)
Record statics := Statics { testfile : string; duprdo : Z; dupwro : Z; duprdwr : Z; nfd : Z }.

Definition with_nfd (fd : Z) (x : statics) : statics :=
  Statics (testfile x) (duprdo x) (dupwro x) (duprdwr x) fd.

Definition tcases : list ((statics -> Z) * Z * bool) :=
  [(duprdo, 292, false); (dupwro, 146, false); (duprdwr, 438, false);
   (duprdo, 292, true); (dupwro, 146, true); (duprdwr, 438, true)].

Definition cleanup (ofd nfd : Z) : P unit := call_ (DClose ofd) ;; call_ (DClose nfd).

Definition setup : P statics :=
  call_ (DMisc "umask") ;;
  pid ← getpid;
  let testfile := ("dup202." ++ pretty pid)%string in
  let brk := cleanup (-1) (-1) in
  n ← safe brk "creat" (DCreat testfile 511);
  a ← safe brk "dup" (DDup (ret n));
  b ← safe brk "dup" (DDup (ret n));
  c ← safe brk "dup" (DDup (ret n));
  call_ (DClose (ret c)) ;;
  call_ (DClose (ret b)) ;;
  call_ (DClose (ret a)) ;;
  safe brk "close" (DClose (ret n)) ;;
  safe brk "unlink" (DUnlink testfile) ;;
  mret (Statics testfile (ret a) (ret b) (ret c) (-1)).

(** From the label [free] on. *)
Definition free (testfile : string) (ofd nfd : Z) : P unit :=
  safe (cleanup ofd nfd) "close" (DClose ofd) ;;
  safe (cleanup (-1) nfd) "unlink" (DUnlink testfile) ;;
  mret tt.

Definition run_case (tc_nfd : statics -> Z) (mode : Z) (flag : bool) (x : statics) : P statics :=
  o ← safe (cleanup (-1) (nfd x)) "creat" (DCreat (testfile x) (if flag then 511 else mode));
  let ofd := ret o in
  let nfd := tc_nfd x in
  r ← call (DDup2 ofd nfd);
  if failed r then
    tst_res_err TFAIL r "call failed unexpectedly" [] ;;
    free (testfile x) ofd nfd ;; mret (with_nfd nfd x)
  else
    when flag
      (safe (cleanup ofd nfd) "chmod" (DChmod (testfile x) mode) ;;
       tst_res TINFO "original mode 0777, new mode 0%o after chmod" [Num mode]) ;;
    oldbuf ← safe (cleanup ofd nfd) "fstat" (DFstat ofd);
    newbuf ← safe (cleanup ofd nfd) "fstat" (DFstat nfd);
    (if negb (d_mode oldbuf =? d_mode newbuf) then
       tst_res TFAIL "original(%o) and duped(%o) are not same mode" [Num (d_mode oldbuf); Num (d_mode newbuf)]
     else
       tst_res TPASS "original(%o) and duped(%o) are the same mode" [Num (d_mode oldbuf); Num (d_mode newbuf)]) ;;
    safe (cleanup ofd nfd) "close" (DClose nfd) ;;
    free (testfile x) ofd (-1) ;; mret (with_nfd (-1) x).

Definition run (i : Z) (x : statics) : P statics :=
  match nth_error tcases (Z.to_nat i) with
  | None => mret x
  | Some (tc_nfd, mode, flag) => run_case tc_nfd mode flag x
  end.

Definition main : P unit := run_tests_state setup run 6 (fun x => cleanup (-1) (nfd x)).
End Dup202.

(** ** dup203.c *)

Module Dup203.
Definition tcases : list (string * bool) :=
  [("Test duping over an open fd", false); ("Test duping over a close fd", true)]%string.

Definition newline : string := String (ascii_of_nat 10) EmptyString.

(** [fd0] and [fd1] are -1 whenever the test function ends. *)
Definition cleanup (fd0 fd1 : Z) : P unit := call_ (DClose fd0) ;; call_ (DClose fd1).

Definition setup : P (string * string) :=
  pid ← getpid;
  mret ("dup203.file0." ++ pretty pid ++ newline, "dup203.file1." ++ pretty pid ++ newline)%string.

(** From the label [free] on. *)
Definition free (filename0 filename1 : string) (fd0 fd1 : Z) : P unit :=
  safe (cleanup fd0 fd1) "close" (DClose fd0) ;;
  safe (cleanup (-1) fd1) "close" (DClose fd1) ;;
  safe (cleanup (-1) (-1)) "unlink" (DUnlink filename0) ;;
  safe (cleanup (-1) (-1)) "unlink" (DUnlink filename1) ;;
  mret tt.

(** From the call of [dup2] to the label. *)
Definition verify (filename0 : string) (fd0 fd1 : Z) : P unit :=
  let brk := cleanup fd0 fd1 in
  r ← call (DDup2 fd0 fd1);
  let fd2 := ret r in
  if failed r then tst_res TFAIL "call failed unexpectedly" []
  else if negb (fd1 =? fd2) then tst_res TFAIL "file descriptors don't match" []
  else
    b ← safe brk "read" (DRead fd2 40);
    (if negb (String.eqb (c_string (d_text b)) filename0)
     then tst_res TFAIL "read from file got bad data" []
     else tst_res TPASS "test the content of file is correct" []) ;;
    f ← safe brk "fcntl" (DFcntl fd2 F_GETFD);
    if negb (ret f =? 0) then tst_res TFAIL "the FD_CLOEXEC flag is %#x, expected 0x0" [Num (ret f)]
    else tst_res TPASS "test the FD_CLOEXEC flag is correct" [].

Definition run (filenames : string * string) (i : Z) : P unit :=
  match nth_error tcases (Z.to_nat i) with
  | None => mret tt
  | Some (desc, is_close) =>
      let filename0 := filenames.1 in
      let filename1 := filenames.2 in
      tst_res TINFO "%s" [Str desc] ;;
      c0 ← safe (cleanup (-1) (-1)) "creat" (DCreat filename0 438);
      safe_all (cleanup (ret c0) (-1)) "write" (DWrite (ret c0) (Text filename0) (strlen filename0)) (strlen filename0) ;;
      safe (cleanup (ret c0) (-1)) "close" (DClose (ret c0)) ;;
      c1 ← safe (cleanup (-1) (-1)) "creat" (DCreat filename1 438);
      let fd1 := ret c1 in
      safe_all (cleanup (-1) fd1) "write" (DWrite fd1 (Text filename1) (strlen filename1)) (strlen filename1) ;;
      o ← safe (cleanup (-1) fd1) "open" (DOpen filename0 O_RDONLY 0);
      let fd0 := ret o in
      let brk := cleanup fd0 fd1 in
      safe brk "fcntl" (DFcntl fd0 (F_SETFD 1)) ;;
      when is_close (safe brk "close" (DClose fd1) ;; mret tt) ;;
      verify filename0 fd0 fd1 ;;
      free filename0 filename1 fd0 fd1
  end.

Definition main : P unit := run_tests setup run 2 (fun _ => cleanup (-1) (-1)).
End Dup203.

(** ** dup204.c *)

Module Dup204.
Definition nfd : list Z := [10; 20].

Definition cleanup (fd : Z * Z) : P unit :=
  call_ (DClose fd.1) ;; call_ (DClose 10) ;; call_ (DClose fd.2) ;; call_ (DClose 20).

Definition setup : P (Z * Z) := r ← safe (cleanup (-1, -1)) "pipe" DPipe; mret (d_pipe r).

Definition run (fd : Z * Z) (i : Z) : P unit :=
  let fd_i := nth (Z.to_nat i) [fd.1; fd.2] 0 in
  let nfd_i := nth (Z.to_nat i) nfd 0 in
  r ← TST_EXP_VAL (DDup2 fd_i nfd_i) nfd_i "dup2(fd[i], nfd[i])" [];
  if failed r then mret tt
  else
    oldbuf ← safe (cleanup fd) "fstat" (DFstat fd_i);
    newbuf ← safe (cleanup fd) "fstat" (DFstat nfd_i);
    TST_EXP_EQ_LU (d_ino oldbuf) (d_ino newbuf) ;;
    safe (cleanup fd) "close" (DClose (ret r)) ;; mret tt.

Definition main : P unit := run_tests setup run 2 cleanup.
End Dup204.

(** ** dup205.c *)

Module Dup205.
Definition newline : string := String (ascii_of_nat 10) EmptyString.

(** [min] and [pfilname] *)
Definition setup : P (Z * string) :=
  m ← call DGetdtablesize;
  defined_if (ret m + 10 <=? INT_MAX) ;;
  safe_malloc (uwrap 64 ((ret m + 10) * 4)) ;;
  pid ← getpid;
  mret (ret m, ("./dup205." ++ pretty pid ++ newline)%string).

(** The loop from [ifile] on, in [n] rounds, where [prev] is [fildes[ifile - 1]]: the last
    [ifile], TST_ERR, and the elements of [fildes] that were set, the last one first. *)
Fixpoint dup_all (n : nat) (ifile prev err : Z) (fildes : list Z) : P (Z * Z * list Z) :=
  match n with
  | O => mret (ifile, err, fildes)
  | S n =>
      r ← call (DDup2 prev ifile);
      let fildes := ret r :: fildes in
      if failed r then mret (ifile, errno r, fildes)
      else if negb (ret r =? ifile) then
        tst_brk no_cleanup TFAIL "got wrong descriptor number back (%d != %d)" [Num (ret r); Num ifile]
      else dup_all n (ifile + 1) (ret r) (errno r) fildes
  end.

(** [for (ifile = fildes[0]; ifile < min + 10; ifile++)]: the elements after those that were
    set are -1. *)
Fixpoint close_all (fildes : list Z) : P unit :=
  match fildes with
  | [] => mret tt
  | fd :: fildes => when (0 <? fd) (safe no_cleanup "close" (DClose fd) ;; mret tt) ;; close_all fildes
  end.

(** What is reported when the loop has ended. *)
Definition report (min ifile err : Z) : P unit :=
  when (ifile <? min) (tst_res TFAIL "Not enough files duped" []) ;;
  when (min <? ifile) (tst_res TFAIL "Too many files duped" []) ;;
  let bad_errno := negb (err =? EBADF) && negb (err =? EMFILE) && negb (err =? EINVAL) in
  when bad_errno (tst_res TFAIL "bad errno on dup2 failure" []) ;;
  if negb (ifile =? min) || bad_errno then tst_res TFAIL "Test failed" [] else tst_res TPASS "Test passed" [].

(** From the loop on; [first]: the descriptor of the file. *)
Definition duplicate (min : Z) (pfilname : string) (first : Z) : P unit :=
  y ← dup_all (Z.to_nat (min + 10 - (first + 1))) (first + 1) first 0 [first];
  report min y.1.1 y.1.2 ;;
  safe no_cleanup "unlink" (DUnlink pfilname) ;;
  close_all (rev y.2).

(** [fildes[fildes[0]] = fildes[0]]: the descriptor of the file has to be an index of the
    array. *)
Definition run (x : Z * string) : P unit :=
  let min := x.1 in
  c ← safe no_cleanup "creat" (DCreat x.2 438);
  defined_if ((0 <=? ret c) && (ret c <? min + 10)) ;;
  duplicate min x.2 (ret c).

Definition main : P unit := run_tests setup (fun x _ => run x) 1 (fun _ => no_cleanup).
End Dup205.

(** ** dup206.c *)

Module Dup206.
Definition cleanup (fd : Z) : P unit := when (-1 <? fd) (safe_warn "close" (DClose fd)).

Definition setup : P Z :=
  r ← safe no_cleanup "open" (DOpen "testfile" (Z.lor O_RDWR O_CREAT) 438); mret (ret r).

Definition verify_dup2 (fd : Z) : P unit :=
  r ← TST_EXP_FD_SILENT (DDup2 fd fd) "dup2(%d, %d)" [Num fd; Num fd];
  if negb (ret r =? fd) then
    tst_res TFAIL "dup2(%d, %d) returns wrong newfd(%ld)" [Num fd; Num fd; Num (ret r)] ;;
    safe (cleanup fd) "close" (DClose (ret r)) ;; mret tt
  else tst_res TPASS "dup2(%d, %d) returns newfd(%d)" [Num fd; Num fd; Num fd].

Definition main : P unit := run_tests setup (fun fd _ => verify_dup2 fd) 1 cleanup.
End Dup206.

(** ** dup207.c *)

Module Dup207.
Definition WRITE_STR : string := "abcdefg".
Definition nfd : Z := 10.

Record tcase := Tcase { offset : Z; exp_size : Z; flag : bool; exp_data : string; desc : string }.

Definition tcases : list tcase :=
  [Tcase 1 6 false "bcdefg" "Test offset with lseek before dup2";
   Tcase 2 5 true "cdefg" "Test offset with lseek after dup2"].

Definition cleanup (ofd : Z) : P unit :=
  when (0 <? ofd) (safe_warn "close" (DClose ofd)) ;; call_ (DClose nfd).

Definition setup : P Z :=
  r ← safe (cleanup (-1)) "open" (DOpen "testfile" (Z.lor O_RDWR O_CREAT) 420);
  safe_all (cleanup (ret r)) "write" (DWrite (ret r) (Text WRITE_STR) 7) 7 ;;
  mret (ret r).

(** [strncmp(read_buf, tc->exp_data, tc->exp_size) == 0] *)
Definition same_data (tc : tcase) (r : dreply) : bool := String.prefix (exp_data tc) (d_text r).

Definition run (ofd i : Z) : P unit :=
  match nth_error tcases (Z.to_nat i) with
  | None => mret tt
  | Some tc =>
      tst_res TINFO "%s" [Str (desc tc)] ;;
      when (negb (flag tc)) (safe (cleanup ofd) "lseek" (DLseek ofd (offset tc) SEEK_SET) ;; mret tt) ;;
      r ← call (DDup2 ofd nfd);
      if failed r then tst_res_err TFAIL r "call failed unexpectedly" []
      else
        when (flag tc) (safe (cleanup ofd) "lseek" (DLseek ofd (offset tc) SEEK_SET) ;; mret tt) ;;
        b ← safe_all (cleanup ofd) "read" (DRead nfd (exp_size tc)) (exp_size tc);
        if negb (same_data tc b) then tst_res TFAIL "Expect %s, but get %s." [Str (exp_data tc); Str (d_text b)]
        else tst_res TPASS "Get expected buf %s" [Str (d_text b)]
  end.

Definition main : P unit := run_tests setup run 2 cleanup.
End Dup207.

(** ** What the programs accept *)

Abbreviation G := (grammar dcall dreply).

Definition good : G dreply := answer (fun r => negb (failed r)).
Definition any : G dreply := answer (fun _ => true).
Definition skip : G unit := any ;; mret tt.
Definition good_if (b : bool) : G unit := if b then good ;; mret tt else mret tt.

Definition dup01_grammar : G unit :=
  test_grammar (o ← good; mret (ret o)) (fun _ _ => answer (fun r => 0 <=? ret r) ;; good ;; mret tt) 1
    (fun fd => good_if (0 <? fd)).

Definition dup02_grammar : G unit :=
  test_grammar (mret tt) (fun _ _ => answer (fails_with EBADF) ;; mret tt) 2 (fun _ => mret tt).

(** dup03.c: duplicates until the last descriptor is in use, then one more. *)
Fixpoint fill_grammar (n : nat) (maxfds : Z) (fds : list Z) (nfds : nat) : G (list Z * nat) :=
  match n with
  | O => mret (fds, nfds)
  | S n =>
      r ← good;
      if maxfds - 1 <=? ret r then mret (fds ++ [ret r], nfds)
      else fill_grammar n maxfds (fds ++ [ret r]) (S nfds)
  end.

Definition dup03_grammar : G unit :=
  test_grammar
    (m ← any; guard (negb (failed m)) ;;
     (answer (fun p => negb (ret p =? 0)) ;; mret tt) ;; guard (Dup03.array_fits (ret m)) ;;
     o ← good; fill_grammar (Z.to_nat (ret m - 1)) (ret m) [ret o] 1)
    (fun _ _ => answer (fails_with EMFILE) ;; mret tt) 1
    (fun x => each 0 (length (take x.2 x.1)) (fun _ => good ;; mret tt)).

Definition dup04_grammar : G unit :=
  test_grammar (r ← good; mret (d_pipe r)) (fun _ _ => good ;; good ;; good ;; good ;; mret tt) 1 (fun _ => mret tt).

Definition dup05_grammar : G unit :=
  test_grammar (good ;; o ← good; mret (ret o)) (fun _ _ => good ;; good ;; mret tt) 1
    (fun fd => good_if (negb (fd =? -1))).

(** dup07.c: both descriptors of each of the three files have the same mode. *)
Definition part_grammar (bufs : Z * Z) : G (Z * Z) :=
  good ;; good ;; a ← any; b ← any;
  let a := Dup07.st_mode bufs.1 a in
  let b := Dup07.st_mode bufs.2 b in
  guard (a =? b) ;; any ;; any ;; any ;; mret (a, b).

Definition dup07_grammar (bufs : Z * Z) : G unit :=
  skip ;; bufs ← part_grammar bufs; bufs ← part_grammar bufs; part_grammar bufs ;; skip ;; mret tt.

Definition dup201_grammar : G unit :=
  test_grammar (m ← any; mret (ret m)) (fun _ _ => answer (fails_with EBADF) ;; mret tt) 4 (fun _ => mret tt).

(** dup202.c: the same mode, before (tests 0 to 2) or after a change. *)
Definition case_grammar (flag : bool) (x : Dup202.statics) : G Dup202.statics :=
  good ;; good ;; good_if flag ;; a ← good; b ← good; guard (d_mode a =? d_mode b) ;;
  good ;; good ;; good ;; mret (Dup202.with_nfd (-1) x).

Definition dup202_grammar : G unit :=
  tests_grammar
    (any ;; good ;; a ← good; b ← good; c ← good; any ;; any ;; any ;; good ;; good ;;
     mret (Dup202.Statics ("dup202." ++ pretty main_pid) (ret a) (ret b) (ret c) (-1)))
    (fun i => case_grammar (3 <=? i)) 6
    (fun _ => skip ;; skip).

(** dup203.c: what is read by the new descriptor is the first file, and it is not closed on exec. *)
Definition verify_grammar (filename0 : string) (fd1 : Z) : G unit :=
  answer (fun r => negb (failed r) && (fd1 =? ret r)) ;;
  answer (fun r => negb (failed r) && String.eqb (c_string (d_text r)) filename0) ;;
  answer (fun r => ret r =? 0) ;; mret tt.

Definition dup203_grammar : G unit :=
  test_grammar
    (mret ("dup203.file0." ++ pretty main_pid ++ Dup203.newline, "dup203.file1." ++ pretty main_pid ++ Dup203.newline))%string
    (fun f i =>
       good ;; answer (fun r => ret r =? strlen f.1) ;; good ;;
       fd1 ← good; answer (fun r => ret r =? strlen f.2) ;;
       good ;; good ;; good_if (i =? 1) ;;
       verify_grammar f.1 (ret fd1) ;;
       good ;; good ;; good ;; good ;; mret tt) 2
    (fun _ => skip ;; skip).

(** dup204.c: the same inode. *)
Definition dup204_grammar : G unit :=
  test_grammar (r ← good; mret (d_pipe r))
    (fun _ i =>
       answer (fun r => ret r =? nth (Z.to_nat i) Dup204.nfd 0) ;;
       a ← good; b ← good; guard (d_ino a =? d_ino b) ;; good ;; mret tt) 2
    (fun _ => any ;; any ;; any ;; any ;; mret tt).

Definition dup206_grammar : G unit :=
  test_grammar (o ← good; mret (ret o)) (fun fd _ => answer (fun r => (ret r =? fd) && (0 <=? ret r)) ;; mret tt) 1
    (fun fd => good_if (-1 <? fd)).

(** dup207.c: the descriptors share the offset. *)
Definition dup207_grammar : G unit :=
  test_grammar (o ← good; answer (fun r => ret r =? 7) ;; mret (ret o))
    (fun _ i =>
       good ;; good ;;
       answer (fun r => if i =? 0 then (ret r =? 6) && String.prefix "bcdefg" (d_text r)
                        else (ret r =? 5) && String.prefix "cdefg" (d_text r)) ;; mret tt) 2
    (fun fd => good_if (0 <? fd) ;; any ;; mret tt).

(** How many answers are such. *)
Definition count (f : dcall * dreply -> bool) (d : list (dcall * dreply)) : Z := Z.of_nat (length (List.filter f d)).

Lemma count_app f d1 d2 : count f (d1 ++ d2) = count f d1 + count f d2.
Proof. unfold count. rewrite List.filter_app, length_app. lia. Qed.

Lemma count_nil f : count f [] = 0.
Proof. done. Qed.

Lemma count_cons f e d : count f (e :: d) = (if f e then 1 else 0) + count f d.
Proof. unfold count. cbn [List.filter]. destruct (f e); cbn [length]; lia. Qed.

(** dup06.c: the descriptors that are free before the file is created, and the duplicates. *)
Definition is_free (e : dcall * dreply) : bool := match e.1 with DFcntl _ F_GETFD => fails_with EBADF e.2 | _ => false end.
Definition is_duplicate (e : dcall * dreply) : bool := match e.1 with DDup _ | DDup2 _ _ => negb (failed e.2) | _ => false end.
Definition is_created (e : dcall * dreply) : bool := match e.1 with DCreat _ _ => negb (failed e.2) | _ => true end.

Definition dup06_ok (d : list (dcall * dreply)) : bool :=
  forallb is_created d && (1 + count is_duplicate d =? count is_free d).

(** dup205.c: each duplicate has the number that was asked for; the first call that fails has one of
    three errors, and is for the first number that is no descriptor. *)
Definition dup205_ok1 (e : dcall * dreply) : bool :=
  match e.1 with
  | DDup2 _ n =>
      if failed e.2 then (errno e.2 =? EBADF) || (errno e.2 =? EMFILE) || (errno e.2 =? EINVAL) else ret e.2 =? n
  | DGetdtablesize => true
  | DMalloc _ => negb (ret e.2 =? 0)
  | _ => negb (failed e.2)
  end.

Definition dup205_ok (d : list (dcall * dreply)) : bool :=
  match d with
  | (_, m) :: _ :: (_, c) :: _ => forallb dup205_ok1 d && (ret c + 1 + count is_duplicate d =? ret m)
  | _ => false
  end.

(** *** Which runs are defined *)

(** dup03.c: if the allocation succeeds, the number of descriptors is positive and an int. *)
Definition dup03_defined (d : list (dcall * dreply)) : bool :=
  match d with (_, m) :: (_, p) :: _ => (ret p =? 0) || Dup03.array_fits (ret m) | _ => true end.

(** dup06.c: the allocation succeeds, and [min + 5] is positive and an int. *)
Definition fits06 (min : Z) : bool := (0 <? min + 5) && (min + 5 <=? INT_MAX).

Definition dup06_defined1 (e : dcall * dreply) : bool :=
  match e.1 with DGetdtablesize => fits06 (ret e.2) | DMalloc _ => negb (ret e.2 =? 0) | _ => true end.

Definition dup06_defined : list (dcall * dreply) -> bool := forallb dup06_defined1.

(** dup205.c: [min + 10] is an int, and the file, if it could be created, has a descriptor
    below it. *)
Definition dup205_defined (d : list (dcall * dreply)) : bool :=
  match d with
  | (_, m) :: rest =>
      (ret m + 10 <=? INT_MAX)
      && match rest with
         | _ :: (_, c) :: _ => failed c || ((0 <=? ret c) && (ret c <? ret m + 10))
         | _ => true
         end
  | [] => true
  end.

(** ** The verdicts *)

Ltac unfold_verdict ::= unfold strict, anything, fails_with, failed, nonzero in *.

#[local] Arguments Z.eqb : simpl never.
#[local] Arguments String.prefix : simpl never.
#[local] Arguments String.eqb : simpl never.

Ltac unfold_grammar := unfold good_if, good, skip, any.

Lemma dup01_judges : judges Dup01.main clean (accepts dup01_grammar).
Proof.
  apply run_tests_follow; unfold Dup01.setup, Dup01.verify_dup, Dup01.cleanup; unfold_grammar; intros; follow_path.
Qed.

Lemma dup02_judges : judges Dup02.main clean (accepts dup02_grammar).
Proof.
  apply run_tests_follow; intros; [apply follows_ret| |apply follows_ret].
  assert (i = 0 \/ i = 1) as [-> | ->] by (cbn in *; lia); unfold Dup02.run; number_cases; cbn [nth_error Dup02.tcases]; follow_path.
Qed.

Lemma dup04_judges : judges Dup04.main clean (accepts dup04_grammar).
Proof.
  apply run_tests_follow; unfold Dup04.setup, Dup04.run, Dup04.side; unfold_grammar; intros; follow_path.
Qed.

Lemma dup05_judges : judges Dup05.main clean (accepts dup05_grammar).
Proof.
  apply run_tests_follow; unfold Dup05.setup, Dup05.run, Dup05.cleanup, tst_brk; unfold_grammar; intros; follow_path.
Qed.

Lemma part_follows mode bad good_msg bufs : follows (Dup07.part mode bad good_msg bufs) (part_grammar bufs).
Proof. unfold Dup07.part, part_grammar; unfold_grammar. follow_path. Qed.

Lemma dup07_judges bufs : judges (Dup07.main bufs) clean (accepts (dup07_grammar bufs)).
Proof.
  apply finishes_judges. unfold Dup07.main, dup07_grammar.
  apply finishes_bind; [apply follows_any|]. intros _.
  apply finishes_bind; [apply part_follows|]. intros b1.
  apply finishes_bind; [apply part_follows|]. intros b2.
  apply finishes_bind; [apply part_follows|]. intros _.
  apply finishes_bind; [apply follows_any|]. intros _. apply finishes_exit.
Qed.

Lemma dup201_judges : judges Dup201.main clean (accepts dup201_grammar).
Proof.
  apply run_tests_follow; [unfold Dup201.setup, any; follow_path| |intros; apply follows_ret].
  intros m i Hi. assert (i = 0 \/ i = 1 \/ i = 2 \/ i = 3) as [-> | [-> | [-> | ->]]] by (cbn in *; lia);
    unfold Dup201.run, TST_EXP_FAIL2; number_cases; cbn [nth_error Dup201.tcases]; follow_path.
Qed.

Lemma dup204_judges : judges Dup204.main clean (accepts dup204_grammar).
Proof.
  apply run_tests_follow; unfold Dup204.setup, Dup204.run, Dup204.cleanup, TST_EXP_VAL, TST_EXP_EQ_LU; unfold_grammar.
  - follow_path.
  - intros fd i Hi. assert (i = 0 \/ i = 1) as [-> | ->] by (cbn in *; lia); number_cases; cbn [nth Dup204.nfd]; follow_path.
  - intros fd. follow_path.
Qed.

Lemma dup206_judges : judges Dup206.main clean (accepts dup206_grammar).
Proof.
  apply run_tests_follow; unfold Dup206.setup, Dup206.verify_dup2, Dup206.cleanup, TST_EXP_FD_SILENT; unfold_grammar;
    intros; follow_path.
Qed.

Lemma dup207_judges : judges Dup207.main clean (accepts dup207_grammar).
Proof.
  apply run_tests_follow; unfold Dup207.setup, Dup207.run, Dup207.cleanup, Dup207.same_data; unfold_grammar.
  - follow_path.
  - intros fd i Hi. assert (i = 0 \/ i = 1) as [-> | ->] by (cbn in *; lia); number_cases;
      cbn [nth_error Dup207.tcases Dup207.flag negb Dup207.offset Dup207.exp_size Dup207.exp_data when]; follow_path.
  - intros fd. follow_path.
Qed.

Lemma case_follows tc_nfd mode flag x : follows (Dup202.run_case tc_nfd mode flag x) (case_grammar flag x).
Proof. unfold Dup202.run_case, Dup202.free, Dup202.cleanup, case_grammar; unfold_grammar. destruct flag; follow_path. Qed.

Lemma dup202_judges : judges Dup202.main clean (accepts dup202_grammar).
Proof.
  apply run_tests_judges; [unfold Dup202.setup, Dup202.cleanup; unfold_grammar; follow_path| |].
  - intros i x Hi. assert (i = 0 \/ i = 1 \/ i = 2 \/ i = 3 \/ i = 4 \/ i = 5) as [-> | [-> | [-> | [-> | [-> | ->]]]]]
      by (cbn in *; lia); unfold Dup202.run; number_cases; apply case_follows.
  - intros x. unfold Dup202.cleanup; unfold_grammar. follow_path.
Qed.

Lemma cleanup_follows fd0 fd1 : follows (Dup203.cleanup fd0 fd1) (skip ;; skip).
Proof. apply follows_bind; [apply follows_any|]. intros _. apply follows_any. Qed.

Lemma verify_follows filename0 fd0 fd1 : follows (Dup203.verify filename0 fd0 fd1) (verify_grammar filename0 fd1).
Proof. unfold Dup203.verify, Dup203.cleanup, verify_grammar. follow_path. Qed.

Lemma dup203_judges : judges Dup203.main clean (accepts dup203_grammar).
Proof.
  apply run_tests_follow; unfold Dup203.setup; [follow_path| |intros x; apply cleanup_follows].
  intros f i Hi. unfold Dup203.run, Dup203.free; unfold_grammar.
  assert (i = 0 \/ i = 1) as [-> | ->] by (cbn in *; lia); number_cases; cbn [nth_error Dup203.tcases].
  all: follow_steps ltac:(apply cleanup_follows).
  all: apply follows_bind; [apply verify_follows|]; intros ?; follow_steps ltac:(apply cleanup_follows).
Qed.

Lemma malloc_follows size : follows (safe_malloc size) (answer (fun p => negb (ret p =? 0)) ;; mret tt).
Proof. unfold safe_malloc, malloc, tst_brk. follow_path. Qed.

(** dup03.c *)
Lemma close_all_follows fds start :
  follows (Dup03.close_all fds) (each start (length fds) (fun _ => good ;; mret tt)).
Proof.
  revert start. induction fds as [|fd fds IH]; intros start; cbn [Dup03.close_all length each]; [apply follows_ret|].
  apply follows_bind; [unfold good; follow_path|]. intros ?. apply IH.
Qed.

Lemma fill_follows n maxfds fd0 fds nfds :
  follows (Dup03.fill n maxfds fd0 fds nfds) (fill_grammar n maxfds fds nfds).
Proof.
  revert fds nfds. induction n as [|n IH]; intros fds nfds; cbn [Dup03.fill fill_grammar]; [apply follows_ret|].
  apply follows_bind; [eapply follows_safe; apply (close_all_follows _ 0)|]. intros r. cbv zeta.
  destruct (maxfds - 1 <=? ret r); [apply follows_ret | apply IH].
Qed.

Lemma dup03_accepts : judges Dup03.main clean (accepts dup03_grammar).
Proof.
  apply run_tests_follow; unfold Dup03.setup, Dup03.run; unfold_grammar.
  - follow_steps ltac:(apply follows_ret). apply follows_bind; [apply malloc_follows|]. intros _.
    apply follows_bind; [apply follows_defined|]. intros ?. follow_steps ltac:(apply follows_ret). apply fill_follows.
  - intros x i Hi. follow_path_with ltac:(apply (close_all_follows _ 0)).
  - intros x. apply close_all_follows.
Qed.

Lemma dup03_judges : judges_where dup03_defined Dup03.main clean (accepts dup03_grammar).
Proof. apply judges_anywhere, dup03_accepts. Qed.

(** dup06.c *)
Lemma cnt_free_fds_dx n k d l :
  dx (Dup06.cnt_free_fds n k) d l
    (fun v => adds (fun d1 l1 => l1 = [] /\ v = k + count is_free d1 /\ count is_duplicate d1 = 0
                                 /\ forallb is_created d1 = true) d l) (fun _ _ => False).
Proof.
  revert k d l. induction n as [|n IH]; intros k d l; cbn [Dup06.cnt_free_fds].
  - apply dx_ret. exists [], []. rewrite !app_nil_r, !count_nil. repeat split. cbn [fst]. lia.
  - apply dx_bind, dx_call. intros r. eapply dx_mono; [| |apply IH]; [|done].
    intros v d' l' (a & b & -> & -> & -> & -> & H1 & H2). path_added.
    cbn [app]. rewrite !count_cons. cbn [is_free is_duplicate fst snd forallb is_created]. rewrite H1, H2.
    repeat split. destruct (fails_with EBADF r); lia.
Qed.

Lemma dup_all_dx n i fildes d l :
  dx (Dup06.dup_all n i fildes) d l
    (fun x => adds (fun d1 l1 => l1 = [] /\ x.1 = i + count is_duplicate d1 /\ count is_free d1 = 0
                                 /\ forallb is_created d1 = true) d l) (fun _ _ => False).
Proof.
  revert i fildes d l. induction n as [|n IH]; intros i fildes d l; cbn [Dup06.dup_all].
  - apply dx_ret. exists [], []. rewrite !app_nil_r, !count_nil. repeat split. cbn [fst]. lia.
  - apply dx_bind, dx_call. intros r. cbv zeta. destruct (failed r) eqn:E.
    + apply dx_ret. path_added. rewrite !count_cons. cbn [is_free is_duplicate fst snd forallb is_created].
      rewrite E, !count_nil. repeat split. cbn [fst negb]. lia.
    + eapply dx_mono; [| |apply IH]; [|done].
      intros v d' l' (a & b & -> & -> & -> & Hv & H1 & H2). path_added.
      cbn [app]. rewrite !count_cons, Hv. cbn [is_free is_duplicate fst snd forallb is_created].
      rewrite E, H1, H2. cbn. repeat split. lia.
Qed.

Lemma close_all06_dx fildes d l :
  dx (Dup06.close_all fildes) d l
    (fun _ => adds (fun d1 l1 => l1 = [] /\ count is_duplicate d1 = 0 /\ count is_free d1 = 0
                                 /\ forallb is_created d1 = true) d l) (fun _ _ => False).
Proof.
  revert d l. induction fildes as [|fd fildes IH]; intros d l; cbn [Dup06.close_all].
  - apply dx_ret. exists [], []. by rewrite !app_nil_r.
  - apply dx_bind, dx_when; intros _; [|apply IH]. apply dx_bind, dx_call. intros r. apply dx_ret.
    eapply dx_mono; [| |apply IH]; [|done].
    intros v d' l' (a & b & -> & -> & -> & H0 & H1 & H2). path_added.
    cbn [app]. by rewrite !count_cons, H0, H1.
Qed.

Lemma round06_dx min free d l :
  dx (Dup06.round min free) d l
    (fun _ => adds (fun d1 l1 => count is_free d1 = 0 /\
       clean l1 = forallb is_created d1 && (1 + count is_duplicate d1 =? free)) d l) (fun _ _ => False).
Proof.
  unfold Dup06.round, call_. cbv zeta. dx_steps.
  - eapply dx_mono; [| |apply close_all06_dx]; [|done]. intros _ d' l' (a & b & -> & -> & -> & H0 & H1 & H2). path_added.
    cbn [app]. rewrite !count_cons, H1. cbn [is_free is_created fst snd forallb]. by rewrite H.
  - eapply dx_mono; [| |apply dup_all_dx]; [|done]. intros x d' l' (a & b & -> & -> & -> & Hx & Hf & Hc). dx_steps.
    all: eapply dx_mono; [| |apply close_all06_dx]; [|done]; intros _ d' l' (a' & b & -> & -> & -> & H0' & H1' & H2'); path_added.
    all: cbn [app]; rewrite !count_cons, !count_app, !count_cons, Hf, H1', H0'; cbn [is_free is_duplicate is_created fst snd forallb].
    all: rewrite !forallb_app; cbn [forallb is_created fst snd]; rewrite H, Hc, H2'; split; [done|].
    all: cbn [negb andb]; symmetry; (apply Z.eqb_neq || apply Z.eqb_eq); rewrite Hx in *; lia.
Qed.

Lemma allocate_dx min d l :
  dx (Dup06.allocate min) d l
    (fun _ => adds (fun d1 l1 => l1 = [] /\ count is_free d1 = 0 /\ count is_duplicate d1 = 0
                                 /\ forallb is_created d1 = true) d l)
    (adds (fun d1 _ => fits06 min && dup06_defined d1 = false) d l).
Proof.
  unfold Dup06.allocate, malloc, defined_if, undefined, fits06. dx_steps; path_added;
    cbn [dup06_defined dup06_defined1 forallb fst snd]; try done; zbool; lia.
Qed.

Lemma dup06_judges : judges_where dup06_defined Dup06.main clean dup06_ok.
Proof.
  apply dx_judges_where. unfold Dup06.main, call_. do 7 dx_step.
  eapply dx_mono; [| |apply cnt_free_fds_dx]; [|done]. intros v d' l' (a & b & -> & -> & -> & -> & H1 & H2).
  apply dx_bind. eapply dx_mono; [| |apply allocate_dx].
  2:{ intros d' l' (a0 & b & -> & -> & E) Hd. revert E. unfold dup06_defined in *.
      rewrite !forallb_app in Hd. cbn [forallb app dup06_defined1 fst snd] in Hd. zbool.
      by rewrite H4, H0. }
  intros _ d' l' (a0 & b & -> & -> & -> & H5 & H6 & H7).
  apply dx_bind. eapply dx_mono; [| |apply round06_dx]; [|done].
  intros _ d' l' (a' & b & -> & -> & H3 & H4). dx_steps.
  unfold dup06_ok. rewrite !forallb_app, !count_app, H1, H2, H3, H5, H6, H7. cbn [app forallb]. rewrite !count_cons, !count_nil.
  cbn [is_free is_duplicate is_created fst snd]. rewrite H4, !andb_true_r. intros _. f_equal. f_equal; lia.
Qed.

(** dup205.c *)
Definition good_errno (err : Z) : bool := (err =? EBADF) || (err =? EMFILE) || (err =? EINVAL).

Lemma dup_all205_dx n ifile prev err fildes d l :
  dx (Dup205.dup_all n ifile prev err fildes) d l
    (fun x => adds (fun d1 l1 => l1 = [] /\ x.1.1 = ifile + count is_duplicate d1
       /\ (x.1.1 = ifile + Z.of_nat n \/ forallb dup205_ok1 d1 = good_errno x.1.2)) d l)
    (adds (fun d1 l1 => clean l1 = false /\ forallb dup205_ok1 d1 = false) d l).
Proof.
  revert ifile prev err fildes d l. induction n as [|n IH]; intros; cbn [Dup205.dup_all].
  { apply dx_ret. exists [], []. rewrite !app_nil_r, count_nil. repeat split; [|left]; cbn [fst]; lia. }
  apply dx_bind, dx_call. intros r. cbv zeta. destruct (failed r) eqn:E.
  { apply dx_ret. path_added. rewrite count_cons, count_nil. cbn [is_duplicate fst snd forallb dup205_ok1].
    rewrite E, andb_true_r. repeat split; [cbn; lia | by right]. }
  destruct (Z.eqb_spec (ret r) ifile) as [Hr|Hr]; cbn [negb].
  - eapply dx_mono; [| |apply IH].
    + intros x d' l' (a & b & -> & -> & -> & Hx & Hc). path_added. cbn [app]. rewrite count_cons, Hx in *.
      cbn [is_duplicate fst snd forallb dup205_ok1]. rewrite E, (proj2 (Z.eqb_eq _ _) Hr). cbn [negb andb].
      split; [done|]. split; [lia|]. destruct Hc as [Hc|Hc]; [left; lia | by right].
    + intros d' l' (a & b & -> & -> & Hl & Hc). path_added. cbn [app]. split; [done|].
      cbn [fst snd forallb dup205_ok1]. by rewrite E, Hc, andb_false_r.
  - unfold tst_brk. dx_steps. path_added. split; [done|]. cbn [fst snd forallb dup205_ok1].
    by rewrite E, (proj2 (Z.eqb_neq _ _) Hr).
Qed.

Lemma close_all205_dx fildes d l :
  dx (Dup205.close_all fildes) d l
    (fun _ => adds (fun d1 l1 => clean l1 = true /\ count is_duplicate d1 = 0 /\ forallb dup205_ok1 d1 = true) d l)
    (adds (fun d1 l1 => clean l1 = false /\ forallb dup205_ok1 d1 = false) d l).
Proof.
  revert d l. induction fildes as [|fd fildes IH]; intros d l; cbn [Dup205.close_all].
  { apply dx_ret. exists [], []. by rewrite !app_nil_r. }
  dx_steps; [|by path_added; cbn [fst snd forallb dup205_ok1]; rewrite H0|apply IH].
  eapply dx_mono; [| |apply IH].
  - intros _ d' l' (a & b & -> & -> & Hl & H1 & H2). path_added. cbn [app]. rewrite count_cons.
    cbn [is_duplicate fst snd forallb dup205_ok1]. by rewrite H0, H1, H2.
  - intros d' l' (a & b & -> & -> & Hl & H2). path_added. cbn [app]. split; [done|].
    cbn [fst snd forallb dup205_ok1]. by rewrite H2, andb_false_r.
Qed.

Lemma report205_dx min ifile err d l :
  dx (Dup205.report min ifile err) d l
    (fun _ => adds (fun d1 l1 => d1 = [] /\ clean l1 = (ifile =? min) && good_errno err) d l) (fun _ _ => False).
Proof.
  assert (Hg : negb (err =? EBADF) && negb (err =? EMFILE) && negb (err =? EINVAL) = negb (good_errno err))
    by (unfold good_errno; by rewrite !negb_orb).
  unfold Dup205.report. cbv zeta. rewrite Hg. destruct (good_errno err); cbn [negb]; dx_steps; path_added;
    cbn; (split; [done|]); rewrite ?andb_false_r, ?andb_true_r; lia.
Qed.

Lemma duplicate_dx m size q fname c :
  let d := [(DGetdtablesize, m); (DMalloc size, q); (DCreat fname 438, c)] in
  negb (ret q =? 0) = true -> failed c = false ->
  dx (Dup205.duplicate (ret m) fname (ret c)) d []
    (fun _ d' l' => clean l' = dup205_ok d') (fun d' l' => clean l' = dup205_ok d').
Proof.
  cbv zeta. intros Hq H. unfold Dup205.duplicate. apply dx_bind. eapply dx_mono; [| |apply dup_all205_dx].
  2:{ intros d' l' (a & b & -> & -> & Hl & Hc). unfold dup205_ok. cbn [app forallb dup205_ok1 fst snd].
      by rewrite Hl, Hc, !andb_false_r. }
  intros x d' l' (a & b & -> & -> & -> & Hx & Hc). apply dx_bind.
  eapply dx_mono; [| |apply report205_dx]; [|done]. intros _ d' l' (a1 & b & -> & -> & -> & Hb).
  apply dx_bind, dx_safe; intros u Hu.
  - eapply dx_mono; [| |apply close_all205_dx].
    + intros _ d' l' (a' & b' & -> & -> & Hl & H1 & H2).
      unfold dup205_ok. cbn [app]. rewrite !app_nil_r. cbn [forallb]. rewrite !forallb_app, !count_cons, !count_app, H1, H2.
      cbn [forallb dup205_ok1 is_duplicate fst snd]. rewrite clean_app, Hb, Hl, Hq, H, Hu, !count_cons, !count_nil.
      cbn [negb andb is_duplicate fst snd]. rewrite !andb_true_r.
      destruct Hc as [Hc|Hc]; [|rewrite Hc, andb_comm; f_equal; rewrite Hx; f_equal; lia].
      rewrite (proj2 (Z.eqb_neq (x.1.1) (ret m))) by lia.
      rewrite (proj2 (Z.eqb_neq (ret c + 1 + _) (ret m))) by lia. by rewrite andb_false_r.
    + intros d' l' (a' & b' & -> & -> & Hl & H2). unfold dup205_ok. cbn [app]. rewrite !app_nil_r.
      cbn [forallb]. rewrite !forallb_app. by rewrite clean_app, Hl, H2, !andb_false_r.
  - dx_steps. unfold dup205_ok. cbn [app]. rewrite !app_nil_r. cbn [forallb]. rewrite !forallb_app.
    cbn [forallb dup205_ok1 fst snd]. rewrite Hu, clean_app. cbn. by rewrite !andb_false_r.
Qed.

Lemma dup205_judges : judges_where dup205_defined Dup205.main clean dup205_ok.
Proof.
  apply dx_judges_where. unfold Dup205.main, run_tests, Dup205.setup, Dup205.run, no_cleanup, safe_malloc, malloc,
    tst_brk, defined_if, undefined. cbn [for_from fst snd].
  dx_steps; cbn [fst snd app].
  - done.
  - eapply dx_mono; [| |apply (duplicate_dx r _ r0 _ r1); [by rewrite H0 | done]]; intros; dx_steps; done.
  - unfold dup205_defined. rewrite H1. intros Hd. apply andb_true_iff in Hd as [_ Hd]. cbn [orb fst] in Hd, H2. by rewrite Hd in H2.
  - intros _. unfold dup205_ok. cbn [forallb dup205_ok1 fst snd]. by rewrite H1, !andb_false_r.
  - unfold dup205_defined. intros Hd. apply andb_true_iff in Hd as [Hd _]. by rewrite Hd in H.
Qed.

(** A program, the runs of it that are defined, and the answers it accepts. *)
Definition test_spec : Type := P unit * (list (dcall * dreply) -> bool) * (list (dcall * dreply) -> bool).

Definition everywhere (_ : list (dcall * dreply)) : bool := true.

Definition spec_kept (c : test_spec) : Prop := judges_where c.1.2 c.1.1 clean c.2.

(** [bufs]: what the arrays of dup07.c hold. *)
Definition dup_contracts (bufs : Z * Z) : list test_spec :=
  [(Dup01.main, everywhere, accepts dup01_grammar); (Dup02.main, everywhere, accepts dup02_grammar);
   (Dup03.main, dup03_defined, accepts dup03_grammar); (Dup04.main, everywhere, accepts dup04_grammar);
   (Dup05.main, everywhere, accepts dup05_grammar); (Dup06.main, dup06_defined, dup06_ok);
   (Dup07.main bufs, everywhere, accepts (dup07_grammar bufs)); (Dup201.main, everywhere, accepts dup201_grammar);
   (Dup202.main, everywhere, accepts dup202_grammar); (Dup203.main, everywhere, accepts dup203_grammar);
   (Dup204.main, everywhere, accepts dup204_grammar); (Dup205.main, dup205_defined, dup205_ok);
   (Dup206.main, everywhere, accepts dup206_grammar); (Dup207.main, everywhere, accepts dup207_grammar)].

(** The verdicts of all of them. *)
Lemma dup_contracts_kept bufs : Forall spec_kept (dup_contracts bufs).
Proof.
  repeat apply List.Forall_cons; try apply List.Forall_nil; unfold spec_kept; cbn [fst snd];
    auto using judges_anywhere, dup01_judges, dup02_judges, dup03_judges, dup04_judges, dup05_judges, dup06_judges,
      dup07_judges, dup201_judges, dup202_judges, dup203_judges, dup204_judges, dup205_judges, dup206_judges, dup207_judges.
Qed.
