(* ===== verification/SeekTests.v ===== *)
(** * The tests of lseek(2) on files and pipes

    Models of [src/original tests/lseek/lseek01.c], lseek02.c and lseek07.c (modules [Lseek01], ...)
    and the answers each of them accepts, on any system, as in [DupTests]; lseek11.c is in
    [SeekHoles].  The independent versions do not compile. *)

From S2P Require Import Prelude Tst Process Explore Prog Checker Wp Alone Ends FileSys RecordLocks.
From S2P Require Import Ltp Transcript Judge Grammar Descriptors DupTests.

(** ** lseek01.c *)

Module Lseek01.
Definition WRITE_STR : string := "abcdefg".
Definition TFILE : string := "tfile".

Record tcase := Tcase { off : Z; whence : Z; wname : string; exp_off : Z; exp_size : Z; exp_data : option string }.

Definition tcases : list tcase :=
  [Tcase 4 SEEK_SET "SEEK_SET" 4 3 (Some "efg"); Tcase (-2) SEEK_CUR "SEEK_CUR" 5 2 (Some "fg");
   Tcase (-4) SEEK_END "SEEK_END" 3 4 (Some "defg"); Tcase 0 SEEK_END "SEEK_END" 7 0 None]%string.

Definition cleanup (fd : Z) : P unit := when (0 <? fd) (safe_warn "close" (DClose fd)).

Definition setup : P Z :=
  r ← safe no_cleanup "open" (DOpen TFILE (Z.lor O_RDWR O_CREAT) 420);
  safe_all (cleanup (ret r)) "write" (DWrite (ret r) (Text WRITE_STR) 7) 7 ;;
  mret (ret r).

(** [tc->exp_data && strcmp(read_buf, tc->exp_data)] *)
Definition incorrect (exp_data : option string) (r : dreply) : bool :=
  match exp_data with Some s => negb (String.eqb (c_string (d_text r)) s) | None => false end.

Definition verify (tc : tcase) (fd : Z) : P unit :=
  safe (cleanup fd) "read" (DRead fd 64) ;;
  r ← call (DLseek fd (off tc) (whence tc));
  if failed r then
    tst_res_err TFAIL r "lseek(%s, %lld, %s) failed" [Str TFILE; Num (off tc); Str (wname tc)]
  else if negb (ret r =? exp_off tc) then
    tst_res TFAIL "lseek(%s, %lld, %s) returned %ld, expected %lld"
      [Str TFILE; Num (off tc); Str (wname tc); Num (ret r); Num (exp_off tc)]
  else
    b ← safe_all (cleanup fd) "read" (DRead fd (exp_size tc)) (exp_size tc);
    if incorrect (exp_data tc) b then
      tst_res TFAIL "lseek(%s, %lld, %s) read incorrect data" [Str TFILE; Num (off tc); Str (wname tc)]
    else tst_res TPASS "lseek(%s, %lld, %s) read correct data" [Str TFILE; Num (off tc); Str (wname tc)].

Definition verify_lseek (fd n : Z) : P unit :=
  match nth_error tcases (Z.to_nat n) with Some tc => verify tc fd | None => mret tt end.

Definition main : P unit := run_tests setup verify_lseek (length tcases) cleanup.
End Lseek01.

(** ** lseek02.c *)

Module Lseek02.
Definition TFILE : string := "tfile".
Definition TFIFO1 : string := "tfifo1".
Definition TFIFO2 : string := "tfifo2".
Definition bad_fd : Z := -1.

(** The static variables; 0 before they are set. *)
Record statics := Statics { fd : Z; pfd1 : Z; pfd2 : Z; pfds : Z * Z }.

Definition tcases : list ((statics -> Z) * Z * Z) :=
  let bad (_ : statics) := bad_fd in
  let pfds0 x := (pfds x).1 in
  [(bad, SEEK_SET, EBADF); (bad, SEEK_CUR, EBADF); (bad, SEEK_END, EBADF);
   (fd, 5, EINVAL); (fd, -1, EINVAL); (fd, 7, EINVAL);
   (pfd1, SEEK_SET, ESPIPE); (pfd1, SEEK_CUR, ESPIPE); (pfd1, SEEK_END, ESPIPE);
   (pfds0, SEEK_SET, ESPIPE); (pfds0, SEEK_CUR, ESPIPE); (pfds0, SEEK_END, ESPIPE);
   (pfd2, SEEK_SET, ESPIPE); (pfd2, SEEK_CUR, ESPIPE); (pfd2, SEEK_END, ESPIPE)].

Definition close_fd (fd : Z) : P unit := when (0 <? fd) (safe_warn "close" (DClose fd)).

Definition cleanup (x : statics) : P unit :=
  close_fd (fd x) ;; close_fd (pfd1 x) ;; close_fd (pfds x).1 ;; close_fd (pfds x).2 ;; close_fd (pfd2 x).

Definition setup : P statics :=
  o ← safe no_cleanup "open" (DOpen TFILE (Z.lor O_RDWR O_CREAT) 511);
  safe (cleanup (Statics (ret o) 0 0 (0, 0))) "mkfifo" (DMkfifo TFIFO1 511) ;;
  p ← safe (cleanup (Statics (ret o) 0 0 (0, 0))) "open" (DOpen TFIFO1 O_RDWR 511);
  q ← safe (cleanup (Statics (ret o) (ret p) 0 (0, 0))) "pipe" DPipe;
  safe (cleanup (Statics (ret o) (ret p) 0 (d_pipe q))) "mknod" (DMknod TFIFO2 (Z.lor S_IFIFO 511)) ;;
  r ← safe (cleanup (Statics (ret o) (ret p) 0 (d_pipe q))) "open" (DOpen TFIFO2 O_RDWR 511);
  mret (Statics (ret o) (ret p) (ret r) (d_pipe q)).

Definition verify (fd whence exp_err : Z) : P unit :=
  r ← call (DLseek fd 1 whence);
  if negb (failed r) then tst_res TFAIL "lseek(%d, 1, %d) succeeded unexpectedly" [Num fd; Num whence]
  else if errno r =? exp_err then tst_res_err TPASS r "lseek(%d, 1, %d) failed as expected" [Num fd; Num whence]
  else tst_res_err TFAIL r "lseek(%d, 1, %d) failed unexpectedly, expected %s" [Num fd; Num whence; Num exp_err].

Definition verify_lseek (x : statics) (n : Z) : P unit :=
  match nth_error tcases (Z.to_nat n) with
  | Some (fd, whence, exp_err) => verify (fd x) whence exp_err
  | None => mret tt
  end.

Definition main : P unit := run_tests setup verify_lseek (length tcases) cleanup.
End Lseek02.

(** ** lseek07.c *)

Module Lseek07.
Definition TFILE1 : string := "tfile1".
Definition TFILE2 : string := "tfile2".
Definition WR_STR1 : string := "abcdefg".
Definition WR_STR2 : string := "ijk".

(** [fd1] and [fd2]; [tc->fd] is a pointer to one of them: [get] and [set]. *)
Record tcase := Tcase {
  get : Z * Z -> Z; set : Z -> Z * Z -> Z * Z;
  fname : string; off : Z; exp_off : Z; exp_size : Z; exp_data : string
}.

Definition tcases : list tcase :=
  [Tcase fst (fun v x => (v, x.2)) TFILE1 7 7 10 "abcdefgijk"; Tcase snd (fun v x => (x.1, v)) TFILE2 2 2 7 "abijkfg"].

Definition close_fd (fd : Z) : P unit := when (0 <? fd) (safe_warn "close" (DClose fd)).

Definition cleanup (x : Z * Z) : P unit := close_fd x.1 ;; close_fd x.2.

Definition setup : P (Z * Z) :=
  a ← safe no_cleanup "open" (DOpen TFILE1 (Z.lor O_RDWR O_CREAT) 420);
  b ← safe (cleanup (ret a, 0)) "open" (DOpen TFILE2 (Z.lor O_RDWR O_CREAT) 420);
  let x := (ret a, ret b) in
  safe_all (cleanup x) "write" (DWrite (ret a) (Text WR_STR1) 7) 7 ;;
  safe_all (cleanup x) "write" (DWrite (ret b) (Text WR_STR1) 7) 7 ;;
  mret x.

(** From the call of [SAFE_WRITE] on: the file is opened again to read it. *)
Definition write_and_read (tc : tcase) (x : Z * Z) : P (Z * Z) :=
  safe_all (cleanup x) "write" (DWrite (get tc x) (Text WR_STR2) 3) 3 ;;
  safe (cleanup x) "close" (DClose (get tc x)) ;;
  o ← safe (cleanup (set tc (-1) x)) "open" (DOpen (fname tc) O_RDWR 0);
  let x := set tc (ret o) x in
  b ← safe_all (cleanup x) "read" (DRead (ret o) (exp_size tc)) (exp_size tc);
  (if negb (String.eqb (c_string (d_text b)) (exp_data tc)) then
     tst_res TFAIL "lseek(%s, %lld, SEEK_SET) wrote incorrect data %s" [Str (fname tc); Num (off tc); Str (d_text b)]
   else
     tst_res TPASS "lseek(%s, %lld, SEEK_SET) wrote correct data %s" [Str (fname tc); Num (off tc); Str (d_text b)]) ;;
  mret x.

Definition verify (tc : tcase) (x : Z * Z) : P (Z * Z) :=
  r ← call (DLseek (get tc x) (off tc) SEEK_SET);
  if failed r then
    tst_res_err TFAIL r "lseek(%s, %lld, SEEK_SET) failed" [Str (fname tc); Num (off tc)] ;; mret x
  else if negb (ret r =? exp_off tc) then
    tst_res TFAIL "lseek(%s, %lld, SEEK_SET) returned %ld, expected %lld"
      [Str (fname tc); Num (off tc); Num (ret r); Num (exp_off tc)] ;; mret x
  else write_and_read tc x.

Definition verify_lseek (n : Z) (x : Z * Z) : P (Z * Z) :=
  match nth_error tcases (Z.to_nat n) with Some tc => verify tc x | None => mret x end.

Definition main : P unit := run_tests_state setup verify_lseek (length tcases) cleanup.
End Lseek07.

(** ** What the programs accept *)

(** lseek01.c: the offset, and the text from there on, if the test has one. *)
Definition lseek01_grammar : G unit :=
  test_grammar (o ← good; answer (fun r => ret r =? 7) ;; mret (ret o))
    (fun _ n =>
       good ;;
       match nth_error Lseek01.tcases (Z.to_nat n) with
       | Some tc =>
           answer (fun r => ret r =? Lseek01.exp_off tc) ;;
           answer (fun r => (ret r =? Lseek01.exp_size tc) && negb (Lseek01.incorrect (Lseek01.exp_data tc) r)) ;;
           mret tt
       | None => mret tt
       end) 4
    (fun fd => good_if (0 <? fd)).

Definition closes_grammar (x : Lseek02.statics) : G unit :=
  good_if (0 <? Lseek02.fd x) ;; good_if (0 <? Lseek02.pfd1 x) ;; good_if (0 <? (Lseek02.pfds x).1) ;;
  good_if (0 <? (Lseek02.pfds x).2) ;; good_if (0 <? Lseek02.pfd2 x).

(** lseek02.c: three calls with each bad descriptor, bad whence and pipe. *)
Definition lseek02_error (n : Z) : Z := if n <? 3 then EBADF else if n <? 6 then EINVAL else ESPIPE.

Definition lseek02_grammar : G unit :=
  test_grammar
    (o ← good; good ;; p ← good; q ← good; good ;; r ← good;
     mret (Lseek02.Statics (ret o) (ret p) (ret r) (d_pipe q)))
    (fun _ n => answer (fails_with (lseek02_error n)) ;; mret tt) 15 closes_grammar.

(** lseek07.c: what is written after the offset is changed arrives there. *)
Definition write_grammar (tc : Lseek07.tcase) (x : Z * Z) : G (Z * Z) :=
  answer (fun r => ret r =? 3) ;; good ;; o ← good;
  answer (fun r => (ret r =? Lseek07.exp_size tc) && String.eqb (c_string (d_text r)) (Lseek07.exp_data tc)) ;;
  mret (Lseek07.set tc (ret o) x).

Definition lseek07_grammar : G unit :=
  tests_grammar
    (a ← good; b ← good; answer (fun r => ret r =? 7) ;; answer (fun r => ret r =? 7) ;; mret (ret a, ret b))
    (fun n x =>
       match nth_error Lseek07.tcases (Z.to_nat n) with
       | Some tc => answer (fun r => ret r =? Lseek07.exp_off tc) ;; write_grammar tc x
       | None => mret x
       end) 2
    (fun x => good_if (0 <? x.1) ;; good_if (0 <? x.2)).

(** ** The verdicts *)

Ltac unfold_verdict ::= unfold strict, anything, fails_with, failed, nonzero in *.

#[local] Arguments Z.eqb : simpl never.
#[local] Arguments String.eqb : simpl never.

Lemma lseek01_judges : judges Lseek01.main clean (accepts lseek01_grammar).
Proof.
  apply run_tests_follow; unfold Lseek01.setup, Lseek01.verify_lseek, Lseek01.verify, Lseek01.cleanup; unfold_grammar.
  - follow_path.
  - intros fd n Hn. assert (n = 0 \/ n = 1 \/ n = 2 \/ n = 3) as [-> | [-> | [-> | ->]]] by (cbn in *; lia);
      number_cases; cbn [nth_error Lseek01.tcases Lseek01.off Lseek01.whence Lseek01.exp_off Lseek01.exp_size Lseek01.exp_data];
      unfold Lseek01.incorrect; follow_path.
  - intros fd. follow_path.
Qed.

Lemma close02_follows fd : follows (Lseek02.close_fd fd) (good_if (0 <? fd)).
Proof. unfold Lseek02.close_fd; unfold_grammar. follow_path. Qed.

Lemma cleanup02_follows x : follows (Lseek02.cleanup x) (closes_grammar x).
Proof.
  unfold Lseek02.cleanup, closes_grammar.
  do 4 (apply follows_bind; [apply close02_follows|intros ?]). apply close02_follows.
Qed.

Lemma verify02_follows fd whence e : follows (Lseek02.verify fd whence e) (answer (fails_with e) ;; mret tt).
Proof. unfold Lseek02.verify. follow_path. Qed.

Lemma lseek02_judges : judges Lseek02.main clean (accepts lseek02_grammar).
Proof.
  apply run_tests_follow; [| |intros x; apply cleanup02_follows].
  - unfold Lseek02.setup; unfold_grammar. apply follows_bind; [eapply follows_safe; apply follows_ret|]. intros o.
    follow_steps ltac:(apply cleanup02_follows).
  - intros x n Hn. unfold Lseek02.verify_lseek.
    assert (Hk : forall k, (k < 15)%nat -> follows
      (match nth_error Lseek02.tcases k with
       | Some (fd, whence, exp_err) => Lseek02.verify (fd x) whence exp_err | None => mret tt end)
      (answer (fails_with (lseek02_error (Z.of_nat k))) ;; mret tt)).
    { intros k Hk. do 15 (destruct k as [|k]; [apply verify02_follows|]). lia. }
    specialize (Hk (Z.to_nat n)). rewrite Z2Nat.id in Hk by lia. apply Hk. cbn in Hn. lia.
Qed.

Lemma close07_follows fd : follows (Lseek07.close_fd fd) (good_if (0 <? fd)).
Proof. unfold Lseek07.close_fd; unfold_grammar. follow_path. Qed.

Lemma cleanup07_follows x : follows (Lseek07.cleanup x) (good_if (0 <? x.1) ;; good_if (0 <? x.2)).
Proof. apply follows_bind; [apply close07_follows|]. intros _. apply close07_follows. Qed.

Lemma write_follows tc x : follows (Lseek07.write_and_read tc x) (write_grammar tc x).
Proof.
  unfold Lseek07.write_and_read, write_grammar; unfold_grammar. cbv zeta.
  follow_path_with ltac:(apply cleanup07_follows).
Qed.

Lemma verify07_follows tc x : Lseek07.exp_off tc <> -1 ->
  follows (Lseek07.verify tc x) (answer (fun r => ret r =? Lseek07.exp_off tc) ;; write_grammar tc x).
Proof.
  intros Ho. apply follows_judged; intros r Hr.
  - rewrite Hr. unfold failed. apply Z.eqb_eq in Hr. rewrite (proj2 (Z.eqb_neq _ _)) by congruence. apply write_follows.
  - rewrite Hr. unfold none. cbn [negb]. destruct (failed r); follow_path.
Qed.

Lemma lseek07_judges : judges Lseek07.main clean (accepts lseek07_grammar).
Proof.
  apply run_tests_judges; [| |intros x; apply cleanup07_follows].
  - unfold Lseek07.setup; unfold_grammar. cbv zeta. apply follows_bind; [eapply follows_safe; apply follows_ret|]. intros a.
    follow_steps ltac:(apply cleanup07_follows).
  - intros n x Hn. unfold Lseek07.verify_lseek.
    assert (n = 0 \/ n = 1) as [-> | ->] by (cbn in *; lia); number_cases; by apply verify07_follows.
Qed.

Definition seek_contracts : list test_spec :=
  [(Lseek01.main, everywhere, accepts lseek01_grammar); (Lseek02.main, everywhere, accepts lseek02_grammar);
   (Lseek07.main, everywhere, accepts lseek07_grammar)].

(** C16: on any system, whatever it answers, a run of one of the fourteen tests of dup and dup2,
    of lseek01.c, lseek02.c or lseek07.c that stays within what C defines ends, and its reports hold
    no failure exactly if the grammar of the test accepts the answers (a run that leaves it ends in
    [undefined], and nothing is said of its reports); dup06.c:
    if the file could be created and it and its duplicates are as many as the descriptors that
    were free; dup205.c: if each duplicate has the number that was asked for and the first that is
    refused, with one of three errors, is that of the first number that is no descriptor.  All runs
    of fourteen of the seventeen are defined.  Not defined are those of dup06.c in which [malloc]
    fails, which it does not check, or the size of the descriptor table plus 5 is not positive or
    not an int; of dup205.c, in which that size plus 10 is not an int or the file gets a descriptor
    that is no index of the array ([fildes[fildes[0]]]); of dup03.c, in which the allocation
    succeeds for a number of descriptors that is not positive or not an int.  [bufs]: what the
    arrays of dup07.c hold. *)
Theorem dup_and_seek_kept bufs : Forall spec_kept (dup_contracts bufs ++ seek_contracts).
Proof.
  apply Forall_app_2; [apply dup_contracts_kept|].
  repeat apply List.Forall_cons; try apply List.Forall_nil;
    apply judges_anywhere; auto using lseek01_judges, lseek02_judges, lseek07_judges.
Qed.
