(* ===== verification/SeekHoles.v ===== *)
(** * lseek11.c: data and holes

    Model of [src/original tests/lseek/lseek11.c]: SEEK_DATA and SEEK_HOLE in a file with data
    every ten blocks.  The size of a block, the least amount of data the file system stores, is
    found by [get_blocksize]: a byte is written at offsets that double until SEEK_DATA no
    longer answers 0, and a bisection confirms the result.

    Offsets have 64 bits and stay far below 2^63 here; [shift], which is an int, is wrapped. *)

From S2P Require Import Prelude Tst Process Explore Prog Checker Wp Alone Ends FileSys RecordLocks.
From S2P Require Import Ltp Transcript Judge Grammar.

Definition SEEK_DATA : Z := 3.
Definition SEEK_HOLE : Z := 4.
Definition EOPNOTSUPP : Z := 95.

Inductive hcall :=
| HOpen (p : string) (flags mode : Z)
| HFstat (fd : Z)
| HFtruncate (fd len : Z)
| HPwrite (fd : Z) (b : string) (n off : Z)
| HFsync (fd : Z)
| HLseek (fd off whence : Z)
| HWrite (fd : Z) (b : string) (n : Z)
| HRead (fd n : Z)
| HClose (fd : Z).

(** The value returned and [errno]; the bytes read; [st_blksize]. *)
Record hreply := HReply { h_ret : Z; h_errno : Z; h_text : string; h_blksize : Z }.

#[export] Instance hreply_reply : Reply hreply := {| ret := h_ret; errno := h_errno |}.

Abbreviation P := (M hcall hreply unit).

(** ** The program *)

Definition UNIT_COUNT : nat := 3.
Definition UNIT_BLOCKS : Z := 10.
Definition FILE_BLOCKS : Z := UNIT_BLOCKS * Z.of_nat UNIT_COUNT.

Record tparam := Tparam { startblock : Z; offset : Z; whence : Z; data : option string; count : Z }.

Definition tparams : list tparam :=
  [Tparam 0 0 SEEK_DATA (Some "data01") 6;
   Tparam 0 4 SEEK_DATA (Some "01suffix") 8;
   Tparam 0 0 SEEK_HOLE (Some "") 1023;
   Tparam 0 4 SEEK_HOLE (Some "") 1023;
   Tparam 1 0 SEEK_HOLE (Some "") 1023;
   Tparam 1 128 SEEK_HOLE (Some "") 1023;
   Tparam 1 0 SEEK_DATA (Some "data02") 6;
   Tparam UNIT_BLOCKS (-1) SEEK_DATA (Some "data02") 6;
   Tparam UNIT_BLOCKS 0 SEEK_DATA (Some "data02") 6;
   Tparam UNIT_BLOCKS 4 SEEK_DATA (Some "02suffix") 8;
   Tparam UNIT_BLOCKS 0 SEEK_HOLE (Some "") 1023;
   Tparam UNIT_BLOCKS 4 SEEK_HOLE (Some "") 1023;
   Tparam (UNIT_BLOCKS + 1) 128 SEEK_HOLE (Some "") 1023;
   Tparam (UNIT_BLOCKS + 1) 128 SEEK_DATA (Some "data03") 6;
   Tparam FILE_BLOCKS (-128) SEEK_HOLE None 0]%string.

Definition cleanup (fd : Z) : P unit := safe_warn "close" (HClose fd).

(** [tst_brk(t | TERRNO, ...)] *)
Definition tst_brk_err {A} (fd : Z) (t : ttype) (r : hreply) (fmt : string) : P A :=
  tst_res_err t r fmt [] ;; cleanup fd ;; tst_exit.

(** An empty file, but for one byte at [offset]. *)
Definition one_byte (fd offset : Z) : P unit :=
  safe (cleanup fd) "ftruncate" (HFtruncate fd 0) ;;
  safe_all (cleanup fd) "pwrite" (HPwrite fd "a" 1 offset) 1 ;;
  safe (cleanup fd) "fsync" (HFsync fd) ;;
  mret tt.

(** The first loop of get_blocksize, over [pos] and [offset]. *)
Definition double (blksize fd : Z) (x : Z * Z) : P (Z * Z + Z * Z) :=
  let '(pos, offset) := x in
  if (pos =? 0) && (offset <? blksize * 2) then
    let offset := Z.shiftl offset 1 in
    one_byte fd offset ;;
    r ← call (HLseek fd 0 SEEK_DATA);
    (if ret r =? -1 then
       if (errno r =? EINVAL) || (errno r =? EOPNOTSUPP)
       then tst_brk_err fd TCONF r "SEEK_DATA and SEEK_HOLE not implemented"
       else tst_brk_err fd TBROK r "SEEK_DATA failed"
     else mret (inl (ret r, offset)))
  else mret (inr (pos, offset)).

(** The second loop, over [pos], [offset] and [shift]. *)
Definition bisect (blksize fd : Z) (x : Z * Z * Z) : P (Z * Z * Z + Z * Z * Z) :=
  let '(pos, offset, shift) := x in
  if negb (shift =? 0) && (offset <? blksize * 2) then
    one_byte fd offset ;;
    r ← safe (cleanup fd) "lseek" (HLseek fd 0 SEEK_DATA);
    mret (inl (ret r, offset + (if ret r =? 0 then shift else - shift), Z.shiftr shift 1))
  else mret (inr (pos, offset, shift)).

(** What follows the loops: the size of a block, if it is not larger than [st_blksize]. *)
Definition settle (blksize fd : Z) (y : Z * Z * Z) : P Z :=
  let '(pos, offset, shift) := y in
  let block_size := if shift =? 0 then offset + (if pos =? 0 then 1 else 0) else offset in
  when (blksize <? block_size)
    (tst_brk (cleanup fd) TCONF
       "filesystem maybe use generic_file_llseek(), not support real SEEK_DATA/SEEK_HOLE" []) ;;
  mret block_size.

(** get_blocksize after [fstat]. *)
Definition find_block (blksize fd : Z) : P Z :=
  x ← while_ (double blksize fd) (0, 128);
  y ← while_ (bisect blksize fd) (x.1, x.2, swrap 32 (Z.shiftr x.2 2));
  settle blksize fd y.

Definition get_blocksize (fd : Z) : P Z :=
  st ← safe (cleanup fd) "fstat" (HFstat fd);
  find_block (h_blksize st) fd.

(** [%02d] for a number below 10. *)
Definition write_data (fd num : Z) : P unit :=
  let buf := ("data0" ++ pretty num ++ "suffix")%string in
  safe_all (cleanup fd) "write" (HWrite fd buf (strlen buf)) (strlen buf) ;; mret tt.

Definition setup : P (Z * Z) :=
  pid ← getpid;
  let fname := ("tfile_lseek_" ++ pretty pid)%string in
  o ← safe (cleanup 0) "open" (HOpen fname (Z.lor O_RDWR O_CREAT) 438);
  let fd := ret o in
  block_size ← get_blocksize fd;
  tst_res TINFO "The block size is %lld" [Num block_size] ;;
  safe (cleanup fd) "ftruncate" (HFtruncate fd (FILE_BLOCKS * block_size)) ;;
  safe (cleanup fd) "lseek" (HLseek fd 0 SEEK_HOLE) ;;
  for_from 0 UNIT_COUNT (fun i =>
    safe (cleanup fd) "lseek" (HLseek fd (UNIT_BLOCKS * block_size * i) SEEK_SET) ;;
    write_data fd (i + 1)) ;;
  safe (cleanup fd) "lseek" (HLseek fd (-128) SEEK_END) ;;
  write_data fd (Z.of_nat UNIT_COUNT + 1) ;;
  safe (cleanup fd) "fsync" (HFsync fd) ;;
  safe (cleanup fd) "lseek" (HLseek fd 0 SEEK_SET) ;;
  mret (fd, block_size).

Definition verify (tp : tparam) (x : Z * Z) (n : Z) : P unit :=
  let fd := x.1 in
  r ← safe (cleanup fd) "lseek" (HLseek fd (startblock tp * x.2 + offset tp) (whence tp));
  rc ←
    match data tp with
    | Some data =>
        b ← safe_all (cleanup fd) "read" (HRead fd (count tp)) (count tp);
        mret (if String.eqb (c_string (h_text b)) data then 0 else 1)
    | None =>
        e ← safe (cleanup fd) "lseek" (HLseek fd 0 SEEK_END);
        mret (if ret r =? ret e then 0 else 1)
    end;
  let name := Str (if whence tp =? SEEK_DATA then "SEEK_DATA" else "SEEK_HOLE") in
  if negb (rc =? 0) then
    tst_res TFAIL "The %uth test failed: %s from startblock %lld offset %lld, expect '%s' return '%s'"
      [Num n; name; Num (startblock tp); Num (offset tp)]
  else
    tst_res TPASS "The %uth test passed: %s from startblock %lld offset %lld"
      [Num n; name; Num (startblock tp); Num (offset tp)].

Definition test_lseek (x : Z * Z) (n : Z) : P unit :=
  match nth_error tparams (Z.to_nat n) with Some tp => verify tp x n | None => mret tt end.

Definition main : P unit := run_tests setup test_lseek (length tparams) (fun x => cleanup x.1).

(** ** The size of a block *)

(** A call that does what it is asked for. *)
Definition served (e : hcall * hreply) : bool :=
  match e.1 with HPwrite _ _ n _ => ret e.2 =? n | _ => negb (failed e.2) end.

(** The data of a file system are kept in blocks of [B] bytes: after one byte has been written at
    [x], SEEK_DATA answers the start of its block; all calls succeed. *)
Definition documented (B : Z) (d : list (hcall * hreply)) : Prop :=
  forallb served d = true /\
  forall d1 fd b n x r1 fd' r2 fd'' r3 d2,
    d = d1 ++ (HPwrite fd b n x, r1) :: (HFsync fd', r2) :: (HLseek fd'' 0 SEEK_DATA, r3) :: d2 ->
    ret r3 = x / B * B.

Lemma documented_app B d1 d2 : documented B (d1 ++ d2) -> documented B d1 /\ documented B d2.
Proof.
  intros [Hs H]. rewrite forallb_app, andb_true_iff in Hs. destruct Hs as [H1 H2].
  split; (split; [done|]); intros a fd b n x r1 fd' r2 fd'' r3 c ->.
  - rewrite <- app_assoc in H. by eapply (H a).
  - rewrite app_assoc in H. by eapply (H (d1 ++ a)).
Qed.

(** One round of a loop. *)
Definition written (fd x : Z) (r1 r2 r3 : hreply) : list (hcall * hreply) :=
  [(HFtruncate fd 0, r1); (HPwrite fd "a" 1 x, r2); (HFsync fd, r3)].

Lemma one_byte_dx B fd x d l :
  dx (one_byte fd x) d l
    (fun _ => adds (fun d1 l1 => l1 = [] /\ exists r1 r2 r3, d1 = written fd x r1 r2 r3) d l)
    (adds (fun d1 l1 => ~ documented B d1) d l).
Proof.
  unfold one_byte, cleanup. dx_steps; path_added; [split; [done|]; by do 3 eexists|..]; intros [Hs _];
    cbn [app forallb served fst snd] in Hs; rewrite ?andb_true_iff, ?negb_true_iff in Hs; destruct_and?; congruence.
Qed.

Lemma seek_documented B fd x r1 r2 r3 fd' r d :
  documented B ((written fd x r1 r2 r3 ++ [(HLseek fd' 0 SEEK_DATA, r)]) ++ d) -> ret r = x / B * B.
Proof. intros [_ H]. by eapply (H [(HFtruncate fd 0, r1)]). Qed.

Section Search.
Context (k blk fd : Z) (Hk : 8 <= k) (Hblk : 2 ^ k <= blk) (Hmax : blk <= 2 ^ 30).
Implicit Types (d : list (hcall * hreply)) (l : list entry).

Local Abbreviation B := (2 ^ k).

Lemma block_of_below x : 0 <= x < B -> x / B * B = 0.
Proof. intros H. by rewrite Z.div_small. Qed.

Lemma block_of_first : B / B * B = B.
Proof. rewrite Z.div_same; [lia|]. assert (0 < B) by (apply Z.pow_pos_nonneg; lia). lia. Qed.

(** A round of the first loop. *)
Lemma double_dx pos offset d l :
  dx (double blk fd (pos, offset)) d l
    (fun r => adds (fun d1 l1 => l1 = [] /\
       match r with
       | inr x => x = (pos, offset) /\ d1 = [] /\ ~ (pos = 0 /\ offset < blk * 2)
       | inl x => pos = 0 /\ offset < blk * 2 /\ x.2 = 2 * offset
                  /\ forall d2, documented B (d1 ++ d2) -> x.1 = 2 * offset / B * B
       end) d l)
    (adds (fun d1 l1 => ~ documented B d1) d l).
Proof.
  unfold double. destruct (Z.eqb_spec pos 0) as [E1|E1], (Z.ltb_spec offset (blk * 2)) as [E2|E2]; cbn [andb].
  2-4: apply dx_ret; exists [], []; rewrite !app_nil_r; repeat split; lia.
  cbv zeta. replace (Z.shiftl offset 1) with (2 * offset) by (rewrite Z.shiftl_mul_pow2 by lia; lia).
  apply dx_bind. eapply dx_mono; [| |apply one_byte_dx]; [|done].
  intros _ d' l' (a & b & -> & -> & -> & r1 & r2 & r3 & ->). unfold tst_brk_err, cleanup. dx_steps; path_added.
  1-4: (intros [Hs _]; rewrite !forallb_app in Hs; cbn [forallb served fst snd] in Hs;
        rewrite ?andb_true_iff, ?negb_true_iff in Hs; unfold failed in Hs; destruct_and?; congruence).
  split; [done|]. split; [done|]. split; [done|]. split; [done|]. intros d2 Hd. by eapply seek_documented.
Qed.

(** A round of the second one. *)
Lemma bisect_dx pos offset shift d l :
  dx (bisect blk fd (pos, offset, shift)) d l
    (fun r => adds (fun d1 l1 => l1 = [] /\
       match r with
       | inr x => x = (pos, offset, shift) /\ d1 = [] /\ ~ (shift <> 0 /\ offset < blk * 2)
       | inl x => shift <> 0 /\ exists p, x = (p, offset + (if p =? 0 then shift else - shift), Z.shiftr shift 1)
                  /\ forall d2, documented B (d1 ++ d2) -> p = offset / B * B
       end) d l)
    (adds (fun d1 l1 => ~ documented B d1) d l).
Proof.
  unfold bisect. destruct (Z.eqb_spec shift 0) as [E1|E1], (Z.ltb_spec offset (blk * 2)) as [E2|E2]; cbn [andb negb].
  1,2,4: apply dx_ret; exists [], []; rewrite !app_nil_r; repeat split; lia.
  apply dx_bind. eapply dx_mono; [| |apply one_byte_dx]; [|done].
  intros _ d' l' (a & b & -> & -> & -> & r1 & r2 & r3 & ->). unfold cleanup. dx_steps; path_added.
  - split; [done|]. split; [done|]. exists (ret r). split; [done|]. intros d2 Hd. by eapply seek_documented.
  - intros [Hs _]; rewrite !forallb_app in Hs; cbn [forallb served fst snd] in Hs;
      rewrite ?andb_true_iff, ?negb_true_iff in Hs; unfold failed in *; destruct_and?; congruence.
  - intros [Hs _]; rewrite !forallb_app in Hs; cbn [forallb served fst snd] in Hs;
      rewrite ?andb_true_iff, ?negb_true_iff in Hs; unfold failed in *; destruct_and?; congruence.
Qed.

Lemma pow_step j : 0 <= j -> 2 * 2 ^ j = 2 ^ (j + 1).
Proof. intros H. rewrite Z.pow_add_r by lia. lia. Qed.

(** The first loop ends with the size of a block, after at most 25 rounds. *)
Lemma double_loop n j pos d l :
  7 <= j -> j + Z.of_nat n = 32 ->
  dx (while_ (double blk fd) (pos, 2 ^ j)) d l
    (fun x => adds (fun d1 l1 => l1 = [] /\ (exists i, 7 <= i <= 32 /\ x.2 = 2 ^ i) /\
       (documented B d1 -> (pos = 0 /\ j < k) \/ (pos <> 0 /\ j = k) -> x.2 = B)) d l)
    (adds (fun d1 l1 => ~ documented B d1) d l).
Proof.
  revert j pos d l. induction n as [|n IH]; intros j pos d l Hj Hn; apply dx_while;
    (eapply dx_mono; [| |apply double_dx]; [|done]);
    intros [x|x] d' l' (a & b & -> & -> & -> & H).
  1: { destruct H as (_ & H & _). assert (2 ^ 32 <= 2 ^ j) by (apply Z.pow_le_mono_r; lia).
       change (2 ^ 32) with (4 * 2 ^ 30) in *. lia. }
  2: { destruct H as (-> & Ho & Hx & Hd), x as [p o]. cbn [fst snd] in *. subst o. rewrite pow_step in * by lia.
       eapply dx_mono; [| |apply (IH (j + 1)); lia].
       - intros x d2 l2 (a2 & b2 & -> & -> & -> & Hi & Hx). rewrite <- !app_assoc. path_added. split; [done|]. split; [exact Hi|].
         intros Hdoc Hc. destruct (documented_app _ _ _ Hdoc) as [_ Hdoc2]. apply (Hx Hdoc2). rewrite (Hd _ Hdoc).
         destruct Hc as [[_ Hc]|[? _]]; [|done]. destruct (Z.eq_dec (j + 1) k) as [->|Hne].
         + right. split; [|done]. rewrite block_of_first by lia. apply Z.pow_nonzero; lia.
         + left. split; [|lia]. apply block_of_below. split; [by apply Z.pow_nonneg|]. apply Z.pow_lt_mono_r; lia.
       - intros d2 l2 (a2 & b2 & -> & -> & Hdoc). rewrite <- !app_assoc. path_added.
         intros [_ H2]%documented_app. by apply Hdoc. }
  all: destruct H as (-> & -> & Hc); exists [], []; rewrite !app_nil_r; cbn [snd]; (split; [done|]); (split; [done|]);
    (split; [done|]); (split; [exists j; lia|]); intros _ [[-> Hjk]|[_ ->]]; [|done]; exfalso; apply Hc; (split; [done|]);
    assert (2 ^ j < B) by (apply Z.pow_lt_mono_r; lia); lia.
Qed.

(** The second loop closes the gap of [2 ^ (s + 1)] below the size of a block. *)
Lemma bisect_loop s pos offset d l :
  dx (while_ (bisect blk fd) (pos, offset, 2 ^ Z.of_nat s)) d l
    (fun x => adds (fun d1 l1 => l1 = [] /\
       (documented B d1 -> Z.of_nat s + 1 <= k -> offset = B - 2 ^ (Z.of_nat s + 1) -> x = (0, B - 1, 0))) d l)
    (adds (fun d1 l1 => ~ documented B d1) d l).
Proof.
  revert pos offset d l. induction s as [|s IH]; intros pos offset d l; apply dx_while;
    (eapply dx_mono; [| |apply bisect_dx]; [|done]);
    intros [x|x] d' l' (a & b & -> & -> & -> & H).
  2,4: destruct H as (-> & -> & Hc); exists [], []; rewrite !app_nil_r; repeat (split; [done|]); intros _ _ ->; exfalso;
    apply Hc; (split; [apply Z.pow_nonzero; lia|]);
    match goal with |- _ - 2 ^ ?e < _ => pose proof (Z.pow_pos_nonneg 2 e) end; lia.
  all: destruct H as (_ & p & -> & Hp).
  - change (Z.shiftr (2 ^ Z.of_nat 0) 1) with 0. change (2 ^ Z.of_nat 0) with 1. change (2 ^ (Z.of_nat 0 + 1)) with 2.
    apply dx_while. eapply dx_mono; [| |apply bisect_dx].
    + intros [x|x] d2 l2 (a2 & b2 & -> & -> & -> & H); [by destruct H as [? _]|]. destruct H as (-> & -> & _).
      rewrite <- !app_assoc. path_added. split; [done|]. intros Hdoc _ ->. rewrite app_nil_r in Hdoc.
      assert (p = 0) as ->.
      { rewrite (Hp []) by (by rewrite app_nil_r). apply block_of_below. assert (2 ^ 8 <= B) by (apply Z.pow_le_mono_r; lia). lia. }
      cbn. f_equal. f_equal. lia.
    + intros d2 l2 (a2 & b2 & -> & -> & Hdoc). rewrite <- !app_assoc. path_added.
      intros [_ H2]%documented_app. by apply Hdoc.
  - assert (Z.shiftr (2 ^ Z.of_nat (S s)) 1 = 2 ^ Z.of_nat s) as ->.
    { rewrite Z.shiftr_div_pow2 by lia. change (2 ^ 1) with 2. rewrite Nat2Z.inj_succ, Z.pow_succ_r by lia.
      by rewrite Z.mul_comm, Z.div_mul. }
    eapply dx_mono; [| |apply IH].
    + intros x d2 l2 (a2 & b2 & -> & -> & -> & Hx). rewrite <- !app_assoc. path_added. split; [done|].
      intros Hdoc Hs Ho. destruct (documented_app _ _ _ Hdoc) as [_ Hdoc2]. apply (Hx Hdoc2); [lia|].
      assert (E : 2 ^ (Z.of_nat (S s) + 1) = 2 * 2 ^ Z.of_nat (S s)) by (rewrite <- Z.pow_succ_r by lia; f_equal; lia).
      assert (0 < 2 ^ Z.of_nat (S s)) by (apply Z.pow_pos_nonneg; lia).
      assert (2 ^ (Z.of_nat (S s) + 1) <= B) by (apply Z.pow_le_mono_r; lia).
      rewrite (Hp _ Hdoc), block_of_below by lia. cbn [Z.eqb].
      replace (Z.of_nat s + 1) with (Z.of_nat (S s)) by lia. lia.
    + intros d2 l2 (a2 & b2 & -> & -> & Hdoc). rewrite <- !app_assoc. path_added.
      intros [_ H2]%documented_app. by apply Hdoc.
Qed.

Lemma second_loop i pos d l :
  7 <= i ->
  dx (while_ (bisect blk fd) (pos, 2 ^ i, 2 ^ (i - 2))) d l
    (fun x => adds (fun d1 l1 => l1 = [] /\ (documented B d1 -> i = k -> x = (0, B - 1, 0))) d l)
    (adds (fun d1 l1 => ~ documented B d1) d l).
Proof.
  intros Hi. apply dx_while. eapply dx_mono; [| |apply bisect_dx]; [|done].
  intros [x|x] d' l' (a & b & -> & -> & -> & H).
  - destruct H as (_ & p & -> & Hp).
    assert (Z.shiftr (2 ^ (i - 2)) 1 = 2 ^ Z.of_nat (Z.to_nat (i - 3))) as ->.
    { rewrite Z.shiftr_div_pow2, <- Z.pow_sub_r by lia. f_equal. lia. }
    eapply dx_mono; [| |apply bisect_loop].
    + intros x d2 l2 (a2 & b2 & -> & -> & -> & Hx). rewrite <- !app_assoc. path_added. split; [done|].
      intros Hdoc ->. destruct (documented_app _ _ _ Hdoc) as [_ Hdoc2]. apply (Hx Hdoc2); [lia|].
      rewrite (Hp _ Hdoc), block_of_first by lia. rewrite (proj2 (Z.eqb_neq B 0)) by (apply Z.pow_nonzero; lia).
      replace (Z.of_nat (Z.to_nat (k - 3)) + 1) with (k - 2) by lia. lia.
    + intros d2 l2 (a2 & b2 & -> & -> & Hdoc). rewrite <- !app_assoc. path_added.
      intros [_ H2]%documented_app. by apply Hdoc.
  - destruct H as (-> & -> & Hc). exists [], []. rewrite !app_nil_r. repeat (split; [done|]). intros _ ->. exfalso.
    apply Hc. split; [apply Z.pow_nonzero; lia|]. pose proof (Z.pow_pos_nonneg 2 k). lia.
Qed.

Lemma settle_dx y d l :
  dx (settle blk fd y) d l
    (fun v => adds (fun d1 l1 => y = (0, B - 1, 0) -> v = B /\ l1 = []) d l)
    (adds (fun d1 l1 => y <> (0, B - 1, 0)) d l).
Proof.
  destruct y as [[pos offset] shift]. unfold settle, tst_brk, cleanup. dx_steps; path_added.
  all: try (intros [= -> -> ->]; cbn [Z.eqb] in *; lia).
  intros [= -> -> ->]. cbn [Z.eqb]. split; [lia|done].
Qed.
End Search.

(** C17: On a file system that keeps data in blocks of [2 ^ k] bytes, at least 256 and at most
    [st_blksize], get_blocksize of lseek11.c finds the size of a block: whatever is answered
    its loops end, and if the answers are as documented it returns [2 ^ k] without a report. *)
Theorem find_block_exact k blk fd d l :
  8 <= k -> 2 ^ k <= blk -> blk <= 2 ^ 30 ->
  dx (find_block blk fd) d l
    (fun v => adds (fun d1 l1 => documented (2 ^ k) d1 -> v = 2 ^ k /\ l1 = []) d l)
    (adds (fun d1 l1 => ~ documented (2 ^ k) d1) d l).
Proof.
  intros Hk Hblk Hmax. unfold find_block. apply dx_bind. change 128 with (2 ^ 7).
  eapply dx_mono; [| |apply (double_loop k blk fd Hk Hblk Hmax 25); lia]; [|done].
  intros [p o] d' l' (a & b & -> & -> & -> & (i & Hi & Ho) & Hx). cbn [fst snd] in *. subst o.
  assert (swrap 32 (Z.shiftr (2 ^ i) 2) = 2 ^ (i - 2)) as ->.
  { rewrite Z.shiftr_div_pow2, <- Z.pow_sub_r by lia. assert (2 ^ (i - 2) <= 2 ^ 30) by (apply Z.pow_le_mono_r; lia).
    assert (0 < 2 ^ (i - 2)) by (apply Z.pow_pos_nonneg; lia).
    apply swrap_small; [lia|]. change (2 ^ (32 - 1)) with (2 * 2 ^ 30). lia. }
  apply dx_bind. eapply dx_mono; [| |apply (second_loop k blk fd); lia].
  - intros y d2 l2 (a2 & b2 & -> & -> & -> & Hy).
    assert (Hend : documented (2 ^ k) (a ++ a2) -> y = (0, 2 ^ k - 1, 0)).
    { intros [H1 H2]%documented_app. apply (Hy H2). apply (Z.pow_inj_r 2); [lia..|]. apply Hx; [done|]. left. lia. }
    eapply dx_mono; [| |apply (settle_dx k blk fd); done]; [intros v|]; intros d3 l3 (a3 & b3 & -> & -> & Hv);
      rewrite <- !app_assoc; path_added; rewrite app_assoc; intros [H1 H2]%documented_app; by apply Hv, Hend.
  - intros d2 l2 (a2 & b2 & -> & -> & Hd). rewrite <- !app_assoc. path_added.
    intros [_ H2]%documented_app. by apply Hd.
Qed.

Lemma find_block_exact_witness :
  2 ^ 12 <= 4096 /\
  dx (find_block 4096 3) [] []
    (fun v => adds (fun d1 l1 => documented (2 ^ 12) d1 -> v = 2 ^ 12 /\ l1 = []) [] [])
    (adds (fun d1 l1 => ~ documented (2 ^ 12) d1) [] []).
Proof. split; [lia|]. apply (find_block_exact 12 4096 3); lia. Defined.

(** ** The verdict of a test *)

Definition worked : grammar hcall hreply hreply := answer (fun r => negb (failed r)).

Definition verify_grammar (tp : tparam) : grammar hcall hreply unit :=
  r ← worked;
  match data tp with
  | Some s => answer (fun b => (ret b =? count tp) && String.eqb (c_string (h_text b)) s) ;; mret tt
  | None => e ← worked; guard (ret r =? ret e)
  end.

Ltac unfold_verdict ::= unfold fails_with, failed, nonzero in *.

#[local] Arguments Z.eqb : simpl never.
#[local] Arguments String.eqb : simpl never.

(** A test of lseek11.c passes exactly if SEEK_DATA or SEEK_HOLE leads to the text of its entry, or
    to the end of the file. *)
Theorem verify_verdict tp x n : follows (verify tp x n) (verify_grammar tp).
Proof.
  unfold verify, verify_grammar, worked, cleanup. destruct (data tp); follow_path.
Qed.
