(* ===== verification/DescriptorRuns.v ===== *)
(** * The tests of descriptors on a system, and what they do not notice

    On every [DescriptorPlatform] thirty-three of the original programs report no failure and
    seventeen independent programs print that the test succeeded; two cannot
    ([descriptor_tests_pass]).  Then systems with one defect each, on which an original
    program fails and the independent one does not notice, or neither does. *)

From S2P Require Import Prelude Tst Process Explore Prog Checker Wp Alone Ends FileSys RecordLocks.
From S2P Require Import Ltp Transcript Judge Descriptors FcntlBasic Fcntl01 ReadWrite WriteTests DupTests SeekTests.

(** [junk], [text] and [bufs]: what the arrays of write04.c, read04.c and dup07.c hold before they
    are written; [addr]: the address of the array of the independent read01.c as a number.  The
    element of the array of fcntl01.c that is not set, and is closed, is 7. *)
Section Programs.
Variables (junk addr : Z) (text : string) (bufs : Z * Z).

Definition originals : list (P unit) :=
  [Fcntl01.main 7 2; Fcntl02.main; Fcntl03.main; Fcntl04.main; Fcntl05.main; Fcntl06.main; Fcntl08.main 2;
   Fcntl09.main F_SETLK 2; Fcntl09.main F_SETLKW 2; Close01.main; Close02.main; Read03.main;
   Read04.main text; Write01.main; Write02.main; Write03.main; Write04.main junk PAGE; Write05.main;
   Write06.main; Dup01.main; Dup02.main; Dup04.main; Dup05.main; Dup07.main bufs; Dup201.main; Dup202.main;
   Dup203.main; Dup204.main; Dup206.main; Dup207.main; Lseek01.main; Lseek02.main; Lseek07.main].

(** Without fcntl06.c, which never prints that it succeeded, and write06.c, which writes to
    null. *)
Definition ports : list (P unit) :=
  [Port01.main 7; Port02.main; Port03.main; Port04.main; Port05.main; Port08.main;
   Port09.main F_SETLK; Port09.main F_SETLKW; PortClose01.main; PortClose02.main; PortRead01.main addr;
   PortRead03.main; PortRead04.main text; PortWrite01.main; PortWrite02.main; PortWrite04.main junk PAGE;
   PortWrite05.main].

Definition ports_that_fail : list (P unit) := [Port06.main; PortWrite06.main true; PortWrite06.main false].
End Programs.

(** The program ends, and the verdict on its reports is [b]. *)
Definition gets {V} (K : Kernel dcall dreply V) (w : V) (verdict : list entry -> bool) (b : bool) (m : P unit) : Prop :=
  inevitable (H := K) (fun s => s_info (shp s) = ∅ /\ verdict (log_of main_pid (shp s)) = b) (boot main_pid m tt w).

(** *** Defects *)

Section Defects.
Context (f : dcall -> world -> option (dreply * world)).

Definition kernel_with (st : list entry -> Z) : Kernel dcall dreply world :=
  {| k_do _ := f; k_fork _ _ w := w; k_exit _ w := w; tst_status := st |}.
End Defects.

(** The answers are changed. *)
Definition answering (g : dcall -> dreply -> dreply) (c : dcall) (w : world) : option (dreply * world) :=
  (fun x => (g c x.1, x.2)) <$> desc_do plain_choices c w.

Definition EIO : Z := 5.

(** Every error is EIO. *)
Definition one_error (_ : dcall) (r : dreply) : dreply := if failed r then dfails EIO else r.

(** F_GETLK writes nothing back that shows a free region. *)
Definition no_writeback (c : dcall) (r : dreply) : dreply :=
  match c with DFcntl _ (F_LOCK _ lk) => if d_ret r =? 0 then DReply 0 0 "" lk 0 0 (0, 0) 0 0 else r | _ => r end.

(** A write that should fail with EFAULT or EPIPE succeeds. *)
Definition write_succeeds (c : dcall) (r : dreply) : dreply :=
  match c with
  | DWrite _ _ n => if failed r && ((errno r =? EFAULT) || (errno r =? EPIPE)) then dok n else r
  | _ => r
  end.

(** A socket cannot be closed. *)
Definition sockets_stay (c : dcall) (w : world) : option (dreply * world) :=
  match c with
  | DClose fd =>
      match open_of w fd with
      | Some (_, OpenFile Socket_ _ _) => Some (dfails EIO, w)
      | _ => desc_do plain_choices c w
      end
  | _ => desc_do plain_choices c w
  end.

(** F_SETFL changes nothing. *)
Definition frozen_flags (c : dcall) (w : world) : option (dreply * world) :=
  match c with DFcntl _ (F_SETFL _) => Some (dok 0, w) | _ => desc_do plain_choices c w end.

(** A system, the original test and its independent version. *)
Definition missed_by_ports : list ((dcall -> world -> option (dreply * world)) * P unit * P unit) :=
  let junk := 7 in
  [(answering one_error, Close02.main, PortClose02.main);
   (answering one_error, Read03.main, PortRead03.main);
   (answering one_error, Write04.main junk PAGE, PortWrite04.main junk PAGE);
   (answering no_writeback, Fcntl05.main, Port05.main);
   (sockets_stay, Close01.main, PortClose01.main);
   (answering write_succeeds, Write05.main, PortWrite05.main)].

(** *** Evaluation *)

Definition fuel : nat := Z.to_nat 50000.

(** The verdict of a run. *)
Definition run_verdict (f : dcall -> world -> option (dreply * world)) (verdict : list entry -> bool) (m : P unit)
  : option bool :=
  verdict <$> (snd <$> run_end (K := kernel_with f (fun _ => 0)) fuel (observe (m tt)) world0).

(** A run is a matter of the calls only. *)
Lemma run_end_calls {C R W A} (K1 K2 : Kernel C R W) n (x : node C R A) w :
  (forall c w, k_do (Kernel := K1) main_pid c w = k_do (Kernel := K2) main_pid c w) ->
  run_end (K := K1) n x w = run_end (K := K2) n x w.
Proof.
  intros H. revert x w. induction n as [|n IH]; intros x w; [done|]. destruct x as [r|t|X e k]; [done|apply IH|].
  destruct e; try done; cbn [run_end]; try apply IH; [|by rewrite IH].
  rewrite H. destruct (k_do main_pid c w) as [[r w']|]; [apply IH|done].
Qed.

Lemma run_verdict_ends f verdict b m st :
  run_verdict f verdict m = Some b ->
  exists w l, run_end (K := kernel_with f st) fuel (observe (m tt)) world0 = Some (w, l) /\ verdict l = b.
Proof.
  unfold run_verdict. generalize fuel. intros n H.
  rewrite (run_end_calls (kernel_with f st) (kernel_with f (fun _ => 0))) by done.
  destruct (run_end n (observe (m tt)) world0) as [[w l]|]; [|done]. injection H as H. by exists w, l.
Qed.

(** On a system of this file. *)
Lemma gets_kernel f st verdict b m :
  run_verdict f verdict m = Some b -> gets (kernel_with f st) world0 verdict b m.
Proof.
  intros (w & l & E & <-)%(run_verdict_ends _ _ _ _ st).
  eapply inevitable_mono; [|exact (run_end_ends _ _ _ _ _ _ E)]. intros s [Hi ->]. by split.
Qed.

(** On a platform that behaves like such a system. *)
Lemma gets_platform {V} (K : Kernel dcall dreply V) (w0 : V) `{!DescriptorPlatform K w0} verdict b m :
  gets (desc_kernel desc_choices (@tst_status _ _ _ K)) world0 verdict b m -> gets K w0 verdict b m.
Proof.
  intros H. eapply inevitable_mono;
    [|apply (inevitable_refines K (desc_kernel desc_choices (@tst_status _ _ _ K)) _ _ H); repeat split; apply desc_start].
  intros s (t & (_ & Hs & _) & Hi & Hl). rewrite <- Hs in *. by split.
Qed.

(** ** The reference systems *)

(** A program whose verdict depends on what a system chooses is run call by call. *)
Ltac ex_next :=
  cbv beta;
  lazymatch goal with
  | |- ex (mbind _ _) _ _ _ _ _ => apply ex_bind
  | |- ex (mret _) _ _ _ _ _ => apply ex_sx, sx_ret
  | |- ex (call _) _ _ _ _ _ => apply ex_sx; eapply sx_call; [vm_compute; reflexivity|]
  | |- ex (tst_res _ _ _) _ _ _ _ _ => apply ex_sx, sx_resm
  | |- ex (if ?x =? ?x then _ else _) _ _ _ _ _ => rewrite Z.eqb_refl
  | |- ex (if ?b then _ else _) _ _ _ _ _ => let v := eval vm_compute in b in change b with v; cbv match
  | |- ex tst_exit _ _ _ _ _ => apply ex_exit
  | |- ex (for_from _ _ _) _ _ _ _ _ => cbn [for_from]
  | |- ex (TST_EXP_EQ_LU _ _) _ _ _ _ _ => unfold TST_EXP_EQ_LU; cbn [d_ino]
  | |- ex (safe _ _ _) _ _ _ _ _ => unfold safe
  end.

Section Reference.
Variables (ch : choices) (st : list entry -> Z).
Context `{!Lawful ch}.
Variables (junk addr : Z) (text : string) (bufs : Z * Z).
Abbreviation passes verdict b m := (gets (desc_kernel ch st) world0 verdict b m).

Lemma by_run verdict b m : run_verdict (desc_do ch) verdict m = Some b -> passes verdict b m.
Proof. apply gets_kernel. Qed.

(** The same inode, whatever its number. *)
Lemma dup204_passes : passes clean true Dup204.main.
Proof.
  apply (ex_run (K := desc_kernel ch st) _ _ _ (fun l => clean l = true)).
  unfold Dup204.main, run_tests, Dup204.setup, Dup204.run, Dup204.cleanup, TST_EXP_VAL, call_.
  repeat ex_next. reflexivity.
Qed.

(** For every number of pages. *)
Lemma write04_passes : passes clean true (Write04.main junk PAGE) /\ passes succeeded true (PortWrite04.main junk PAGE).
Proof.
  assert (H : 1 <= ch_pages ch <= 17) by done. revert H.
  split; apply by_run; destruct ch as [ino address pages]; cbn [ch_pages] in *;
    destruct pages as [|n|n]; try lia; do 5 (try destruct n as [n|n|]); try lia; vm_compute; reflexivity.
Qed.

Lemma reference_originals : Forall (gets (desc_kernel ch st) world0 clean true) (originals junk text bufs).
Proof.
  pose proof dup204_passes. pose proof (proj1 write04_passes).
  repeat apply List.Forall_cons; try apply List.Forall_nil; try assumption;
    apply by_run; destruct text; vm_compute; reflexivity.
Qed.

Lemma reference_ports :
  Forall (gets (desc_kernel ch st) world0 succeeded true) (ports junk addr text)
  /\ Forall (gets (desc_kernel ch st) world0 succeeded false) ports_that_fail.
Proof.
  pose proof (proj2 write04_passes).
  split; repeat apply List.Forall_cons; try apply List.Forall_nil; try assumption;
    apply by_run; destruct text, addr; vm_compute; reflexivity.
Qed.
End Reference.

(** ** The programs *)

Lemma all_get {V} (K : Kernel dcall dreply V) (w0 : V) `{!DescriptorPlatform K w0} verdict b ms :
  Forall (gets (desc_kernel desc_choices (@tst_status _ _ _ K)) world0 verdict b) ms -> Forall (gets K w0 verdict b) ms.
Proof. intros H. eapply Forall_impl; [exact H|]. intros m. by apply gets_platform. Qed.

(** C15: on every system that refines the reference of [Descriptors.v] (the lowest free
    descriptor of 1024, the documented errors and no others), with every choice of inode numbers,
    of the addresses mmap gives and of the size of a pipe, from 1 to 17 pages, and whatever the
    arrays on the stack hold, thirty-three original programs end without a failure; seventeen
    independent programs print that the test succeeded; those of fcntl06.c and write06.c never
    do. *)
Theorem descriptor_tests_pass {V} (K : Kernel dcall dreply V) (w0 : V) `{!DescriptorPlatform K w0} junk addr text bufs :
  Forall (gets K w0 clean true) (originals junk text bufs) /\ Forall (gets K w0 succeeded true) (ports junk addr text)
  /\ Forall (gets K w0 succeeded false) ports_that_fail.
Proof.
  split; [|split]; apply (all_get K w0).
  - apply reference_originals; apply desc_lawful.
  - apply reference_ports; apply desc_lawful.
  - apply (reference_ports _ _ 0 0 ""); apply desc_lawful.
Qed.

Lemma descriptor_tests_pass_witness :
  Forall (gets (desc_kernel plain_choices (fun _ => 0)) world0 clean true) (originals 7 "junk" (7, 7))
  /\ Forall (gets (desc_kernel plain_choices (fun _ => 0)) world0 succeeded true) (ports 7 7 "junk")
  /\ Forall (gets (desc_kernel plain_choices (fun _ => 0)) world0 succeeded false) ports_that_fail.
Proof. exact (descriptor_tests_pass (desc_kernel plain_choices (fun _ => 0)) world0 7 7 "junk" (7, 7)). Defined.

(** Six defects that an original test reports and its independent version does not:
    all errors are EIO (close02, read03, write04), F_GETLK does not write back (fcntl05),
    sockets cannot be closed (close01), writes succeed that should fail with EFAULT or EPIPE
    (write05). *)
Theorem ports_miss st :
  Forall (fun '(f, original, port) =>
    gets (kernel_with f st) world0 clean false original /\ gets (kernel_with f st) world0 succeeded true port)
    missed_by_ports.
Proof.
  do 6 (apply List.Forall_cons; [split; apply gets_kernel; vm_compute; reflexivity|]). apply List.Forall_nil.
Qed.

(** Fcntl01.c and its independent version pass on a system on which F_SETFL changes
    nothing: the access mode O_WRONLY alone satisfies their masks. *)
Theorem fcntl01_misses st :
  gets (kernel_with frozen_flags st) world0 clean true (Fcntl01.main 7 1)
  /\ gets (kernel_with frozen_flags st) world0 succeeded true (Port01.main 7).
Proof. split; apply gets_kernel; vm_compute; reflexivity. Qed.
