(* ===== verification/GroupSignals.v ===== *)
(** * Signals to a process group

    The calls of [src/original tests/kill/kill02.c] (signals to a group, pipes
    that do not block, timers) and a reference kernel for them.

    A process takes the signals that have come for it when a call returns: the answer says
    which ([taken]), and the program runs their handlers.  While a handler runs no other
    signal is taken.  A signal without a handler ends the process: its next call is
    answered [Killed].

    A process that waits says so first ([Enter], which comes back at once if a signal is there),
    then waits ([Leave]); so the kernel knows who is at rest.  Time passes when nobody
    has anything to do: a sleep is over, and a timer runs out, when all other processes are at
    rest.  A program that reads from an empty pipe again and again, or sleeps again
    and again for a signal, waits in the same way. *)

From S2P Require Import Prelude Tst Process Explore.

Definition SIGKILL : Z := 9.
Definition SIGUSR1 : Z := 10.
Definition SIGUSR2 : Z := 12.
Definition SIGALRM : Z := 14.
Definition SIGCHLD : Z := 17.

Definition ESRCH : Z := 3.
Definition EINTR : Z := 4.
Definition ECHILD : Z := 10.
Definition EAGAIN : Z := 11.

(** What a process does when a signal comes. *)
Inductive disposition := SIG_DFL | SIG_IGN | Routine.

Inductive waiting := Running | Paused | Sleeping | Polling (fd : Z).

Inductive gcall :=
| Tst_sig                               (* the library's own handlers *)
| Signal (sig : Z) (d : disposition)
| Setpgrp
| Alarm (secs : Z)
| Pipe
| Nonblock (fd : Z)                     (* fcntl(fd, F_SETFL, O_NDELAY) *)
| Read1 (fd : Z)                        (* read(fd, buf, 1) *)
| Write1 (fd : Z) (c : Z)               (* write(fd, &c, 1) *)
| Kill_ (pid sig : Z)
| Wait
| Enter (w : waiting)
| Leave.

#[export] Instance disposition_eq_dec : EqDecision disposition.
Proof. solve_decision. Defined.
#[export] Instance waiting_eq_dec : EqDecision waiting.
Proof. solve_decision. Defined.
#[export] Instance gcall_eq_dec : EqDecision gcall.
Proof. solve_decision. Defined.

(** The value returned, [errno], the byte read or the two descriptors of a pipe, and the
    signals whose handlers run now. *)
Record answer := Answer { ret : Z; err : Z; out : Z * Z; taken : list Z }.
Inductive greply := Killed | Returned (a : answer).

#[export] Instance answer_eq_dec : EqDecision answer.
Proof. solve_decision. Defined.
#[export] Instance greply_eq_dec : EqDecision greply.
Proof. solve_decision. Defined.

(** ** The world *)

Record proc := Proc {
  pr_parent : Z;
  pr_group : Z;
  pr_disp : list (Z * disposition);   (* the last first *)
  pr_pending : list Z;
  pr_wait : waiting;
  pr_timer : bool;
  pr_dead : list Z          (* children that ended and were not waited for *)
}.

Record world := World {
  procs : gmap Z proc;
  pipes : gmap Z (list Z);  (* by the descriptor to read from; the next one is to write to *)
  nonblock : gset Z;
  next_fd : Z
}.

#[export] Instance proc_eq_dec : EqDecision proc.
Proof. solve_decision. Defined.
#[export] Instance world_eq_dec : EqDecision world.
Proof. solve_decision. Defined.

Definition with_pending l p :=
  Proc (pr_parent p) (pr_group p) (pr_disp p) l (pr_wait p) (pr_timer p) (pr_dead p).
Definition with_wait x p :=
  Proc (pr_parent p) (pr_group p) (pr_disp p) (pr_pending p) x (pr_timer p) (pr_dead p).
Definition with_timer b p :=
  Proc (pr_parent p) (pr_group p) (pr_disp p) (pr_pending p) (pr_wait p) b (pr_dead p).
Definition with_disp sig d p :=
  Proc (pr_parent p) (pr_group p) ((sig, d) :: filter (fun x => x.1 ≠ sig) (pr_disp p)) (pr_pending p) (pr_wait p) (pr_timer p) (pr_dead p).
Definition with_group x p :=
  Proc (pr_parent p) x (pr_disp p) (pr_pending p) (pr_wait p) (pr_timer p) (pr_dead p).
Definition with_dead l p :=
  Proc (pr_parent p) (pr_group p) (pr_disp p) (pr_pending p) (pr_wait p) (pr_timer p) l.

Definition on_proc (pid : Z) (f : proc -> proc) (w : world) : world :=
  World (alter f pid (procs w)) (pipes w) (nonblock w) (next_fd w).

Definition disp_of (p : proc) (sig : Z) : disposition :=
  match List.find (fun x => x.1 =? sig) (pr_disp p) with Some (_, d) => d | None => SIG_DFL end.

(** SIGCHLD is ignored by default; nothing can be done about SIGKILL. *)
Definition ignores (p : proc) (sig : Z) : bool :=
  match disp_of p sig with
  | SIG_IGN => negb (sig =? SIGKILL)
  | SIG_DFL => sig =? SIGCHLD
  | Routine => false
  end.

Definition handles (p : proc) (sig : Z) : bool :=
  bool_decide (disp_of p sig = Routine) && negb (sig =? SIGKILL).

(** A signal comes: an ignored one is gone, and no signal is counted twice. *)
Definition send (sig : Z) (p : proc) : proc :=
  if ignores p sig || bool_decide (sig ∈ pr_pending p) then p
  else with_pending (pr_pending p ++ [sig]) p.

(** [signal(sig, d)]: a signal that came and is ignored from now on is gone. *)
Definition dispose (sig : Z) (d : disposition) (p : proc) : proc :=
  let p := with_disp sig d p in with_pending (filter (fun x => ignores p x = false) (pr_pending p)) p.

(** A signal that came and has no handler ends the process. *)
Definition doomed (p : proc) : bool := existsb (fun sig => negb (handles p sig)) (pr_pending p).

Definition content (w : world) (fd : Z) : list Z := default [] (pipes w !! fd).

Definition at_rest (w : world) (p : proc) : bool :=
  bool_decide (pr_pending p = [])
  && match pr_wait p with
     | Running => false
     | Paused | Sleeping => true
     | Polling fd => bool_decide (content w fd = [])
     end.

Definition others_rest (pid : Z) (w : world) : bool :=
  forallb (fun x => (x.1 =? pid) || at_rest w x.2) (map_to_list (procs w)).

(** ** Calls *)

Definition done (r : Z) (w : world) : option (answer * world) := Some (Answer r 0 (0, 0) [], w).
Definition fails (e : Z) (w : world) : option (answer * world) := Some (Answer (-1) e (0, 0) [], w).

Definition children (pid : Z) (w : world) : list Z :=
  omap (fun x => if pr_parent x.2 =? pid then Some x.1 else None) (map_to_list (procs w)).

(** The byte at the head of a pipe. *)
Definition take_byte (fd : Z) (w : world) : option (answer * world) :=
  match content w fd with
  | c :: l => Some (Answer 1 0 (c, 0) [], World (procs w) (<[fd := l]> (pipes w)) (nonblock w) (next_fd w))
  | [] => None
  end.

Section Kernel.
(** Whom [kill(0, sig)] of a process reaches, and the calls that fail. *)
Context (reach : Z -> Z -> world -> bool) (fault : Z -> gcall -> option Z).

Definition send_to (f : Z -> bool) (sig : Z) (w : world) : world :=
  World (map_imap (fun pid p => Some (if f pid then send sig p else p)) (procs w))
    (pipes w) (nonblock w) (next_fd w).

(** Call [c] of process [pid], which is [p], before signals are taken. *)
Definition perform (pid : Z) (c : gcall) (p : proc) (w : world) : option (answer * world) :=
  match c with
  | Tst_sig => done 0 w
  | Signal sig d => done 0 (on_proc pid (dispose sig d) w)
  | Setpgrp => done 0 (on_proc pid (with_group pid) w)
  | Alarm secs => done 0 (on_proc pid (with_timer (negb (secs =? 0))) w)
  | Pipe =>
      let fd := next_fd w in
      Some (Answer 0 0 (fd, fd + 1) [], World (procs w) (<[fd := []]> (pipes w)) (nonblock w) (fd + 2))
  | Nonblock fd => done 0 (World (procs w) (pipes w) ({[fd]} ∪ nonblock w) (next_fd w))
  | Read1 fd =>
      match take_byte fd w with
      | Some x => Some x
      | None => if decide (fd ∈ nonblock w) then fails EAGAIN w else None
      end
  | Write1 fd c =>
      done 1 (World (procs w) (<[fd - 1 := content w (fd - 1) ++ [c]]> (pipes w)) (nonblock w) (next_fd w))
  | Kill_ target sig =>
      if target =? 0 then done 0 (send_to (fun q => reach pid q w) sig w)
      else if decide (is_Some (procs w !! target)) then done 0 (send_to (Z.eqb target) sig w)
      else fails ESRCH w
  | Wait =>
      match pr_dead p, children pid w with
      | c :: l, _ => done c (on_proc pid (with_dead l) w)
      | [], [] => fails ECHILD w
      | [], _ => None
      end
  | Enter x =>
      done 0 (if bool_decide (pr_pending p = []) then on_proc pid (with_wait x) w else w)
  | Leave =>
      let w1 := on_proc pid (with_wait Running) w in
      match pr_wait p, pr_pending p with
      | Polling fd, l =>
          match take_byte fd w1 with
          | Some x => Some x
          | None =>
              if negb (bool_decide (l = [])) then fails EINTR w1
              else if pr_timer p && others_rest pid w
              then fails EINTR (on_proc pid (send SIGALRM) (on_proc pid (with_timer false) w1))
              else None
          end
      | _, _ :: _ => fails EINTR w1
      | Sleeping, [] => if others_rest pid w then done 0 w1 else None
      | Running, [] => done 0 w1
      | Paused, [] => None
      end
  end.

(** A call from the program ([inside] is false) or from a handler. *)
Definition group_do (pid : Z) (ic : bool * gcall) (w : world) : option (greply * world) :=
  let (inside, c) := ic in
  match procs w !! pid with
  | None => None
  | Some p =>
      if doomed p then Some (Killed, w)
      else
        let result := match fault pid c with Some e => fails e w | None => perform pid c p w end in
        match result with
        | None => None
        | Some (a, w) =>
            let p := default p (procs w !! pid) in
            if inside then Some (Returned a, w)
            else if doomed p then Some (Killed, w)
            else Some (Returned (Answer (ret a) (err a) (out a) (pr_pending p)), on_proc pid (with_pending []) w)
        end
  end.

(** The child has the parent's group and dispositions, but neither its signals nor its timer. *)
Definition group_fork (pid child : Z) (w : world) : world :=
  match procs w !! pid with
  | Some p =>
      World (<[child := Proc pid (pr_group p) (pr_disp p) [] Running false []]> (procs w))
        (pipes w) (nonblock w) (next_fd w)
  | None => w
  end.

(** The end of a process: a parent that ignores SIGCHLD never hears of it. *)
Definition group_exit (pid : Z) (w : world) : world :=
  match procs w !! pid with
  | Some p =>
      let w1 := World (delete pid (procs w)) (pipes w) (nonblock w) (next_fd w) in
      on_proc (pr_parent p)
        (fun q => if bool_decide (disp_of q SIGCHLD = SIG_IGN) then q
                  else send SIGCHLD (with_dead (pr_dead q ++ [pid]) q)) w1
  | None => w
  end.

Definition group_kernel : Kernel (bool * gcall) greply world := {|
  k_do := group_do;
  k_fork := group_fork;
  k_exit := group_exit;
  tst_status := fun l => if clean l then 0 else 1
|}.
End Kernel.

(** The members of the caller's group. *)
Definition same_group (pid target : Z) (w : world) : bool :=
  match procs w !! pid, procs w !! target with
  | Some p, Some q => pr_group p =? pr_group q
  | _, _ => false
  end.

Definition no_fault (pid : Z) (c : gcall) : option Z := None.

(** The main process, started from a shell in another group. *)
Definition world0 (pid : Z) : world := World {[ pid := Proc 1 1 [] [] Running false [] ]} ∅ ∅ 3.

(** The documented behaviour. *)
Definition posix : Kernel (bool * gcall) greply world := group_kernel same_group no_fault.

(** ** The signals of a process *)

(** No signal is there twice, and none that is ignored. *)
Definition signals_ok (p : proc) : Prop :=
  NoDup (pr_pending p) /\ forall sig, sig ∈ pr_pending p -> ignores p sig = false.

Definition all_signals_ok (w : world) : Prop := map_Forall (fun _ => signals_ok) (procs w).

Lemma ignores_pending l p sig : ignores (with_pending l p) sig = ignores p sig.
Proof. done. Qed.

Lemma send_ok sig p : signals_ok p -> signals_ok (send sig p).
Proof.
  intros [Hd Hi]. unfold send. destruct (ignores p sig) eqn:E; [done|]. cbn [orb].
  destruct (bool_decide _) eqn:Eb; [done|]. apply bool_decide_eq_false in Eb. split; cbn.
  - apply NoDup_app. split; [done|]. split; [|apply NoDup_singleton].
    intros x Hx ->%list_elem_of_singleton. done.
  - intros x [Hx| ->%list_elem_of_singleton]%elem_of_app; [by apply Hi | done].
Qed.

Lemma dispose_ok sig d p : signals_ok p -> signals_ok (dispose sig d p).
Proof.
  intros [Hd _]. split; cbn.
  - by apply NoDup_filter.
  - intros x [Hx _]%list_elem_of_filter. done.
Qed.

Lemma no_signals_ok p : pr_pending p = [] -> signals_ok p.
Proof.
  intros H. split; rewrite H; [apply NoDup_nil_2|]. intros sig Hs. by apply not_elem_of_nil in Hs.
Qed.

Lemma on_proc_ok pid f w :
  (forall p, signals_ok p -> signals_ok (f p)) -> all_signals_ok w -> all_signals_ok (on_proc pid f w).
Proof.
  intros Hf Hw q p. unfold on_proc. cbn [procs].
  intros [(<- & p' & Hp & ->)|[_ Hp]]%lookup_alter_Some; [by eapply Hf, Hw | by eapply Hw].
Qed.

Lemma send_to_ok f sig w : all_signals_ok w -> all_signals_ok (send_to f sig w).
Proof.
  intros Hw q p. unfold send_to. cbn [procs]. rewrite map_lookup_imap.
  destruct (procs w !! q) as [p'|] eqn:E; [|done]. cbn. intros [= <-].
  destruct (f q); [apply send_ok|]; by eapply Hw.
Qed.

#[export] Hint Resolve on_proc_ok send_to_ok send_ok dispose_ok : signals.

Lemma take_byte_ok fd w a w' : all_signals_ok w -> take_byte fd w = Some (a, w') -> all_signals_ok w'.
Proof. unfold take_byte. destruct (content w fd); [done|]. by intros Hw [= _ <-]. Qed.

Lemma perform_ok reach pid c p w a w' :
  all_signals_ok w -> perform reach pid c p w = Some (a, w') -> all_signals_ok w'.
Proof.
  intros Hw. unfold perform, done, fails.
  assert (Hwait : forall x, all_signals_ok (on_proc pid (with_wait x) w)) by (intros x; auto with signals).
  destruct c; try (repeat case_match; intros [= _ <-]; by auto with signals).
  - destruct (take_byte fd w) as [[a1 w1]|] eqn:E; [intros [= _ <-]; by eapply take_byte_ok|].
    case_match; [|done]. by intros [= _ <-].
  - repeat case_match; intros ?; simplify_eq; auto with signals.
    + eapply take_byte_ok; [apply Hwait | done].
Qed.

Section Steps.
Context (reach : Z -> Z -> world -> bool) (fault : Z -> gcall -> option Z).

Lemma group_do_ok pid c w r w' :
  all_signals_ok w -> group_do reach fault pid c w = Some (r, w') -> all_signals_ok w'.
Proof.
  intros Hw. destruct c as [inside c]. unfold group_do. destruct (procs w !! pid) as [p|]; [|done].
  destruct (doomed p); [by intros [= _ <-]|].
  assert (Hc : forall a w1, match fault pid c with Some e => fails e w | None => perform reach pid c p w end
                            = Some (a, w1) -> all_signals_ok w1).
  { intros a w1. destruct (fault pid c); [by intros [= _ <-] | by apply perform_ok]. }
  destruct (match fault pid c with Some _ => _ | None => _ end) as [[a w1]|]; [|done].
  specialize (Hc a w1 eq_refl). destruct inside; [by intros [= _ <-]|].
  destruct (doomed _); [by intros [= _ <-]|]. intros [= _ <-].
  apply on_proc_ok; [|done]. intros q _. by apply no_signals_ok.
Qed.

Lemma group_fork_ok pid child w : all_signals_ok w -> all_signals_ok (group_fork pid child w).
Proof.
  intros Hw. unfold group_fork. destruct (procs w !! pid); [|done].
  apply map_Forall_insert_2; [by apply no_signals_ok | done].
Qed.

Lemma group_exit_ok pid w : all_signals_ok w -> all_signals_ok (group_exit pid w).
Proof.
  intros Hw. unfold group_exit. destruct (procs w !! pid); [|done]. apply on_proc_ok.
  - intros q Hq. destruct (bool_decide _); [done|]. by apply send_ok.
  - by apply map_Forall_delete.
Qed.
End Steps.

(** ** What every run keeps *)

(** What calls, forks and ends keep, every run keeps. *)
Lemma world_kept {C R W A} (K : Kernel C R W) (I : W -> Prop) (s s' : sys C R W A) :
  (forall pid c w r w', I w -> k_do pid c w = Some (r, w') -> I w') ->
  (forall pid child w, I w -> I (k_fork pid child w)) -> (forall pid w, I w -> I (k_exit pid w)) ->
  star s s' -> I (s_world (shp s)) -> I (s_world (shp s')).
Proof.
  intros Hdo Hfork Hexit Hst. induction Hst as [|s s1 s2 pid Hs _ IH]; [done|]. intros Hw. apply IH.
  unfold step in Hs. destruct (trees s !! pid) as [n|]; [|done]. unfold step_at in Hs.
  repeat case_match; simplify_eq/=; eauto.
Qed.

(** In every run, on a kernel whose [kill(0)] reaches whatever processes and
    whose calls fail as they like, no process has a signal pending twice, or one that it
    ignores. *)
Theorem pending_signals_ok {A} reach fault (s s' : sys (bool * gcall) greply world A) :
  star (H := group_kernel reach fault) s s' ->
  all_signals_ok (s_world (shp s)) -> all_signals_ok (s_world (shp s')).
Proof.
  intros Hst. apply (world_kept (group_kernel reach fault)); [| | |exact Hst].
  - intros pid c w r w'. apply group_do_ok.
  - intros pid child w. apply group_fork_ok.
  - intros pid w. apply group_exit_ok.
Qed.

(** A signal reaches the processes that do not ignore it. *)
Lemma elem_of_send x sig p : x ∈ pr_pending (send sig p) <-> x ∈ pr_pending p \/ (x = sig /\ ignores p sig = false).
Proof.
  unfold send. destruct (ignores p sig); cbn [orb]; [intuition congruence|].
  destruct (bool_decide _) eqn:E.
  - apply bool_decide_eq_true in E. split; [by left|]. intros [H|[-> _]]; done.
  - cbn. rewrite elem_of_app, list_elem_of_singleton. intuition congruence.
Qed.

(** [kill(0, sig)] adds the signal to those of the processes in the caller's group, the
    caller included, that do not ignore it; it changes nothing else, for any process. *)
Theorem kill_group_exact pid sig w p q pq :
  procs w !! pid = Some p -> doomed p = false -> procs w !! q = Some pq ->
  exists w' pq', group_do same_group no_fault pid (true, Kill_ 0 sig) w = Some (Returned (Answer 0 0 (0, 0) []), w')
    /\ procs w' !! q = Some pq' /\ pq = with_pending (pr_pending pq) pq'
    /\ forall x, x ∈ pr_pending pq' <->
         x ∈ pr_pending pq \/ (x = sig /\ pr_group pq = pr_group p /\ ignores pq sig = false).
Proof.
  intros Hp Hd Hq. unfold group_do. rewrite Hp, Hd. cbn.
  eexists _, (if same_group pid q w then send sig pq else pq). split; [done|]. cbn.
  rewrite map_lookup_imap, Hq. split; [done|]. unfold same_group. rewrite Hp, Hq.
  destruct (Z.eqb_spec (pr_group p) (pr_group pq)) as [E|E].
  - split.
    + unfold send. destruct (_ || _); by destruct pq.
    + intros x. rewrite elem_of_send. intuition congruence.
  - split; [by destruct pq|]. intros x. intuition congruence.
Qed.

(** Two processes in a group and one in another. *)
Definition three : world :=
  World (<[101 := Proc 100 100 [(SIGUSR1, Routine)] [] Paused false []]>
        (<[102 := Proc 100 102 [(SIGUSR1, Routine)] [] Paused false []]>
        {[100 := Proc 1 100 [(SIGUSR1, SIG_IGN)] [] Running false []]})) ∅ ∅ 3.

(** Process 100 is about to send SIGUSR1 to its group. *)
Definition sending : sys (bool * gcall) greply world unit :=
  MkSys {[ 100 := VisF (Sys (true, Kill_ 0 SIGUSR1)) (fun _ => Ret tt) ]} (Shape ∅ ∅ ∅ ∅ false 103 three).

Lemma pending_signals_ok_witness :
  exists s', step (H := posix) 100 sending = Some s' /\ all_signals_ok (s_world (shp s')).
Proof.
  eexists. split; [reflexivity|].
  eapply (pending_signals_ok same_group no_fault sending);
    [eapply (star_step (H := posix)) with (pid := 100); [reflexivity | apply (star_refl (H := posix))]|].
  cbn. unfold three. repeat apply map_Forall_insert_2; try by apply no_signals_ok.
  apply map_Forall_empty.
Defined.

Lemma kill_group_exact_witness :
  exists w' pq', group_do same_group no_fault 100 (true, Kill_ 0 SIGUSR1) three
      = Some (Returned (Answer 0 0 (0, 0) []), w')
    /\ procs w' !! 101 = Some pq' /\ SIGUSR1 ∈ pr_pending pq'.
Proof.
  destruct (kill_group_exact 100 SIGUSR1 three _ 101 _ eq_refl eq_refl eq_refl) as (w' & pq' & H1 & H2 & _ & H3).
  exists w', pq'. split; [exact H1|]. split; [exact H2|]. apply H3. right. done.
Defined.
