(* ===== verification/Kill02.v ===== *)
(** * kill02.c: a signal to one's own process group

    Model of [src/original tests/kill/kill02.c].  The parent makes child 1 and child 2,
    child 1 makes A and B; child 2 and B leave the process group. Then the parent sends SIGUSR1
    to process 0: 1 and A have to get it, 2 and B have not.  Every child tells
    through a pipe that it is set up, and its handler tells that the signal came.

    The loops that read until a byte is there wait for the byte, and [while (1) sleep(1)]
    waits for a signal ([GroupSignals.v]).  Left out: the UCLINUX variants. *)

From S2P Require Import Prelude Tst Process Explore Layers Prog Checker GroupSignals.

(** ** Data *)

(** Characters by their codes: '0', '1' and '2'. *)
Definition CHAR_SET_FAILED : Z := 48.
Definition CHAR_SET_PASSED : Z := 49.
Definition SIG_CAUGHT : Z := 50.
Definition SIG_RECEIVED : Z := 1.
Definition SIG_NOT_RECD : Z := 0.
Definition SLEEP_TIME : Z := 10.
Definition TRUE : Z := 40.
Definition FALSE : Z := 50.
Definition TIMEOUT : Z := 60.

(** [who_am_i]: '0', '1', '2', 'A' or 'B'. *)
Inductive role := Who0 | Who1 | Who2 | WhoA | WhoB.

#[export] Instance role_eq_dec : EqDecision role.
Proof. solve_decision. Defined.

(** The global variables; of the buffers the first character, the only one used. *)
Record globals := Globals {
  pid1 : Z; pid2 : Z; pidA : Z; pidB : Z;
  pipe1_fd : Z * Z; pipe2_fd : Z * Z; pipeA_fd : Z * Z; pipeB_fd : Z * Z;
  pipe_buf : Z; buf_tmp1 : Z; buf_tmp2 : Z;
  alarm_flag : Z;
  who_am_i : role
}.

Definition globals0 : globals := Globals 0 0 0 0 (0, 0) (0, 0) (0, 0) (0, 0) 0 0 0 FALSE Who0.

Definition set_pids p1 p2 pA pB g := Globals p1 p2 pA pB (pipe1_fd g) (pipe2_fd g) (pipeA_fd g)
  (pipeB_fd g) (pipe_buf g) (buf_tmp1 g) (buf_tmp2 g) (alarm_flag g) (who_am_i g).
Definition set_pid1 x g := set_pids x (pid2 g) (pidA g) (pidB g) g.
Definition set_pid2 x g := set_pids (pid1 g) x (pidA g) (pidB g) g.
Definition set_pidA x g := set_pids (pid1 g) (pid2 g) x (pidB g) g.
Definition set_pidB x g := set_pids (pid1 g) (pid2 g) (pidA g) x g.
Definition set_pipes f1 f2 fA fB g := Globals (pid1 g) (pid2 g) (pidA g) (pidB g) f1 f2 fA fB
  (pipe_buf g) (buf_tmp1 g) (buf_tmp2 g) (alarm_flag g) (who_am_i g).
Definition set_pipe1 x g := set_pipes x (pipe2_fd g) (pipeA_fd g) (pipeB_fd g) g.
Definition set_pipe2 x g := set_pipes (pipe1_fd g) x (pipeA_fd g) (pipeB_fd g) g.
Definition set_pipeA x g := set_pipes (pipe1_fd g) (pipe2_fd g) x (pipeB_fd g) g.
Definition set_pipeB x g := set_pipes (pipe1_fd g) (pipe2_fd g) (pipeA_fd g) x g.
Definition set_bufs b b1 b2 g := Globals (pid1 g) (pid2 g) (pidA g) (pidB g) (pipe1_fd g)
  (pipe2_fd g) (pipeA_fd g) (pipeB_fd g) b b1 b2 (alarm_flag g) (who_am_i g).
Definition set_alarm_flag x g := Globals (pid1 g) (pid2 g) (pidA g) (pidB g) (pipe1_fd g)
  (pipe2_fd g) (pipeA_fd g) (pipeB_fd g) (pipe_buf g) (buf_tmp1 g) (buf_tmp2 g) x (who_am_i g).
Definition set_who_am_i x g := Globals (pid1 g) (pid2 g) (pidA g) (pidB g) (pipe1_fd g)
  (pipe2_fd g) (pipeA_fd g) (pipeB_fd g) (pipe_buf g) (buf_tmp1 g) (buf_tmp2 g) (alarm_flag g) x.

Abbreviation P A := (M (bool * gcall) greply globals A).

(** ** Signal handlers *)

(** A call in a handler. A process that was killed does nothing any more. *)
Definition quiet (c : gcall) : P answer :=
  r ← call (true, c);
  match r with Killed => exit SIGKILL | Returned a => mret a end.

Definition tell (fd : Z * Z) (warning : string) : P unit :=
  a ← quiet (Write1 fd.2 SIG_CAUGHT);
  when (ret a =? -1) (tst_resm TWARN warning []).

Definition usr1_rout : P unit :=
  g ← get;
  match who_am_i g with
  | Who1 => tell (pipe1_fd g) "Writing signal catching status failed in child 1."
  | Who2 => tell (pipe2_fd g) "Writing signal catching status failed in child 2."
  | WhoA => tell (pipeA_fd g) "Writing signal catching status failed in child A."
  | WhoB => tell (pipeB_fd g) "Writing signal catching status failed in child B."
  | Who0 => tst_resm TWARN "Unexpected value %d for who_am_i in usr1_rout()" [Num 48]
  end.

Definition notify_timeout : P unit := modify (set_alarm_flag TRUE).

(** [kill(pid, SIGKILL)] of a child of child 1; [who] is 'A' or 'B'. *)
Definition remove_child (pid : Z) (warning : string) : P unit :=
  a ← quiet (Kill_ pid SIGKILL);
  when ((ret a =? -1) && negb (err a =? ESRCH)) (tst_resm_errno TWARN (err a) warning [Num pid]).

Definition chld1_kill : P unit :=
  g ← get;
  remove_child (pidA g) "kill(%d) failed; child 1's(A) child may still be alive" ;;
  quiet (Write1 (pipe1_fd g).2 CHAR_SET_PASSED) ;;
  remove_child (pidB g) "kill(%d) failed; child 1's(B) child may still be alive" ;;
  exit 0.

(** The function that [signal] gave to a signal. *)
Definition on_signal (sig : Z) : P unit :=
  if sig =? SIGUSR1 then usr1_rout
  else if sig =? SIGUSR2 then chld1_kill
  else when (sig =? SIGALRM) notify_timeout.

Fixpoint on_signals (l : list Z) : P unit :=
  match l with
  | [] => mret tt
  | sig :: l => on_signal sig ;; on_signals l
  end.

(** A call, and the handlers of the signals taken when it returns. *)
Definition sys (c : gcall) : P answer :=
  r ← call (false, c);
  match r with
  | Killed => exit SIGKILL
  | Returned a => on_signals (taken a) ;; mret a
  end.

(** To wait: go to rest when no signal is left to be taken. *)
Definition wait_in (x : waiting) : P answer :=
  while_ (fun _ => a ← sys (Enter x);
                   mret (match taken a with [] => inr tt | _ => inl tt end)) tt ;;
  sys Leave.

Definition pause : P unit := wait_in Paused ;; mret tt.

Definition sleep (secs : Z) : P unit := wait_in Sleeping ;; mret tt.

(** [while (1) sleep(1);] *)
Definition sleep_for_ever : P unit := while_ (fun _ => pause ;; mret (inl tt)) tt.

(** [pipe_buf] after the answer [a] to a read into it. *)
Definition store (a : answer) : P unit :=
  when (ret a =? 1) (modify (fun g => set_bufs (out a).1 (buf_tmp1 g) (buf_tmp2 g) g)).

(** [while ((read(fd, pipe_buf, 1) != 1) && (alarm_flag == FALSE)) body] *)
Definition read_loop (body : P unit) (fd : Z) : P unit :=
  while_ (fun _ =>
    a ← wait_in (Polling fd);
    store a ;;
    g ← get;
    if negb (ret a =? 1) && (alarm_flag g =? FALSE) then body ;; mret (inl tt)
    else mret (inr tt)) tt.

Definition EMPTY : P unit := mret tt.

(** [strncpy(buf_tmp1, pipe_buf, 1)], and the same for [buf_tmp2]. *)
Definition copy_tmp1 : P unit := modify (fun g => set_bufs (pipe_buf g) (pipe_buf g) (buf_tmp2 g) g).
Definition copy_tmp2 : P unit := modify (fun g => set_bufs (pipe_buf g) (buf_tmp1 g) (pipe_buf g) g).

Definition cleanup : P unit := mret tt.

(** [tst_brkm(TBROK, clean, ...)] and [tst_brkm(TBROK | TERRNO, clean, ...)]: the process
    ends. *)
Definition brkm {A} (clean : P unit) (e : option Z) (msg : string) : P A :=
  (match e with
   | None => tst_resm TBROK msg []
   | Some e => tst_resm_errno TBROK e msg []
   end) ;; clean ;; tst_exit.

Definition NULL : P unit := mret tt.

(** [signal(...) == SIG_ERR] *)
Definition signal_fails (sig : Z) (d : disposition) : P (option Z) :=
  a ← sys (Signal sig d); mret (if ret a =? -1 then Some (err a) else None).

(** ** The children *)

Definition child2_rout : P unit :=
  modify (set_who_am_i Who2) ;;
  sys Setpgrp ;;
  e ← signal_fails SIGUSR1 Routine;
  match e with
  | Some _ => brkm cleanup None "Could not set to catch the parents signal."
  | None =>
      g ← get;
      sys (Write1 (pipe2_fd g).2 CHAR_SET_PASSED) ;;
      pause
  end.

Definition childA_rout : P unit :=
  modify (set_who_am_i WhoA) ;;
  g ← get;
  sys (Write1 (pipeA_fd g).2 CHAR_SET_PASSED) ;;
  pause ;;
  exit 0.

Definition childB_rout : P unit :=
  modify (set_who_am_i WhoB) ;;
  sys Setpgrp ;;
  g ← get;
  sys (Write1 (pipeB_fd g).2 CHAR_SET_PASSED) ;;
  pause ;;
  exit 0.

(** The fork of B fails.  What the code does after tst_brkm, which ends the process, is not
    reached.  ([errno] of a fork that fails is 0 here.) *)
Definition fork_B_failed : P unit :=
  g ← get;
  a ← sys (Kill_ (pidA g) SIGKILL);
  when (ret a =? -1) (tst_resm TWARN "Child process may not have been killed." []) ;;
  brkm NULL (Some (err a)) "fork failed".

(** Children A and B. *)
Definition make_children : P unit :=
  a ← fork;
  modify (set_pidA a) ;;
  if 0 <? a then
    b ← fork;
    modify (set_pidB b) ;;
    if b =? 0 then childB_rout
    else when (b =? -1) fork_B_failed
  else if a =? 0 then childA_rout
  else when (a =? -1) (brkm NULL (Some 0) "fork failed").

Definition child1_rout : P unit :=
  modify (set_who_am_i Who1) ;;
  e ← signal_fails SIGUSR1 Routine;
  match e with
  | Some _ => brkm NULL None "Could not set to catch the childrens signal."
  | None =>
      make_children ;;
      e ← signal_fails SIGUSR2 Routine;
      match e with
      | Some _ => brkm NULL None "Could not set to catch the parents signal."
      | None =>
          e ← signal_fails SIGALRM Routine;
          match e with
          | Some _ => brkm NULL None "Could not set to catch the childs time out alarm."
          | None =>
              sys (Alarm (TIMEOUT - 40)) ;;
              g ← get;
              read_loop EMPTY (pipeA_fd g).1 ;;
              sys (Alarm (TIMEOUT - 40)) ;;
              read_loop EMPTY (pipeB_fd g).1 ;;
              sys (Alarm 0) ;;
              g ← get;
              if alarm_flag g =? TRUE then
                brkm NULL None "The set up of the children failed by timing out."
              else
                sys (Write1 (pipe1_fd g).2 CHAR_SET_PASSED) ;;
                pause ;;
                sleep_for_ever
          end
      end
  end.

(** ** The parent *)

Definition par_kill : P unit :=
  g ← get;
  a ← sys (Kill_ (pid1 g) SIGUSR2);
  when ((ret a =? -1) && negb (err a =? ESRCH))
    (tst_resm_errno TWARN (err a) "kill() failed" [] ;;
     tst_resm TWARN "Child 1 and it's children may still be alive." []) ;;
  a ← sys (Kill_ (pid2 g) SIGKILL);
  when ((ret a =? -1) && negb (err a =? ESRCH)) (tst_resm TWARN "Child2 may still be alive." []) ;;
  sys Wait ;;
  mret tt.

(** [TERRNO] prints the [errno] of the last call that failed. *)
Definition last_error (l : list (option Z)) : option Z :=
  foldl (fun acc e => match e with Some _ => e | None => acc end) None l.

(** [read(fd, pipe_buf, 1)]; nothing to read counts as 0.  The result is the number of bytes, and
    [errno] if the call failed. *)
Definition read_stat (fd : Z) : P (Z * option Z) :=
  a ← sys (Read1 fd);
  store a ;;
  mret (if (ret a =? -1) && (err a =? EAGAIN) then 0 else ret a,
        if ret a =? -1 then Some (err a) else None).

(** What the parent reports of the numbers of bytes it read. *)
Definition check_received (read1 readA : Z) : P unit :=
  if read1 =? SIG_RECEIVED then
    if readA =? SIG_RECEIVED
    then tst_resm TPASS "The signal was sent to all processes in the process group." []
    else tst_resm TFAIL "Process A did not receive the signal." []
  else tst_resm TFAIL "Process 1 did not receive the signal." [].

Definition check_spared (read2 readB : Z) : P unit :=
  if read2 =? SIG_NOT_RECD then
    if readB =? SIG_NOT_RECD
    then tst_resm TPASS
      "The signal was not sent to selective processes that were not in the process group." []
    else tst_resm TFAIL "Process B received the signal." []
  else tst_resm TFAIL "Process 2 received the signal." [].

(** After the children are set up. *)
Definition send_and_check : P unit :=
  a ← sys (Kill_ 0 SIGUSR1);
  if ret a =? -1 then brkm NULL (Some (err a)) "kill() failed"
  else
    sleep SLEEP_TIME ;;
    g ← get;
    s1 ← read_stat (pipe1_fd g).1;
    s2 ← read_stat (pipe2_fd g).1;
    sA ← read_stat (pipeA_fd g).1;
    sB ← read_stat (pipeB_fd g).1;
    if (s1.1 =? -1) || (s2.1 =? -1) || (sA.1 =? -1) || (sB.1 =? -1)
    then brkm NULL (last_error [s1.2; s2.2; sA.2; sB.2]) "read() failed"
    else
      check_received s1.1 sA.1 ;;
      check_spared s2.1 sB.1 ;;
      par_kill ;;
      sys (Alarm TIMEOUT) ;;
      read_loop copy_tmp1 (pipe1_fd g).1.

Definition parent_rout : P unit :=
  e ← signal_fails SIGALRM Routine;
  match e with
  | Some _ => par_kill ;; brkm NULL None "Could not set to catch the parents time out alarm."
  | None =>
      sys (Alarm TIMEOUT) ;;
      g ← get;
      read_loop EMPTY (pipe1_fd g).1 ;;
      copy_tmp1 ;;
      sys (Alarm TIMEOUT) ;;
      read_loop EMPTY (pipe2_fd g).1 ;;
      sys (Alarm 0) ;;
      copy_tmp2 ;;
      g ← get;
      if alarm_flag g =? TRUE then
        brkm NULL None "The set up of the children failed by timing out."
      else
        when ((buf_tmp1 g =? CHAR_SET_FAILED) || (buf_tmp2 g =? CHAR_SET_FAILED))
          (par_kill ;; cleanup) ;;
        send_and_check
  end.

(** [pipe(fd) == -1 || fcntl(fd[0], F_SETFL, O_NDELAY) == -1], and [errno] if so. *)
Definition make_pipe (set : Z * Z -> globals -> globals) : P (option Z) :=
  a ← sys Pipe;
  if ret a =? -1 then mret (Some (err a))
  else
    modify (set (out a)) ;;
    a' ← sys (Nonblock (out a).1);
    mret (if ret a' =? -1 then Some (err a') else None).

Definition setup : P unit :=
  sys Setpgrp ;;
  sys Tst_sig ;;
  e ← signal_fails SIGUSR1 SIG_IGN;
  (match e with Some _ => brkm NULL None "signal(SIGUSR1, SIG_IGN) failed" | None => mret tt end) ;;
  e ← signal_fails SIGCHLD SIG_IGN;
  (match e with Some e => brkm NULL (Some e) "signal(SIGCHLD, SIG_IGN) failed" | None => mret tt end) ;;
  e1 ← make_pipe set_pipe1;
  e2 ← make_pipe set_pipe2;
  eA ← make_pipe set_pipeA;
  eB ← make_pipe set_pipeB;
  match last_error [e1; e2; eA; eB] with
  | Some e => brkm NULL (Some e) "pipe() failed"
  | None => mret tt
  end.

(** The body of the loop over TEST_LOOPING, and [main]. *)
Definition round : P unit :=
  p1 ← fork;
  modify (set_pid1 p1) ;;
  if 0 <? p1 then
    p2 ← fork;
    modify (set_pid2 p2) ;;
    if 0 <? p2 then parent_rout
    else if p2 =? 0 then child2_rout
    else
      a ← sys (Kill_ p1 SIGKILL);
      when ((ret a =? -1) && negb (err a =? ESRCH))
        (tst_resm TWARN "Child process may not have been killed." []) ;;
      brkm cleanup (Some (err a)) "fork failed"
  else if p1 =? 0 then child1_rout
  else brkm cleanup (Some 0) "fork failed".

Definition main (loops : nat) : P unit :=
  setup ;;
  for_from 0 loops (fun _ => round) ;;
  cleanup ;;
  tst_exit.

(** ** Runs *)

(** All calls matter to others. *)
Definition none_local (reach : Z -> Z -> world -> bool) (fault : Z -> gcall -> option Z)
  : LocalCalls (group_kernel reach fault) := no_local _.

(** What a run leaves behind: the processes still there and the reports of each. *)
Definition outcome : Type := gmap Z pinfo -> gmap Z (list entry) -> bool.

Definition result {W A} (o : outcome) (s : Process.sys (bool * gcall) greply W A) : bool :=
  o (s_info (shp s)) (s_logs (shp s)).

(** Every interleaving of [main] on a kernel of [GroupSignals.v] ends as [o] says. *)
Definition all_runs (reach : Z -> Z -> world -> bool) (fault : Z -> gcall -> option Z) (fuel : nat)
    (o : outcome) : bool :=
  explore_layers (group_kernel reach fault) (L := none_local reach fault) fuel (result o) main_pid
    (observe (main 1 globals0)) (shp (boot main_pid (main 1) globals0 (world0 main_pid))).

(** Then it ends so on every platform that refines the kernel. *)
Lemma all_runs_refine {V} (K : Kernel (bool * gcall) greply V) reach fault
    `{F : !Refines K (group_kernel reach fault)} (v0 : V) fuel o :
  rel (Refines := F) v0 (world0 main_pid) -> all_runs reach fault fuel o = true ->
  inevitable (fun s => result o s = true) (boot main_pid (main 1) globals0 v0).
Proof.
  intros Hv Hr. apply (layers_sound (group_kernel reach fault) (L := none_local reach fault)) in Hr.
  eapply inevitable_mono; [|apply (inevitable_refines K (group_kernel reach fault) (F := F) _ _ Hr); by repeat split].
  intros s (t & (_ & Hs & _) & Ht). unfold result in *. rewrite <- Hs in Ht. exact Ht.
Qed.

(** The processes [alive] are left and nobody else, and the reports are those of [logs]. *)
Definition leaves (alive : list Z) (logs : list (Z * list entry)) : outcome := fun info ls =>
  bool_decide (map fst (map_to_list info) = alive) && bool_decide (ls = list_to_map logs).

Definition sent_to_group : entry :=
  Entry TPASS None "The signal was sent to all processes in the process group." [].
Definition spared_others : entry :=
  Entry TPASS None "The signal was not sent to selective processes that were not in the process group." [].

(** C4: on every platform that refines the documented behaviour, in every interleaving of the
    five processes, the test ends, no process is left, and there are exactly two reports: the
    group was reached, and the others were spared. *)
Theorem kill02_passes {V} (K : Kernel (bool * gcall) greply V) `{F : !Refines K posix} (v0 : V) :
  rel (Refines := F) v0 (world0 main_pid) ->
  inevitable (fun s => result (leaves [] [(main_pid, [sent_to_group; spared_others])]) s = true)
    (boot main_pid (main 1) globals0 v0).
Proof. intros Hv. apply (all_runs_refine K _ _ v0 90); [exact Hv|]. vm_cast_no_check (eq_refl true). Qed.

Lemma kill02_passes_witness :
  inevitable (H := posix) (fun s => result (leaves [] [(main_pid, [sent_to_group; spared_others])]) s = true)
    (boot main_pid (main 1) globals0 (world0 main_pid)).
Proof. apply (kill02_passes posix). done. Defined.

(** [kill(0)] reaches only the caller and its own children. *)
Definition children_only (pid target : Z) (w : world) : bool :=
  same_group pid target w
  && ((pid =? target) || bool_decide (pr_parent <$> procs w !! target = Some pid)).

(** C5: if [kill(0)] does not reach grandchildren, the test says in every run that process A did
    not get the signal. *)
Theorem kill02_detects {V} (K : Kernel (bool * gcall) greply V)
    `{F : !Refines K (group_kernel children_only no_fault)} (v0 : V) :
  rel (Refines := F) v0 (world0 main_pid) ->
  inevitable (fun s => result (leaves []
      [(main_pid, [Entry TFAIL None "Process A did not receive the signal." []; spared_others])]) s = true)
    (boot main_pid (main 1) globals0 v0).
Proof. intros Hv. apply (all_runs_refine K _ _ v0 90); [exact Hv|]. vm_cast_no_check (eq_refl true). Qed.

Lemma kill02_detects_witness :
  inevitable (H := group_kernel children_only no_fault) (fun s => result (leaves []
      [(main_pid, [Entry TFAIL None "Process A did not receive the signal." []; spared_others])]) s = true)
    (boot main_pid (main 1) globals0 (world0 main_pid)).
Proof. apply (kill02_detects (group_kernel children_only no_fault)). done. Defined.

(** Child 1 cannot catch SIGUSR1. *)
Definition EINVAL : Z := 22.
Definition child1 : Z := main_pid + 1.
Definition child2 : Z := main_pid + 2.
Definition no_usr1 (pid : Z) (c : gcall) : option Z :=
  if (pid =? child1) && bool_decide (c = Signal SIGUSR1 Routine) then Some EINVAL else None.

(** C6: if [signal] fails in child 1, the parent waits until its alarm rings, although child 1 is
    to write '0' to its pipe, and ends without removing child 2, which waits for ever. *)
Theorem kill02_leaves_child {V} (K : Kernel (bool * gcall) greply V)
    `{F : !Refines K (group_kernel same_group no_usr1)} (v0 : V) :
  rel (Refines := F) v0 (world0 main_pid) ->
  inevitable (fun s => result (leaves [child2]
      [(main_pid, [Entry TBROK None "The set up of the children failed by timing out." []]);
       (child1, [Entry TBROK None "Could not set to catch the childrens signal." []])]) s = true)
    (boot main_pid (main 1) globals0 v0).
Proof. intros Hv. apply (all_runs_refine K _ _ v0 90); [exact Hv|]. vm_cast_no_check (eq_refl true). Qed.

Lemma kill02_leaves_child_witness :
  inevitable (H := group_kernel same_group no_usr1) (fun s => result (leaves [child2]
      [(main_pid, [Entry TBROK None "The set up of the children failed by timing out." []]);
       (child1, [Entry TBROK None "Could not set to catch the childrens signal." []])]) s = true)
    (boot main_pid (main 1) globals0 (world0 main_pid)).
Proof. apply (kill02_leaves_child (group_kernel same_group no_usr1)). done. Defined.
