(* ===== verification/MemoryTests.v ===== *)
(** * memset01.c, memcpy01.c and memcmp01.c

    Models of [src/original tests/memset/memset01.c], [memcpy/memcpy01.c] and
    [memcmp/memcmp01.c] (modules [Memset01], [Memcpy01], [Memcmp01]).  The C library's function
    is a parameter; [Lawful] states what it promises.  For each test: on which functions it
    passes, exactly, that it passes on the lawful ones, and a wrong one it does not notice. *)

From S2P Require Import Prelude Tst.

(** ** The buffer *)

Definition BSIZE : Z := 4096.

(** [buf]: the character at each index; an index outside [0, BSIZE) is outside the array. *)
Definition mem : Type := Z -> Z.

Definition set (x c : Z) (m : mem) : mem := fun y => if y =? x then c else m y.

(** [for (i = 0; i < n; i++) *str++ = c;] *)
Fixpoint store (n : nat) (str c : Z) (m : mem) : mem :=
  match n with
  | O => m
  | S n => store n (str + 1) c (set str c m)
  end.

Definition chr_a : Z := 97.

Lemma set_at x c m y : set x c m y = if y =? x then c else m y.
Proof. done. Qed.

Lemma store_at n str c m y :
  store n str c m y = if (str <=? y) && (y <? str + Z.of_nat n) then c else m y.
Proof.
  revert str m. induction n as [|n IH]; intros str m; cbn [store].
  - destruct (Z.leb_spec str y), (Z.ltb_spec y (str + Z.of_nat 0)); done || lia.
  - rewrite IH, set_at.
    destruct (Z.leb_spec (str + 1) y), (Z.ltb_spec y (str + 1 + Z.of_nat n)), (Z.leb_spec str y),
      (Z.ltb_spec y (str + Z.of_nat (S n))), (Z.eqb_spec y str); cbn; done || lia.
Qed.

Lemma store_in n str c m y : str <= y < str + Z.of_nat n -> store n str c m y = c.
Proof. intros H. rewrite store_at, (proj2 (Z.leb_le _ _)), (proj2 (Z.ltb_lt _ _)) by lia. done. Qed.

Lemma store_out n str c m y : y < str \/ str + Z.of_nat n <= y -> store n str c m y = m y.
Proof.
  intros H. rewrite store_at. destruct (Z.leb_spec str y), (Z.ltb_spec y (str + Z.of_nat n)); done || lia.
Qed.

#[local] Opaque store.

(** The library counts a run as failed if some report is a failure. *)
Definition passes (l : list entry) : Prop := clean l = true.

Definition pass : entry := Entry TPASS None "Test passed" [].

(** The library runs the test function for every number below [tcnt]. *)
Fixpoint run_cases (test : Z -> mem -> mem * list entry) (n : nat) (nr : Z) (m : mem) : list entry :=
  match n with
  | O => []
  | S n => let (m, l) := test nr m in l ++ run_cases test n (nr + 1) m
  end.

Module Memset01.
Section Memset.
(** [memset(p, c, n)] *)
Context (memset : Z -> Z -> Z -> mem -> mem).

Definition fill (m : mem) : mem := store (Z.to_nat BSIZE) 0 chr_a m.

(** [while ( !*str++) i++]; [None]: the loop leaves the array after [n] zeroes. *)
Fixpoint checkit (n : nat) (str i : Z) (m : mem) : option Z :=
  match n with
  | O => None
  | S n => if m str =? 0 then checkit n (str + 1) (i + 1) m else Some i
  end.

(** [p = &buf[400]], and the characters from there to the end. *)
Definition p : Z := 400.
Definition rest : nat := Z.to_nat (BSIZE - p).

(** The loop from [i] on, [n] rounds: the final [i], the array and the reports; [None]: it
    reads beyond the array. *)
Fixpoint verify_loop (n : nat) (i : Z) (m : mem) : option (Z * mem * list entry) :=
  match n with
  | O => Some (i, m, [])
  | S n =>
      let m := memset p 0 i (fill m) in
      match checkit rest p 0 m with
      | None => None
      | Some j =>
          if negb (j =? i) then
            Some (i, m, [Entry TINFO None "Not enough zero bytes, wanted %d, got %d" [Num i; Num j]])
          else if (m (p - 1) =? 0) || (m (p + i) =? 0) then
            Some (i, m, [Entry TINFO None "Boundary error, clear of %d" [Num i]])
          else verify_loop n (i + 1) m
      end
  end.

Definition verify_memset (m : mem) : option (list entry) :=
  match verify_loop 200 0 m with
  | None => None
  | Some (i, _, l) => Some (l ++ [if i =? 200 then pass else Entry TFAIL None "Test fails" []])
  end.

Definition setup (m : mem) : mem := fill m.

Definition main (m : mem) : option (list entry) := verify_memset (setup m).

(** ** What the test checks *)

(** The array after [n] rounds. *)
Fixpoint rounds (n : nat) (m : mem) : mem :=
  match n with
  | O => m
  | S n => memset p 0 (Z.of_nat n) (fill (rounds n m))
  end.

(** The zeroes from [p] on end after [i], and the character before them is not one. *)
Definition exactly (i : Z) (m : mem) : Prop :=
  (forall x, p <= x < p + i -> m x = 0) /\ m (p + i) <> 0 /\ m (p - 1) <> 0.

Lemma zeroes_spec n str i m j :
  checkit n str i m = Some j <->
  0 <= j - i < Z.of_nat n /\ (forall x, str <= x < str + (j - i) -> m x = 0) /\ m (str + (j - i)) <> 0.
Proof.
  revert str i. induction n as [|n IH]; intros str i; cbn [checkit].
  - split; [done|]. intros [H _]. lia.
  - destruct (Z.eqb_spec (m str) 0) as [E|E].
    + rewrite IH. split; intros (H1 & H2 & H3).
      * split; [lia|split]; [|replace (str + (j - i)) with (str + 1 + (j - (i + 1))) by lia; done].
        intros x Hx. destruct (decide (x = str)) as [->|]; [done|]. apply H2. lia.
      * assert (j <> i) by (intros ->; apply H3; by rewrite Z.sub_diag, Z.add_0_r).
        split; [lia|split]; [|replace (str + 1 + (j - (i + 1))) with (str + (j - i)) by lia; done].
        intros x Hx. apply H2. lia.
    + split.
      * intros [= ->]. rewrite Z.sub_diag, Z.add_0_r. split; [lia|split]; [intros; lia|done].
      * intros (H1 & H2 & H3). destruct (decide (j = i)) as [->|]; [done|].
        exfalso. apply E, H2. lia.
Qed.

Lemma round_exactly i m :
  0 <= i < 200 ->
  exactly i m <-> checkit rest p 0 m = Some i /\ (m (p - 1) =? 0) || (m (p + i) =? 0) = false.
Proof.
  intros Hi. unfold exactly. rewrite zeroes_spec, orb_false_iff, !Z.eqb_neq, !Z.sub_0_r.
  assert (0 <= i < Z.of_nat rest) by (unfold rest, p, BSIZE; lia). intuition.
Qed.

Lemma verify_loop_exact n k m0 :
  (k + n = 200)%nat ->
  (exists m' l, verify_loop n (Z.of_nat k) (rounds k m0) = Some (200, m', l)) <->
  forall i, (k <= i < 200)%nat -> exactly (Z.of_nat i) (rounds (S i) m0).
Proof.
  revert k. induction n as [|n IH]; intros k Hn; cbn [verify_loop].
  - split; [lia|]. intros _. replace (Z.of_nat k) with 200 by lia. eauto.
  - change (memset p 0 (Z.of_nat k) (fill (rounds k m0))) with (rounds (S k) m0).
    pose proof (round_exactly (Z.of_nat k) (rounds (S k) m0) ltac:(lia)) as Hr.
    specialize (IH (S k) ltac:(lia)). split.
    + intros (m' & l & H). destruct (checkit _ _ _ _) as [j|] eqn:Ec; [|done].
      destruct (Z.eqb_spec j (Z.of_nat k)) as [->|Hj]; cbn [negb] in H; [|injection H; lia].
      destruct (_ || _) eqn:Eo; [injection H; lia|].
      intros i Hi. destruct (decide (i = k)) as [->|Hne]; [by apply Hr|].
      apply IH; [|lia]. rewrite Nat2Z.inj_succ, <- Z.add_1_r. eauto.
    + intros Hall. destruct (proj1 Hr (Hall k ltac:(lia))) as [-> ->].
      rewrite Z.eqb_refl, Z.add_1_r, <- Nat2Z.inj_succ. cbn [negb]. apply IH. intros i Hi. apply Hall. lia.
Qed.

Lemma verify_loop_log n i m i' m' l : verify_loop n i m = Some (i', m', l) -> clean l = true.
Proof.
  revert i m. induction n as [|n IH]; intros i m; cbn [verify_loop]; [by intros [= _ _ <-]|].
  repeat case_match; try done; [by intros [= _ _ <-].. | apply IH].
Qed.

Lemma rounds_pass m :
  (forall i, (i < 200)%nat -> exactly (Z.of_nat i) (rounds (S i) (setup m))) ->
  exists l, main m = Some l /\ passes l.
Proof.
  intros H. unfold main, verify_memset.
  destruct (proj2 (verify_loop_exact 200 0 (setup m) eq_refl)) as (m' & l & E); [intros i [_ Hi]; by apply H|].
  change (rounds 0 (setup m)) with (setup m) in E. change (Z.of_nat 0) with 0 in E. rewrite E. cbn.
  eexists. split; [done|]. unfold passes. rewrite clean_app, (verify_loop_log _ _ _ _ _ _ E). done.
Qed.

(** C33: memset01.c passes exactly if after every round [i] of the two hundred the zeroes
    from [buf[400]] on are [i], and the character before them is not zero. *)
Theorem memset01_exact m :
  (exists l, main m = Some l /\ passes l) <->
  forall i, (i < 200)%nat -> exactly (Z.of_nat i) (rounds (S i) (setup m)).
Proof.
  split; [|apply rounds_pass]. unfold main, verify_memset.
  pose proof (verify_loop_exact 200 0 (setup m) eq_refl) as He.
  change (rounds 0 (setup m)) with (setup m) in He. change (Z.of_nat 0) with 0 in He.
  intros (l & H & Hl). intros i Hi. apply He; [|lia].
  destruct (verify_loop 200 0 (setup m)) as [[[j m'] l']|]; [|done]. injection H as <-.
  unfold passes in Hl. rewrite clean_app in Hl. destruct (Z.eqb_spec j 200) as [->|]; [eauto|].
  by rewrite andb_false_r in Hl.
Qed.

(** What C promises. *)
Definition Lawful : Prop := forall q c n m y,
  0 <= n -> memset q c n m y = if (q <=? y) && (y <? q + n) then c else m y.

Lemma fill_in m x : 0 <= x < BSIZE -> fill m x = chr_a.
Proof. intros H. apply store_in. unfold BSIZE in *. lia. Qed.

Lemma lawful_exactly m i : Lawful -> (i < 200)%nat -> exactly (Z.of_nat i) (rounds (S i) m).
Proof.
  intros HL Hi. cbn [rounds]. unfold exactly.
  assert (Hin : forall x, 0 <= x < BSIZE -> memset p 0 (Z.of_nat i) (fill (rounds i m)) x
      = if (p <=? x) && (x <? p + Z.of_nat i) then 0 else chr_a).
  { intros x Hx. rewrite HL by lia. by rewrite fill_in. }
  unfold BSIZE, p in *. split; [|split].
  - intros x Hx. rewrite Hin by lia. rewrite (proj2 (Z.leb_le _ _)), (proj2 (Z.ltb_lt _ _)) by lia. done.
  - rewrite Hin by lia. rewrite Z.ltb_irrefl, andb_false_r. done.
  - rewrite Hin by lia. done.
Qed.
End Memset.

(** Memset01.c never reads beyond its array and passes if memset does what C promises. *)
Theorem memset01_passes memset m : Lawful memset -> exists l, main memset m = Some l /\ passes l.
Proof. intros HL. apply rounds_pass. intros i Hi. by apply lawful_exactly. Qed.

Definition the_memset (q c n : Z) (m : mem) : mem := fun y => if (q <=? y) && (y <? q + n) then c else m y.

Lemma memset01_passes_witness : exists l, main the_memset (fun _ => 0) = Some l /\ passes l.
Proof. apply (memset01_passes the_memset). intros q c n m y _. done. Defined.

(** A memset that also overwrites everything before the character before the area. *)
Definition smashing (q c n : Z) (m : mem) : mem :=
  fun y => if y <? q - 1 then 7 else the_memset q c n m y.

(** Memset01.c passes on a memset that overwrites what is before the area, all but the one
    character it looks at. *)
Theorem memset01_misses m : (exists l, main smashing m = Some l /\ passes l) /\ ~ Lawful smashing.
Proof.
  split.
  - apply rounds_pass. intros i Hi.
    cbn [rounds]. unfold exactly, smashing. unfold the_memset, p.
    assert (Hin : forall m x, 0 <= x < BSIZE -> fill m x = chr_a) by apply fill_in. unfold BSIZE in Hin.
    split; [|split].
    + intros x Hx. rewrite (proj2 (Z.ltb_ge _ _)), (proj2 (Z.leb_le _ _)), (proj2 (Z.ltb_lt _ _)) by lia. done.
    + rewrite (proj2 (Z.ltb_ge _ _)), Z.ltb_irrefl, andb_false_r, Hin by lia. done.
    + rewrite (proj2 (Z.ltb_ge _ _)) by lia. rewrite Hin by lia. done.
  - intros H. specialize (H 400 0 0 (fun _ => 0) 0 ltac:(lia)). by vm_compute in H.
Qed.
End Memset01.

Definition LEN : Z := 100.

(** The two test cases of memcpy01.c and memcmp01.c: [p], [q] and [len]. *)
Definition tcases : list (Z * Z * Z) := [(100, 800, LEN); (800, 100, LEN)].

Module Memcpy01.
Section Memcpy.
(** [memcpy(dest, src, n)] *)
Context (memcpy : Z -> Z -> Z -> mem -> mem).

Definition clearit (m : mem) : mem := store (Z.to_nat BSIZE) 0 0 m.

Definition fill (str len : Z) (m : mem) : mem := store (Z.to_nat len) str chr_a m.

Fixpoint checkit (n : nat) (str : Z) (m : mem) : Z :=
  match n with
  | O => 0
  | S n => if negb (m str =? chr_a) then -1 else checkit n (str + 1) m
  end.

Definition setup (m : mem) : mem := clearit m.

Definition verify_memcpy (p q len : Z) (m : mem) : mem * list entry :=
  let m := memcpy q p LEN (fill p len m) in
  (m,
   if negb (checkit (Z.to_nat len) q m =? 0) then [Entry TFAIL None "copy failed - missed data" []]
   else if negb (m (p - 1) =? 0) || negb (m (p + LEN) =? 0) then [Entry TFAIL None "copy failed - 'to' bounds" []]
   else if negb (m (q - 1) =? 0) || negb (m (q + LEN) =? 0) then [Entry TFAIL None "copy failed - 'from' bounds" []]
   else [pass]).

Definition run_test (nr : Z) (m : mem) : mem * list entry :=
  let m := clearit m in
  match tcases !! Z.to_nat nr with
  | Some (p, q, len) => verify_memcpy p q len m
  | None => (m, [])
  end.

Definition main (m : mem) : list entry := run_cases run_test 2 0 (setup m).

(** ** What the test checks *)

(** The array after a case, and what has to hold of it. *)
Definition copied (p q : Z) (m : mem) : mem := memcpy q p LEN (fill p LEN (clearit m)).

Definition in_place (p q : Z) (m : mem) : Prop :=
  (forall x, q <= x < q + LEN -> m x = chr_a)
  /\ m (p - 1) = 0 /\ m (p + LEN) = 0 /\ m (q - 1) = 0 /\ m (q + LEN) = 0.

Lemma copied_spec n str m :
  checkit n str m = 0 <-> forall x, str <= x < str + Z.of_nat n -> m x = chr_a.
Proof.
  revert str. induction n as [|n IH]; intros str; cbn [checkit]; [split; [lia|done]|].
  destruct (Z.eqb_spec (m str) chr_a) as [E|E]; cbn [negb].
  - rewrite IH. split; intros H x Hx; [|apply H; lia].
    destruct (decide (x = str)) as [->|]; [done|]. apply H. lia.
  - split; [done|]. intros H. exfalso. apply E, H. lia.
Qed.

Lemma case_mem p q m : (verify_memcpy p q LEN (clearit m)).1 = copied p q m.
Proof. reflexivity. Qed.

Lemma copy_case_exact p q m :
  clean (verify_memcpy p q LEN (clearit m)).2 = true <-> in_place p q (copied p q m).
Proof.
  unfold verify_memcpy, in_place. fold (copied p q m). cbn [snd].
  pose proof (copied_spec (Z.to_nat LEN) q (copied p q m)) as Hc.
  change (Z.of_nat (Z.to_nat LEN)) with LEN in Hc.
  destruct (Z.eqb_spec (checkit (Z.to_nat LEN) q (copied p q m)) 0) as [E|E]; cbn [negb].
  - pose proof (proj1 Hc E) as E'. destruct (Z.eqb_spec (copied p q m (p - 1)) 0), (Z.eqb_spec (copied p q m (p + LEN)) 0),
      (Z.eqb_spec (copied p q m (q - 1)) 0), (Z.eqb_spec (copied p q m (q + LEN)) 0); cbn; intuition congruence.
  - cbn. split; [done|]. intros [H _]. exfalso. apply E. by apply Hc.
Qed.

Lemma main_clean m :
  passes (main m) <->
  clean (verify_memcpy 100 800 LEN (clearit (setup m))).2 = true
  /\ clean (verify_memcpy 800 100 LEN (clearit (copied 100 800 (setup m)))).2 = true.
Proof.
  unfold passes, main. cbn [run_cases]. unfold run_test.
  change (tcases !! Z.to_nat 0) with (Some (100, 800, LEN)).
  change (tcases !! Z.to_nat (0 + 1)) with (Some (800, 100, LEN)). cbv beta iota.
  rewrite (surjective_pairing (verify_memcpy 100 800 LEN (clearit (setup m)))), case_mem.
  rewrite (surjective_pairing (verify_memcpy 800 100 LEN (clearit (copied 100 800 (setup m))))).
  rewrite app_nil_r, clean_app. apply andb_true_iff.
Qed.

(** C38: memcpy01.c passes exactly if after both cases the copy is there and the two characters
    around the copy and the two around the source are still zero; the source itself does
    not matter. *)
Theorem memcpy01_exact m :
  passes (main m) <->
  let m1 := copied 100 800 (setup m) in
  in_place 100 800 m1 /\ in_place 800 100 (copied 800 100 m1).
Proof. cbv zeta. by rewrite main_clean, !copy_case_exact. Qed.

(** What C promises of areas that do not overlap. *)
Definition Lawful : Prop := forall dest src n m y,
  0 <= n -> dest + n <= src \/ src + n <= dest ->
  memcpy dest src n m y = if (dest <=? y) && (y <? dest + n) then m (src + (y - dest)) else m y.

Lemma clearit_in m x : 0 <= x < BSIZE -> clearit m x = 0.
Proof. intros H. apply store_in. unfold BSIZE in *. lia. Qed.
End Memcpy.

(** A memcpy that moves: the source is cleared. *)
Definition moving (dest src n : Z) (m : mem) : mem := fun y =>
  if (dest <=? y) && (y <? dest + n) then m (src + (y - dest))
  else if (src <=? y) && (y <? src + n) then 0 else m y.

Definition the_memcpy (dest src n : Z) (m : mem) : mem := fun y =>
  if (dest <=? y) && (y <? dest + n) then m (src + (y - dest)) else m y.

(** What [memcpy] does around the source and to the copy is enough. *)
Lemma in_place_if memcpy p q m :
  (forall m y, q <= y < q + LEN -> memcpy q p LEN m y = m (p + (y - q))) ->
  (forall m y, y < q \/ q + LEN <= y -> y < p \/ p + LEN <= y -> memcpy q p LEN m y = m y) ->
  1 <= p -> 1 <= q -> p + LEN < BSIZE -> q + LEN < BSIZE -> p + LEN < q \/ q + LEN < p ->
  in_place p q (copied memcpy p q m).
Proof.
  intros Hin Hout Hp1 Hq1 Hp2 Hq2 Hd. unfold copied, in_place.
  assert (Hz : forall y, 0 <= y < BSIZE -> y < p \/ p + LEN <= y -> fill p LEN (clearit m) y = 0).
  { intros y Hy Ho. unfold fill. rewrite store_out by (unfold LEN in *; lia). by apply clearit_in. }
  split.
  - intros x Hx. rewrite Hin by done. unfold fill. apply store_in. unfold LEN in *. lia.
  - unfold LEN, BSIZE in *. split_and!; rewrite Hout, Hz by lia; done.
Qed.

(** Memcpy01.c passes if memcpy does what C promises. *)
Theorem memcpy01_passes memcpy m : Lawful memcpy -> passes (main memcpy m).
Proof.
  intros HL. rewrite main_clean, !copy_case_exact.
  assert (Hin : forall p q m y, q + LEN <= p \/ p + LEN <= q -> q <= y < q + LEN ->
      memcpy q p LEN m y = m (p + (y - q))).
  { intros p q m' y Hd Hy. rewrite HL by (unfold LEN in *; lia).
    by rewrite (proj2 (Z.leb_le _ _)), (proj2 (Z.ltb_lt _ _)) by lia. }
  assert (Hout : forall p q m y, q + LEN <= p \/ p + LEN <= q -> y < q \/ q + LEN <= y ->
      memcpy q p LEN m y = m y).
  { intros p q m' y Hd Hy. rewrite HL by (unfold LEN in *; lia).
    destruct (Z.leb_spec q y), (Z.ltb_spec y (q + LEN)); done || lia. }
  unfold LEN, BSIZE in *.
  split; apply in_place_if; unfold LEN, BSIZE; try lia; intros; (apply Hin || apply Hout); lia.
Qed.

Lemma memcpy01_passes_witness : passes (main the_memcpy (fun _ => 1)).
Proof. apply (memcpy01_passes the_memcpy). intros dest src n m y _ _. done. Defined.

(** Memcpy01.c passes on a memcpy that clears the source. *)
Theorem memcpy01_misses m : passes (main moving m) /\ ~ Lawful moving.
Proof.
  split.
  - rewrite main_clean, !copy_case_exact. unfold moving.
    split; apply in_place_if; unfold LEN, BSIZE; try lia; intros m' y.
    all: try (intros Hy; by rewrite (proj2 (Z.leb_le _ _)), (proj2 (Z.ltb_lt _ _)) by lia).
    all: intros H1 H2.
    + destruct (Z.leb_spec 800 y), (Z.ltb_spec y (800 + 100)), (Z.leb_spec 100 y), (Z.ltb_spec y (100 + 100));
        done || lia.
    + destruct (Z.leb_spec 800 y), (Z.ltb_spec y (800 + 100)), (Z.leb_spec 100 y), (Z.ltb_spec y (100 + 100));
        done || lia.
  - intros H. specialize (H 1 0 1 (fun _ => 7) 0 ltac:(lia) ltac:(lia)). by vm_compute in H.
Qed.
End Memcpy01.

Module Memcmp01.
Section Memcmp.
(** [memcmp(p, q, n)] *)
Context (memcmp : Z -> Z -> Z -> mem -> Z).

Definition fill (str len : Z) (m : mem) : mem := store (Z.to_nat len) str chr_a m.

Definition setup (m : mem) : mem := store (Z.to_nat BSIZE) 0 0 m.

Definition failure (succeeded : bool) : list entry :=
  [Entry TFAIL None
     (if succeeded then "memcmp succeeded - should have failed."
      else "memcmp fails - should have succeeded.") []].

Definition verify_memcmp (p q len : Z) (m : mem) : mem * list entry :=
  let m := fill q len (fill p len m) in
  if negb (memcmp p q len m =? 0) then (m, failure false)
  else
    let m := set (p + (len - 1)) 0 m in
    if 0 <=? memcmp p q len m then (m, failure true)
    else
      let m := set p 0 (set (p + (len - 1)) chr_a m) in
      if 0 <=? memcmp p q len m then (m, failure true)
      else
        let m := set (q + (len - 1)) 0 (set p chr_a m) in
        if memcmp p q len m <=? 0 then (m, failure true)
        else
          let m := set q 0 (set (q + (len - 1)) chr_a m) in
          if memcmp p q len m <=? 0 then (m, failure true)
          else
            let m := set q chr_a m in
            if negb (memcmp p q len m =? 0) then (m, failure false) else (m, [pass]).

Definition run_test (nr : Z) (m : mem) : mem * list entry :=
  match tcases !! Z.to_nat nr with
  | Some (p, q, len) => verify_memcmp p q len m
  | None => (m, [])
  end.

Definition main (m : mem) : list entry := run_cases run_test 2 0 (setup m).

(** ** What the test checks *)

(** The six arrays [memcmp] is asked about; the last one is what a case that passes leaves. *)
Definition equal (p q : Z) (m : mem) : mem := fill q LEN (fill p LEN m).
Definition less_last (p q : Z) (m : mem) : mem := set (p + (LEN - 1)) 0 (equal p q m).
Definition less_first (p q : Z) (m : mem) : mem := set p 0 (set (p + (LEN - 1)) chr_a (less_last p q m)).
Definition more_last (p q : Z) (m : mem) : mem := set (q + (LEN - 1)) 0 (set p chr_a (less_first p q m)).
Definition more_first (p q : Z) (m : mem) : mem := set q 0 (set (q + (LEN - 1)) chr_a (more_last p q m)).
Definition equal_again (p q : Z) (m : mem) : mem := set q chr_a (more_first p q m).

Definition signs (p q : Z) (m : mem) : Prop :=
  memcmp p q LEN (equal p q m) = 0 /\ memcmp p q LEN (less_last p q m) < 0
  /\ memcmp p q LEN (less_first p q m) < 0 /\ 0 < memcmp p q LEN (more_last p q m)
  /\ 0 < memcmp p q LEN (more_first p q m) /\ memcmp p q LEN (equal_again p q m) = 0.

Ltac wrong_sign := split; [intros (? & ? & ? & ? & ? & ?); exfalso; lia | intros Hc; discriminate Hc].

Lemma compare_case_exact p q m :
  (signs p q m -> verify_memcmp p q LEN m = (equal_again p q m, [pass]))
  /\ (clean (verify_memcmp p q LEN m).2 = true -> signs p q m).
Proof.
  unfold signs, verify_memcmp. fold (equal p q m). fold (less_last p q m). fold (less_first p q m).
  fold (more_last p q m). fold (more_first p q m). fold (equal_again p q m).
  destruct (Z.eqb_spec (memcmp p q LEN (equal p q m)) 0); cbn [negb]; [|wrong_sign].
  destruct (Z.leb_spec 0 (memcmp p q LEN (less_last p q m))); [wrong_sign|].
  destruct (Z.leb_spec 0 (memcmp p q LEN (less_first p q m))); [wrong_sign|].
  destruct (Z.leb_spec (memcmp p q LEN (more_last p q m)) 0); [wrong_sign|].
  destruct (Z.leb_spec (memcmp p q LEN (more_first p q m)) 0); [wrong_sign|].
  destruct (Z.eqb_spec (memcmp p q LEN (equal_again p q m)) 0); cbn [negb]; [|wrong_sign].
  split; [done|]. intros _. repeat split; lia.
Qed.

Lemma main_parts m :
  main m = (verify_memcmp 100 800 LEN (setup m)).2
    ++ (verify_memcmp 800 100 LEN (verify_memcmp 100 800 LEN (setup m)).1).2.
Proof.
  unfold main. cbn [run_cases]. unfold run_test.
  change (tcases !! Z.to_nat 0) with (Some (100, 800, LEN)).
  change (tcases !! Z.to_nat (0 + 1)) with (Some (800, 100, LEN)). cbv beta iota.
  destruct (verify_memcmp 100 800 LEN (setup m)) as [m1 l1]. cbn [fst snd].
  destruct (verify_memcmp 800 100 LEN m1) as [m2 l2]. by rewrite app_nil_r.
Qed.

Lemma signs_pass m :
  signs 100 800 (setup m) -> signs 800 100 (equal_again 100 800 (setup m)) -> passes (main m).
Proof.
  intros HA HB. unfold passes. rewrite main_parts, (proj1 (compare_case_exact 100 800 (setup m)) HA).
  cbn [fst snd]. rewrite (proj1 (compare_case_exact 800 100 (equal_again 100 800 (setup m))) HB). done.
Qed.

(** C32: memcmp01.c passes exactly if memcmp has the right sign on the six arrays of each
    case: equal areas, and areas that differ in the first or the last character only. *)
Theorem memcmp01_exact m :
  passes (main m) <->
  signs 100 800 (setup m) /\ signs 800 100 (equal_again 100 800 (setup m)).
Proof.
  split; [|intros [H1 H2]; exact (signs_pass m H1 H2)]. unfold passes. rewrite main_parts, clean_app, andb_true_iff.
  intros [Hl Hr]. pose proof (proj2 (compare_case_exact 100 800 (setup m)) Hl) as HA. split; [exact HA|].
  rewrite (proj1 (compare_case_exact 100 800 (setup m)) HA) in Hr. cbn [fst] in Hr.
  exact (proj2 (compare_case_exact 800 100 (equal_again 100 800 (setup m))) Hr).
Qed.

(** What C promises: the sign is that of the first characters that differ. *)
Definition agree (p q n : Z) (m : mem) : Prop := forall i, 0 <= i < n -> m (p + i) = m (q + i).

Definition Lawful : Prop := forall p q n m,
  (agree p q n m -> memcmp p q n m = 0)
  /\ forall k, 0 <= k < n -> agree p q k m ->
       (m (p + k) < m (q + k) -> memcmp p q n m < 0) /\ (m (q + k) < m (p + k) -> 0 < memcmp p q n m).

(** *** The six arrays *)

Section Arrays.
Context (p q : Z) (m : mem) (Hd : p + LEN <= q \/ q + LEN <= p).

(** The areas are full of the letter a but for one character. *)
Definition area_p (f : Z -> Z) (m : mem) : Prop := forall i, 0 <= i < LEN -> m (p + i) = f i.
Definition area_q (f : Z -> Z) (m : mem) : Prop := forall i, 0 <= i < LEN -> m (q + i) = f i.
Definition all_a (_ : Z) : Z := chr_a.
Definition zero_at (k i : Z) : Z := if i =? k then 0 else chr_a.

Ltac at_index := unfold LEN in *; repeat rewrite set_at; unfold zero_at, all_a;
  repeat match goal with |- context [?x =? ?y] => destruct (Z.eqb_spec x y); try lia end; try done.

Lemma equal_areas : area_p all_a (equal p q m) /\ area_q all_a (equal p q m).
Proof.
  unfold equal, fill. split; intros i Hi.
  - rewrite store_out by (unfold LEN in *; lia). apply store_in. unfold LEN in *; lia.
  - apply store_in. unfold LEN in *; lia.
Qed.

Lemma less_last_areas : area_p (zero_at (LEN - 1)) (less_last p q m) /\ area_q all_a (less_last p q m).
Proof.
  destruct equal_areas as [H1 H2]. unfold less_last. split; intros i Hi; specialize (H1 i Hi); specialize (H2 i Hi); at_index.
Qed.

Lemma less_first_areas : area_p (zero_at 0) (less_first p q m) /\ area_q all_a (less_first p q m).
Proof.
  destruct less_last_areas as [H1 H2]. unfold less_first.
  split; intros i Hi; specialize (H1 i Hi); specialize (H2 i Hi); unfold zero_at in H1; revert H1; at_index.
Qed.

Lemma more_last_areas : area_p all_a (more_last p q m) /\ area_q (zero_at (LEN - 1)) (more_last p q m).
Proof.
  destruct less_first_areas as [H1 H2]. unfold more_last.
  split; intros i Hi; specialize (H1 i Hi); specialize (H2 i Hi); unfold zero_at in H1; revert H1; at_index.
Qed.

Lemma more_first_areas : area_p all_a (more_first p q m) /\ area_q (zero_at 0) (more_first p q m).
Proof.
  destruct more_last_areas as [H1 H2]. unfold more_first.
  split; intros i Hi; specialize (H1 i Hi); specialize (H2 i Hi); unfold zero_at in H2; revert H2; at_index.
Qed.

Lemma equal_again_areas : area_p all_a (equal_again p q m) /\ area_q all_a (equal_again p q m).
Proof.
  destruct more_first_areas as [H1 H2]. unfold equal_again.
  split; intros i Hi; specialize (H1 i Hi); specialize (H2 i Hi); unfold zero_at in H2; revert H2; at_index.
Qed.

(** A function of the two areas alone has to be right on five pairs of areas. *)
Lemma signs_if :
  (forall m, area_p all_a m -> area_q all_a m -> memcmp p q LEN m = 0) ->
  (forall k m, k = 0 \/ k = LEN - 1 -> area_p (zero_at k) m -> area_q all_a m -> memcmp p q LEN m < 0) ->
  (forall k m, k = 0 \/ k = LEN - 1 -> area_p all_a m -> area_q (zero_at k) m -> 0 < memcmp p q LEN m) ->
  signs p q m.
Proof.
  intros He Hl Hm.
  destruct equal_areas as [A1 A2], less_last_areas as [B1 B2], less_first_areas as [C1 C2],
    more_last_areas as [D1 D2], more_first_areas as [E1 E2], equal_again_areas as [F1 F2].
  repeat split.
  - apply (He _ A1 A2).
  - apply (Hl (LEN - 1) _ (or_intror eq_refl) B1 B2).
  - apply (Hl 0 _ (or_introl eq_refl) C1 C2).
  - apply (Hm (LEN - 1) _ (or_intror eq_refl) D1 D2).
  - apply (Hm 0 _ (or_introl eq_refl) E1 E2).
  - apply (He _ F1 F2).
Qed.
End Arrays.
End Memcmp.

(** Of two characters the first that differs. *)
Definition sign_of (a b : Z) : Z := if a <? b then -1 else if b <? a then 1 else 0.

Fixpoint compare (n : nat) (p q : Z) (m : mem) : Z :=
  match n with
  | O => 0
  | S n => if m p =? m q then compare n (p + 1) (q + 1) m else sign_of (m p) (m q)
  end.

Definition the_memcmp (p q n : Z) (m : mem) : Z := compare (Z.to_nat n) p q m.

Lemma compare_agree n p q m : (forall i, 0 <= i < Z.of_nat n -> m (p + i) = m (q + i)) -> compare n p q m = 0.
Proof.
  revert p q. induction n as [|n IH]; intros p q H; [done|]. cbn [compare].
  pose proof (H 0 ltac:(lia)) as H0. rewrite !Z.add_0_r in H0. rewrite H0, Z.eqb_refl. apply IH.
  intros i Hi. specialize (H (i + 1) ltac:(lia)).
  by replace (p + 1 + i) with (p + (i + 1)) by lia; replace (q + 1 + i) with (q + (i + 1)) by lia.
Qed.

Lemma compare_differ n k p q m :
  0 <= k < Z.of_nat n -> agree p q k m -> m (p + k) <> m (q + k) ->
  compare n p q m = sign_of (m (p + k)) (m (q + k)).
Proof.
  revert k p q. induction n as [|n IH]; intros k p q Hk Ha Hd; [lia|]. cbn [compare].
  destruct (decide (k = 0)) as [->|Hne].
  - rewrite !Z.add_0_r in *. by rewrite (proj2 (Z.eqb_neq _ _)).
  - pose proof (Ha 0 ltac:(lia)) as H0. rewrite !Z.add_0_r in H0. rewrite H0, Z.eqb_refl.
    replace (p + k) with (p + 1 + (k - 1)) in * by lia. replace (q + k) with (q + 1 + (k - 1)) in * by lia.
    apply IH; [lia| |done]. intros i Hi. specialize (Ha (i + 1) ltac:(lia)).
    by replace (p + 1 + i) with (p + (i + 1)) by lia; replace (q + 1 + i) with (q + (i + 1)) by lia.
Qed.

Lemma the_memcmp_lawful : Lawful the_memcmp.
Proof.
  intros p q n m. unfold the_memcmp. split.
  - intros H. apply compare_agree. intros i Hi. apply H. lia.
  - intros k Hk Ha. split; intros Hlt.
    + rewrite (compare_differ _ k) by (done || lia). unfold sign_of. by rewrite (proj2 (Z.ltb_lt _ _)).
    + rewrite (compare_differ _ k) by (done || lia). unfold sign_of.
      rewrite (proj2 (Z.ltb_ge _ _)), (proj2 (Z.ltb_lt _ _)) by lia. done.
Qed.

Lemma lawful_signs memcmp p q m :
  Lawful memcmp -> p + LEN <= q \/ q + LEN <= p -> signs memcmp p q m.
Proof.
  intros HL Hd. apply signs_if; [done| | |].
  - intros m' Hp Hq. apply HL. intros i Hi. by rewrite Hp, Hq.
  - intros k m' Hk Hp Hq. assert (Hk' : 0 <= k < LEN) by (unfold LEN in *; lia).
    apply (proj2 (HL p q LEN m') k Hk').
    + intros i Hi. rewrite Hp, Hq by lia. unfold zero_at. by rewrite (proj2 (Z.eqb_neq _ _)) by lia.
    + rewrite Hp, Hq by lia. unfold zero_at. by rewrite Z.eqb_refl.
  - intros k m' Hk Hp Hq. assert (Hk' : 0 <= k < LEN) by (unfold LEN in *; lia).
    apply (proj2 (HL p q LEN m') k Hk').
    + intros i Hi. rewrite Hp, Hq by lia. unfold zero_at. by rewrite (proj2 (Z.eqb_neq _ _)) by lia.
    + rewrite Hp, Hq by lia. unfold zero_at. by rewrite Z.eqb_refl.
Qed.

(** Memcmp01.c passes if memcmp does what C promises. *)
Theorem memcmp01_passes memcmp m : Lawful memcmp -> passes (main memcmp m).
Proof. intros HL. apply signs_pass; apply lawful_signs; try done; unfold LEN; lia. Qed.

Lemma memcmp01_passes_witness : passes (main the_memcmp (fun _ => 1)).
Proof. apply (memcmp01_passes the_memcmp). exact the_memcmp_lawful. Defined.

(** A memcmp that looks at the first and the last character only. *)
Definition ends_only (p q n : Z) (m : mem) : Z :=
  if m p =? m q then sign_of (m (p + (n - 1))) (m (q + (n - 1))) else sign_of (m p) (m q).

(** Memcmp01.c passes on a memcmp that compares the first and the last character only. *)
Theorem memcmp01_misses m : passes (main ends_only m) /\ ~ Lawful ends_only.
Proof.
  split.
  - assert (Hs : forall p q m, p + LEN <= q \/ q + LEN <= p -> signs ends_only p q m).
    { intros p q m' Hd. apply signs_if; [done| | |].
      all: try intros k m1 Hk Hp Hq; try intros m1 Hp Hq; unfold ends_only.
      all: pose proof (Hp 0 ltac:(unfold LEN; lia)) as Hp0; pose proof (Hq 0 ltac:(unfold LEN; lia)) as Hq0.
      all: rewrite Z.add_0_r in Hp0, Hq0; rewrite Hp0, Hq0, (Hp (LEN - 1)), (Hq (LEN - 1)) by (unfold LEN; lia).
      all: try (destruct Hk as [->| ->]); done. }
    apply signs_pass; apply Hs; unfold LEN; lia.
  - intros H. destruct (H 0 10 3 (fun x => if x =? 1 then 5 else 0)) as [_ H1].
    destruct (H1 1 ltac:(lia)) as [_ H2]; [intros i Hi; by replace i with 0 by lia|].
    specialize (H2 ltac:(reflexivity)). by vm_compute in H2.
Qed.
End Memcmp01.
