(* ===== verification/Kill10.v ===== *)
(** * kill10.c: a flood of signals

    Model of the rounds of [src/original tests/kill/kill10.c].  A master tells groups of
    children to flood their managers with signals; a manager ticks off the children it
    heard of on a checklist and then signals the master until the master resets it; the master
    reports a pass when all managers have signalled.

    Nothing here ends under every schedule, so the rounds are a transition system: [next] is one
    step of one process ([label]): a signal is taken and its handler runs, or the process
    does the next thing in its loop.  [pause] and [usleep] never keep a process from
    going on, because of the alarms.  The system starts when the set-up is over: managers and
    children exist, and the master has acknowledged every manager.

    Left out: the set-up, the debug output; that a handler of the master may be
    interrupted by another. *)

From S2P Require Import Prelude.

Definition SIGHUP : Z := 1.
Definition SIGQUIT : Z := 3.
Definition SIGUSR1 : Z := 10.
Definition SIGUSR2 : Z := 12.

(** ** The checklist *)

(** [struct pid_list_item] *)
Record item := Item { pid : Z; flag : Z }.

#[export] Instance item_eq_dec : EqDecision item.
Proof. solve_decision. Defined.

Definition checklist_cmp (a b : item) : Z :=
  (if pid b <? pid a then 1 else 0) - (if pid a <? pid b then 1 else 0).

(** [bsearch] of the C library: the index of an element that compares equal. *)
Fixpoint bsearch_in (fuel : nat) (key : item) (l : list item) (lo hi : nat) : option nat :=
  match fuel with
  | O => None
  | S fuel =>
      if (lo <? hi)%nat then
        let mid := ((lo + hi) / 2)%nat in
        match l !! mid with
        | None => None
        | Some x =>
            let c := checklist_cmp key x in
            if c <? 0 then bsearch_in fuel key l lo mid
            else if 0 <? c then bsearch_in fuel key l (S mid) hi
            else Some mid
        end
      else None
  end.

Definition bsearch (key : item) (l : list item) : option nat :=
  bsearch_in (S (length l)) key l 0 (length l).

(** [result->flag = result->flag | bit] and [result->flag = 1]. *)
Definition or_flag (bit : Z) (x : item) : item := Item (pid x) (Z.lor (flag x) bit).
Definition put_flag (f : Z) (x : item) : item := Item (pid x) f.

(** ** The variables of a process *)

Record globals := Globals {
  child_checklist : list item;
  child_signal_counter : Z;
  pgrps_ready : Z;
  signal_parents_flag : Z;
  confirmed_ready_flag : Z
}.

#[export] Instance globals_eq_dec : EqDecision globals.
Proof. solve_decision. Defined.

Definition set_checklist l g :=
  Globals l (child_signal_counter g) (pgrps_ready g) (signal_parents_flag g) (confirmed_ready_flag g).
Definition set_counter x g :=
  Globals (child_checklist g) x (pgrps_ready g) (signal_parents_flag g) (confirmed_ready_flag g).
Definition set_pgrps_ready x g :=
  Globals (child_checklist g) (child_signal_counter g) x (signal_parents_flag g) (confirmed_ready_flag g).
Definition set_signal_flag x g :=
  Globals (child_checklist g) (child_signal_counter g) (pgrps_ready g) x (confirmed_ready_flag g).
Definition set_confirmed x g :=
  Globals (child_checklist g) (child_signal_counter g) (pgrps_ready g) (signal_parents_flag g) x.

Definition checklist_reset (bit : Z) (g : globals) : globals :=
  set_checklist (map (fun x => Item (pid x) (Z.land (flag x) (Z.lnot bit))) (child_checklist g)) g.

(** ** Signal handlers *)

(** What a handler does to others. *)
Inductive effect := Kill (target sig : Z) | Printf (fmt : string) (args : list Z) | Exit | Brkm (fmt : string) (args : list Z).

(** [sig] comes from the process [from]. *)
Definition handler : Type := Z -> Z -> globals -> globals * list effect.

Definition ack_ready : handler := fun sig from g =>
  match bsearch (Item from 0) (child_checklist g) with
  | Some i =>
      if Z.land (from_option flag 0 (child_checklist g !! i)) 1 =? 0 then
        (set_pgrps_ready (pgrps_ready g + 1) (set_checklist (alter (or_flag 1) i (child_checklist g)) g),
         [Kill from SIGUSR1])
      else (g, [])
  | None => (g, [Printf "received unexpected signal %d from %d" [sig; from]])
  end.

Definition ack_done : handler := fun sig from g =>
  match bsearch (Item from 0) (child_checklist g) with
  | Some i =>
      if Z.land (from_option flag 0 (child_checklist g !! i)) 2 =? 0 then
        (set_counter (child_signal_counter g + 1) (set_checklist (alter (or_flag 2) i (child_checklist g)) g),
         [Kill from SIGHUP])
      else (g, [])
  | None => (g, [Printf "received unexpected signal %d from %d" [sig; from]])
  end.

Definition reply_to_child : handler := fun sig from g =>
  match bsearch (Item from 0) (child_checklist g) with
  | Some i =>
      if from_option flag 0 (child_checklist g !! i) =? 0 then
        (set_counter (child_signal_counter g + 1) (set_checklist (alter (put_flag 1) i (child_checklist g)) g),
         [Kill from SIGUSR2])
      else (g, [])
  | None => (g, [Brkm "received unexpected signal from %d" [from]])
  end.

Definition reset_counter : handler := fun _ _ g => (set_counter 0 (checklist_reset 255 g), []).
Definition set_signal_parents : handler := fun _ _ g => (set_signal_flag 1 g, []).
Definition clear_signal_parents : handler := fun _ _ g => (set_signal_flag 0 g, []).
Definition set_confirmed_ready : handler := fun _ _ g => (set_confirmed 1 g, []).
Definition graceful_exit : handler := fun _ _ g => (g, [Exit]).
Definition ignore : handler := fun _ _ g => (g, []).

(** ** The processes *)

Inductive role := Master | Manager | Child.

(** Where in its loop a process is.  The master: sending to the group of entry [cnt], waiting for
    the managers.  A manager: until it is confirmed, pausing, reporting to the master.
    A child: waiting for the start, signalling. *)
Inductive place := Sending (cnt : nat) | Waiting | Confirming | Pausing | Reporting | Idle | Signalling.

#[export] Instance role_eq_dec : EqDecision role.
Proof. solve_decision. Defined.
#[export] Instance place_eq_dec : EqDecision place.
Proof. solve_decision. Defined.

(** The handlers after the set-up. *)
Definition handler_of (r : role) (sig : Z) : handler :=
  match r with
  | Master => if sig =? SIGUSR1 then ack_ready else if sig =? SIGUSR2 then ack_done else ignore
  | Manager =>
      if sig =? SIGUSR1 then set_confirmed_ready else if sig =? SIGUSR2 then reply_to_child
      else if sig =? SIGHUP then reset_counter else if sig =? SIGQUIT then graceful_exit else ignore
  | Child =>
      if sig =? SIGUSR1 then set_signal_parents else if sig =? SIGUSR2 then clear_signal_parents
      else if sig =? SIGQUIT then graceful_exit else ignore
  end.

Record process := Process {
  p_role : role;
  p_ppid : Z;
  p_vars : globals;
  p_place : place;
  p_pending : list (Z * Z)     (* signals that came, and from whom *)
}.

#[export] Instance process_eq_dec : EqDecision process.
Proof. solve_decision. Defined.

Abbreviation system := (gmap Z process).

Definition with_vars g p := Process (p_role p) (p_ppid p) g (p_place p) (p_pending p).
Definition with_place x p := Process (p_role p) (p_ppid p) (p_vars p) x (p_pending p).
Definition with_pending l p := Process (p_role p) (p_ppid p) (p_vars p) (p_place p) l.

(** [kill(target, sig)]: a signal that is there already does not come again. *)
Definition add_signal (sig from : Z) (p : process) : process :=
  if bool_decide (sig ∈ (p_pending p).*1) then p else with_pending (p_pending p ++ [(sig, from)]) p.

Definition kill (target sig from : Z) (s : system) : system := alter (add_signal sig from) target s.

(** [kill(-pgid, sig)]: the manager [pgid] and its children. *)
Definition kill_group (pgid sig from : Z) (s : system) : system :=
  map_imap (fun q p => Some (if (q =? pgid) || (p_ppid p =? pgid) then add_signal sig from p else p)) s.

(** The effects of a handler that ran in process [me]. *)
Fixpoint carry_out (me : Z) (l : list effect) (s : system) : system :=
  match l with
  | [] => s
  | Kill target sig :: l => carry_out me l (kill target sig me s)
  | Printf _ _ :: l => carry_out me l s
  | Exit :: _ | Brkm _ _ :: _ => delete me s
  end.

(** ** Steps *)

Inductive label :=
| Take (q sig : Z)      (* a signal is taken *)
| Send (q : Z)          (* the master starts the next group, or begins to wait *)
| Done (q : Z)          (* the master reports a pass and begins the next round *)
| Confirm (q : Z)       (* a manager signals that it is ready, or goes on *)
| Check (q : Z)         (* a manager wakes up and looks at its counter *)
| Report_ (q : Z)       (* a manager signals the master, or goes back to pause *)
| Look (q : Z)          (* a child wakes up and looks at its flag *)
| Signal_ (q : Z)       (* a child signals its manager *)
| Stop (q : Z).         (* a child stops signalling *)

#[export] Instance label_eq_dec : EqDecision label.
Proof. solve_decision. Defined.

(** The first line of the body of the loop over TEST_LOOPING. *)
Definition new_round (g : globals) : globals := checklist_reset 3 (set_pgrps_ready 0 (set_counter 0 g)).

Definition update (q : Z) (p : process) (s : system) : option system := Some (<[q := p]> s).

Section Steps.
Context (num_pgrps num_procs : Z).

(** [for (cnt...) kill(-child_checklist[cnt].pid, SIGUSR1)] *)
Definition send_next (cnt : nat) (q : Z) (p : process) (s : system) : option system :=
  match child_checklist (p_vars p) !! cnt with
  | Some x => Some (kill_group (pid x) SIGUSR1 q (<[q := with_place (Sending (S cnt)) p]> s))
  | None => update q (with_place Waiting p) s
  end.

(** [while (child_signal_counter < num_pgrps)] is over: the pass, and the next round. *)
Definition pass_round (q : Z) (p : process) (s : system) : option system :=
  if child_signal_counter (p_vars p) <? num_pgrps then None
  else update q (with_place (Sending 0) (with_vars (new_round (p_vars p)) p)) s.

(** [while ( !confirmed_ready_flag) kill(getppid(), SIGUSR1)] *)
Definition report_ready (q : Z) (p : process) (s : system) : option system :=
  if confirmed_ready_flag (p_vars p) =? 0 then Some (kill (p_ppid p) SIGUSR1 q s)
  else update q (with_place Pausing p) s.

(** [pause(); if (child_signal_counter >= num_procs)] *)
Definition check_counter (q : Z) (p : process) (s : system) : option system :=
  if num_procs <=? child_signal_counter (p_vars p)
  then update q (with_place Reporting (with_vars (set_confirmed 0 (p_vars p)) p)) s
  else update q p s.

(** [while (child_signal_counter) kill(getppid(), SIGUSR2)] *)
Definition report_done (q : Z) (p : process) (s : system) : option system :=
  if child_signal_counter (p_vars p) =? 0 then update q (with_place Pausing p) s
  else Some (kill (p_ppid p) SIGUSR2 q s).

(** [while ( !signal_parents_flag) pause()] *)
Definition wait_start (q : Z) (p : process) (s : system) : option system :=
  if signal_parents_flag (p_vars p) =? 0 then update q p s else update q (with_place Signalling p) s.

(** [while (signal_parents_flag) kill(getppid(), SIGUSR2)] *)
Definition call_mama (q : Z) (p : process) (s : system) : option system :=
  if signal_parents_flag (p_vars p) =? 0 then None else Some (kill (p_ppid p) SIGUSR2 q s).
Definition stop_calling (q : Z) (p : process) (s : system) : option system :=
  if signal_parents_flag (p_vars p) =? 0 then update q (with_place Idle p) s else None.

(** A signal that came is taken. *)
Definition take_signal (sig q : Z) (p : process) (s : system) : option system :=
  match List.find (fun x => x.1 =? sig) (p_pending p) with
  | None => None
  | Some (_, from) =>
      let (g, l) := handler_of (p_role p) sig sig from (p_vars p) in
      Some (carry_out q l
        (<[q := with_pending (filter (fun x => x.1 ≠ sig) (p_pending p)) (with_vars g p)]> s))
  end.

(** What process [q], which is [p], does next; [None]: not that. *)
Definition proc_step (l : label) (q : Z) (p : process) (s : system) : option system :=
  match l, p_place p with
  | Take _ sig, _ => take_signal sig q p s
  | Send _, Sending cnt => send_next cnt q p s
  | Done _, Waiting => pass_round q p s
  | Confirm _, Confirming => report_ready q p s
  | Check _, Pausing => check_counter q p s
  | Report_ _, Reporting => report_done q p s
  | Look _, Idle => wait_start q p s
  | Signal_ _, Signalling => call_mama q p s
  | Stop _, Signalling => stop_calling q p s
  | _, _ => None
  end.

Definition who (l : label) : Z :=
  match l with
  | Take q _ | Send q | Done q | Confirm q | Check q | Report_ q | Look q | Signal_ q | Stop q => q
  end.

Definition next (l : label) (s : system) : option system :=
  match s !! who l with Some p => proc_step l (who l) p s | None => None end.

Fixpoint run (tr : list label) (s : system) : option system :=
  match tr with
  | [] => Some s
  | l :: tr => next l s ≫= run tr
  end.
End Steps.

(** ** After the set-up *)

Definition vars_with (l : list Z) : globals := Globals (map (fun q => Item q 0) l) 0 0 0 0.

Definition new_child (manager : Z) : process := Process Child manager (vars_with []) Idle [].

(** A manager that has not yet taken the signal by which the master acknowledged it. *)
Definition new_manager (master : Z) (children : list Z) : process :=
  Process Manager master (vars_with children) Confirming [(SIGUSR1, master)].

Definition new_master (managers : list Z) : process :=
  Process Master 0 (vars_with managers) (Sending 0) [].

(** [groups]: the managers with their children. *)
Definition start (master : Z) (groups : list (Z * list Z)) : system :=
  <[master := new_master groups.*1]>
  (foldr (fun x s => <[x.1 := new_manager master x.2]> (foldr (fun c s => <[c := new_child x.1]> s) s x.2))
     ∅ groups).

(** ** The checklist is searched rightly *)

Lemma cmp_eq a b : checklist_cmp a b = 0 <-> pid a = pid b.
Proof. unfold checklist_cmp. destruct (Z.ltb_spec (pid b) (pid a)), (Z.ltb_spec (pid a) (pid b)); lia. Qed.

Lemma bsearch_in_found fuel key l lo hi i :
  bsearch_in fuel key l lo hi = Some i -> exists x, l !! i = Some x /\ pid x = pid key.
Proof.
  revert lo hi. induction fuel as [|fuel IH]; intros lo hi; cbn [bsearch_in]; [done|].
  destruct (Nat.ltb_spec lo hi); [|done]. destruct (l !! ((lo + hi) / 2)%nat) as [x|] eqn:E; [|done].
  destruct (Z.ltb_spec (checklist_cmp key x) 0); [apply IH|].
  destruct (Z.ltb_spec 0 (checklist_cmp key x)); [apply IH|]. intros [= <-].
  exists x. split; [done|]. symmetry. apply cmp_eq. lia.
Qed.

Lemma bsearch_found key l i : bsearch key l = Some i -> exists x, l !! i = Some x /\ pid x = pid key.
Proof. apply bsearch_in_found. Qed.

(** A checklist sorted by [qsort]. *)
Definition sorted (l : list item) : Prop :=
  forall i j x y, (i < j)%nat -> l !! i = Some x -> l !! j = Some y -> pid x < pid y.

Lemma bsearch_in_finds fuel key l lo hi i x :
  sorted l -> (lo <= i < hi)%nat -> (hi <= length l)%nat -> (hi - lo < fuel)%nat ->
  l !! i = Some x -> pid x = pid key -> bsearch_in fuel key l lo hi = Some i.
Proof.
  intros Hs. revert lo hi. induction fuel as [|fuel IH]; intros lo hi Hi Hl Hf Hx Hp; [lia|].
  cbn [bsearch_in]. rewrite (proj2 (Nat.ltb_lt lo hi)) by lia.
  set (mid := ((lo + hi) / 2)%nat).
  assert (Hmid : (lo <= mid < hi)%nat).
  { unfold mid. split; [apply Nat.div_le_lower_bound; lia | apply Nat.div_lt_upper_bound; lia]. }
  clearbody mid.
  destruct (l !! mid) as [y|] eqn:Ey; [|apply lookup_ge_None in Ey; lia].
  unfold checklist_cmp. rewrite <- Hp.
  destruct (decide (i = mid)) as [->|Hne].
  - assert (x = y) as -> by congruence. by rewrite !Z.ltb_irrefl.
  - destruct (decide (i < mid)%nat).
    + assert (pid x < pid y) by (by apply (Hs i mid x y)).
      rewrite (proj2 (Z.ltb_ge (pid y) (pid x))), (proj2 (Z.ltb_lt (pid x) (pid y))) by lia. cbn.
      apply IH; auto; lia.
    + assert (pid y < pid x) by (apply (Hs mid i y x); [lia|done|done]).
      rewrite (proj2 (Z.ltb_lt (pid y) (pid x))), (proj2 (Z.ltb_ge (pid x) (pid y))) by lia. cbn.
      apply IH; auto; lia.
Qed.

(** On a sorted checklist the search finds the entry of a process exactly if it has one. *)
Theorem bsearch_exact q l i :
  sorted l -> (bsearch (Item q 0) l = Some i <-> exists f, l !! i = Some (Item q f)).
Proof.
  intros Hs. split.
  - intros (x & Hx & Hp)%bsearch_found. exists (flag x). cbn in Hp. rewrite <- Hp. by destruct x.
  - intros [f Hx]. assert (i < length l)%nat by (by eapply lookup_lt_Some).
    eapply bsearch_in_finds; eauto; lia.
Qed.

Lemma bsearch_exact_witness : bsearch (Item 5 0) [Item 3 1; Item 5 2; Item 9 0] = Some 1%nat.
Proof.
  apply (bsearch_exact 5 [Item 3 1; Item 5 2; Item 9 0] 1); [|by exists 2].
  intros i j x y Hij Hx Hy. destruct i as [|[|[|i]]], j as [|[|[|j]]]; cbn in *; simplify_eq; cbn; lia.
Defined.

(** ** The first round *)

Section FirstRound.
Context (master : Z) (groups : list (Z * list Z)) (num_procs : Z).
Abbreviation managers := (groups.*1).

(** The processes are distinct, and every group has [num_procs] children. *)
Record distinct : Prop := {
  dist_managers : NoDup managers;
  dist_master : master ∉ managers;
  dist_child : forall m cs c, (m, cs) ∈ groups -> c ∈ cs -> c ∉ managers /\ c <> master;
  dist_parent : forall m cs m' cs' c,
    (m, cs) ∈ groups -> (m', cs') ∈ groups -> c ∈ cs -> c ∈ cs' -> m = m';
  dist_procs : forall m cs, (m, cs) ∈ groups -> Z.of_nat (length cs) = num_procs
}.
Hypothesis Hd : distinct.

Definition role_of (q : Z) : role :=
  if q =? master then Master else if bool_decide (q ∈ managers) then Manager else Child.

(** The children [T] have signalled: what a signal from [q] says. *)
Definition told (T : Z -> Prop) (q : Z) : Prop :=
  (q ∉ managers -> T q) /\ forall cs, (q, cs) ∈ groups -> forall c, c ∈ cs -> T c.

(** What ticks off an entry: for the master the second bit, for a manager any. *)
Definition ticked (r : role) (x : item) : bool :=
  match r with Master => negb (Z.land (flag x) 2 =? 0) | _ => negb (flag x =? 0) end.

Definition count (r : role) (l : list item) : nat := length (filter (fun x => ticked r x = true) l).

(** The list of a process. *)
Definition listed (q : Z) (l : list Z) : Prop :=
  if q =? master then l = managers else (q, l) ∈ groups.

Record tallied (T : Z -> Prop) (q : Z) (p : process) : Prop := {
  tal_list : listed q (map pid (child_checklist (p_vars p)));
  tal_count : child_signal_counter (p_vars p) <= Z.of_nat (count (p_role p) (child_checklist (p_vars p)));
  tal_told : forall x, x ∈ child_checklist (p_vars p) -> ticked (p_role p) x = true -> told T (pid x);
  tal_pending : forall from, (SIGUSR2, from) ∈ p_pending p -> told T from;
  tal_report : p_place p = Reporting -> told T q
}.

(** Who is where. *)
Definition place_role (x : place) : role :=
  match x with
  | Sending _ | Waiting => Master
  | Confirming | Pausing | Reporting => Manager
  | Idle | Signalling => Child
  end.

(** The invariant of process [q]. *)
Definition proc_ok (T : Z -> Prop) (q : Z) (p : process) : Prop :=
  (p_role p = role_of q /\ p_role p = place_role (p_place p)) /\ (p_role p <> Child -> tallied T q p).

Definition all_ok (T : Z -> Prop) (s : system) : Prop := map_Forall (proc_ok T) s.

(** *** Counting *)

Lemma count_alter r f i (l : list item) x :
  l !! i = Some x -> ticked r x = false -> ticked r (f x) = true -> count r (alter f i l) = S (count r l).
Proof.
  unfold count. revert i. induction l as [|y l IH]; intros [|i]; intros Hx H1 H2; [done|done| |].
  - injection Hx as ->. change (alter f 0%nat (x :: l)) with (f x :: l).
    rewrite !filter_cons. rewrite decide_True, decide_False by congruence. done.
  - change (alter f (S i) (y :: l)) with (y :: alter f i l). rewrite !filter_cons.
    destruct (decide (ticked r y = true)); cbn [length]; by rewrite (IH i).
Qed.

Lemma count_same r f i (l : list item) :
  (forall x, ticked r (f x) = ticked r x) -> count r (alter f i l) = count r l.
Proof.
  intros Hf. unfold count. revert i. induction l as [|y l IH]; intros [|i]; [done|done| |].
  - change (alter f 0%nat (y :: l)) with (f y :: l). rewrite !filter_cons, Hf. by destruct (decide _).
  - change (alter f (S i) (y :: l)) with (y :: alter f i l). rewrite !filter_cons.
    destruct (decide _); cbn [length]; by rewrite IH.
Qed.

Lemma count_all r (l : list item) : (length l <= count r l)%nat -> forall x, x ∈ l -> ticked r x = true.
Proof.
  unfold count. induction l as [|y l IH]; intros H x Hx; [by apply not_elem_of_nil in Hx|].
  rewrite filter_cons in H. pose proof (length_filter (fun x => ticked r x = true) l).
  destruct (decide (ticked r y = true)) as [E|E]; cbn [length] in H; [|lia].
  apply elem_of_cons in Hx as [->|Hx]; [done|]. apply IH; [lia|done].
Qed.

Lemma pids_alter f i (l : list item) : (forall x, pid (f x) = pid x) -> map pid (alter f i l) = map pid l.
Proof.
  intros Hf. revert i. induction l as [|y l IH]; intros [|i]; [done|done| |].
  - cbn. by rewrite Hf.
  - change (alter f (S i) (y :: l)) with (y :: alter f i l). cbn [map]. by rewrite IH.
Qed.

Lemma elem_of_alter f i (l : list item) x :
  x ∈ alter f i l -> x ∈ l \/ exists y, l !! i = Some y /\ x = f y.
Proof.
  revert i. induction l as [|y l IH]; intros [|i]; [by left|by left| |].
  - change (alter f 0%nat (y :: l)) with (f y :: l). intros [->|H]%elem_of_cons.
    + right. by exists y.
    + left. by right.
  - change (alter f (S i) (y :: l)) with (y :: alter f i l). intros [->|H]%elem_of_cons.
    + left. by left.
    + destruct (IH i H) as [H1|H1]; [left; by right | by right].
Qed.

(** *** Signals that are sent *)

Lemma sent_add sig from p y :
  y ∈ p_pending (add_signal sig from p) -> y ∈ p_pending p \/ y = (sig, from).
Proof.
  unfold add_signal. destruct (bool_decide _); [by left|]. cbn.
  intros [H|H%list_elem_of_singleton]%elem_of_app; auto.
Qed.

Lemma add_signal_same sig from p :
  p_role (add_signal sig from p) = p_role p /\ p_vars (add_signal sig from p) = p_vars p
  /\ p_place (add_signal sig from p) = p_place p /\ p_ppid (add_signal sig from p) = p_ppid p.
Proof. unfold add_signal. by destruct (bool_decide _). Qed.

(** SIGUSR2 says something to all but children. *)
Lemma add_signal_ok T sig from q p :
  (sig = SIGUSR2 -> role_of q <> Child -> told T from) -> proc_ok T q p -> proc_ok T q (add_signal sig from p).
Proof.
  intros Hs [Hr Ht]. unfold proc_ok. destruct (add_signal_same sig from p) as (H1 & H2 & H3 & _). rewrite H1, H3.
  split; [done|]. intros Hc. destruct (Ht Hc) as [L1 L2 L3 L4 L5].
  split; rewrite ?H1, ?H2, ?H3; try done.
  intros x Hx. apply sent_add in Hx as [Hx|Hx]; [by apply L4|]. injection Hx as <- ->.
  apply Hs; [done|]. by rewrite <- (proj1 Hr).
Qed.

Lemma kill_ok T target sig from s :
  (sig = SIGUSR2 -> role_of target <> Child -> told T from) -> all_ok T s -> all_ok T (kill target sig from s).
Proof.
  intros Hs Hok q p. unfold kill. intros [(<- & p' & Hp & ->)|[_ Hp]]%lookup_alter_Some; [|by apply Hok].
  apply add_signal_ok; [done|]. by apply Hok.
Qed.

Lemma kill_group_ok T pgid from s : all_ok T s -> all_ok T (kill_group pgid SIGUSR1 from s).
Proof.
  intros Hok q p. unfold kill_group. rewrite map_lookup_imap. destruct (s !! q) as [p'|] eqn:E; [|done].
  cbn. intros [= <-]. destruct (_ || _); [apply add_signal_ok; [done|]|]; by apply Hok.
Qed.

(** More children have signalled. *)
Lemma told_mono (T T' : Z -> Prop) q : (forall c, T c -> T' c) -> told T q -> told T' q.
Proof. intros HT [H1 H2]. split; [auto|]. intros cs Hcs c Hc. eauto. Qed.

Lemma all_ok_mono (T T' : Z -> Prop) s : (forall c, T c -> T' c) -> all_ok T s -> all_ok T' s.
Proof.
  intros HT Hok q p Hp. destruct (Hok q p Hp) as [H1 H2]. split; [done|]. intros Hc.
  destruct (H2 Hc) as [L1 L2 L3 L4 L5]. split; try done; eauto using told_mono.
Qed.

(** *** Handlers *)

Lemma manager_role q cs : (q, cs) ∈ groups -> role_of q = Manager.
Proof.
  intros H. assert (Hm : q ∈ managers) by (apply list_elem_of_fmap; by exists (q, cs)). unfold role_of.
  destruct (Z.eqb_spec q master) as [->|]; [by destruct (dist_master Hd)|]. by rewrite bool_decide_true.
Qed.

Lemma child_role m cs c : (m, cs) ∈ groups -> c ∈ cs -> role_of c = Child.
Proof.
  intros H1 H2. destruct (dist_child Hd m cs c H1 H2) as [H3 H4]. unfold role_of.
  rewrite (proj2 (Z.eqb_neq _ _)) by done. by rewrite bool_decide_false.
Qed.

(** An entry is ticked off for a process that signalled, and the counter goes up. *)
Lemma tick_ok T q p g i f x :
  proc_ok T q p -> p_role p <> Child -> child_checklist (p_vars p) !! i = Some x -> told T (pid x) ->
  (forall y, pid (f y) = pid y) -> ticked (p_role p) x = false -> ticked (p_role p) (f x) = true ->
  child_checklist g = alter f i (child_checklist (p_vars p)) ->
  child_signal_counter g = child_signal_counter (p_vars p) + 1 -> proc_ok T q (with_vars g p).
Proof.
  intros [Hr Ht] Hc Hx Htold Hf H1 H2 Hg Hg'. split; [done|]. intros _. destruct (Ht Hc) as [L1 L2 L3 L4 L5].
  split; cbn [p_vars p_role with_vars p_pending p_place]; rewrite ?Hg, ?Hg'; try done.
  - by rewrite pids_alter.
  - rewrite (count_alter _ _ _ _ _ Hx H1 H2). lia.
  - intros y [Hy|(z & Hz & ->)]%elem_of_alter; [by apply L3|]. intros _. rewrite Hf. by simplify_eq.
Qed.
(** The counter and the list stay what they are. *)
Lemma same_ok T q p g :
  proc_ok T q p -> child_checklist g = child_checklist (p_vars p) ->
  child_signal_counter g = child_signal_counter (p_vars p) -> proc_ok T q (with_vars g p).
Proof.
  intros [Hr Ht] H1 H2. split; [done|]. intros Hc. destruct (Ht Hc) as [L1 L2 L3 L4 L5].
  split; cbn [p_vars p_role with_vars p_pending p_place]; by rewrite ?H1, ?H2.
Qed.

Lemma no_tick r (x : item) : flag x = 0 -> ticked r x = false.
Proof. intros E. unfold ticked. rewrite E. by destruct r. Qed.

Lemma reset_ok T q p : proc_ok T q p -> proc_ok T q (with_vars (set_counter 0 (checklist_reset 255 (p_vars p))) p).
Proof.
  intros [Hr Ht]. split; [done|]. intros Hc. destruct (Ht Hc) as [L1 L2 L3 L4 L5].
  split; cbn [p_vars p_role with_vars p_pending p_place set_counter checklist_reset set_checklist
              child_checklist child_signal_counter]; try done; [by rewrite map_map | lia |].
  intros x (y & -> & Hy)%list_elem_of_fmap Hx. apply (L3 y Hy).
  destruct (ticked (p_role p) y) eqn:E; [done|]. revert Hx. unfold ticked in *. cbn [flag].
  assert (H0 : forall m, Z.land (flag y) m = 0 -> Z.land (Z.land (flag y) (Z.lnot 255)) m = 0).
  { intros m H. by rewrite <- Z.land_assoc, (Z.land_comm _ m), Z.land_assoc, H, Z.land_0_l. }
  destruct (p_role p); apply negb_false_iff, Z.eqb_eq in E.
  - by rewrite (H0 2 E).
  - by rewrite E, Z.land_0_l.
  - by rewrite E, Z.land_0_l.
Qed.

Lemma found_in q l i : bsearch (Item q 0) l = Some i -> exists x, l !! i = Some x /\ pid x = q.
Proof. intros (x & Hx & Hp)%bsearch_found. by exists x. Qed.

Definition sends_to_children (l : list effect) : Prop :=
  forall target, Kill target SIGUSR2 ∈ l -> role_of target = Child.

Lemma sends_none target sig : sig <> SIGUSR2 -> sends_to_children [Kill target sig].
Proof. intros Hs t H%list_elem_of_singleton. injection H as _ E. by destruct Hs. Qed.

Lemma sends_nil : sends_to_children [].
Proof. intros t H. by apply not_elem_of_nil in H. Qed.

Lemma ack_ready_ok T q p sig from :
  proc_ok T q p -> p_role p = Master ->
  proc_ok T q (with_vars (ack_ready sig from (p_vars p)).1 p) /\ sends_to_children (ack_ready sig from (p_vars p)).2.
Proof.
  intros Hok Hm. unfold ack_ready. destruct (bsearch _ _) as [i|] eqn:E.
  2:{ split; [by apply same_ok|]. intros t Hin. by apply list_elem_of_singleton in Hin. }
  destruct (Z.land _ 1 =? 0); cbn [fst snd]; [|split; [by apply same_ok | apply sends_nil]].
  split; [|by apply sends_none]. destruct Hok as [Hr Ht]. split; [done|]. intros Hc.
  destruct (Ht Hc) as [L1 L2 L3 L4 L5].
  assert (Hbit : forall x, ticked (p_role p) (or_flag 1 x) = ticked (p_role p) x).
  { intros x. rewrite Hm. unfold ticked, or_flag. cbn [flag]. by rewrite Z.land_lor_distr_l, Z.lor_0_r. }
  split; cbn [p_vars p_role with_vars p_pending p_place set_pgrps_ready set_checklist child_checklist
              child_signal_counter]; try done.
  - by rewrite pids_alter.
  - by rewrite count_same.
  - intros x [Hx|(y & Hy & ->)]%elem_of_alter; [by apply L3|]. rewrite Hbit. intros Hx.
    apply (L3 y); [by eapply list_elem_of_lookup_2 | done].
Qed.

Lemma ack_done_ok T q p sig from :
  proc_ok T q p -> p_role p = Master -> told T from ->
  proc_ok T q (with_vars (ack_done sig from (p_vars p)).1 p) /\ sends_to_children (ack_done sig from (p_vars p)).2.
Proof.
  intros Hok Hm Ht. unfold ack_done. destruct (bsearch _ _) as [i|] eqn:E.
  2:{ split; [by apply same_ok|]. intros t Hin. by apply list_elem_of_singleton in Hin. }
  apply found_in in E as (x & Hx & Hp). rewrite Hx. cbn [from_option].
  destruct (Z.land (flag x) 2 =? 0) eqn:Ef; cbn [fst snd]; [|split; [by apply same_ok | apply sends_nil]].
  split; [|by apply sends_none].
  eapply (tick_ok T q p _ i (or_flag 2) x); rewrite ?Hm; try done; [by rewrite Hp | by unfold ticked; rewrite Ef |].
  unfold ticked, or_flag. cbn [flag]. rewrite Z.land_lor_distr_l, Z.lor_comm. apply negb_true_iff, Z.eqb_neq.
  intros H%Z.lor_eq_0_iff. by destruct H.
Qed.

Lemma reply_to_child_ok T q p sig from :
  proc_ok T q p -> p_role p = Manager -> told T from ->
  proc_ok T q (with_vars (reply_to_child sig from (p_vars p)).1 p)
  /\ sends_to_children (reply_to_child sig from (p_vars p)).2.
Proof.
  intros Hok Hm Ht. unfold reply_to_child. destruct (bsearch _ _) as [i|] eqn:E.
  2:{ split; [by apply same_ok|]. intros t Hin. by apply list_elem_of_singleton in Hin. }
  apply found_in in E as (x & Hx & Hp). rewrite Hx. cbn [from_option].
  destruct (flag x =? 0) eqn:Ef; cbn [fst snd]; [|split; [by apply same_ok | apply sends_nil]].
  split.
  - eapply (tick_ok T q p _ i (put_flag 1) x); rewrite ?Hm; try done; [by rewrite Hp|].
    apply no_tick. by apply Z.eqb_eq.
  - intros t [= ->]%list_elem_of_singleton. destruct Hok as [[Hr _] Htal].
    destruct (Htal ltac:(by rewrite Hm)) as [L1 _ _ _ _]. unfold listed in L1.
    assert (Hq : role_of q = Manager) by congruence. unfold role_of in Hq.
    destruct (q =? master); [done|]. apply (child_role q _ from L1).
    rewrite <- Hp. apply list_elem_of_fmap. exists x. split; [done|]. by eapply list_elem_of_lookup_2.
Qed.

(** Every handler keeps the invariant of its process. *)
Lemma handler_ok T q p sig from :
  proc_ok T q p -> (sig = SIGUSR2 -> p_role p <> Child -> told T from) ->
  let r := handler_of (p_role p) sig sig from (p_vars p) in
  proc_ok T q (with_vars r.1 p) /\ sends_to_children r.2.
Proof.
  intros Hok Ht. unfold handler_of. destruct (p_role p) eqn:Er.
  - destruct (Z.eqb_spec sig SIGUSR1); [by apply ack_ready_ok|].
    destruct (Z.eqb_spec sig SIGUSR2); [apply ack_done_ok; auto|]. split; [by apply same_ok | apply sends_nil].
  - destruct (Z.eqb_spec sig SIGUSR1); [split; [by apply same_ok | apply sends_nil]|].
    destruct (Z.eqb_spec sig SIGUSR2); [apply reply_to_child_ok; auto|].
    destruct (Z.eqb_spec sig SIGHUP); [split; [by apply reset_ok | apply sends_nil]|].
    destruct (sig =? SIGQUIT); (split; [by apply same_ok|]); [|apply sends_nil].
    intros t Hin. by apply list_elem_of_singleton in Hin.
  - assert (Hany : forall g, proc_ok T q (with_vars g p)).
    { intros g. destruct Hok as [Hr _]. split; [done|]. cbn. congruence. }
    repeat case_match; (split; [done|]); try apply sends_nil. intros t Hin. by apply list_elem_of_singleton in Hin.
Qed.

Lemma carry_out_ok T me l s : sends_to_children l -> all_ok T s -> all_ok T (carry_out me l s).
Proof.
  revert s. induction l as [|e l IH]; intros s Hl Hok; [done|].
  assert (Hl' : sends_to_children l) by (intros t H; apply Hl; by right).
  destruct e; cbn [carry_out]; [|by apply IH|by apply map_Forall_delete..].
  apply IH; [done|]. apply kill_ok; [|done]. intros -> Hn. destruct Hn. apply Hl. by left.
Qed.
(** *** Steps *)

Lemma place_ok T q p x :
  proc_ok T q p -> p_role p = place_role x -> (x = Reporting -> told T q) -> proc_ok T q (with_place x p).
Proof.
  intros [[Hr _] Ht] Hx Hx'. split; [done|]. intros Hc. by destruct (Ht Hc) as [L1 L2 L3 L4 L5].
Qed.

Lemma pending_ok T q p l : l ⊆ p_pending p -> proc_ok T q p -> proc_ok T q (with_pending l p).
Proof.
  intros Hl [Hr Ht]. split; [done|]. intros Hc. destruct (Ht Hc) as [L1 L2 L3 L4 L5].
  split; try done. intros from Hf. by apply L4, Hl.
Qed.

Lemma update_ok T q p s s' : all_ok T s -> proc_ok T q p -> update q p s = Some s' -> all_ok T s'.
Proof. intros Hs Hp [= <-]. by apply map_Forall_insert_2. Qed.

(** A manager that counts all its children has heard of each. *)
Lemma counted_all T q p :
  proc_ok T q p -> p_role p = Manager -> num_procs <= child_signal_counter (p_vars p) -> told T q.
Proof.
  intros [[Hr _] Ht] Hm Hn. destruct (Ht ltac:(by rewrite Hm)) as [L1 L2 L3 _ _].
  assert (Hq : role_of q = Manager) by congruence.
  unfold listed in L1. unfold role_of in Hq. destruct (q =? master); [done|].
  split. { intros Hnot. by rewrite bool_decide_false in Hq. }
  intros cs Hcs c Hc.
  assert (cs = map pid (child_checklist (p_vars p))) as ->.
  { pose proof (dist_managers Hd) as Hnd. apply list_elem_of_lookup in L1 as [i Hi].
    apply list_elem_of_lookup in Hcs as [j Hj].
    assert (i = j) as ->; [|by simplify_eq]. eapply (NoDup_lookup _ i j q Hnd); rewrite list_lookup_fmap.
    - by rewrite Hi.
    - by rewrite Hj. }
  apply list_elem_of_fmap in Hc as (x & -> & Hx).
  assert (Htick : ticked (p_role p) x = true).
  { apply (count_all _ (child_checklist (p_vars p))); [|done].
    pose proof (dist_procs Hd q _ L1) as Hlen. rewrite length_map in Hlen. lia. }
  apply (L3 x Hx Htick). apply (dist_child Hd q _ (pid x) L1). by apply list_elem_of_fmap; exists x.
Qed.

Lemma child_told (T : Z -> Prop) q p : proc_ok T q p -> p_role p = Child -> T q -> told T q.
Proof.
  intros [[Hr _] _] Hc HT. split; [done|]. intros cs Hcs c _. exfalso.
  pose proof (manager_role q cs Hcs). congruence.
Qed.

Lemma next_ok T l s s' num_pgrps :
  all_ok T s -> (forall q, l <> Done q) -> next num_pgrps num_procs l s = Some s' ->
  all_ok (fun c => T c \/ l = Signal_ c) s'.
Proof.
  intros Hok Hl. apply (all_ok_mono T (fun c => T c \/ l = Signal_ c)) in Hok; [|by left].
  set (T' := fun c => T c \/ l = Signal_ c) in *. unfold next.
  destruct (s !! who l) as [p|] eqn:Hp; [|done]. pose proof (Hok _ _ Hp) as Hpok.
  assert (Hrole := proj2 (proj1 Hpok)).
  unfold proc_step, take_signal, send_next, pass_round, report_ready, check_counter, report_done, wait_start,
    call_mama, stop_calling. destruct l as [q sig|q|q|q|q|q|q|q|q]; cbn [who] in *.
  { destruct (List.find _ (p_pending p)) as [[sig' from]|] eqn:Ef; [|done].
    apply List.find_some in Ef as [Hin Hsig]. apply list_elem_of_In in Hin. cbn in Hsig.
    apply Z.eqb_eq in Hsig as ->.
    destruct (handler_ok T' q p sig from Hpok) as [H1 H2].
    { intros -> Hc. by apply (proj2 Hpok Hc). }
    destruct (handler_of _ _ _ _ _) as [g' effects] eqn:Eh. cbn [fst snd] in *. intros [= <-].
    apply carry_out_ok; [done|]. apply map_Forall_insert_2; [|done].
    apply pending_ok; [|done]. intros x [_ Hx]%list_elem_of_filter. exact Hx. }
  all: destruct (p_place p) eqn:Ep; try done.
  - destruct (_ !! cnt) as [x|]; [|apply update_ok; [done|by apply place_ok]]. intros [= <-].
    apply kill_group_ok, map_Forall_insert_2; [by apply place_ok | done].
  - by destruct (Hl q).
  - destruct (_ =? 0); [intros [= <-]; by apply kill_ok | apply update_ok; [done|by apply place_ok]].
  - destruct (Z.leb_spec num_procs (child_signal_counter (p_vars p))); [|by apply update_ok].
    apply update_ok; [done|]. apply place_ok; [by apply same_ok | done |]. intros _. by apply (counted_all _ _ p).
  - destruct (_ =? 0); [apply update_ok; [done|by apply place_ok]|]. intros [= <-]. apply kill_ok; [|done].
    intros _ _. apply (tal_report _ _ p); [apply (proj2 Hpok); by rewrite Hrole | done].
  - destruct (_ =? 0); apply update_ok; try done. by apply place_ok.
  - destruct (_ =? 0); [done|]. intros [= <-]. apply kill_ok; [|done]. intros _ _.
    apply (child_told _ _ p); [done | by rewrite Hrole | by right].
  - destruct (_ =? 0); [|done]. apply update_ok; [done|by apply place_ok].
Qed.

Lemma run_ok num_pgrps tr T s s' :
  all_ok T s -> (forall q, Done q ∉ tr) -> run num_pgrps num_procs tr s = Some s' ->
  all_ok (fun c => T c \/ Signal_ c ∈ tr) s'.
Proof.
  revert T s. induction tr as [|l tr IH]; intros T s Hok Hd' Hr; cbn [run] in Hr.
  - injection Hr as <-. eapply all_ok_mono; [|exact Hok]. by left.
  - destruct (next num_pgrps num_procs l s) as [s1|] eqn:E; [|done].
    eapply all_ok_mono; [|eapply IH; [eapply next_ok; [exact Hok| |exact E]| |exact Hr]].
    + intros c [[H|H]|H]; [by left | right; rewrite <- H; by left | right; by right].
    + intros q ->. apply (Hd' q). by left.
    + intros q H. apply (Hd' q). by right.
Qed.

(** *** The start *)

Lemma vars_tallied T q p l :
  listed q l -> p_vars p = vars_with l -> (forall x, x ∈ p_pending p -> x.1 <> SIGUSR2) ->
  p_place p <> Reporting -> tallied T q p.
Proof.
  intros Hl Hv Hp Hpl. split; rewrite ?Hv; cbn; try done.
  - rewrite map_map. cbn. by rewrite map_id.
  - lia.
  - intros x (y & -> & _)%list_elem_of_fmap. unfold ticked. by destruct (p_role p).
  - intros from H. by apply Hp in H.
Qed.

Lemma start_ok T : all_ok T (start master groups).
Proof.
  unfold start. apply map_Forall_insert_2.
  { split; [unfold role_of; by rewrite Z.eqb_refl|]. intros _. apply (vars_tallied _ _ _ managers); try done.
    - unfold listed. by rewrite Z.eqb_refl.
    - intros x H. by apply not_elem_of_nil in H. }
  assert (Hsub : groups ⊆ groups) by done. revert Hsub. generalize groups at 1 3 as gs.
  induction gs as [|[m cs] gs IH]; intros Hsub; cbn [foldr]; [apply map_Forall_empty|].
  assert (Hm : (m, cs) ∈ groups) by (apply Hsub; by left).
  assert (IH' := IH ltac:(intros x Hx; apply Hsub; by right)). clear IH. cbn [fst snd].
  apply map_Forall_insert_2.
  - pose proof (manager_role m cs Hm) as Hr. split; [done|]. intros _. apply (vars_tallied _ _ _ cs); try done.
    + unfold listed. unfold role_of in Hr. by destruct (m =? master).
    + intros x ->%list_elem_of_singleton. done.
  - assert (Hcs : cs ⊆ cs) by done. revert Hcs. generalize cs at 1 3 as l.
    induction l as [|c l IHl]; intros Hl; cbn [foldr]; [done|]. apply map_Forall_insert_2.
    + pose proof (child_role m cs c Hm ltac:(apply Hl; by left)). split; [done|]. by intros [].
    + apply IHl. intros x Hx. apply Hl. by right.
Qed.

(** C7: when the master reports its first pass, every child of every group has signalled its
    manager, whatever the order of all steps before. *)
Theorem first_pass_complete tr s s' :
  run (Z.of_nat (length groups)) num_procs tr (start master groups) = Some s ->
  (forall q, Done q ∉ tr) -> next (Z.of_nat (length groups)) num_procs (Done master) s = Some s' ->
  forall m cs c, (m, cs) ∈ groups -> c ∈ cs -> Signal_ c ∈ tr.
Proof.
  intros Hr Hnd Hn m cs c Hm Hc.
  pose proof (run_ok _ tr (fun _ => False) _ s (start_ok _) Hnd Hr) as Hok.
  unfold next in Hn. cbn [who] in Hn. destruct (s !! master) as [p|] eqn:Hp; [|done].
  destruct (Hok _ _ Hp) as [[Hrole _] Ht]. unfold role_of in Hrole. rewrite Z.eqb_refl in Hrole.
  destruct (Ht ltac:(by rewrite Hrole)) as [L1 L2 L3 _ _]. unfold listed in L1. rewrite Z.eqb_refl in L1.
  cbn [proc_step] in Hn. destruct (p_place p); try done.
  unfold pass_round in Hn.
  destruct (Z.ltb_spec (child_signal_counter (p_vars p)) (Z.of_nat (length groups))); [done|].
  assert (Hlen : length (child_checklist (p_vars p)) = length groups).
  { by rewrite <- (length_map pid), L1, length_fmap. }
  assert (Hin : m ∈ map pid (child_checklist (p_vars p))).
  { rewrite L1. apply list_elem_of_fmap. by exists (m, cs). }
  apply list_elem_of_fmap in Hin as (x & -> & Hx).
  assert (Htick : ticked (p_role p) x = true)
    by (apply (count_all _ (child_checklist (p_vars p))); [lia | done]).
  by destruct (proj2 (L3 x Hx Htick) cs Hm c Hc) as [[]|].
Qed.
End FirstRound.

(** ** Two rounds with one manager and one child *)

Definition small : system := start 1 [(2, [3])].

(** The child is heard of, twice, before it stops. *)
Definition round1 : list label :=
  [Take 2 SIGUSR1; Confirm 2; Send 1; Send 1; Take 3 SIGUSR1; Look 3; Signal_ 3; Take 2 SIGUSR2; Signal_ 3;
   Check 2; Report_ 2; Take 1 SIGUSR2].

(** The manager is reset, takes the second signal, and signals the master again. *)
Definition late : list label :=
  [Take 2 SIGHUP; Take 2 SIGUSR2; Take 3 SIGUSR2; Stop 3; Report_ 2].

Definition round2 : list label := [Send 1; Send 1; Take 1 SIGUSR2].

Lemma small_distinct : distinct 1 [(2, [3])] 1.
Proof.
  split.
  - apply NoDup_singleton.
  - by intros H%list_elem_of_singleton.
  - intros m cs c [= -> ->]%list_elem_of_singleton ->%list_elem_of_singleton.
    split; [by intros H%list_elem_of_singleton | done].
  - intros m cs m' cs' c [= -> _]%list_elem_of_singleton [= -> _]%list_elem_of_singleton. done.
  - by intros m cs [= -> ->]%list_elem_of_singleton.
Qed.

Lemma first_pass_complete_witness : Signal_ 3 ∈ round1.
Proof.
  refine (first_pass_complete 1 [(2, [3])] 1 small_distinct round1
    (default small (run 1 1 round1 small)) (default small (run 1 1 (round1 ++ [Done 1]) small)) _ _ _ 2 [3] 3 _ _).
  - vm_compute. reflexivity.
  - intros q H. repeat (apply elem_of_cons in H as [H|H]; [done|]). by apply not_elem_of_nil in H.
  - vm_compute. reflexivity.
  - by left.
  - by left.
Defined.

(** C8: the second pass may be reported although no child has signalled since the first: a signal
    that the manager takes after its reset makes it signal the master once more, and the
    master takes that for the next round. *)
Theorem second_pass_incomplete :
  is_Some (run 1 1 (round1 ++ late ++ [Done 1] ++ round2 ++ [Done 1]) small) /\ Signal_ 3 ∉ round2.
Proof.
  split; [vm_compute; by eexists|]. intros H. unfold round2 in H.
  repeat (apply elem_of_cons in H as [H|H]; [done|]). by apply not_elem_of_nil in H.
Qed.
