(* ===== verification/Ioctl02.v ===== *)
(** * ioctl02.c: the parameters of a terminal

    Model of [src/original tests/ioctl/ioctl02.c].  The parent sets the parameters of a
    terminal with TCSETA, reads them with TCGETA and compares; a child keeps the terminal open
    meanwhile.  The loops that sleep until a handler has set a flag are calls that wait
    ([IAwait]); what the static variables hold is passed to the functions.  The numbers are those
    of Linux. *)

From S2P Require Import Prelude Tst Process Explore Prog Checker Wp Alone Ends Ltp Transcript Judge.

(** ** Terminals *)

Definition BRKINT : Z := 2.
Definition IGNPAR : Z := 4.
Definition INPCK : Z := 16.
Definition ISTRIP : Z := 32.
Definition ICRNL : Z := 256.
Definition IUCLC : Z := 512.
Definition IXON : Z := 1024.
Definition IXANY : Z := 2048.
Definition IXOFF : Z := 4096.
Definition OPOST : Z := 1.
Definition OLCUC : Z := 2.
Definition ONLCR : Z := 4.
Definition ONOCR : Z := 16.
Definition B50 : Z := 1.
Definition CS7 : Z := 32.
Definition CREAD : Z := 128.
Definition PARENB : Z := 256.
Definition PARODD : Z := 512.
Definition CLOCAL : Z := 2048.
Definition ISIG : Z := 1.
Definition ICANON : Z := 2.
Definition XCASE : Z := 4.
Definition ECHO : Z := 8.
Definition ECHOE : Z := 16.
Definition NOFLSH : Z := 128.
Definition CSTART : Z := 17.
Definition NCC : nat := 8.
Definition VEOL2 : Z := 16.
Definition SIGTERM : Z := 15.
Definition SIGUSR1 : Z := 10.
Definition SIGUSR2 : Z := 12.
Definition SIGTTOU : Z := 22.
Definition O_RDWR : Z := 2.

(** [struct termio] *)
Record termio := Termio { c_iflag : Z; c_oflag : Z; c_cflag : Z; c_lflag : Z; c_line : Z; c_cc : list Z }.

#[export] Instance termio_eq_dec : EqDecision termio.
Proof. solve_decision. Defined.

Definition termio0 : termio := Termio 0 0 0 0 0 (replicate NCC 0).

(** ** Calls *)

Inductive icall :=
| IOpen (path : string) (flags : Z)
| IClose (fd : Z)
| ITcgeta (fd : Z)
| ITcseta (fd : Z) (t : termio)
| ITcflsh (fd : Z)
| ISigaction (sig : Z)
| IRequireRoot
| IGetpid
| IFork
| IAwait (sig : Z)        (* until the handler of the signal has run *)
| IKill (pid sig : Z)
| IWaitpid (pid : Z).

Record ireply := IReply { i_ret : Z; i_errno : Z; i_termio : termio }.

#[export] Instance ireply_Reply : Reply ireply := { ret := i_ret; errno := i_errno }.

#[export] Instance icall_eq_dec : EqDecision icall.
Proof. solve_decision. Defined.
#[export] Instance ireply_eq_dec : EqDecision ireply.
Proof. solve_decision. Defined.

Abbreviation P A := (M icall ireply unit A).

(** ** Functions *)

(** What run_ptest sets; the field [c_cc[VEOL2]], if there is one, is left. *)
Definition wanted (t : termio) : termio :=
  Termio
    (Z.lor BRKINT (Z.lor IGNPAR (Z.lor INPCK (Z.lor ISTRIP (Z.lor ICRNL (Z.lor IUCLC (Z.lor IXON (Z.lor IXANY IXOFF))))))))
    (Z.lor OPOST (Z.lor OLCUC (Z.lor ONLCR ONOCR)))
    (Z.lor B50 (Z.lor CS7 (Z.lor CREAD (Z.lor PARENB (Z.lor PARODD CLOCAL)))))
    (Z.lor ISIG (Z.lor ICANON (Z.lor XCASE (Z.lor ECHO (Z.lor ECHOE NOFLSH)))))
    0
    (imap (fun i c => if Z.of_nat i =? VEOL2 then c else CSTART) (c_cc t)).

(** The value of a C condition [a && b] of integers. *)
Definition logical_and (a b : Z) : bool := negb (a =? 0) && negb (b =? 0).

Definition CNUL : Z := 0.

(** The loop over the control characters: the number of wrong ones is added to [flag]. *)
Fixpoint check_cc (i : Z) (cc : list Z) (flag : Z) : P Z :=
  match cc with
  | [] => mret flag
  | c :: cc =>
      if i =? VEOL2 then
        if c =? CNUL then check_cc (i + 1) cc flag
        else tst_resm TINFO "control char %d has incorrect value %d %d" [Num i; Num c; Num CNUL] ;;
             check_cc (i + 1) cc (flag + 1)
      else if negb (c =? CSTART) then
        tst_resm TINFO "control char %d has incorrect value %d." [Num i; Num c] ;; check_cc (i + 1) cc (flag + 1)
      else check_cc (i + 1) cc flag
  end.

(** [if ( !(field && (flags))) { ... flag++; }] *)
Definition check_flags (field flags : Z) (msg : string) (flag : Z) : P Z :=
  if negb (logical_and field flags) then tst_resm TINFO msg [Num field] ;; mret (flag + 1) else mret flag.

Definition chk_tty_parms (t : termio) : P Z :=
  f ← (if negb (c_line t =? 0)
       then tst_resm TINFO "line discipline has incorrect value %o" [Num (c_line t)] ;; mret 1 else mret 0);
  f ← check_cc 0 (c_cc t) f;
  f ← check_flags (c_lflag t) (c_lflag (wanted t)) "lflag has incorrect value. %o" f;
  f ← check_flags (c_iflag t) (c_iflag (wanted t)) "iflag has incorrect value. %o" f;
  f ← check_flags (c_oflag t) (c_oflag (wanted t)) "oflag has incorrect value. %o" f;
  when (f =? 0) (tst_resm TINFO "termio values are set as expected" []) ;;
  mret f.

Definition run_ptest (parentfd : Z) (t : termio) : P Z :=
  let t := wanted t in
  r ← call (ITcseta parentfd t);
  if ret r <? 0 then tst_resm TFAIL "ioctl TCSETA failed : errno = %d" [Num (errno r)] ;; mret (-1)
  else
    r ← call (ITcgeta parentfd);
    if ret r <? 0 then tst_resm TFAIL "ioctl TCGETA failed.  Ending test." [] ;; mret (-1)
    else chk_tty_parms (i_termio r).

(** [closed] is false while the parent has the terminal open. *)
Definition cleanup (closed : bool) (parentfd : Z) (save_io : termio) : P unit :=
  when (negb closed)
    (r ← call (ITcseta parentfd save_io);
     when (failed r) (tst_resm TINFO "ioctl restore failed in cleanup()" []) ;;
     r ← call (IClose parentfd);
     when (failed r) (tst_resm TINFO "close() failed in cleanup()" [])).

Definition setup (devname : string) : P termio :=
  r ← safe no_cleanup "open" (IOpen devname O_RDWR);
  t ← safe (cleanup true 0 termio0) "ioctl" (ITcgeta (ret r));
  safe (cleanup true 0 (i_termio t)) "close" (IClose (ret r)) ;;
  call_ (ISigaction SIGTERM) ;;
  call_ (ISigaction SIGUSR1) ;;
  call_ (ISigaction SIGUSR2) ;;
  call_ (ISigaction SIGTTOU) ;;
  mret (i_termio t).

Definition do_parent_setup (parenttty : string) (save_io : termio) : P Z :=
  r ← safe (cleanup true 0 save_io) "open" (IOpen parenttty O_RDWR);
  safe (cleanup false 0 save_io) "ioctl" (ITcflsh (ret r)) ;;
  mret (ret r).

Definition do_child_setup (childtty : string) (parentpid : Z) : P Z :=
  r ← call (IOpen childtty O_RDWR);
  if ret r <? 0 then
    tst_resm TINFO "Could not open %s in do_child_setup(), errno = %d" [Str childtty; Num (errno r)] ;;
    call_ (IKill parentpid SIGUSR1) ;; mret (-1)
  else
    f ← call (ITcflsh (ret r));
    if ret f <? 0 then
      tst_resm TINFO "ioctl TCFLSH failed. : errno = %d" [Num (errno f)] ;;
      call_ (IKill parentpid SIGUSR1) ;; mret (-1)
    else call_ (IKill parentpid SIGUSR1) ;; mret (ret r).

Definition run_ctest (childfd : Z) : P unit :=
  call_ (IAwait SIGTERM) ;;
  tst_resm TINFO "child: Got SIGTERM from parent." [] ;;
  r ← call (IClose childfd);
  when (failed r) (tst_resm TINFO "close() in run_ctest() failed" []).

Definition do_child (childtty : string) (parentpid : Z) : P unit :=
  childfd ← do_child_setup childtty parentpid;
  if childfd <? 0 then exit 1 else run_ctest childfd ;; exit 0.

(** From the report on. *)
Definition finish (childpid parentfd : Z) (save_io : termio) (rval : Z) : P unit :=
  (if negb (rval =? 0)
   then tst_resm TFAIL "TCGETA/TCSETA tests FAILED with %d %s" [Num rval; Str (if 1 <? rval then "errors" else "error")]
   else tst_resm TPASS "TCGETA/TCSETA tests SUCCEEDED" []) ;;
  call_ (IKill childpid SIGTERM) ;;
  call_ (IWaitpid childpid) ;;
  r ← call (ITcseta parentfd save_io);
  when (failed r) (tst_resm TINFO "ioctl restore failed in main" []) ;;
  safe (cleanup false parentfd save_io) "close" (IClose parentfd) ;;
  mret tt.

(** The parent's part of a round. *)
Definition parent (devname : string) (childpid : Z) (save_io : termio) : P unit :=
  call_ (IAwait SIGUSR1) ;;
  parentfd ← do_parent_setup devname save_io;
  when (parentfd <? 0)
    (call_ (IKill childpid SIGTERM) ;; call_ (IWaitpid childpid) ;; cleanup false parentfd save_io) ;;
  rval ← run_ptest parentfd termio0;
  when (rval =? -1)
    (call_ (IKill childpid SIGTERM) ;; call_ (IWaitpid childpid) ;; cleanup false parentfd save_io) ;;
  finish childpid parentfd save_io rval.

Definition round (devname : string) (save_io : termio) : P unit :=
  parentpid ← call IGetpid;
  childpid ← call IFork;
  if ret childpid <? 0 then tst_brkm TBROK (cleanup true 0 save_io) "fork failed" []
  else if ret childpid =? 0 then do_child devname (ret parentpid)
  else parent devname (ret childpid) save_io.

(** [devname]: the argument of -D. *)
Definition main (devname : option string) : P unit :=
  match devname with
  | None => tst_brkm TBROK no_cleanup "You must specify a tty device with the -D option." []
  | Some devname =>
      call_ IRequireRoot ;;
      save_io ← setup devname;
      round devname save_io ;;
      cleanup true 0 save_io ;;
      tst_exit
  end.

(** ** What is compared *)

Definition wrong (t : termio) : Z :=
  (if c_line t =? 0 then 0 else 1)
  + Z.of_nat (length (filter (fun c => c ≠ CSTART) (c_cc t)))
  + (if c_lflag t =? 0 then 1 else 0) + (if c_iflag t =? 0 then 1 else 0) + (if c_oflag t =? 0 then 1 else 0).

(** What [m] returns and that its reports hold no failure. *)
Definition reads (m : P Z) (Q : Z -> list (icall * ireply) -> Prop) : Prop := forall d l,
  dx m d l (fun v => adds (fun d1 l1 => Q v d1 /\ clean l1 = true) d l) (fun _ _ => False).

Lemma reads_ret v Q : Q v [] -> reads (mret v) Q.
Proof. intros H d l. apply dx_ret. exists [], []. by rewrite !app_nil_r. Qed.

Lemma reads_mono m (Q Q' : Z -> list (icall * ireply) -> Prop) :
  (forall v d, Q v d -> Q' v d) -> reads m Q -> reads m Q'.
Proof.
  intros H Hm d l. eapply dx_mono; [| |apply Hm]; [|done].
  intros v d' l' (d1 & l1 & -> & -> & H1 & H2). exists d1, l1. auto.
Qed.

Lemma reads_bind m f (Q1 Q : Z -> list (icall * ireply) -> Prop) :
  reads m Q1 -> (forall v d1, Q1 v d1 -> reads (f v) (fun w d2 => Q w (d1 ++ d2))) -> reads (m ≫= f) Q.
Proof.
  intros Hm Hf d l. eapply dx_seq; [apply Hm | |done]. intros v d' l' (d1 & l1 & -> & -> & H1 & H2).
  eapply dx_mono; [| |by apply (Hf v d1 H1)]; [|done].
  intros w d2 l2 (d3 & l3 & -> & -> & H3 & H4). exists (d1 ++ d3), (l1 ++ l3). rewrite !app_assoc.
  split; [done|]. split; [done|]. split; [done|]. by rewrite clean_app, H2, H4.
Qed.

Lemma reads_info msg args (m : P Z) Q : reads m Q -> reads (tst_resm TINFO msg args ;; m) Q.
Proof.
  intros Hm d l. apply dx_bind, dx_resm. eapply dx_mono; [| |apply Hm]; [|done].
  intros v d2 l2 (d3 & l3 & -> & -> & H3 & H4). exists d3, ([Entry TINFO None msg args] ++ l3).
  by rewrite app_assoc.
Qed.

Lemma check_cc_reads i cc flag :
  reads (check_cc i cc flag) (fun v d1 => d1 = [] /\
    (0 <= i -> i + Z.of_nat (length cc) <= VEOL2 ->
     v = flag + Z.of_nat (length (filter (fun c => c ≠ CSTART) cc)))).
Proof.
  revert i flag. induction cc as [|c cc IH]; intros i flag; cbn [check_cc].
  { apply reads_ret. cbn. split; [done|lia]. }
  cbn [length]. rewrite filter_cons. destruct (Z.eqb_spec i VEOL2) as [Ei|_].
  { destruct (c =? CNUL); [|apply reads_info]; (eapply reads_mono; [|apply IH]); intros v d1 [-> _]; (split; [done|lia]). }
  destruct (Z.eqb_spec c CSTART) as [E|E]; cbn [negb].
  - rewrite decide_False by (intros H; by apply H). eapply reads_mono; [|apply IH].
    intros v d1 [-> H]. split; [done|]. intros. apply H; lia.
  - rewrite decide_True by done. apply reads_info. eapply reads_mono; [|apply IH].
    intros v d1 [-> H]. split; [done|]. intros. cbn [length]. rewrite H by lia. lia.
Qed.

Lemma check_flags_reads field flags msg flag :
  flags <> 0 -> reads (check_flags field flags msg flag)
    (fun v d1 => d1 = [] /\ v = flag + if field =? 0 then 1 else 0).
Proof.
  intros Hf. unfold check_flags, logical_and. rewrite (proj2 (Z.eqb_neq flags 0)) by done.
  destruct (field =? 0); cbn; [apply reads_info|]; apply reads_ret; split; done || lia.
Qed.

(** The masks do not matter: a mode that is not zero is right. *)
Lemma chk_tty_parms_reads t :
  reads (chk_tty_parms t) (fun v d1 => d1 = [] /\ (length (c_cc t) = NCC -> v = wrong t)).
Proof.
  unfold chk_tty_parms.
  eapply (reads_bind _ _ (fun v d1 => d1 = [] /\ v = if c_line t =? 0 then 0 else 1)).
  { destruct (c_line t =? 0); cbn [negb]; [|apply reads_info]; by apply reads_ret. }
  intros v d1 [-> ->]. eapply reads_bind; [apply check_cc_reads|].
  intros v d1 [-> Hv]. eapply reads_bind; [by apply check_flags_reads|].
  intros v1 d1 [-> E1]. eapply reads_bind; [by apply check_flags_reads|].
  intros v2 d1 [-> E2]. eapply reads_bind; [by apply check_flags_reads|].
  intros v3 d1 [-> E3]. cbn [app].
  assert (Hw : length (c_cc t) = NCC -> v3 = wrong t).
  { intros Hl. rewrite Hl in Hv. unfold wrong. rewrite E3, E2, E1, Hv by (unfold VEOL2, NCC; lia). lia. }
  unfold when. destruct (v3 =? 0); [apply reads_info; by apply reads_ret|].
  intros d l. apply dx_bind, dx_ret. by apply reads_ret.
Qed.

(** ** Verdicts *)

(** Whether the terminal took the parameters, by the answers from TCSETA on. *)
Definition taken (d : list (icall * ireply)) : bool :=
  match d with
  | (ITcseta _ _, s) :: (ITcgeta _, g) :: _ => (0 <=? ret s) && (0 <=? ret g) && (wrong (i_termio g) =? 0)
  | _ => false
  end.

(** [struct termio] has an array of NCC characters. *)
Definition arrays (d : list (icall * ireply)) : Prop := Forall (fun e => length (c_cc (i_termio e.2)) = NCC) d.

Lemma wrong_nonneg t : 0 <= wrong t.
Proof. unfold wrong. repeat case_match; lia. Qed.

Lemma run_ptest_dx fd t d l :
  dx (run_ptest fd t) d l
    (fun v => adds (fun d1 l1 => arrays d1 ->
       (forall d2, taken (d1 ++ d2) = (v =? 0)) /\ (v = 0 -> clean l1 = true)) d l)
    (fun _ _ => False).
Proof.
  unfold run_ptest. cbv zeta. dx_step. dx_step. rename r into s. dx_step.
  { dx_steps. exists [(ITcseta fd (wanted t), s)], [Entry TFAIL None "ioctl TCSETA failed : errno = %d" [Num (errno s)]].
    split; [done|]. split; [done|]. intros _. split; [|done]. intros d2. cbn.
    rewrite (proj2 (Z.leb_gt _ _)) by (by apply Z.ltb_lt). by destruct d2 as [|[[] ?] ?]. }
  dx_step. dx_step. rename r into g. dx_step.
  { dx_steps. exists [(ITcseta fd (wanted t), s); (ITcgeta fd, g)], [Entry TFAIL None "ioctl TCGETA failed.  Ending test." []].
    rewrite <- !app_assoc. split; [done|]. split; [done|]. intros _. split; [|done]. intros d2. cbn.
    rewrite (proj2 (Z.leb_gt 0 (i_ret g))) by (by apply Z.ltb_lt). by rewrite andb_false_r. }
  eapply dx_mono; [| |apply chk_tty_parms_reads]; [|done].
  intros v d' l' (d1 & l1 & -> & -> & [-> Hv] & Hc). exists [(ITcseta fd (wanted t), s); (ITcgeta fd, g)], l1.
  rewrite <- !app_assoc. split; [done|]. split; [done|]. intros Ha. split; [|done]. intros d2.
  apply Forall_inv_tail, Forall_inv in Ha. rewrite Hv by exact Ha.
  cbn. rewrite (proj2 (Z.leb_le 0 (i_ret s))), (proj2 (Z.leb_le 0 (i_ret g))) by (by apply Z.ltb_ge). done.
Qed.

(** What the parent gets before it sets the parameters: it waits, opens and flushes, and cleans
    up if the descriptor is negative. *)
Definition tested (d : list (icall * ireply)) : list (icall * ireply) :=
  match d with
  | _ :: (IOpen _ _, o) :: _ :: d => if ret o <? 0 then drop 4 d else d
  | _ => []
  end.

Ltac adds_here :=
  unfold adds; rewrite <- ?app_assoc; do 2 eexists;
  split; [first [reflexivity | symmetry; apply app_nil_r]|];
  split; [first [reflexivity | symmetry; apply app_nil_r]|].

(** The parts of [parent] other than run_ptest. *)
Lemma cleanup_dx fd save_io d l :
  dx (cleanup false fd save_io) d l
    (fun _ => adds (fun d1 l1 => length d1 = 2%nat /\ clean l1 = true) d l) (fun _ _ => False).
Proof. unfold cleanup. cbn [negb when]. dx_steps; by adds_here. Qed.

Lemma stop_dx (b : bool) childpid fd save_io d l :
  dx (when b (call_ (IKill childpid SIGTERM) ;; call_ (IWaitpid childpid) ;; cleanup false fd save_io)) d l
    (fun _ => adds (fun d1 l1 => length d1 = (if b then 4 else 0)%nat /\ clean l1 = true) d l) (fun _ _ => False).
Proof.
  apply dx_when; intros ->; [|by adds_here]. unfold call_. dx_steps.
  eapply dx_mono; [| |apply cleanup_dx]; [|done]. intros _ d' l' (d1 & l1 & -> & -> & Hd & Hl).
  adds_here. split; [|done]. cbn. by rewrite Hd.
Qed.

Lemma do_parent_setup_dx devname save_io d l :
  dx (do_parent_setup devname save_io) d l
    (fun fd => adds (fun d1 l1 => l1 = [] /\ exists o f, ret o = fd /\
       d1 = [(IOpen devname O_RDWR, o); (ITcflsh fd, f)]) d l)
    (adds (fun d1 l1 => clean l1 = false) d l).
Proof.
  unfold do_parent_setup. dx_steps.
  - adds_here. split; [done|]. eauto.
  - eapply dx_mono; [| |apply cleanup_dx]; [|done]. intros _ d' l' (d1 & l1 & -> & -> & _ & Hl). by adds_here.
  - unfold cleanup. cbn [negb when]. dx_steps. by adds_here.
Qed.

Lemma finish_dx childpid fd save_io rval d l :
  dx (finish childpid fd save_io rval) d l
    (fun _ => adds (fun d1 l1 => clean l1 = (rval =? 0)) d l)
    (adds (fun d1 l1 => clean l1 = false) d l).
Proof.
  unfold finish, call_. destruct (rval =? 0); cbn [negb]; dx_steps; try by adds_here.
  all: eapply dx_mono; [| |apply cleanup_dx]; [|done]; intros _ d' l' (d1 & l1 & -> & -> & _ & Hl); by adds_here.
Qed.

(** C34: Whatever the terminal answers, the reports of the parent of ioctl02 hold no failure if
    and only if TCSETA and TCGETA succeed and the parameters that come back have line
    discipline 0, CSTART for each control character, and modes that are not zero; which bits of
    the modes are set does not matter.  The parent always returns, or ends with a failure. *)
Theorem parent_verdict devname childpid save_io d l :
  dx (parent devname childpid save_io) d l
    (fun _ => adds (fun d1 l1 => arrays d1 -> clean l1 = taken (tested d1)) d l)
    (adds (fun d1 l1 => clean l1 = false) d l).
Proof.
  unfold parent. apply dx_bind, dx_bind, dx_call. intros r. apply dx_ret.
  eapply dx_seq; [apply do_parent_setup_dx| |].
  2:{ intros d' l' (d1 & l1 & -> & -> & Hl). by adds_here. }
  intros fd d' l' (? & ? & -> & -> & -> & o & f & <- & ->).
  eapply dx_seq; [apply stop_dx| |done]. intros _ d' l' (d2 & l2 & -> & -> & Hd2 & Hl2).
  eapply dx_seq; [apply run_ptest_dx| |done]. intros v d' l' (d3 & l3 & -> & -> & H3).
  eapply dx_seq; [apply stop_dx| |done]. intros _ d' l' (d4 & l4 & -> & -> & Hd4 & Hl4).
  eapply dx_mono; [| |apply finish_dx].
  - intros _ d' l' (d5 & l5 & -> & -> & Hl5). adds_here. intros Ha.
    assert (Ha3 : arrays d3) by (unfold arrays in Ha; rewrite !Forall_app in Ha; tauto).
    destruct (H3 Ha3) as [Ht Hv].
    replace (tested _) with (d3 ++ d4 ++ d5).
    2:{ cbn [app tested]. destruct (ret o <? 0); [by rewrite <- Hd2, drop_app_length | by rewrite (nil_length_inv _ Hd2)]. }
    rewrite Ht. cbn [app]. rewrite !clean_app, Hl2, Hl4, Hl5, !andb_true_l.
    destruct (Z.eqb_spec v 0) as [E|E]; [by rewrite Hv | apply andb_false_r].
  - intros d' l' (d5 & l5 & -> & -> & Hl5). adds_here. rewrite !clean_app, Hl5, !andb_false_r. done.
Qed.
